(* ===== verification/_CoqProject ===== *)
-Q . S2P
Prelude.v
Streams.v
Words.v
Shifters.v
ToeTypes.v
Checksum.v
Headers.v
StateTable.v
SarTables.v
PortTable.v
Timers.v
Events.v
SessionLookup.v
SessionTracking.v
HashTable.v
AppInterfaces.v
RxEngine.v
RxReceive.v
RxPipeline.v
Datapath.v
RxDatapath.v
RxFrontend.v
RxPath.v
TxEngine.v
TxDatapath.v
TxBackend.v
TxPath.v
TxTyping.v
EthDatapath.v
MacEncode.v
IpHandler.v
IpPath.v
WirePath.v
ArpServer.v
MultiQueue.v
QueueRefinement.v
Retransmitter.v
RetransRefinement.v
IcmpServer.v
IcmpEcho.v
Udp.v
UdpPath.v
UdpWire.v
