(* ===== verification/Prelude.v ===== *)
(** * A verification of the TCP offload engine of the fRAC network stack

    ** The program

    The network stack under [src/lib/fpga-network-stack] is written in C++ for
    high-level synthesis.  Its core is the TCP offload engine ("TOE", [hls/toe]): some
    forty processes, each a function that is called again and again, keeps its state in
    [static] variables and talks to the others through FIFO streams.  This development
    models them in the configuration that the build selects ([toe_config.hpp.in],
    [MSS] = 4096, [TCP_NODELAY], [RX_DDR_BYPASS], [FAST_RETRANSMIT] and [WINDOW_SCALE]
    on, words of 64 bytes) and proves what makes them correct.

    A received IP packet passes through the stages that remove the IP header, check the
    TCP checksum and separate metadata from payload; the metadata are matched with open
    ports and session numbers; the state machine updates connection state, windows and
    timers, decides about the payload and raises events; the payload goes to the buffer
    memory or straight to the application, which is notified.  The events of the state
    machine, of the timers and of the application meet in the event engine, are delayed
    or merged there, and the transmit engine turns each into segments: it reads the
    windows and the payload, builds headers and checksum and sends IP packets.

    Between the engine and the wire stand [mac_ip_encode], which completes the IP header,
    asks the ARP table for the MAC address of the next hop and puts the Ethernet header
    in front, the padding of short frames, [ip_handler], which takes received frames
    apart and sorts them by protocol, and the ARP server.  Beside the engine stand UDP
    over IPv4, the ICMP server, and the queues of the RDMA transport.

    ** How it is modelled

    One process is one function [env -> env * list write]: [env] is a record of its
    static variables and of the streams it reads (a stream is the list of the elements
    that are waiting), a [write] names an output stream and an element.  A call does
    what one call of the C++ function does: guards ([empty()]) and early returns, the
    order of assignments, uninitialised variables included.  A machine integer is a
    [Z], truncated ([wrap]) wherever the code assigns it to an [ap_uint]; a static array
    is a finite map with a default ([table]).  Interleaving is explicit: a run
    ([run_of], [steps], an inductive step relation) mixes arrivals and calls in any
    order.  FIFOs are unbounded; depths are stated by theorems where they matter.

    Values the code leaves undefined are parameters of the theorems: [garbage] (a word
    that was never assigned), [header0] (the header register of a static header object
    before its first packet), [winScale0], [junk] (bits never assigned), [junk_txSar].
    No theorem depends on their values.

    ** Files, components and theorems

    - [Prelude]: record update, machine integers, static arrays, calls and schedules,
      countdown timers; the tactics and hints.
    - [Streams]: the interface [KahnProcess] of a deterministic stream process and
      [kahn_determinism]: its output does not depend on when its inputs arrive.  The data
      path is verified against this interface; every stage is an instance.
    - [ToeTypes]: [toe_config.hpp.in], [toe_internals.hpp], [toe.hpp].
    - [StateTable] ([state_table.cpp]): the lock protocol; a read-modify-write of one
      client is never interrupted by the other ([state_table_rmw_atomic]).  [LockClient]
      is what the table expects of a client: a read is followed by one write.  The RX
      engine discharges it ([rx_fsm_releases_lock] in RxEngine.v), as does the
      application interface ([close_releases_lock] in AppInterfaces.v).
    - [SarTables] ([rx_sar_table.cpp], [tx_sar_table.cpp]): the windows;
      [rx_window_sound]: what is advertised never exceeds the free space.
    - [PortTable] ([port_table.cpp]): listening and ephemeral ports.
    - [Timers] ([retransmit_timer.cpp], [probe_timer.cpp], [close_timer.cpp],
      [timerWrapper]): when timers fire, how retries are counted, that FIFOs do not
      overflow.
    - [Events] ([event_engine.cpp], [ack_delay.cpp]): counters that tell when the event
      path is empty; acknowledgements are neither lost nor delayed beyond their time.
    - [SessionLookup] ([session_lookup_controller.cpp]): session numbers are conserved,
      requests are answered, the reverse table is the inverse.  The table of tuples
      behind it is the class [SessionTable].
    - [SessionTracking]: the same controller with the table and its clients: the two
      tables are inverse to each other as long as insertions succeed.
    - [HashTable] ([hash_table.cpp]): the cuckoo hash table; it implements a finite map
      as long as insertions succeed, and is an instance of [SessionTable].
    - [AppInterfaces] ([rx_app_if.cpp], [rx_app_stream_if.cpp], [tx_app_if.cpp],
      [tx_app_stream_if.cpp], [tx_app_interface.cpp]): when a write is accepted, what a
      read and a close do.
    - [RxEngine] ([rxTcpFSM]): state changes, acknowledgement test, congestion window,
      fast retransmission, tokens for the payload.
    - [RxReceive]: the same state machine with the window table, the buffer memory and
      the application: reassembly.  [rx_reassembly_sound] (what is announced is in the
      buffer) and [rx_segment_refines_set] (the abstract set of received positions).
    - [RxPipeline] (option parser, [merge_header_meta], [rxMetadataHandler],
      [rxPackageDropper], [rxAppNotificationDelayer], event merger of [rx_engine.cpp]).
    - [Words], [Shifters] ([axi_utils.hpp], [axi_utils.cpp]): [packet ws bs] relates
      words on the wire to byte strings; the shifters are inverse to each other.
    - [Datapath] ([rxEngMemWrite], [tasi_pkg_pusher], [read_data_stitching]): splitting
      at the end of a buffer region and joining.
    - [Checksum] ([two_complement_subchecksums.hpp], [ipv4.hpp]): equivalence with
      RFC 1071, written as a function of the byte string.
    - [Headers] ([packet.hpp], the header classes): fields and byte order.
    - [RxDatapath], [RxFrontend], [RxPath]: the stages from IP packet to metadata and
      payload, the lemma of each stage on one packet, and the stages connected
      ([linked]): [rx_front_end].
    - [TxEngine] ([metaLoader], [txEngMemAccessBreakdown], [tupleSplitter]): which
      segments an event causes; retransmission terminates and covers the window.
    - [TxDatapath], [TxBackend], [TxPath]: the stages from metadata and payload to IP
      packet, their lemmas, the connected stages ([tx_linked]): [tx_back_end], and the
      round trip with the receive path, [tx_rx_loopback].
    - [TxTyping]: the widths of the C++ types as a class [Typed]; [metaLoader] preserves
      them and writes metadata that the transmit path accepts.
    - [EthDatapath], [MacEncode] ([mac_ip_encode.cpp], [ethernet.hpp],
      [ethernet_frame_padding_512.cpp]): the stages from IP packet to frame and their
      connection ([mac_linked]): [mac_ip_encode_frames].
    - [IpHandler], [IpPath] ([ip_handler.cpp]): the stages from frame to the packets of
      each protocol and their connection ([ip_linked]): [ip_handler_routes].
    - [WirePath]: everything connected, [wire_loopback]: the messages that one stack sends
      are those that the other receives, as far as addresses and ARP allow.
    - [ArpServer] ([arp_server_subnet.cpp]): requests, replies and the table.
    - [IcmpServer], [IcmpEcho] ([icmp_server.cpp]): the echo server: [icmp_server_replies],
      and a request that disturbs it for good, [icmp_short_request_desyncs].
    - [Udp], [UdpPath] ([udp.hpp], [udp.cpp], [ipv4.cpp]): UDP over IPv4, sent and
      received: [udp_loopback]; and why no answer arrives, [udp_answers_misaddressed].
    - [UdpWire]: the same with framing, padding and IP handler between the two sides:
      [udp_wire_loopback].
    - [MultiQueue], [QueueRefinement] ([multi_queue.hpp]): queues in a shared memory of
      linked entries; four processes that exchange messages implement one queue per key
      ([multi_queue_refines]) and come to rest ([multi_queue_serves]).
    - [Retransmitter], [RetransRefinement] ([retransmitter.cpp]): the requests that the
      RDMA transport has to send again, in the same kind of memory:
      [retransmitter_refines] for requests in order, and what goes wrong for others.

    Definitions carry the names of the C++ functions; each file says which source files
    it models.  The theorems at the end of the list of properties state defects that the
    model shows, on the values on which the code goes wrong.

    ** Bounds and hypotheses

    [config_ok] bounds the configuration ([MAX_SESSIONS] fits the 14 bits of the
    counters, [MSS] the segment length); the witnesses use a small configuration, and
    the build's own satisfies it too.  The stages of the two connected paths are proved
    for words of 512 bits ([lanes] = 64), the word level and the buffers for every
    supported width.  There is no fuel for a loop: a process is called as often as the
    schedule says, and theorems on results say after how many calls they are there, or
    speak of [drained], what is written when everything that has arrived is worked off
    ([drain_step] and [drain_stuck] compute it; it exists for the stages in question).
    The position arguments of [RxReceive] hold while the sequence numbers of a
    connection have not wrapped around, and the theorems say so.

    ** Not modelled

    The wiring of the TOE top level ([toe.cpp]) beyond the connections above, test
    benches, and code that the stack does not instantiate (unused mergers and splitters
    of [axi_utils.hpp], [tcpHeader], [rxTcpInvalidDropper], [generate_ethernet], the
    older ARP server).  The memory behind the payload commands and the reliable FIFO
    between two processes are part of the hardware; they are inputs of the model.
    Outside: the RoCE transport but for its queues and its retransmitter, the older UDP
    core, DHCP, IPv6, the Verilog kernels and the reconfiguration controller, the Go
    programs on the host. *)

From Stdlib Require Export ZArith Lia Bool ZifyBool.
From stdpp Require Export base list numbers gmap option.

#[export] Set Default Goal Selector "!".
Open Scope Z_scope.

(** ** Record update

    [r <| f := v |>] is the C++ assignment [r.f = v].  A record opts in with an
    instance of [Eta], its constructor applied to its own projections; the
    setter of a field is computed from it when the notation is elaborated, so
    the update of a record reduces to the record itself. *)

Class Eta (R : Type) := eta_expand : R -> R.

Class Setter {R E : Type} (f : R -> E) := update_field : (E -> E) -> R -> R.

Ltac derive_setter R f :=
  let g := fresh "g" in
  let r := fresh "r" in
  intros g r;
  let i := constr:(_ : Eta R) in
  let t := constr:(@eta_expand R i r) in
  let t := eval cbv beta delta [eta_expand] in t in
  let rec head c := lazymatch c with ?d _ => head d | ?d => d end in
  let h := head i in
  let t := eval cbv beta delta [h eta_expand] in t in
  let t := (eval pattern (f r) in t) in
  match t with
  | ?k _ => let u := (eval cbv beta in (k (g (f r)))) in exact u
  end.

#[export] Hint Extern 1 (@Setter ?R ?E ?f) =>
  (unfold Setter; derive_setter R f) : typeclass_instances.

Create HintDb toe.
Create Rewrite HintDb toe.

Declare Scope toe_scope.
Delimit Scope toe_scope with toe.
Open Scope toe_scope.

#[warnings="-postfix-notation-not-level-1"]
Notation "r <| f := v |>" := (update_field (f := f) (fun _ => v) r)
  (at level 12, f at next level, v at level 200, left associativity,
   format "r  <| f  :=  v |>") : toe_scope.

Arguments update_field {R E} f {Setter} _ _ /.

(** ** Unsigned machine integers

    An [ap_uint<n>] is a [Z]; [wrap n] is the truncation done by an assignment
    to it.  [x(hi, lo)] is the bit range read [bits hi lo x], and
    [set_bits hi lo v x] is [x] after the assignment [x(hi, lo) = v]. *)

Definition wrap (n z : Z) : Z := z `mod` 2 ^ n.

Definition bits (hi lo x : Z) : Z := (x / 2 ^ lo) `mod` 2 ^ (hi - lo + 1).

Definition set_bits (hi lo v x : Z) : Z :=
  x - bits hi lo x * 2 ^ lo + wrap (hi - lo + 1) v * 2 ^ lo.

Definition bit (i x : Z) : Z := bits i i x.

Definition in_width (n z : Z) : Prop := 0 <= z < 2 ^ n.

#[export] Instance in_width_dec n z : Decision (in_width n z).
Proof. unfold in_width. apply _. Defined.

(** [z != 0] for the one-bit flags and counters tested as conditions. *)
Definition nonzero (z : Z) : bool := negb (z =? 0).

Definition b2z (b : bool) : Z := if b then 1 else 0.

Lemma wrap_range n z : 0 <= n -> in_width n (wrap n z).
Proof. intros. apply Z.mod_pos_bound. lia. Qed.

Lemma wrap_small n z : in_width n z -> wrap n z = z.
Proof. intros. by apply Z.mod_small. Qed.

Lemma wrap_wrap n z : wrap n (wrap n z) = wrap n z.
Proof. unfold wrap. apply Zmod_mod. Qed.

Lemma wrap_add_l n a b : wrap n (wrap n a + b) = wrap n (a + b).
Proof. unfold wrap. apply Zplus_mod_idemp_l. Qed.

Lemma wrap_add_r n a b : wrap n (a + wrap n b) = wrap n (a + b).
Proof. unfold wrap. apply Zplus_mod_idemp_r. Qed.

Lemma wrap_sub_l n a b : wrap n (wrap n a - b) = wrap n (a - b).
Proof. unfold wrap. apply Zminus_mod_idemp_l. Qed.

Lemma wrap_sub_r n a b : wrap n (a - wrap n b) = wrap n (a - b).
Proof. unfold wrap. apply Zminus_mod_idemp_r. Qed.

(** Truncating to [m] bits and then to fewer [n] bits is truncating to [n]. *)
Lemma wrap_narrow n m z : 0 <= n <= m -> wrap n (wrap m z) = wrap n z.
Proof.
  intros H. unfold wrap. apply Z.mod_mod_divide.
  exists (2 ^ (m - n)). rewrite <- Z.pow_add_r by lia. f_equal. lia.
Qed.

Lemma wrap_add_mul n z k : wrap n (z + k * 2 ^ n) = wrap n z.
Proof. unfold wrap. apply Z_mod_plus_full. Qed.

Lemma bits_range hi lo x : lo <= hi + 1 -> in_width (hi - lo + 1) (bits hi lo x).
Proof. intros. apply Z.mod_pos_bound. lia. Qed.

Lemma bits_0 hi x : bits hi 0 x = wrap (hi + 1) x.
Proof. unfold bits, wrap. rewrite Z.pow_0_r, Z.div_1_r. f_equal. f_equal. lia. Qed.

#[export] Hint Resolve wrap_range : toe.

(** *** Reading a range after an assignment to a range *)

(** The number after an assignment: the bits above, the range, the bits below. *)
Lemma set_bits_split hi lo v x :
  0 <= lo -> lo <= hi + 1 ->
  set_bits hi lo v x
  = (x / 2 ^ (hi + 1)) * 2 ^ (hi + 1) + wrap (hi - lo + 1) v * 2 ^ lo + x `mod` 2 ^ lo.
Proof.
  intros H0 Hl. unfold set_bits, bits.
  replace (hi + 1) with (lo + (hi - lo + 1)) by lia. rewrite (Z.pow_add_r 2 lo) by lia.
  rewrite <- Z.div_div by lia.
  pose proof (Z.div_mod x (2 ^ lo) ltac:(lia)) as H1.
  pose proof (Z.div_mod (x / 2 ^ lo) (2 ^ (hi - lo + 1)) ltac:(lia)) as H2.
  rewrite H2 in H1. rewrite H1 at 1. ring.
Qed.

Lemma bits_set_bits hi lo v x :
  0 <= lo -> lo <= hi + 1 -> bits hi lo (set_bits hi lo v x) = wrap (hi - lo + 1) v.
Proof.
  intros H0 Hl. rewrite set_bits_split by done. unfold bits.
  replace (hi + 1) with (lo + (hi - lo + 1)) by lia. rewrite (Z.pow_add_r 2 lo) by lia.
  replace (x / (2 ^ lo * 2 ^ (hi - lo + 1)) * (2 ^ lo * 2 ^ (hi - lo + 1))
    + wrap (hi - lo + 1) v * 2 ^ lo + x `mod` 2 ^ lo)
    with (x `mod` 2 ^ lo + (x / (2 ^ lo * 2 ^ (hi - lo + 1)) * 2 ^ (hi - lo + 1)
      + wrap (hi - lo + 1) v) * 2 ^ lo) by ring.
  rewrite Z.div_add, (Z.div_small (x `mod` 2 ^ lo)) by (try apply Z.mod_pos_bound; lia).
  rewrite Z.add_0_l, Z.add_comm. fold (wrap (hi - lo + 1)
    (wrap (hi - lo + 1) v + x / (2 ^ lo * 2 ^ (hi - lo + 1)) * 2 ^ (hi - lo + 1))).
  rewrite wrap_add_mul. apply wrap_wrap.
Qed.

Lemma bits_set_above hi lo hi' lo' v x :
  0 <= lo -> lo <= hi + 1 -> hi < lo' -> bits hi lo (set_bits hi' lo' v x) = bits hi lo x.
Proof.
  intros H0 Hl Hlt. unfold set_bits.
  replace (x - bits hi' lo' x * 2 ^ lo' + wrap (hi' - lo' + 1) v * 2 ^ lo')
    with (x + ((wrap (hi' - lo' + 1) v - bits hi' lo' x) * 2 ^ (lo' - hi - 1)) * 2 ^ (hi - lo + 1) * 2 ^ lo).
  - unfold bits at 1. rewrite Z.div_add by lia. by rewrite Z_mod_plus_full.
  - assert (2 ^ (lo' - hi - 1) * 2 ^ (hi - lo + 1) * 2 ^ lo = 2 ^ lo') as <-; [|ring].
    rewrite <- !Z.pow_add_r by lia. f_equal. lia.
Qed.

Lemma bits_set_below hi lo hi' lo' v x :
  0 <= lo' -> lo' <= hi' + 1 -> hi' < lo -> bits hi lo (set_bits hi' lo' v x) = bits hi lo x.
Proof.
  intros H0 Hl Hlt. rewrite set_bits_split by done. unfold bits. f_equal.
  replace lo with ((hi' + 1) + (lo - hi' - 1)) by lia.
  rewrite (Z.pow_add_r 2 (hi' + 1)), <- !Z.div_div by lia. f_equal.
  rewrite <- Z.add_assoc, Z.add_comm, Z.div_add by lia.
  rewrite Z.div_small; [lia|].
  pose proof (wrap_range (hi' - lo' + 1) v ltac:(lia)) as Hw. unfold in_width in Hw.
  pose proof (Z.mod_pos_bound x (2 ^ lo') ltac:(lia)).
  replace (hi' + 1) with ((hi' - lo' + 1) + lo') by lia. rewrite (Z.pow_add_r 2 (hi' - lo' + 1)) by lia. nia.
Qed.

(** Evaluates a read through assignments to literal ranges. *)
Ltac read_range :=
  repeat first
    [ rewrite bits_set_bits by lia
    | rewrite bits_set_above by lia
    | rewrite bits_set_below by lia ].

(** [pow2] evaluates the powers of two with a literal exponent, and [wrap_lia]
    is [lia] on goals about wrap-around arithmetic of literal widths. *)
Ltac pow2 :=
  repeat match goal with
  | |- context [2 ^ Zpos ?p] =>
      let v := eval vm_compute in (2 ^ Zpos p) in change (2 ^ Zpos p) with v
  | H : context [2 ^ Zpos ?p] |- _ =>
      let v := eval vm_compute in (2 ^ Zpos p) in change (2 ^ Zpos p) with v in H
  end.

Ltac wrap_lia := unfold in_width, wrap in *; pow2; Z.div_mod_to_equations; lia.

(** ** Streams

    An [hls::stream<T>] is the list of the elements written to it and not yet
    read, oldest first: [empty()] and the following [read()] are the match on
    its head, [write()] appends.  A process returns the writes of one call as a
    list, in program order. *)

Abbreviation stream := list.

(** The writes of a guarded block. *)
Definition when {A} (b : bool) (l : list A) : list A := if b then l else [].

Lemma when_true {A} (l : list A) : when true l = l.
Proof. reflexivity. Qed.

Lemma elem_of_when {A} (x : A) b l : x ∈ when b l <-> b = true /\ x ∈ l.
Proof. destruct b; simpl; [tauto|]. rewrite elem_of_nil. intuition discriminate. Qed.

(** [s.full()] for a FIFO of the given [depth]. *)
Definition full {A} (depth : nat) (s : stream A) : bool := (depth <=? length s)%nat.

(** Selecting the writes to one of several streams. *)
Lemma omap_map_Some {A B} (f : B -> option A) (g : A -> B) l :
  (forall x, f (g x) = Some x) -> omap f (map g l) = l.
Proof.
  intros H. induction l as [|x l IH]; [done|]. cbn -[omap].
  change (omap f (g x :: map g l)) with
    (match f (g x) with Some y => y :: omap f (map g l) | None => omap f (map g l) end).
  by rewrite H, IH.
Qed.

Lemma omap_map_None {A B D} (f : B -> option D) (g : A -> B) l :
  (forall x, f (g x) = None) -> omap f (map g l) = [].
Proof.
  intros H. induction l as [|x l IH]; [done|]. cbn -[omap].
  change (omap f (g x :: map g l)) with
    (match f (g x) with Some y => y :: omap f (map g l) | None => omap f (map g l) end).
  by rewrite H.
Qed.

(** Membership of a session number in a list of writes, as a boolean. *)
Definition among (i : Z) (ids : list Z) : bool := bool_decide (i ∈ ids).

Lemma among_app i l1 l2 : among i (l1 ++ l2) = among i l1 || among i l2.
Proof.
  unfold among. destruct (decide (i ∈ l1)) as [H1|H1].
  - rewrite (bool_decide_true (i ∈ l1)) by done. apply bool_decide_true. set_solver.
  - rewrite (bool_decide_false (i ∈ l1)) by done. simpl. apply bool_decide_ext.
    rewrite elem_of_app. tauto.
Qed.

Lemma among_single i j : among i [j] = (i =? j).
Proof.
  unfold among. rewrite (bool_decide_ext _ (i = j)) by (by rewrite list_elem_of_singleton).
  case_bool_decide; lia.
Qed.

Lemma among_single_eq i : among i [i] = true.
Proof. rewrite among_single. lia. Qed.

(** What is true of all elements is true of those that are selected. *)
Lemma Forall_filter {A} (P : A -> Prop) p l : Forall P l -> Forall P (List.filter p l).
Proof. induction 1 as [|x l Hx _ IH]; [done|]. cbn. destruct (p x); [by constructor|done]. Qed.

(** How often a number occurs in a list. *)
Fixpoint occurrences (id : Z) (l : list Z) : nat :=
  match l with [] => 0 | x :: l => (if x =? id then 1 else 0) + occurrences id l end.

Lemma occurrences_app id l1 l2 :
  occurrences id (l1 ++ l2) = (occurrences id l1 + occurrences id l2)%nat.
Proof. induction l1 as [|x l1 IH]; [done|]. simpl. rewrite IH. lia. Qed.

Lemma occurrences_pos id l : id ∈ l <-> (0 < occurrences id l)%nat.
Proof.
  induction l as [|x l IH]; simpl; [rewrite elem_of_nil; lia|].
  rewrite elem_of_cons, IH. destruct (Z.eqb_spec x id) as [->|Hne]; cbn; [split; [lia|by left]|].
  split; [intros [->|Hl]; [done|lia]|right; lia].
Qed.

Lemma occurrences_nodup l : (forall id, occurrences id l <= 1)%nat -> NoDup l.
Proof.
  induction l as [|x l IH]; intros Ho; [constructor|]. constructor.
  - intros Hx%occurrences_pos. specialize (Ho x). simpl in Ho. rewrite Z.eqb_refl in Ho. lia.
  - apply IH. intros id. specialize (Ho id). simpl in Ho. lia.
Qed.

Lemma occurrences_seqZ id a n : occurrences id (seqZ a n) = if (a <=? id) && (id <? a + n) then 1%nat else 0%nat.
Proof.
  revert a. destruct (Z.le_gt_cases n 0) as [Hn|Hn].
  - intros a. rewrite seqZ_nil by lia. cbn. case_match; lia.
  - rewrite <- (Z2Nat.id n) by lia. induction (Z.to_nat n) as [|m IH]; intros a.
    + rewrite seqZ_nil by lia. cbn. case_match; lia.
    + rewrite seqZ_cons by lia. replace (Z.pred (Z.of_nat (S m))) with (Z.of_nat m) by lia.
      cbn [occurrences]. rewrite IH. unfold Z.succ. repeat case_match; lia.
Qed.

(** ** Static arrays

    A [static T a[N]] is zero-initialised: an entry never written reads as the
    zero of its type. *)

Abbreviation table T := (gmap Z T).

Class ZeroInit (T : Type) := zero_init : T.
#[export] Instance zero_init_Z : ZeroInit Z := 0.
#[export] Instance zero_init_bool : ZeroInit bool := false.

Definition tget {T} `{ZeroInit T} (t : table T) (i : Z) : T := default zero_init (t !! i).
Definition tset {T} (i : Z) (v : T) (t : table T) : table T := <[i := v]> t.

#[warnings="-postfix-notation-not-level-1"]
Notation "t .[ i ]" := (tget t i) (at level 2, left associativity, format "t .[ i ]") : toe_scope.

Section Table.
Context {T : Type} `{ZeroInit T}.
Implicit Types (t : table T) (i j : Z) (v : T).

Lemma tget_empty i : (∅ : table T).[i] = zero_init.
Proof. unfold tget. by rewrite lookup_empty. Qed.

Lemma tget_tset_eq t i v : (tset i v t).[i] = v.
Proof. unfold tget, tset. by rewrite lookup_insert_eq. Qed.

Lemma tget_tset_ne t i j v : i <> j -> (tset i v t).[j] = t.[j].
Proof. intros Hij. unfold tget, tset. by rewrite lookup_insert_ne. Qed.

Lemma tget_tset t i j v : (tset i v t).[j] = if decide (i = j) then v else t.[j].
Proof. case_decide; subst; [apply tget_tset_eq | by apply tget_tset_ne]. Qed.
End Table.

#[export] Hint Rewrite @tget_empty @tget_tset_eq : toe.
#[export] Hint Rewrite @tget_tset_ne using congruence : toe.

(** ** Processes

    A process of the design is a function called once per clock cycle.  It is
    modelled by [call], from its environment (its static variables and the
    streams it reads) to the next environment and the writes of the call; other
    processes only append to its input streams, by [arrive]. *)
Section Process.
Context {E W A : Type} (call : E -> E * list W) (arrive : A -> E -> E).

Inductive step : E -> list W -> E -> Prop :=
| step_call e : step e (call e).2 (call e).1
| step_arrive a e : step e [] (arrive a e).

(** [steps e w e']: from [e] some interleaving of calls and arrivals reaches
    [e'], having written [w]. *)
Inductive steps : E -> list W -> E -> Prop :=
| steps_refl e : steps e [] e
| steps_snoc e w e1 w1 e2 : steps e w e1 -> step e1 w1 e2 -> steps e (w ++ w1) e2.

Lemma steps_invariant (I : E -> Prop) :
  (forall e, I e -> I (call e).1) ->
  (forall a e, I e -> I (arrive a e)) ->
  forall e w e', steps e w e' -> I e -> I e'.
Proof. intros Hc Ha. induction 1 as [|e w e1 w1 e2 _ IH Hs]; [done|]. destruct Hs; auto. Qed.

(** The same with the writes so far as a ghost argument of the invariant. *)
Lemma steps_trace_invariant (I : list W -> E -> Prop) :
  (forall w e, I w e -> I (w ++ (call e).2) (call e).1) ->
  (forall w a e, I w e -> I w (arrive a e)) ->
  forall e w e', steps e w e' -> I [] e -> I w e'.
Proof.
  intros Hc Ha. induction 1 as [|e w e1 w1 e2 _ IH Hs]; [done|].
  intros HI. destruct Hs; [by apply Hc, IH|]. rewrite app_nil_r. by apply Ha, IH.
Qed.

(** [n] calls with nothing arriving in between. *)
Fixpoint calls (n : nat) (e : E) : E * list W :=
  match n with
  | O => (e, [])
  | S n => let '(e1, w1) := call e in
           let '(e2, w2) := calls n e1 in (e2, w1 ++ w2)
  end.

Lemma calls_S n e :
  calls (S n) e = ((calls n (call e).1).1, (call e).2 ++ (calls n (call e).1).2).
Proof. simpl. destruct (call e) as [e1 w1]. simpl. by destruct (calls n e1). Qed.

Lemma calls_add n m e :
  calls (n + m) e =
    ((calls m (calls n e).1).1, (calls n e).2 ++ (calls m (calls n e).1).2).
Proof.
  revert e. induction n as [|n IH]; intros e; [simpl; by destruct (calls m e)|].
  change (S n + m)%nat with (S (n + m)%nat).
  rewrite !calls_S, IH. simpl. by rewrite app_assoc.
Qed.

Lemma calls_steps_from n e0 w0 e :
  steps e0 w0 e -> steps e0 (w0 ++ (calls n e).2) (calls n e).1.
Proof.
  revert w0 e. induction n as [|n IH]; intros w0 e Hs.
  - simpl. by rewrite app_nil_r.
  - rewrite calls_S. simpl. rewrite app_assoc. apply IH.
    econstructor; [done|constructor].
Qed.

Lemma calls_steps n e : steps e (calls n e).2 (calls n e).1.
Proof. apply (calls_steps_from n e [] e). constructor. Qed.

(** A schedule: [Some a] is an arrival, [None] a call. *)
Fixpoint exec (s : list (option A)) (e : E) : E * list W :=
  match s with
  | [] => (e, [])
  | Some a :: s => exec s (arrive a e)
  | None :: s => let '(e1, w1) := call e in
                 let '(e2, w2) := exec s e1 in (e2, w1 ++ w2)
  end.

Lemma exec_steps_from s e0 w0 e :
  steps e0 w0 e -> steps e0 (w0 ++ (exec s e).2) (exec s e).1.
Proof.
  revert w0 e. induction s as [|[a|] s IH]; intros w0 e Hs; simpl.
  - by rewrite app_nil_r.
  - apply IH. rewrite <- (app_nil_r w0). econstructor; [done|constructor].
  - pose proof (step_call e) as Hc. destruct (call e) as [e1 w1]. simpl in Hc.
    specialize (IH (w0 ++ w1) e1). destruct (exec s e1) as [e2 w2]. simpl in *.
    rewrite app_assoc. apply IH. by econstructor.
Qed.

Lemma exec_steps s e : steps e (exec s e).2 (exec s e).1.
Proof. apply (exec_steps_from s e [] e). constructor. Qed.
End Process.

(** Arrivals restricted to those satisfying [P]. *)
Definition arrive_if {E A} (P : A -> Prop) (arrive : A -> E -> E) (a : sig P) : E -> E :=
  arrive (proj1_sig a).

(** ** Sweeps

    The timers walk over their table, one entry per idle call.  [armed i e] is the
    remaining time of entry [i], if its timer runs; the visit of an entry with no
    time left fires, which [fired i] recognises among the writes. *)
Section Sweep.
Context {E W : Type} (call : E -> E * list W) (N : Z).
Context (idle : E -> Prop) (pos : E -> Z).
Context (armed : Z -> E -> option Z) (fired : Z -> list W -> bool).
Hypothesis N_pos : 0 < N.
Hypothesis fired_app : forall i w1 w2, fired i (w1 ++ w2) = fired i w1 || fired i w2.
Hypothesis fired_nil : forall i, fired i [] = false.
Hypothesis idle_call : forall e, idle e -> idle (call e).1.
Hypothesis pos_range : forall e, idle e -> 0 <= pos e < N.
Hypothesis pos_call : forall e, idle e -> pos (call e).1 = (pos e + 1) `mod` N.
Hypothesis armed_pass : forall e i, idle e -> pos e <> i ->
  armed i (call e).1 = armed i e /\ fired i (call e).2 = false.
Hypothesis armed_visit : forall e t, idle e -> armed (pos e) e = Some t -> 0 < t ->
  armed (pos e) (call e).1 = Some (t - 1) /\ fired (pos e) (call e).2 = false.
Hypothesis armed_fire : forall e, idle e -> armed (pos e) e = Some 0 ->
  fired (pos e) (call e).2 = true.

Lemma idle_calls n e : idle e -> idle (calls call n e).1.
Proof.
  revert e. induction n as [|n IH]; intros e He; [done|]. rewrite calls_S. by apply IH, idle_call.
Qed.

Lemma pos_calls n e : idle e -> pos (calls call n e).1 = (pos e + Z.of_nat n) `mod` N.
Proof.
  revert e. induction n as [|n IH]; intros e He.
  - simpl. rewrite Z.add_0_r, Z.mod_small; [done|]. by apply pos_range.
  - rewrite calls_S. simpl. rewrite IH, pos_call by auto.
    rewrite Zplus_mod_idemp_l. f_equal. lia.
Qed.

(** How many calls pass before the one that visits [i]. *)
Definition until (i : Z) (e : E) : Z := (i - pos e) `mod` N.

(** The timer of an entry fires at exactly one moment: after the calls to reach the
    entry and [t] rounds over the table. *)
Lemma sweep_fires n e i t :
  idle e -> 0 <= i < N -> armed i e = Some t -> 0 <= t ->
  fired i (calls call n e).2 = (until i e + t * N <? Z.of_nat n).
Proof.
  revert e t. induction n as [|n IH]; intros e t He Hi Ha Ht.
  - unfold until. pose proof (Z.mod_pos_bound (i - pos e) N). rewrite fired_nil. nia.
  - rewrite calls_S. simpl. rewrite fired_app.
    pose proof (pos_range e He) as Hp. pose proof (pos_call e He) as Hn.
    assert (until i (call e).1 = (i - pos e - 1) `mod` N) as Hu.
    { unfold until. rewrite Hn, Zminus_mod_idemp_r. f_equal. lia. }
    assert (until i e = if decide (pos e = i) then 0 else until i (call e).1 + 1) as Hu'.
    { rewrite Hu. unfold until. case_decide; [subst; by rewrite Z.sub_diag|].
      destruct (decide (pos e < i)).
      - rewrite !Z.mod_small; lia.
      - rewrite <- (Z_mod_plus_full _ 1), <- (Z_mod_plus_full (_ - 1) 1).
        rewrite !Z.mod_small; lia. }
    destruct (decide (pos e = i)) as [<-|Hne].
    + replace (pos e - pos e - 1) with (-1) in Hu by lia.
      rewrite <- (Z_mod_plus_full _ 1), Z.mod_small in Hu by lia.
      destruct (decide (t = 0)) as [->|Hnz].
      * rewrite armed_fire by done. lia.
      * destruct (armed_visit e t) as [Ha' ->]; [done|done|lia|].
        rewrite (IH _ (t - 1)) by (auto; lia). lia.
    + destruct (armed_pass e i He Hne) as [Ha' ->]. rewrite Ha in Ha'.
      rewrite (IH _ t) by auto. lia.
Qed.
End Sweep.

(** Case analysis on the matches and conditionals of a call, innermost first,
    turning boolean tests into their propositions. *)
Ltac case_match_in_goal :=
  match goal with
  | |- context [match ?x with _ => _ end] =>
      lazymatch x with
      | context [match _ with _ => _ end] => fail
      | _ => destruct x eqn:?
      end
  end.

Ltac bool_prop :=
  repeat match goal with
  | H : (_ && _)%bool = true |- _ => apply andb_true_iff in H as [? ?]
  | H : (_ || _)%bool = false |- _ => apply orb_false_iff in H as [? ?]
  | H : negb _ = true |- _ => apply negb_true_iff in H
  | H : negb _ = false |- _ => apply negb_false_iff in H
  | H : (_ =? _) = true |- _ => apply Z.eqb_eq in H
  | H : (_ =? _) = false |- _ => apply Z.eqb_neq in H
  | H : (_ <? _) = true |- _ => apply Z.ltb_lt in H
  | H : (_ <? _) = false |- _ => apply Z.ltb_ge in H
  | H : (_ <=? _) = true |- _ => apply Z.leb_le in H
  | H : (_ <=? _) = false |- _ => apply Z.leb_gt in H
  | H : bool_decide _ = true |- _ => apply bool_decide_eq_true in H
  | H : bool_decide _ = false |- _ => apply bool_decide_eq_false in H
  end.

Ltac call_cases := repeat (case_match_in_goal; simpl in *; simplify_eq); bool_prop.
