(* ===== verification/Streams.v ===== *)
(** * Deterministic stream processes

    Most processes of the data path wait for particular inputs: a call either has
    to wait, and then changes nothing, or works on the heads of its streams, and
    then it does not matter what arrives behind them.  [KahnProcess] states this of
    a process; the results of such a process do not depend on when its inputs
    arrive ([kahn_determinism]), so its theorems are about [drained], what it writes
    when everything has arrived. *)

From S2P Require Import Prelude.

Section Kahn.
Context {E W A : Type}.

Class KahnProcess (call : E -> E * list W) (arrive : A -> E -> E) := {
  (** A bound on the calls that still do something. *)
  kahn_work : E -> nat;
  kahn_progress : forall e, call e = (e, []) \/ (kahn_work (call e).1 < kahn_work e)%nat;
  kahn_diamond : forall a e,
    call e = (e, []) \/ call (arrive a e) = (arrive a (call e).1, (call e).2)
}.

(** The arrivals of a schedule, and what they make of an environment. *)
Definition arrivals (s : list (option A)) : list A := omap id s.

Definition arrive_all (arrive : A -> E -> E) (l : list A) (e : E) : E :=
  foldl (fun e a => arrive a e) e l.

Context (call : E -> E * list W) (arrive : A -> E -> E) `{!KahnProcess call arrive}.

Lemma stuck_calls n e : call e = (e, []) -> calls call n e = (e, []).
Proof. intros He. induction n as [|n IH]; [done|]. by rewrite calls_S, He; simpl; rewrite IH. Qed.

(** The environment in which nothing is left to do, and the writes on the way. *)
Definition drain (e : E) : E * list W := calls call (kahn_work e) e.
Definition drained (e : E) : list W := (drain e).2.

(** Enough calls give the drained result, and more calls do not change it. *)
Lemma calls_drain n e : (kahn_work e <= n)%nat -> calls call n e = drain e.
Proof.
  unfold drain. remember (kahn_work e) as m eqn:Hm. revert n e Hm.
  induction m as [m IH] using lt_wf_ind. intros n e Hm Hn.
  destruct (kahn_progress e) as [Hs|Hp]; [by rewrite !stuck_calls|].
  destruct n as [|n]; [lia|]. destruct m as [|m]; [lia|].
  rewrite !calls_S.
  rewrite (IH (kahn_work (call e).1) ltac:(lia) n _ eq_refl) by lia.
  by rewrite (IH (kahn_work (call e).1) ltac:(lia) m _ eq_refl) by lia.
Qed.

Lemma drain_unfold e : drain e = ((drain (call e).1).1, (call e).2 ++ (drain (call e).1).2).
Proof.
  rewrite <- (calls_drain (S (kahn_work e + kahn_work (call e).1)) e) by lia.
  rewrite calls_S, calls_drain by lia. done.
Qed.

Lemma drained_unfold e : drained e = (call e).2 ++ drained (call e).1.
Proof. unfold drained. by rewrite drain_unfold. Qed.

Lemma drained_stuck e : call e = (e, []) -> drained e = [].
Proof. intros He. unfold drained, drain. by rewrite stuck_calls. Qed.

Lemma drained_call e e1 w : call e = (e1, w) -> drained e = w ++ drained e1.
Proof. intros He. by rewrite drained_unfold, He. Qed.

Lemma drain_call e e1 w : call e = (e1, w) -> (drain e).1 = (drain e1).1.
Proof. intros He. by rewrite drain_unfold, He. Qed.

Lemma drain_step e e1 w : call e = (e1, w) -> drain e = ((drain e1).1, w ++ drained e1).
Proof. intros He. rewrite drain_unfold, He. done. Qed.

Lemma drain_stuck e : call e = (e, []) -> (drain e).1 = e.
Proof. intros He. unfold drain. by rewrite stuck_calls. Qed.

Lemma drain_arrive_all l e :
  drain (arrive_all arrive l e) =
    ((drain (arrive_all arrive l (call e).1)).1,
     (call e).2 ++ (drain (arrive_all arrive l (call e).1)).2).
Proof.
  revert e. induction l as [|a l IH]; intros e; [apply drain_unfold|].
  simpl. destruct (kahn_diamond a e) as [Hs|Hd].
  - rewrite Hs. simpl. by destruct (drain _).
  - rewrite IH, Hd. done.
Qed.

(** Whatever the interleaving of calls and arrivals: what has been written, and what
    the process still writes when left alone, is what it writes when all the
    arrivals come first. *)
Lemma kahn_determinism s e :
  (exec call arrive s e).2 ++ drained (exec call arrive s e).1
  = drained (arrive_all arrive (arrivals s) e).
Proof.
  revert e. induction s as [|[a|] s IH]; intros e; simpl; [done|apply IH|].
  specialize (IH (call e).1). destruct (call e) as [e1 w1] eqn:He. simpl in *.
  destruct (exec call arrive s e1) as [e2 w2]. simpl in *.
  rewrite <- app_assoc, IH. unfold drained at 2. by rewrite drain_arrive_all, He.
Qed.

(** All that the process writes on a schedule and until it waits for input again. *)
Definition output (s : list (option A)) (e : E) : list W :=
  (exec call arrive s e).2 ++ drained (exec call arrive s e).1.

Lemma output_drained s e : output s e = drained (arrive_all arrive (arrivals s) e).
Proof. apply kahn_determinism. Qed.

(** Nothing is written that would not be written. *)
Lemma kahn_prefix s e :
  (exec call arrive s e).2 `prefix_of` drained (arrive_all arrive (arrivals s) e).
Proof. rewrite <- (kahn_determinism s e). by apply prefix_app_r. Qed.
End Kahn.

Arguments drained {E W A} call arrive {_} _ : assert.
Arguments output {E W A} call arrive {_} _ _ : assert.
Arguments drain {E W A} call arrive {_} _ : assert.

(** ** Invariants of a schedule, with the arrivals and the writes so far *)
Lemma exec_invariant {E W A : Type} (call : E -> E * list W) (arrive : A -> E -> E)
    (I : list A -> list W -> E -> Prop) :
  (forall l w e, I l w e -> I l (w ++ (call e).2) (call e).1) ->
  (forall l w a e, I l w e -> I (l ++ [a]) w (arrive a e)) ->
  forall s e, I [] [] e -> I (arrivals s) (exec call arrive s e).2 (exec call arrive s e).1.
Proof.
  intros Hc Ha s e. change (arrivals s) with ([] ++ arrivals s).
  rewrite <- (app_nil_l (exec call arrive s e).2).
  generalize (@nil A) as l, (@nil W) as w. revert e.
  induction s as [|[a|] s IH]; intros e l w HI; simpl.
  - by rewrite !app_nil_r.
  - change (a :: arrivals s) with ([a] ++ arrivals s). rewrite app_assoc. by apply IH, Ha.
  - specialize (Hc l w e HI).
    specialize (IH (call e).1 l (w ++ (call e).2) Hc).
    destruct (call e) as [e1 w1]. simpl in *. destruct (exec call arrive s e1) as [e2 w2].
    simpl in *. rewrite <- app_assoc in IH. exact IH.
Qed.

(** ** What arrivals do to an environment

    A stream gains the elements that arrive on it, everything else stays. *)
Section Arrivals.
Context {E A X : Type} (arrive : A -> E -> E).

Lemma arrive_all_stream (get : E -> list X) (sel : A -> option X) :
  (forall a e, get (arrive a e) = get e ++ option_list (sel a)) ->
  forall l e, get (arrive_all arrive l e) = get e ++ omap sel l.
Proof.
  intros H l. induction l as [|a l IH]; intros e; simpl; [by rewrite app_nil_r|].
  unfold arrive_all in *. simpl. rewrite IH, H, <- app_assoc. f_equal.
  change (omap sel (a :: l)) with (match sel a with Some y => y :: omap sel l | None => omap sel l end).
  by destruct (sel a).
Qed.

Lemma arrive_all_other (get : E -> X) :
  (forall a e, get (arrive a e) = get e) -> forall l e, get (arrive_all arrive l e) = get e.
Proof. intros H l. induction l as [|a l IH]; intros e; [done|]. unfold arrive_all in *. simpl. by rewrite IH. Qed.
End Arrivals.
