(* ===== verification/Words.v ===== *)
(** * Words and packets on the data path ([axi_utils.hpp], [axi_utils.cpp])

    A packet travels as words of [WIDTH/8] byte lanes; [keep] marks the lanes in use
    and [last] the end of the packet.  The code addresses [data] and [keep] by whole
    lanes only, so a word is modelled as the list of its lanes, lane 0 (bits 7..0)
    first: [data(8*b-1, 8*a)] are the lanes from [a] to [b], and [keep(b-1, a)] their
    marks.  [packet ws bs] says that the words [ws] carry the byte string [bs];
    the processes that shift, merge, split and filter packets are specified by it. *)

From S2P Require Import Prelude Streams.

(** [WIDTH/8], the lanes of a word. *)
Class WordWidth := lanes : nat.

Record net_axis := mkWord { data : list Z; keep : list bool; last : bool }.

(** ** Lengths and masks *)

(** The mask of the lowest [length] lanes. *)
Definition lenToKeep (length : Z) : Z :=
  let length := wrap 6 length in
  if (1 <=? length) && (length <=? 63) then 2 ^ length - 1 else 2 ^ 64 - 1.

Definition keepToLen (keepValue : Z) : Z :=
  match list_find (fun n => keepValue = 2 ^ n - 1) (seqZ 1 64) with
  | Some (_, n) => n
  | None => 255
  end.

(** The lanes of a mask assigned to [keep], and the mask of the lanes. *)
Definition to_lanes (n : nat) (mask : Z) : list bool :=
  map (fun i => Z.testbit mask (Z.of_nat i)) (seq 0 n).

Definition mask_of (l : list bool) : Z := foldr (fun b m => b2z b + 2 * m) 0 l.

Definition low_lanes (n k : nat) : list bool := replicate k true ++ replicate (n - k) false.

(** [keep(hi, lo) == 0] on the lanes in the range. *)
Definition no_lane (l : list bool) : bool := forallb negb l.

Lemma to_lanes_length n m : length (to_lanes n m) = n.
Proof. unfold to_lanes. by rewrite length_map, length_seq. Qed.

Lemma to_lanes_mask n k : (k <= n)%nat -> to_lanes n (2 ^ Z.of_nat k - 1) = low_lanes n k.
Proof.
  intros Hk. unfold low_lanes, to_lanes. apply list_eq. intros i.
  destruct (decide (i < n)%nat) as [Hi|Hi].
  - rewrite list_lookup_fmap, lookup_seq_lt by done. simpl.
    replace (2 ^ Z.of_nat k - 1) with (Z.ones (Z.of_nat k)) by (rewrite Z.ones_equiv; lia).
    destruct (decide (i < k)%nat).
    + rewrite Z.ones_spec_low by lia.
      rewrite lookup_app_l by (rewrite length_replicate; lia). by rewrite lookup_replicate_2.
    + rewrite Z.ones_spec_high by lia.
      rewrite lookup_app_r by (rewrite length_replicate; lia). rewrite length_replicate.
      by rewrite lookup_replicate_2 by lia.
  - rewrite !lookup_ge_None_2; [done| |].
    + rewrite length_app, !length_replicate. lia.
    + rewrite length_map, length_seq. lia.
Qed.

Lemma mask_of_low_lanes n k : mask_of (low_lanes n k) = 2 ^ Z.of_nat k - 1.
Proof.
  unfold low_lanes. induction k as [|k IH].
  - simpl. induction (n - 0)%nat as [|m IH]; [done|]. simpl in *. lia.
  - assert (forall m, foldr (fun b m => b2z b + 2 * m) 0 (replicate m false) = 0) as H0.
    { induction m as [|m IHm]; [done|]. simpl. by rewrite IHm. }
    unfold mask_of in *. rewrite foldr_app, H0 in *. simpl. rewrite IH.
    replace (Z.of_nat (S k)) with (Z.succ (Z.of_nat k)) by lia.
    rewrite Z.pow_succ_r by lia. lia.
Qed.

Lemma mask_of_range l : in_width (Z.of_nat (length l)) (mask_of l).
Proof.
  induction l as [|b l IH]; [done|]. unfold in_width, mask_of in *. simpl foldr. simpl length.
  replace (Z.of_nat (S (length l))) with (Z.succ (Z.of_nat (length l))) by lia.
  rewrite Z.pow_succ_r by lia. assert (0 <= b2z b <= 1) by (by destruct b). lia.
Qed.

(** The two tables are inverse to each other on the lengths of a partial word. *)
Lemma keepToLen_lenToKeep n : 1 <= n <= 63 -> keepToLen (lenToKeep n) = n.
Proof.
  intros Hn.
  assert (forallb (fun n => keepToLen (lenToKeep n) =? n) (seqZ 1 63) = true) as H
    by by vm_compute.
  rewrite forallb_forall in H. apply Z.eqb_eq, H, list_elem_of_In, elem_of_seqZ. lia.
Qed.

Lemma keepToLen_ones n : 1 <= n <= 64 -> keepToLen (2 ^ n - 1) = n.
Proof.
  intros Hn.
  assert (forallb (fun n => keepToLen (2 ^ n - 1) =? n) (seqZ 1 64) = true) as H
    by by vm_compute.
  rewrite forallb_forall in H. apply Z.eqb_eq, H, list_elem_of_In, elem_of_seqZ. lia.
Qed.

Lemma lenToKeep_ones n : 1 <= n <= 63 -> lenToKeep n = 2 ^ n - 1.
Proof. intros Hn. unfold lenToKeep. rewrite wrap_small by (unfold in_width; lia).
  rewrite (proj2 (Z.leb_le 1 n)), (proj2 (Z.leb_le n 63)) by lia. done. Qed.

(** ** Packets *)
Section Packets.
Context `{WW : WordWidth}.

(** [packet ws bs]: the words carry the bytes [bs].  All words but the last are
    full, the last has at least one byte in its lowest lanes and anything beyond. *)
Inductive packet : list net_axis -> list Z -> Prop :=
| packet_last bs pad :
    bs <> [] -> (length bs + length pad)%nat = lanes ->
    packet [mkWord (bs ++ pad) (low_lanes lanes (length bs)) true] bs
| packet_more bs ws rest :
    length bs = lanes -> packet ws rest ->
    packet (mkWord bs (low_lanes lanes lanes) false :: ws) (bs ++ rest).

Definition is_packet (ws : list net_axis) : Prop := exists bs, packet ws bs.

(** The part of the definition that the packet processes rely on: exactly the last
    word is marked. *)
Inductive framed : list net_axis -> Prop :=
| framed_last w : last w = true -> framed [w]
| framed_more w ws : last w = false -> framed ws -> framed (w :: ws).

Lemma packet_framed ws bs : packet ws bs -> framed ws.
Proof. induction 1; by constructor. Qed.

Lemma packet_nonempty ws bs : packet ws bs -> bs <> [].
Proof. induction 1; [done|]. destruct bs; [|done]. simpl. done. Qed.

Lemma no_lane_low n k : no_lane (low_lanes n k) = (k =? 0)%nat.
Proof.
  unfold no_lane, low_lanes. rewrite forallb_app. destruct k; [|done]. simpl.
  induction (n - 0)%nat; done.
Qed.

Lemma drop_low_lanes n k o : drop o (low_lanes n k) = low_lanes (n - o) (k - o).
Proof.
  unfold low_lanes. rewrite drop_app, length_replicate, !drop_replicate. do 2 f_equal. lia.
Qed.

Lemma take_low_lanes n k o :
  (o <= n)%nat -> (k <= n)%nat -> take o (low_lanes n k) = low_lanes o (k `min` o).
Proof.
  intros Ho Hk. unfold low_lanes. rewrite take_app, length_replicate, !take_replicate.
  f_equal; f_equal; lia.
Qed.

Lemma low_lanes_app n k m j :
  (k <= n)%nat -> (k = n \/ j = 0)%nat -> low_lanes n k ++ low_lanes m j = low_lanes (n + m) (k + j).
Proof.
  intros Hk [->| ->]; unfold low_lanes.
  - rewrite Nat.sub_diag. simpl. rewrite app_nil_r, app_assoc, <- replicate_add. do 2 f_equal. lia.
  - simpl. rewrite <- app_assoc, <- replicate_add, Nat.add_0_r. do 2 f_equal. lia.
Qed.

(** ** Realignment

    The pattern shared by the shifters: every word written is the upper lanes of the
    previous word, from [k] on, followed by the lower [k] lanes of the current one;
    when the packet ends in the upper lanes, a residue follows. *)
Variable k : nat.

Definition residue (prev : net_axis) : net_axis :=
  mkWord (drop k (data prev) ++ replicate k 0) (drop k (keep prev) ++ replicate k false) true.

Definition joined (prev cur : net_axis) : net_axis :=
  mkWord (drop k (data prev) ++ take k (data cur)) (drop k (keep prev) ++ take k (keep cur))
    (no_lane (drop k (keep cur))).

Fixpoint realign (prev : net_axis) (ws : list net_axis) : list net_axis :=
  match ws with
  | [] => [residue prev]
  | cur :: ws =>
      joined prev cur ::
      (if last cur then if no_lane (drop k (keep cur)) then [] else [residue cur]
       else realign cur ws)
  end.

Hypothesis k_range : (0 < k < lanes)%nat.

Lemma residue_packet bs pad :
  (length bs + length pad)%nat = lanes -> (k < length bs)%nat ->
  packet [residue (mkWord (bs ++ pad) (low_lanes lanes (length bs)) true)] (drop k bs).
Proof.
  intros Hl Hk. unfold residue. simpl. rewrite drop_app_le, <- app_assoc by lia.
  rewrite drop_low_lanes.
  replace (replicate k false) with (low_lanes k 0) by (unfold low_lanes; simpl; f_equal; lia).
  rewrite low_lanes_app by lia.
  replace (lanes - k + k)%nat with lanes by lia.
  replace (length bs - k + 0)%nat with (length (drop k bs)) by (rewrite length_drop; lia).
  constructor.
  - intros H%(f_equal length). rewrite length_drop in H. simpl in H. lia.
  - rewrite length_app, length_drop, length_replicate. lia.
Qed.

(** Realigning a packet drops its first [k] bytes: [bs0] are those of the word before. *)
Lemma realign_packet ws bs bs0 l :
  packet ws bs -> length bs0 = lanes ->
  packet (realign (mkWord bs0 (low_lanes lanes lanes) l) ws) (drop k (bs0 ++ bs)).
Proof.
  intros Hp. revert bs0 l. induction Hp as [bs pad Hne Hl|bs ws rest Hl Hp IH]; intros bs0 l H0.
  - rewrite drop_app_le by lia. simpl. unfold joined. simpl.
    rewrite !drop_low_lanes, no_lane_low, take_low_lanes by lia.
    rewrite low_lanes_app by lia. replace (lanes - k + k)%nat with lanes by lia.
    rewrite take_app. destruct (decide (length bs <= k)%nat) as [Hs|Hs].
    + rewrite (proj2 (Nat.eqb_eq _ _)) by lia.
      rewrite (take_ge bs), Nat.min_l by lia. rewrite app_assoc.
      replace (lanes - k + length bs)%nat with (length (drop k bs0 ++ bs))
        by (rewrite length_app, length_drop; lia).
      constructor; [by destruct (drop k bs0)|].
      rewrite !length_app, length_drop, length_take. lia.
    + rewrite (proj2 (Nat.eqb_neq _ _)) by lia.
      rewrite Nat.min_r by lia. replace (k - length bs)%nat with 0%nat by lia.
      rewrite take_0, app_nil_r.
      replace (drop k bs0 ++ bs) with ((drop k bs0 ++ take k bs) ++ drop k bs)
        by (by rewrite <- app_assoc, take_drop).
      replace (lanes - k + k)%nat with lanes by lia.
      constructor; [|by apply residue_packet; lia].
      rewrite length_app, length_drop, length_take. lia.
  - rewrite drop_app_le by lia. simpl. unfold joined. simpl.
    rewrite !drop_low_lanes, no_lane_low, take_low_lanes by lia.
    rewrite (proj2 (Nat.eqb_neq _ _)) by lia.
    rewrite low_lanes_app by lia. rewrite Nat.min_r by lia.
    replace (lanes - k + k)%nat with lanes by lia.
    rewrite <- (take_drop k (bs ++ rest)), app_assoc, take_app_le by lia.
    constructor; [|by apply IH].
    rewrite length_app, length_drop, length_take. lia.
Qed.

(** A packet of one word, that reaches beyond its first [k] lanes. *)
Lemma realign_single w bs :
  packet [w] bs -> (k < length bs)%nat -> packet (realign w []) (drop k bs).
Proof.
  intros Hp Hk. inversion Hp as [bs' pad Hne Hl|? ? ? ? Hn]; subst; [|inversion Hn].
  by apply residue_packet.
Qed.
End Packets.

(** ** Sequences of packets, processed one by one *)
Inductive packets `{WW : WordWidth} : list net_axis -> list (list Z) -> Prop :=
| packets_nil : packets [] []
| packets_cons ws bs ws' bss :
    packet ws bs -> packets ws' bss -> packets (ws ++ ws') (bs :: bss).

Lemma packets_inv `{WW : WordWidth} ws bs bss :
  packets ws (bs :: bss) -> exists ws1 rest, ws = ws1 ++ rest /\ packet ws1 bs /\ packets rest bss.
Proof. intros H. inversion H; subst. by eexists _, _. Qed.

(** ** The words of a byte string, for concrete packets *)
Fixpoint frame `{WW : WordWidth} (fuel : nat) (bs : list Z) : list net_axis :=
  match fuel with
  | O => []
  | S fuel =>
      if (length bs <=? lanes)%nat
      then [mkWord (bs ++ replicate (lanes - length bs) 0) (low_lanes lanes (length bs)) true]
      else mkWord (take lanes bs) (low_lanes lanes lanes) false :: frame fuel (drop lanes bs)
  end.

Definition words_of `{WW : WordWidth} (bss : list (list Z)) : list net_axis :=
  flat_map (fun bs => frame (length bs) bs) bss.

Lemma frame_packet `{WW : WordWidth} fuel bs :
  (0 < lanes)%nat -> bs <> [] -> (length bs <= fuel)%nat -> packet (frame fuel bs) bs.
Proof.
  intros Hpos. revert bs. induction fuel as [|fuel IH]; intros bs Hne Hl; [destruct bs; [done|simpl in Hl; lia]|].
  cbn [frame]. destruct (Nat.leb_spec (length bs) lanes) as [Hs|Hs].
  - constructor; [done|]. rewrite length_replicate. lia.
  - rewrite <- (take_drop lanes bs) at 3. constructor; [rewrite length_take; lia|].
    apply IH; [|rewrite length_drop; lia].
    intros H%(f_equal length). rewrite length_drop in H. simpl in H. lia.
Qed.

Lemma words_of_packets `{WW : WordWidth} bss :
  (0 < lanes)%nat -> Forall (fun bs => bs <> []) bss -> packets (words_of bss) bss.
Proof.
  intros Hpos. induction 1 as [|bs bss Hne _ IH]; [constructor|].
  unfold words_of in *. cbn [flat_map]. constructor; [by apply frame_packet|done].
Qed.

Section PerPacket.
Context `{WW : WordWidth} {E A : Type} (call : E -> E * list net_axis) (arrive : A -> E -> E).
Context `{!KahnProcess call arrive}.
Context (idle : E -> Prop) (input : E -> list net_axis).

(** A process that is back in its idle state after every packet, which it has turned
    into a packet with the bytes [f bs]. *)
Lemma per_packet (f : list Z -> list Z) (P : list Z -> Prop) :
  (forall e ws bs rest, idle e -> input e = ws ++ rest -> packet ws bs -> P bs ->
     exists ws' e', drained call arrive e = ws' ++ drained call arrive e' /\
       packet ws' (f bs) /\ idle e' /\ input e' = rest) ->
  (forall e, idle e -> input e = [] -> drained call arrive e = []) ->
  forall e bss, idle e -> packets (input e) bss -> Forall P bss ->
  packets (drained call arrive e) (map f bss).
Proof.
  intros Hstep Hnil e bss He Hp. remember (input e) as ws eqn:Hi. revert e He Hi.
  induction Hp as [|ws bs ws' bss Hw Hp IH]; intros e He Hi HP.
  - rewrite Hnil by done. constructor.
  - inversion HP as [|? ? HPb HPs]; subst.
    destruct (Hstep e ws bs ws') as (out & e' & -> & Ho & He' & Hi'); [done..|].
    simpl. constructor; [done|]. by apply IH.
Qed.
End PerPacket.

(** ** The number in the lanes

    Where the code reads a field of several lanes, the lanes are the digits of a
    number, lane 0 the lowest. *)
Definition le_val (l : list Z) : Z := foldr (fun b v => b + 256 * v) 0 l.

Abbreviation bytes l := (Forall (in_width 8) l).

Lemma le_val_cons b l : le_val (b :: l) = b + 256 * le_val l.
Proof. reflexivity. Qed.

Lemma le_val_app l1 l2 : le_val (l1 ++ l2) = le_val l1 + 2 ^ (8 * Z.of_nat (length l1)) * le_val l2.
Proof.
  induction l1 as [|b l1 IH]; [simpl app; rewrite Z.mul_1_l; done|].
  rewrite <- app_comm_cons, !le_val_cons, IH.
  replace (8 * Z.of_nat (length (b :: l1))) with (8 + 8 * Z.of_nat (length l1)) by (simpl; lia).
  rewrite Z.pow_add_r by lia. change (2 ^ 8) with 256. ring.
Qed.

Lemma le_val_range l : bytes l -> in_width (8 * Z.of_nat (length l)) (le_val l).
Proof.
  induction 1 as [|b l Hb _ IH]; [done|]. rewrite le_val_cons. unfold in_width in *.
  replace (8 * Z.of_nat (length (b :: l))) with (8 + 8 * Z.of_nat (length l)) by (simpl; lia).
  rewrite Z.pow_add_r by lia. change (2 ^ 8) with 256 in *. lia.
Qed.

(** Cutting off the lower lanes, and the upper ones. *)
Lemma le_val_drop k l :
  bytes l -> (k <= length l)%nat -> le_val l / 2 ^ (8 * Z.of_nat k) = le_val (drop k l).
Proof.
  intros Hl Hk. rewrite <- (take_drop k l) at 1. rewrite le_val_app, length_take, Nat.min_l by done.
  pose proof (le_val_range (take k l) (Forall_take _ _ _ Hl)) as Hr.
  unfold in_width in Hr. rewrite length_take, Nat.min_l in Hr by done.
  rewrite (Z.mul_comm (2 ^ _)), Z.div_add by lia. rewrite Z.div_small by lia. done.
Qed.

Lemma le_val_take k l :
  bytes l -> (k <= length l)%nat -> wrap (8 * Z.of_nat k) (le_val l) = le_val (take k l).
Proof.
  intros Hl Hk. rewrite <- (take_drop k l) at 1. rewrite le_val_app, length_take, Nat.min_l by done.
  rewrite (Z.mul_comm (2 ^ _)), wrap_add_mul. apply wrap_small.
  pose proof (le_val_range (take k l) (Forall_take _ _ _ Hl)) as Hr.
  by rewrite length_take, Nat.min_l in Hr by done.
Qed.

(** A range of whole lanes. *)
Lemma bits_le_val hi lo m n l :
  bytes l -> (m + n <= length l)%nat -> lo = 8 * Z.of_nat m -> hi = lo + 8 * Z.of_nat n - 1 ->
  bits hi lo (le_val l) = le_val (take n (drop m l)).
Proof.
  intros Hl Hk -> ->. unfold bits. rewrite le_val_drop by (auto; lia).
  replace (_ - _ + 1) with (8 * Z.of_nat n) by lia.
  rewrite <- le_val_take; [done|by apply Forall_drop|rewrite length_drop; lia].
Qed.
