(* ===== verification/Shifters.v ===== *)
(** * The word shifters and the packet filters of the data path ([axi_utils.hpp])

    [lshiftWordByOctet] makes room for a header in front of a packet,
    [rshiftWordByOctet] removes it; the splitters, mergers and filters route whole
    packets.  Every process is specified on byte strings or on whole packets. *)

From S2P Require Import Prelude Streams Words.

Section Shifters.
Context {WW : WordWidth}.

(** [alignWords]; [last] of its result is left to the caller. *)
Definition alignWords (offset : nat) (prevWord currWord : net_axis) (last : bool) : net_axis :=
  mkWord (drop offset (data prevWord) ++ take offset (data currWord))
    (drop offset (keep prevWord) ++ take offset (keep currWord)) last.

(** ** Removing the first bytes of a packet *)
Record rshift_env := mkRshiftEnv {
  rs_remainder : bool;             (* fsmState == REMAINDER *)
  rs_firstWord : bool;
  rs_prevWord : net_axis;
  rs_input : stream net_axis
}.
#[export] Instance eta_rshift_env : Eta rshift_env := fun e =>
  mkRshiftEnv (rs_remainder e) (rs_firstWord e) (rs_prevWord e) (rs_input e).

Definition no_word : net_axis := mkWord (replicate lanes 0) (replicate lanes false) false.

Section Rshift.
Variable offset : nat.

Definition rshift_init : rshift_env :=
  mkRshiftEnv false (negb (offset =? 0)%nat) no_word [].

Definition rshiftWordByOctet (e : rshift_env) : rshift_env * list net_axis :=
  let prevWord := rs_prevWord e in
  if rs_remainder e then
    (e <| rs_remainder := false |>,
     [mkWord (drop offset (data prevWord) ++ replicate offset 0)
        (drop offset (keep prevWord) ++ replicate offset false) true])
  else
    match rs_input e with
    | [] => (e, [])
    | currWord :: rest =>
        let sendWord :=
          if (offset =? 0)%nat then currWord
          else mkWord (drop offset (data prevWord) ++ take offset (data currWord))
                 (drop offset (keep prevWord) ++ take offset (keep currWord))
                 (no_lane (drop offset (keep currWord))) in
        let send_last := if rs_firstWord e then false else last sendWord in
        (mkRshiftEnv (last currWord && negb send_last)
           (if last currWord then negb (offset =? 0)%nat else false) currWord rest,
         when (negb (rs_firstWord e)) [sendWord])
    end.

Definition rshift_arrive (w : net_axis) (e : rshift_env) : rshift_env :=
  e <| rs_input := rs_input e ++ [w] |>.

#[export, refine] Instance rshift_kahn : KahnProcess rshiftWordByOctet rshift_arrive := {
  kahn_work e := (2 * length (rs_input e) + (if rs_remainder e then 1 else 0))%nat;
  kahn_progress := _;
  kahn_diamond := _
}.
Proof.
  - intros e. unfold rshiftWordByOctet. destruct (rs_remainder e) eqn:Hr.
    + right. simpl. lia.
    + destruct (rs_input e) as [|w rest]; [by left|]. right. simpl.
      destruct (_ && _); lia.
  - intros a e. unfold rshiftWordByOctet, rshift_arrive. simpl.
    destruct (rs_remainder e); [by right|]. destruct (rs_input e); [by left|by right].
Defined.
End Rshift.

(** ** Making room in front of a packet *)
Record lshift_env := mkLshiftEnv {
  ls_firstWord : bool;
  ls_writeRemainder : bool;
  ls_prevWord : net_axis;
  ls_input : stream net_axis
}.
#[export] Instance eta_lshift_env : Eta lshift_env := fun e =>
  mkLshiftEnv (ls_firstWord e) (ls_writeRemainder e) (ls_prevWord e) (ls_input e).

Definition lshift_init : lshift_env := mkLshiftEnv true false no_word [].

Section Lshift.
Variable offset : nat.

Definition lshiftWordByOctet (e : lshift_env) : lshift_env * list net_axis :=
  let prevWord := ls_prevWord e in
  let up := (lanes - offset)%nat in
  if ls_writeRemainder e then
    (e <| ls_writeRemainder := false |>,
     [mkWord (drop up (data prevWord) ++ replicate up 0)
        (drop up (keep prevWord) ++ replicate up false) true])
  else
    match ls_input e with
    | [] => (e, [])
    | currWord :: rest =>
        let e := e <| ls_input := rest |> in
        if (offset =? 0)%nat then (e, [currWord])
        else
          let '(low_data, low_keep) :=
            if ls_firstWord e
            then (replicate offset 0, to_lanes offset 4294967295)
            else (drop up (data prevWord), drop up (keep prevWord)) in
          let sendWord :=
            mkWord (low_data ++ take up (data currWord)) (low_keep ++ take up (keep currWord))
              (no_lane (drop up (keep currWord))) in
          (e <| ls_prevWord := currWord |> <| ls_firstWord := last currWord |>
             <| ls_writeRemainder := last currWord && negb (last sendWord) |>,
           [sendWord])
    end.

Definition lshift_arrive (w : net_axis) (e : lshift_env) : lshift_env :=
  e <| ls_input := ls_input e ++ [w] |>.

#[export, refine] Instance lshift_kahn : KahnProcess lshiftWordByOctet lshift_arrive := {
  kahn_work e := (2 * length (ls_input e) + (if ls_writeRemainder e then 1 else 0))%nat;
  kahn_progress := _;
  kahn_diamond := _
}.
Proof.
  - intros e. unfold lshiftWordByOctet. destruct (ls_writeRemainder e) eqn:Hr.
    + right. simpl. lia.
    + destruct (ls_input e) as [|w rest]; [by left|]. right.
      destruct (offset =? 0)%nat; [simpl; rewrite ?Hr; lia|].
      destruct (ls_firstWord e) eqn:Hf; simpl; rewrite Hf; simpl; destruct (_ && _); lia.
  - intros a e. unfold lshiftWordByOctet, lshift_arrive. simpl.
    destruct (ls_writeRemainder e) eqn:Hr; [by right|].
    destruct (ls_input e) eqn:Hi; [by left|right]. simpl.
    destruct (offset =? 0)%nat; [done|]. by destruct (ls_firstWord e).
Defined.
End Lshift.

(** *** [rshiftWordByOctet] drops [offset] bytes *)
Lemma rshift_realign offset prev ws rest :
  offset <> O -> framed ws ->
  exists w, drained (rshiftWordByOctet offset) rshift_arrive (mkRshiftEnv false false prev (ws ++ rest))
    = realign offset prev ws
      ++ drained (rshiftWordByOctet offset) rshift_arrive (mkRshiftEnv false true w rest).
Proof.
  intros Ho%Nat.eqb_neq Hf. revert prev.
  induction Hf as [w Hl|w ws Hl _ IH]; intros prev.
  - exists w. erewrite drained_call by (unfold rshiftWordByOctet; simpl; by rewrite Ho).
    simpl. rewrite Hl. simpl. destruct (no_lane (drop offset (keep w))) eqn:Hn; simpl.
    + unfold joined. by rewrite Hn.
    + erewrite drained_call by reflexivity. simpl. unfold joined, residue. by rewrite Hn.
  - destruct (IH w) as [w' IHw]. exists w'.
    erewrite drained_call by (unfold rshiftWordByOctet; simpl; by rewrite Ho).
    simpl. rewrite Hl. simpl. by rewrite IHw.
Qed.

Definition rshift_idle (offset : nat) (e : rshift_env) : Prop :=
  rs_remainder e = false /\ rs_firstWord e = negb (offset =? 0)%nat.

Lemma rshift_packet offset e ws bs rest :
  (offset < lanes)%nat -> rshift_idle offset e -> rs_input e = ws ++ rest ->
  packet ws bs -> (offset < length bs)%nat ->
  exists ws' e',
    drained (rshiftWordByOctet offset) rshift_arrive e
    = ws' ++ drained (rshiftWordByOctet offset) rshift_arrive e' /\
    packet ws' (drop offset bs) /\ rshift_idle offset e' /\ rs_input e' = rest.
Proof.
  destruct e as [rem first prev input]. intros Hlt [Hr Hfw] Hi Hp Hlen. simpl in *. subst.
  destruct (decide (offset = O)) as [->|Ho].
  - clear Hlt Hlen. revert prev. induction Hp as [bs pad Hne Hl|bs ws bs' Hl Hp IH]; intros prev.
    + eexists [_], (mkRshiftEnv false false _ rest). erewrite drained_call by reflexivity.
      simpl. split_and!; [reflexivity|by constructor|done|done].
    + edestruct IH as (ws' & e' & Hd & Hp' & He'). exists (mkWord bs (low_lanes lanes lanes) false :: ws'), e'.
      erewrite drained_call by reflexivity. simpl. rewrite Hd. split_and!; [done| |apply He'..].
      rewrite drop_0 in *. by constructor.
  - rewrite (proj2 (Nat.eqb_neq _ _) Ho). simpl.
    destruct Hp as [bs pad Hne Hl|bs ws bs' Hl Hp].
    + eexists [_], (mkRshiftEnv false true _ rest).
      erewrite drained_call by reflexivity. simpl.
      rewrite (proj2 (Nat.eqb_neq _ _) Ho). simpl.
      erewrite drained_call by reflexivity. simpl. split; [reflexivity|].
      split; [by apply residue_packet; lia|]. split; [|done].
      split; simpl; [done|]. by rewrite (proj2 (Nat.eqb_neq _ _) Ho).
    + erewrite drained_call by reflexivity. simpl.
      destruct (rshift_realign offset (mkWord bs (low_lanes lanes lanes) false) ws rest Ho
        (packet_framed _ _ Hp)) as [w Hd].
      eexists _, _. split; [exact Hd|]. split; [apply realign_packet; [lia|done|done]|]. split; [|done].
      split; simpl; [done|]. by rewrite (proj2 (Nat.eqb_neq _ _) Ho).
Qed.

(** *** [lshiftWordByOctet] puts [offset] bytes in front *)
Lemma lshift_realign offset prev ws rest :
  offset <> O -> framed ws ->
  exists w, drained (lshiftWordByOctet offset) lshift_arrive (mkLshiftEnv false false prev (ws ++ rest))
    = realign (lanes - offset) prev ws
      ++ drained (lshiftWordByOctet offset) lshift_arrive (mkLshiftEnv true false w rest).
Proof.
  intros Ho%Nat.eqb_neq Hf. revert prev.
  induction Hf as [w Hl|w ws Hl _ IH]; intros prev.
  - exists w. erewrite drained_call by (unfold lshiftWordByOctet; simpl; by rewrite Ho).
    simpl. rewrite Hl. simpl. destruct (no_lane (drop _ (keep w))) eqn:Hn; simpl.
    + unfold joined. by rewrite Hn.
    + erewrite drained_call by reflexivity. simpl. unfold joined, residue. by rewrite Hn.
  - destruct (IH w) as [w' IHw]. exists w'.
    erewrite drained_call by (unfold lshiftWordByOctet; simpl; by rewrite Ho).
    simpl. rewrite Hl. simpl. by rewrite IHw.
Qed.

Definition lshift_idle (e : lshift_env) : Prop :=
  ls_writeRemainder e = false /\ ls_firstWord e = true.

(** The first word is the realignment of a word of zeros. *)
Lemma lshift_first offset w prev rest :
  offset <> O -> (offset <= 32)%nat -> (offset <= lanes)%nat ->
  lshiftWordByOctet offset (mkLshiftEnv true false prev (w :: rest))
  = lshiftWordByOctet offset
      (mkLshiftEnv false false (mkWord (replicate lanes 0) (low_lanes lanes lanes) false) (w :: rest)).
Proof.
  intros Ho H32 Hl. unfold lshiftWordByOctet. simpl. rewrite (proj2 (Nat.eqb_neq _ _) Ho).
  assert (to_lanes offset 4294967295 = drop (lanes - offset) (low_lanes lanes lanes)) as ->.
  { rewrite drop_low_lanes, <- to_lanes_mask by lia.
    replace (lanes - (lanes - offset))%nat with offset by lia.
    unfold to_lanes. apply map_ext_in. intros i Hi%in_seq.
    change 4294967295 with (Z.ones 32).
    replace (2 ^ Z.of_nat offset - 1) with (Z.ones (Z.of_nat offset)) by (rewrite Z.ones_equiv; lia).
    by rewrite !Z.ones_spec_low by lia. }
  rewrite drop_replicate. by replace (lanes - (lanes - offset))%nat with offset by lia.
Qed.

Lemma lshift_packet offset e ws bs rest :
  (offset < lanes)%nat -> (offset <= 32)%nat -> lshift_idle e -> ls_input e = ws ++ rest ->
  packet ws bs ->
  exists ws' e',
    drained (lshiftWordByOctet offset) lshift_arrive e
    = ws' ++ drained (lshiftWordByOctet offset) lshift_arrive e' /\
    packet ws' (replicate offset 0 ++ bs) /\ lshift_idle e' /\ ls_input e' = rest.
Proof.
  destruct e as [first rem prev input]. intros Hlt H32 [Hr Hfw] Hi Hp. simpl in *. subst.
  destruct (decide (offset = O)) as [->|Ho].
  - clear Hlt H32. induction Hp as [bs pad Hne Hl|bs ws bs' Hl Hp IH].
    + eexists [_], (mkLshiftEnv true false prev rest). erewrite drained_call by reflexivity.
      simpl. split_and!; [reflexivity|by constructor|done|done].
    + destruct IH as (ws' & e' & Hd & Hp' & He').
      exists (mkWord bs (low_lanes lanes lanes) false :: ws'), e'.
      rewrite (drained_call _ _ _ (mkLshiftEnv true false prev (ws ++ rest))
        [mkWord bs (low_lanes lanes lanes) false]) by reflexivity.
      rewrite Hd. split_and!; [done| |apply He'..].
      simpl in *. by constructor.
  - set (w0 := mkWord (replicate lanes 0) (low_lanes lanes lanes) false).
    destruct (lshift_realign offset w0 ws rest Ho (packet_framed _ _ Hp)) as [w Hd].
    exists (realign (lanes - offset) w0 ws), (mkLshiftEnv true false w rest).
    split_and!; [| |done|done].
    + rewrite <- Hd. destruct ws as [|w1 ws]; [inversion Hp|]. simpl.
      rewrite drained_unfold, (drained_unfold _ _ (mkLshiftEnv false false w0 _)).
      by rewrite lshift_first by lia.
    + replace (replicate offset 0 ++ bs)
        with (drop (lanes - offset) (replicate lanes 0 ++ bs)).
      * apply realign_packet; [lia|done|apply length_replicate].
      * rewrite drop_app_le, drop_replicate by (rewrite length_replicate; lia).
        by replace (lanes - (lanes - offset))%nat with offset by lia.
Qed.

Lemma rshift_arrivals l e : rs_input (arrive_all rshift_arrive l e) = rs_input e ++ l.
Proof.
  rewrite (arrive_all_stream _ rs_input Some) by done. f_equal.
  rewrite <- (map_id l) at 1. by apply omap_map_Some.
Qed.

Lemma lshift_arrivals l e : ls_input (arrive_all lshift_arrive l e) = ls_input e ++ l.
Proof.
  rewrite (arrive_all_stream _ ls_input Some) by done. f_equal.
  rewrite <- (map_id l) at 1. by apply omap_map_Some.
Qed.

Lemma rshift_idle_arrivals offset l e :
  rshift_idle offset e -> rshift_idle offset (arrive_all rshift_arrive l e).
Proof.
  intros [H1 H2]. split.
  - by rewrite (arrive_all_other _ rs_remainder).
  - by rewrite (arrive_all_other _ rs_firstWord).
Qed.

Lemma lshift_idle_arrivals l e : lshift_idle e -> lshift_idle (arrive_all lshift_arrive l e).
Proof.
  intros [H1 H2]. split.
  - by rewrite (arrive_all_other _ ls_writeRemainder).
  - by rewrite (arrive_all_other _ ls_firstWord).
Qed.

(** Whole sequences of packets. *)
Lemma lshift_packets offset s bss :
  (offset < lanes)%nat -> (offset <= 32)%nat -> packets (arrivals s) bss ->
  packets (output (lshiftWordByOctet offset) lshift_arrive s lshift_init) (map (app (replicate offset 0)) bss).
Proof.
  intros Hlt H32 Hp. rewrite output_drained.
  apply (per_packet _ _ lshift_idle ls_input _ (fun _ => True)).
  - intros. by eapply lshift_packet.
  - intros [] [] Hi. simpl in *. subst. by apply drained_stuck.
  - by apply lshift_idle_arrivals.
  - by rewrite lshift_arrivals.
  - by apply Forall_true.
Qed.

Lemma rshift_packets offset s bss :
  (offset < lanes)%nat -> packets (arrivals s) bss -> Forall (fun bs => (offset < length bs)%nat) bss ->
  packets (output (rshiftWordByOctet offset) rshift_arrive s (rshift_init offset)) (map (drop offset) bss).
Proof.
  intros Hlt Hp Hl. rewrite output_drained.
  apply (per_packet _ _ (rshift_idle offset) rs_input _ (fun bs => (offset < length bs)%nat)).
  - intros. by eapply rshift_packet.
  - intros [] [] Hi. simpl in *. subst. by apply drained_stuck.
  - by apply rshift_idle_arrivals.
  - by rewrite rshift_arrivals.
  - done.
Qed.

(** C25: the shifters are inverse to each other.  On whatever schedule a sequence of
    packets reaches [lshiftWordByOctet], it writes the same packets with [offset]
    bytes in front, and [rshiftWordByOctet] with the same offset, on whatever
    schedule these reach it, gives back packets with the bytes of the originals. *)
Theorem shifters_roundtrip offset s1 s2 bss :
  (offset < lanes)%nat -> (offset <= 32)%nat ->
  packets (arrivals s1) bss ->
  arrivals s2 = output (lshiftWordByOctet offset) lshift_arrive s1 lshift_init ->
  packets (arrivals s2) (map (app (replicate offset 0)) bss) /\
  packets (output (rshiftWordByOctet offset) rshift_arrive s2 (rshift_init offset)) bss.
Proof.
  intros Hlt H32 Hp Hs2.
  assert (packets (arrivals s2) (map (app (replicate offset 0)) bss)) as Hp2
    by (rewrite Hs2; by apply lshift_packets).
  split; [done|].
  replace bss with (map (drop offset) (map (app (replicate offset 0)) bss)) at 1.
  - apply rshift_packets; [done|done|]. apply Forall_map.
    clear -Hp. induction Hp as [|ws bs ws' bss Hw _ IH]; constructor; [|done].
    simpl. rewrite length_app, length_replicate.
    apply packet_nonempty in Hw. destruct bs; [done|]. simpl. lia.
  - rewrite map_map. rewrite <- (map_id bss) at 2. apply map_ext. intros bs.
    rewrite drop_app_length'; [done|]. by rewrite length_replicate.
Qed.
End Shifters.

#[export] Existing Instances eta_rshift_env eta_lshift_env rshift_kahn lshift_kahn.

Section ShifterWitnesses.
Definition width4 : WordWidth := 4%nat.
Local Existing Instance width4.

(** Two packets, of five bytes and of one; the second arrives in the middle. *)
Definition demo_words : list net_axis :=
  [mkWord [1; 2; 3; 4] [true; true; true; true] false;
   mkWord [5; 9; 9; 9] [true; false; false; false] true;
   mkWord [6; 8; 8; 8] [true; false; false; false] true].

Definition demo_bytes : list (list Z) := [[1; 2; 3; 4; 5]; [6]].

Lemma demo_packets : packets demo_words demo_bytes.
Proof.
  change demo_words with ((mkWord [1; 2; 3; 4] (low_lanes lanes lanes) false ::
    [mkWord ([5] ++ [9; 9; 9]) (low_lanes lanes (length [5])) true]) ++
    [mkWord ([6] ++ [8; 8; 8]) (low_lanes lanes (length [6])) true] ++ []).
  change demo_bytes with [[1; 2; 3; 4] ++ [5]; [6]].
  apply packets_cons; [|apply packets_cons; [|constructor]].
  - apply packet_more; [done|]. by apply packet_last.
  - by apply packet_last.
Qed.

Definition demo_schedule : list (option net_axis) :=
  match demo_words with
  | [w1; w2; w3] => [None; Some w1; None; Some w2; Some w3; None; None; None]
  | _ => []
  end.

Lemma shifters_roundtrip_witness :
  let shifted := output (lshiftWordByOctet 3) lshift_arrive demo_schedule lshift_init in
  length shifted = 3%nat /\
  packets (output (rshiftWordByOctet 3) rshift_arrive (map Some shifted) (rshift_init 3)) demo_bytes.
Proof.
  split; [by vm_compute|].
  refine (proj2 (shifters_roundtrip 3 demo_schedule (map Some _) demo_bytes _ _ demo_packets _)).
  - unfold lanes, width4. lia.
  - lia.
  - by vm_compute.
Defined.
End ShifterWitnesses.
