(* ===== verification/ToeTypes.v ===== *)
(** * Data of the TCP offload engine

    The configuration ([toe_config.hpp.in]), the enumerations and the structs of
    [toe_internals.hpp] and [toe.hpp].  A struct is a record whose fields carry a
    short prefix; its C++ constructors are the functions named after it.  A field
    a constructor leaves uninitialised is set to 0 or [false] and read by no
    process that receives such a value. *)

From S2P Require Import Prelude.

(** ** Configuration

    The build sets [TCP_NODELAY = 1] and [WINDOW_SCALE = 1]; the other switches
    and constants are parameters.  The time constants are those of
    [toe_internals.hpp], whose values differ between simulation and synthesis. *)
Class ToeConfig := {
  MSS : Z;
  MAX_SESSIONS : Z;
  RX_DDR_BYPASS : bool;
  FAST_RETRANSMIT : bool;
  TIME_64us : Z;
  TIME_50ms : Z;
  TIME_1s : Z;
  TIME_5s : Z;
  TIME_10s : Z;
  TIME_15s : Z;
  TIME_30s : Z;
  TIME_60s : Z
}.

Definition WINDOW_SCALE_BITS : Z := 2.
Definition WINDOW_BITS : Z := 16 + WINDOW_SCALE_BITS.
Definition BUFFER_SIZE : Z := 2 ^ WINDOW_BITS.
Definition CONGESTION_WINDOW_MAX : Z := BUFFER_SIZE - 2048.

(** What the rest of the development needs of a configuration: session numbers
    and segment sizes fit their fields, and the timers count from a positive
    32-bit value. *)
Record config_ok (C : ToeConfig) : Prop := {
  sessions_range : 0 < MAX_SESSIONS < 2 ^ 14;
  mss_range : 0 < MSS < 2 ^ 14;
  time_64us_range : 0 < TIME_64us < 2 ^ 12;
  time_50ms_range : 0 < TIME_50ms < 2 ^ 32;
  time_1s_range : 0 < TIME_1s < 2 ^ 32;
  time_5s_range : 0 < TIME_5s < 2 ^ 32;
  time_10s_range : 0 < TIME_10s < 2 ^ 32;
  time_15s_range : 0 < TIME_15s < 2 ^ 32;
  time_30s_range : 0 < TIME_30s < 2 ^ 32;
  time_60s_range : 0 < TIME_60s < 2 ^ 32
}.

(** The simulation constants ([#ifndef __SYNTHESIS__]) with the session count and
    segment size the build sets. *)
Definition sim_config (ddr_bypass : bool) : ToeConfig := {|
  MSS := 4096; MAX_SESSIONS := 1000;
  RX_DDR_BYPASS := ddr_bypass; FAST_RETRANSMIT := true;
  TIME_64us := 1; TIME_50ms := 1; TIME_1s := 1; TIME_5s := 1; TIME_10s := 3;
  TIME_15s := 4; TIME_30s := 6; TIME_60s := 60
|}.

Lemma sim_config_ok b : config_ok (sim_config b).
Proof. split; simpl; lia. Qed.

(** A configuration small enough to run a timer to its end. *)
Definition tiny_config : ToeConfig := {|
  MSS := 1460; MAX_SESSIONS := 4;
  RX_DDR_BYPASS := true; FAST_RETRANSMIT := true;
  TIME_64us := 1; TIME_50ms := 2; TIME_1s := 2; TIME_5s := 3; TIME_10s := 4;
  TIME_15s := 5; TIME_30s := 6; TIME_60s := 3
|}.

Lemma tiny_config_ok : config_ok tiny_config.
Proof. split; simpl; lia. Qed.

(** A sweep over the sessions advances and wraps at [MAX_SESSIONS], whether it tests
    for the last session with [==] or with [>=]. *)
Lemma next_session `{C : ToeConfig} pos :
  config_ok C -> 0 <= pos < MAX_SESSIONS ->
  (if wrap 16 (pos + 1) =? MAX_SESSIONS then 0 else wrap 16 (pos + 1))
  = (pos + 1) `mod` MAX_SESSIONS.
Proof.
  intros Hcfg Hp. pose proof (sessions_range C Hcfg).
  rewrite (wrap_small 16) by (unfold in_width; lia). case_match; bool_prop.
  - replace (pos + 1) with MAX_SESSIONS by lia. by rewrite Z_mod_same_full.
  - by rewrite Z.mod_small by lia.
Qed.

Lemma next_position `{C : ToeConfig} pos :
  config_ok C -> 0 <= pos < MAX_SESSIONS ->
  (if MAX_SESSIONS <=? wrap 16 (pos + 1) then 0 else wrap 16 (pos + 1))
  = (pos + 1) `mod` MAX_SESSIONS.
Proof.
  intros Hcfg Hp. rewrite <- next_session by done. pose proof (sessions_range C Hcfg).
  rewrite (wrap_small 16) by (unfold in_width; lia). repeat case_match; lia.
Qed.

(** ** Enumerations *)
Inductive eventType := TX | RT | ACK | SYN | SYN_ACK | FIN | RST | ACK_NODELAY.

Inductive sessionState :=
  CLOSED | SYN_SENT | SYN_RECEIVED | ESTABLISHED | FIN_WAIT_1 | FIN_WAIT_2
| CLOSING | TIME_WAIT | LAST_ACK.

#[export] Instance eventType_eq_dec : EqDecision eventType.
Proof. solve_decision. Defined.
#[export] Instance sessionState_eq_dec : EqDecision sessionState.
Proof. solve_decision. Defined.

(** The first enumerator is 0. *)
#[export] Instance zero_init_sessionState : ZeroInit sessionState := CLOSED.
#[export] Instance zero_init_eventType : ZeroInit eventType := TX.

Definition is_state (a b : sessionState) : bool := bool_decide (a = b).
Definition is_event (a b : eventType) : bool := bool_decide (a = b).

(** ** Sessions *)
Record fourTuple := mkFourTuple {
  ft_srcIp : Z; ft_dstIp : Z; ft_srcPort : Z; ft_dstPort : Z
}.
#[export] Instance eta_fourTuple : Eta fourTuple :=
  fun r => mkFourTuple (ft_srcIp r) (ft_dstIp r) (ft_srcPort r) (ft_dstPort r).
#[export] Instance zero_init_fourTuple : ZeroInit fourTuple := mkFourTuple 0 0 0 0.

(** [operator <], the order used by maps keyed by tuples. *)
Definition fourTuple_lt (lhs rhs : fourTuple) : bool :=
  (ft_dstIp lhs <? ft_dstIp rhs)
  || ((ft_dstIp lhs =? ft_dstIp rhs) && (ft_srcIp lhs <? ft_srcIp rhs)).

Record sessionLookupQuery := mkSessionLookupQuery {
  slq_tuple : fourTuple; slq_allowCreation : bool
}.

Record sessionLookupReply := mkSessionLookupReply {
  slr_sessionID : Z; slr_hit : bool
}.

Record stateQuery := mkStateQuery {
  stq_sessionID : Z; stq_state : sessionState; stq_write : bool
}.
Definition stateQuery_rd (id : Z) : stateQuery := mkStateQuery id CLOSED false.
Definition stateQuery_wr (id : Z) (st : sessionState) : stateQuery := mkStateQuery id st true.
#[export] Instance zero_init_stateQuery : ZeroInit stateQuery := mkStateQuery 0 CLOSED false.

(** ** Receive window *)
Record rxSarEntry := mkRxSarEntry {
  rxe_recvd : Z; rxe_appd : Z; rxe_win_shift : Z;
  rxe_head : Z; rxe_offset : Z; rxe_gap : bool
}.
#[export] Instance eta_rxSarEntry : Eta rxSarEntry :=
  fun r => mkRxSarEntry (rxe_recvd r) (rxe_appd r) (rxe_win_shift r)
                        (rxe_head r) (rxe_offset r) (rxe_gap r).
#[export] Instance zero_init_rxSarEntry : ZeroInit rxSarEntry := mkRxSarEntry 0 0 0 0 0 false.

Record rxSarReply := mkRxSarReply {
  rxr_recvd : Z; rxr_win_shift : Z; rxr_windowSize : Z; rxr_usedLength : Z
}.
#[export] Instance zero_init_rxSarReply : ZeroInit rxSarReply := mkRxSarReply 0 0 0 0.

Record rxSarRecvd := mkRxSarRecvd {
  rxv_sessionID : Z; rxv_recvd : Z; rxv_win_shift : Z; rxv_write : bool;
  rxv_init : bool; rxv_head : Z; rxv_offset : Z; rxv_gap : bool
}.
Definition rxSarRecvd_rd (id : Z) : rxSarRecvd :=
  mkRxSarRecvd id 0 0 false false 0 0 false.
Definition rxSarRecvd_wr (id recvd head offset : Z) (gap : bool) : rxSarRecvd :=
  mkRxSarRecvd id recvd 0 true false head offset gap.
Definition rxSarRecvd_init (id recvd head offset : Z) (gap : bool) (win_shift : Z) : rxSarRecvd :=
  mkRxSarRecvd id recvd win_shift true true head offset gap.

Record rxSarAppd := mkRxSarAppd { rxa_sessionID : Z; rxa_appd : Z; rxa_write : bool }.
Definition rxSarAppd_rd (id : Z) : rxSarAppd := mkRxSarAppd id 0 false.
Definition rxSarAppd_wr (id appd : Z) : rxSarAppd := mkRxSarAppd id appd true.

(** ** Transmit window *)
Record txSarEntry := mkTxSarEntry {
  txe_ackd : Z; txe_not_ackd : Z; txe_recv_window : Z; txe_win_shift : Z;
  txe_cong_window : Z; txe_slowstart_threshold : Z; txe_app : Z; txe_count : Z;
  txe_fastRetransmitted : bool; txe_finReady : bool; txe_finSent : bool
}.
#[export] Instance eta_txSarEntry : Eta txSarEntry :=
  fun r => mkTxSarEntry (txe_ackd r) (txe_not_ackd r) (txe_recv_window r)
    (txe_win_shift r) (txe_cong_window r) (txe_slowstart_threshold r) (txe_app r)
    (txe_count r) (txe_fastRetransmitted r) (txe_finReady r) (txe_finSent r).
#[export] Instance zero_init_txSarEntry : ZeroInit txSarEntry :=
  mkTxSarEntry 0 0 0 0 0 0 0 0 false false false.

Record rxTxSarQuery := mkRxTxSarQuery {
  rtq_sessionID : Z; rtq_ackd : Z; rtq_recv_window : Z; rtq_cong_window : Z;
  rtq_count : Z; rtq_fastRetransmitted : bool; rtq_win_shift : Z;
  rtq_write : bool; rtq_init : bool
}.
Definition rxTxSarQuery_rd (id : Z) : rxTxSarQuery :=
  mkRxTxSarQuery id 0 0 0 0 false 0 false false.
Definition rxTxSarQuery_wr (id ackd recv_win cong_win count : Z) (fastRetransmitted : bool)
  : rxTxSarQuery :=
  mkRxTxSarQuery id ackd recv_win cong_win count fastRetransmitted 0 true false.
Definition rxTxSarQuery_init (id ackd recv_win cong_win count : Z) (fastRetransmitted : bool)
  (win_shift : Z) : rxTxSarQuery :=
  mkRxTxSarQuery id ackd recv_win cong_win count fastRetransmitted win_shift true true.

Record txTxSarQuery := mkTxTxSarQuery {
  ttq_sessionID : Z; ttq_not_ackd : Z; ttq_write : bool; ttq_init : bool;
  ttq_finReady : bool; ttq_finSent : bool; ttq_isRtQuery : bool
}.
Definition txTxSarQuery_rd (id : Z) : txTxSarQuery :=
  mkTxTxSarQuery id 0 false false false false false.
Definition txTxSarQuery_wr (id not_ackd : Z) : txTxSarQuery :=
  mkTxTxSarQuery id not_ackd true false false false false.
Definition txTxSarQuery_init (id not_ackd : Z) : txTxSarQuery :=
  mkTxTxSarQuery id not_ackd true true false false false.
Definition txTxSarQuery_fin (id not_ackd : Z) (finReady finSent : bool) : txTxSarQuery :=
  mkTxTxSarQuery id not_ackd true false finReady finSent false.
(** [txTxSarRtQuery(id, ssthresh)]: the threshold travels in [not_ackd]. *)
Definition txTxSarRtQuery (id ssthresh : Z) : txTxSarQuery :=
  mkTxTxSarQuery id ssthresh true false false false true.
Definition getThreshold (q : txTxSarQuery) : Z := bits (WINDOW_BITS - 1) 0 (ttq_not_ackd q).

Record txAppTxSarQuery := mkTxAppTxSarQuery {
  atq_sessionID : Z; atq_mempt : Z; atq_write : bool
}.
Definition txAppTxSarQuery_rd (id : Z) : txAppTxSarQuery := mkTxAppTxSarQuery id 0 false.
Definition txAppTxSarQuery_wr (id pt : Z) : txAppTxSarQuery := mkTxAppTxSarQuery id pt true.

Record rxTxSarReply := mkRxTxSarReply {
  rtr_prevAck : Z; rtr_nextByte : Z; rtr_cong_window : Z;
  rtr_slowstart_threshold : Z; rtr_count : Z; rtr_fastRetransmitted : bool
}.
#[export] Instance eta_rxTxSarReply : Eta rxTxSarReply :=
  fun r => mkRxTxSarReply (rtr_prevAck r) (rtr_nextByte r) (rtr_cong_window r)
    (rtr_slowstart_threshold r) (rtr_count r) (rtr_fastRetransmitted r).

Record txAppTxSarReply := mkTxAppTxSarReply {
  atr_sessionID : Z; atr_ackd : Z; atr_mempt : Z; atr_min_window : Z
}.

Record txAppTxSarPush := mkTxAppTxSarPush { atp_sessionID : Z; atp_app : Z }.

Record txSarAckPush := mkTxSarAckPush {
  tap_sessionID : Z; tap_ackd : Z; tap_min_window : Z; tap_init : bool
}.

Record txTxSarReply := mkTxTxSarReply {
  ttr_ackd : Z; ttr_not_ackd : Z; ttr_usableWindow : Z; ttr_app : Z;
  ttr_usedLength : Z; ttr_finReady : bool; ttr_finSent : bool; ttr_win_shift : Z
}.
#[export] Instance eta_txTxSarReply : Eta txTxSarReply :=
  fun r => mkTxTxSarReply (ttr_ackd r) (ttr_not_ackd r) (ttr_usableWindow r)
    (ttr_app r) (ttr_usedLength r) (ttr_finReady r) (ttr_finSent r) (ttr_win_shift r).
#[export] Instance zero_init_txTxSarReply : ZeroInit txTxSarReply :=
  mkTxTxSarReply 0 0 0 0 0 false false 0.

(** ** Timers and events *)
Record rxRetransmitTimerUpdate := mkRxRetransmitTimerUpdate {
  rtu_sessionID : Z; rtu_stop : bool
}.
#[export] Instance zero_init_rxRetransmitTimerUpdate : ZeroInit rxRetransmitTimerUpdate :=
  mkRxRetransmitTimerUpdate 0 false.

Record txRetransmitTimerSet := mkTxRetransmitTimerSet {
  rts_sessionID : Z; rts_type : eventType
}.
Definition txRetransmitTimerSet_rt (id : Z) : txRetransmitTimerSet := mkTxRetransmitTimerSet id RT.

Record event := mkEvent {
  ev_type : eventType; ev_sessionID : Z; ev_address : Z; ev_length : Z; ev_rt_count : Z
}.
#[export] Instance eta_event : Eta event :=
  fun r => mkEvent (ev_type r) (ev_sessionID r) (ev_address r) (ev_length r) (ev_rt_count r).
#[export] Instance zero_init_event : ZeroInit event := mkEvent TX 0 0 0 0.
Definition event2 (ty : eventType) (id : Z) : event := mkEvent ty id 0 0 0.
Definition event3 (ty : eventType) (id rt_count : Z) : event := mkEvent ty id 0 0 rt_count.
Definition event4 (ty : eventType) (id addr len : Z) : event := mkEvent ty id addr len 0.

Record extendedEvent := mkExtendedEvent { xev_event : event; xev_tuple : fourTuple }.
#[export] Instance eta_extendedEvent : Eta extendedEvent :=
  fun r => mkExtendedEvent (xev_event r) (xev_tuple r).
#[export] Instance zero_init_extendedEvent : ZeroInit extendedEvent :=
  mkExtendedEvent zero_init zero_init.
(** The implicit conversion [extendedEvent(const event&)]. *)
Definition extend_event (ev : event) : extendedEvent := mkExtendedEvent ev zero_init.

(** [rstEvent]: the sequence number to acknowledge is split over [address] and
    [length]; [rt_count] says whether the event names a session. *)
Definition rstEvent_noSession (seq : Z) : event :=
  mkEvent RST 0 (bits 31 16 seq) (bits 15 0 seq) 0.
Definition rstEvent (id seq : Z) : event :=
  mkEvent RST id (bits 31 16 seq) (bits 15 0 seq) 1.
Definition getAckNumb (ev : event) : Z :=
  set_bits 15 0 (ev_length ev) (set_bits 31 16 (ev_address ev) 0).
Definition hasSessionID (ev : event) : bool := nonzero (ev_rt_count ev).

(** The acknowledgement number survives the split over the two fields. *)
Lemma rstEvent_getAckNumb id seq : in_width 32 seq -> getAckNumb (rstEvent id seq) = seq.
Proof.
  intros H. unfold getAckNumb, rstEvent, set_bits, bits; simpl. wrap_lia.
Qed.

(** ** Application interface and memory commands ([toe.hpp]) *)
Record ipTuple := mkIpTuple { ipt_ip_address : Z; ipt_ip_port : Z }.

(** A data mover command; the fields the constructor fixes are left out. *)
Record mmCmd := mkMmCmd { mc_saddr : Z; mc_bbt : Z }.
#[export] Instance eta_mmCmd : Eta mmCmd := fun r => mkMmCmd (mc_saddr r) (mc_bbt r).
#[export] Instance zero_init_mmCmd : ZeroInit mmCmd := mkMmCmd 0 0.
(** [mmCmd(addr, len)] with [ap_uint<32> addr, ap_uint<16> len]. *)
Definition mmCmd_new (addr len : Z) : mmCmd := mkMmCmd (wrap 32 addr) (wrap 16 len).

Record mmStatus := mkMmStatus {
  ms_tag : Z; ms_interr : bool; ms_decerr : bool; ms_slverr : bool; ms_okay : bool
}.
#[export] Instance zero_init_mmStatus : ZeroInit mmStatus := mkMmStatus 0 false false false false.

Record openStatus := mkOpenStatus {
  os_sessionID : Z; os_success : bool; os_ip : Z; os_port : Z
}.
Definition openStatus2 (id : Z) (success : bool) : openStatus := mkOpenStatus id success 0 0.

Record appNotification := mkAppNotification {
  an_sessionID : Z; an_length : Z; an_ipAddress : Z; an_dstPort : Z; an_closed : bool
}.
#[export] Instance zero_init_appNotification : ZeroInit appNotification :=
  mkAppNotification 0 0 0 0 false.
Definition appNotification_data (id len addr port : Z) : appNotification :=
  mkAppNotification id len addr port false.
Definition appNotification_timeout (id : Z) (closed : bool) : appNotification :=
  mkAppNotification id 0 0 0 closed.
Definition appNotification_close (id addr port : Z) (closed : bool) : appNotification :=
  mkAppNotification id 0 addr port closed.

Record appReadRequest := mkAppReadRequest { arr_sessionID : Z; arr_length : Z }.

Record appTxMeta := mkAppTxMeta { atm_sessionID : Z; atm_length : Z }.
#[export] Instance zero_init_appTxMeta : ZeroInit appTxMeta := mkAppTxMeta 0 0.

Record appTxRsp := mkAppTxRsp {
  ars_sessionID : Z; ars_length : Z; ars_remaining_space : Z; ars_error : Z
}.
Definition NO_ERROR : Z := 0.
Definition ERROR_NOCONNCECTION : Z := 1.
Definition ERROR_NOSPACE : Z := 2.

(** [reverse<16>] and [reverse<32>] ([axi_utils.hpp]): byte order reversal. *)
Definition reverse16 (w : Z) : Z :=
  set_bits 15 8 (bits 7 0 w) (set_bits 7 0 (bits 15 8 w) 0).
Definition reverse32 (w : Z) : Z :=
  set_bits 31 24 (bits 7 0 w) (set_bits 23 16 (bits 15 8 w)
    (set_bits 15 8 (bits 23 16 w) (set_bits 7 0 (bits 31 24 w) 0))).

Lemma reverse16_involutive w : in_width 16 w -> reverse16 (reverse16 w) = w.
Proof. intros H. unfold reverse16, set_bits, bits. wrap_lia. Qed.

(** A sequence number is [base + k] for one [k] in the 32-bit ring. *)
Definition seq_diff (a b : Z) : Z := wrap 32 (a - b).

(** The address of a session's byte in the buffer memory:
    [pkgAddr(31,30) = 0], [pkgAddr(29, WINDOW_BITS) = sessionID(13, 0)],
    [pkgAddr(WINDOW_BITS-1, 0) = pt]. *)
Definition buffer_addr (sessionID pt : Z) : Z :=
  set_bits (WINDOW_BITS - 1) 0 pt
    (set_bits 29 WINDOW_BITS (bits 13 0 sessionID) 0).

Lemma buffer_addr_eq i p : buffer_addr i p = wrap 12 i * 2 ^ WINDOW_BITS + wrap WINDOW_BITS p.
Proof.
  unfold buffer_addr, set_bits, bits, WINDOW_BITS, WINDOW_SCALE_BITS, wrap. simpl. pow2.
  Z.div_mod_to_equations. lia.
Qed.

Lemma buffer_addr_inj i p q : buffer_addr i p = buffer_addr i q -> wrap WINDOW_BITS p = wrap WINDOW_BITS q.
Proof. rewrite !buffer_addr_eq. lia. Qed.

Lemma buffer_addr_wrap i p : buffer_addr i (wrap WINDOW_BITS p) = buffer_addr i p.
Proof. by rewrite !buffer_addr_eq, wrap_wrap. Qed.

Lemma buffer_addr_width i p : in_width 32 (buffer_addr i p).
Proof. rewrite buffer_addr_eq. unfold WINDOW_BITS, WINDOW_SCALE_BITS. simpl. wrap_lia. Qed.
