(* ===== verification/Checksum.v ===== *)
(** * The Internet checksum ([toe/two_complement_subchecksums.hpp], [ipv4/ipv4.hpp])

    The checksum of a packet is computed word by word: a partial sum for every pair
    of lanes, added with end-around carry, and at the end of the packet a tree of
    additions over the partial sums.  The result is shown to be the checksum of
    RFC 1071, computed from the byte string. *)

From S2P Require Import Prelude Streams Words ToeTypes.

Section Checksum.
Context {WW : WordWidth}.

(** ** The code *)

(** [sum += temp; sum = (sum + (sum >> 16)) & 0xFFFF] on an [ap_uint<17>]. *)
Definition add_carry (sum temp : Z) : Z :=
  let sum := wrap 17 (sum + temp) in
  Z.land (wrap 17 (sum + Z.shiftr sum 16)) 65535.

(** The sum of one pair of lanes. *)
Definition add_pair (sum : Z) (lo hi : Z) (keep_lo keep_hi : bool) : Z :=
  if keep_lo && keep_hi then add_carry sum (set_bits 15 8 lo (set_bits 7 0 hi 0))
  else if keep_lo then add_carry sum (set_bits 15 8 lo (set_bits 7 0 0 0))
  else sum.

Fixpoint add_word (sums : list Z) (data : list Z) (keep : list bool) : list Z :=
  match sums, data, keep with
  | s :: sums, lo :: hi :: data, klo :: khi :: keep =>
      add_pair s lo hi klo khi :: add_word sums data keep
  | _, _, _ => sums
  end.

Record subsum_env := mkSubsumEnv { tcts_tcp_sums : list Z; tcts_dataIn : stream net_axis }.
#[export] Instance eta_subsum_env : Eta subsum_env := fun e =>
  mkSubsumEnv (tcts_tcp_sums e) (tcts_dataIn e).

Inductive subsum_write := W_tcts_dataOut (w : net_axis) | W_subChecksums (sums : list Z).

Definition zero_sums : list Z := replicate (lanes / 2)%nat 0.
Definition subsum_init : subsum_env := mkSubsumEnv zero_sums [].

Definition two_complement_subchecksums (e : subsum_env) : subsum_env * list subsum_write :=
  match tcts_dataIn e with
  | currWord :: rest =>
      let sums := add_word (tcts_tcp_sums e) (data currWord) (keep currWord) in
      (mkSubsumEnv (if last currWord then zero_sums else sums) rest,
       W_tcts_dataOut currWord :: when (last currWord) [W_subChecksums sums])
  | [] => (e, [])
  end.

Definition subsum_arrive (w : net_axis) (e : subsum_env) : subsum_env :=
  e <| tcts_dataIn := tcts_dataIn e ++ [w] |>.

(** [sum[i] += sum[i+n]], with carry, for [i < n]. *)
Definition fold_half (n : nat) (sums : list Z) : list Z :=
  zip_with add_carry (take n sums) (drop n sums).

(** The tree of additions, up to the complement. *)
Definition total_sum (sums : list Z) : Z :=
  let N := length sums in
  let sums := if (32 <=? N)%nat then fold_half 16 sums else sums in
  let sums := if (16 <=? N)%nat then fold_half 8 sums else sums in
  let sums := if (8 <=? N)%nat then fold_half 4 sums else sums in
  match sums with
  | s0 :: s1 :: s2 :: s3 :: _ => add_carry (add_carry s0 s2) (add_carry s1 s3)
  | _ => 0
  end.

(** [~sum[0]], and its lower 16 bits. *)
Definition finalize_ipv4_checksum (sums : list Z) : Z :=
  bits 15 0 (wrap 17 (Z.lnot (total_sum sums))).

Definition toe_check_ipv4_checksum (sums : list Z) : bool := finalize_ipv4_checksum sums =? 0.

(** ** RFC 1071 *)

(** The sum of the 16-bit words of a byte string, an odd byte padded with zero. *)
Fixpoint sum16 (bs : list Z) : Z :=
  match bs with
  | hi :: lo :: bs => 256 * hi + lo + sum16 bs
  | [hi] => 256 * hi
  | [] => 0
  end.

(** One's complement: add the carries until there are none left. *)
Fixpoint fold_carries (fuel : nat) (n : Z) : Z :=
  match fuel with
  | O => n
  | S fuel => if n <? 65536 then n else fold_carries fuel (n `mod` 65536 + n / 65536)
  end.

Definition rfc1071 (bs : list Z) : Z := 65535 - fold_carries (length bs + 3) (sum16 bs).

(** The 16-bit representative of a sum in one's complement arithmetic: the remainder
    modulo 65535, with 65535 in the place of 0 unless the sum is 0 itself. *)
Definition oc (n : Z) : Z := if n =? 0 then 0 else (n - 1) `mod` 65535 + 1.

Lemma oc_range n : 0 <= n -> 0 <= oc n <= 65535.
Proof.
  intros Hn. unfold oc. destruct (n =? 0); [lia|].
  pose proof (Z.mod_pos_bound (n - 1) 65535). lia.
Qed.

Lemma oc_small n : 0 <= n <= 65535 -> oc n = n.
Proof.
  intros Hn. unfold oc. destruct (n =? 0) eqn:H; [lia|]. rewrite Z.mod_small; lia.
Qed.

Lemma oc_unique n r : 0 < n -> 0 < r <= 65535 -> (exists q, n = r + q * 65535) -> oc n = r.
Proof.
  intros Hn Hr [q ->]. unfold oc. rewrite (proj2 (Z.eqb_neq _ _)) by lia.
  replace (r + q * 65535 - 1) with (r - 1 + q * 65535) by lia.
  rewrite Z_mod_plus_full, Z.mod_small by lia. lia.
Qed.

Lemma oc_spec n : 0 < n -> exists q, n = oc n + q * 65535 /\ 0 < oc n <= 65535.
Proof.
  intros Hn. unfold oc. rewrite (proj2 (Z.eqb_neq _ _)) by lia.
  pose proof (Z.div_mod (n - 1) 65535). pose proof (Z.mod_pos_bound (n - 1) 65535).
  exists ((n - 1) / 65535). lia.
Qed.

(** Adding with carry adds in one's complement. *)
Lemma add_carry_oc a b : 0 <= a -> 0 <= b -> add_carry (oc a) (oc b) = oc (a + b).
Proof.
  intros Ha Hb. pose proof (oc_range a Ha). pose proof (oc_range b Hb).
  unfold add_carry. rewrite (wrap_small 17 (oc a + oc b)) by (unfold in_width; pow2; lia).
  rewrite Z.shiftr_div_pow2 by lia. change 65535 with (Z.ones 16). rewrite Z.land_ones by lia.
  assert (((oc a + oc b) / 2 ^ 16) <= 1) as Hc by (apply Z.lt_succ_r, Z.div_lt_upper_bound; pow2; lia).
  assert (0 <= (oc a + oc b) / 2 ^ 16) by (apply Z.div_pos; pow2; lia).
  rewrite wrap_small by (unfold in_width; pow2; lia). symmetry.
  destruct (decide (a = 0)) as [->|Ha0]; [|destruct (decide (b = 0)) as [->|Hb0]].
  - change (oc 0) with 0 in *. rewrite !Z.add_0_l in *. rewrite (Z.div_small (oc b)) by (pow2; lia).
    rewrite Z.add_0_r, Z.mod_small by (pow2; lia). done.
  - change (oc 0) with 0 in *. rewrite !Z.add_0_r in *. rewrite (Z.div_small (oc a)) by (pow2; lia).
    rewrite Z.add_0_r, Z.mod_small by (pow2; lia). done.
  - destruct (oc_spec a ltac:(lia)) as (qa & Hqa & Hra), (oc_spec b ltac:(lia)) as (qb & Hqb & Hrb).
    set (s := oc a + oc b) in *.
    destruct (decide (s < 2 ^ 16)) as [Hs|Hs].
    + rewrite (Z.div_small s), Z.add_0_r, Z.mod_small by lia.
      apply oc_unique; [lia|revert Hs; pow2; lia|]. exists (qa + qb). lia.
    + assert (s / 2 ^ 16 = 1) as -> by (symmetry; apply Z.div_unique with (s - 2 ^ 16); revert Hs; pow2; lia).
      assert ((s + 1) `mod` 2 ^ 16 = s + 1 - 65536) as ->.
      { symmetry. apply Z.mod_unique with 1; revert Hs; pow2; lia. }
      apply oc_unique; [lia|revert Hs; pow2; lia|]. exists (qa + qb + 1). lia.
Qed.

(** Folding carries computes the same representative. *)
Lemma fold_carries_oc fuel n :
  0 <= n < 65536 + Z.of_nat fuel * 65535 -> fold_carries fuel n = oc n.
Proof.
  revert n. induction fuel as [|fuel IH]; intros n Hn; simpl.
  - symmetry. apply oc_small. lia.
  - destruct (n <? 65536) eqn:Hc; [symmetry; apply oc_small; lia|]. apply Z.ltb_ge in Hc.
    pose proof (Z.div_mod n 65536 ltac:(lia)) as Hd. pose proof (Z.mod_pos_bound n 65536 ltac:(lia)).
    assert (1 <= n / 65536) by (apply Z.div_le_lower_bound; lia).
    rewrite IH by lia.
    destruct (oc_spec (n `mod` 65536 + n / 65536) ltac:(lia)) as (q & Hq & Hr).
    symmetry. apply oc_unique; [lia|done|]. exists (q + n / 65536). lia.
Qed.

Lemma sum16_nonneg bs : bytes bs -> 0 <= sum16 bs.
Proof.
  intros Hb. assert (forall n bs, (length bs <= n)%nat -> bytes bs -> 0 <= sum16 bs); [|by eapply H].
  clear. induction n as [|n IH]; intros [|a [|b bs]] Hl Hb; simpl in *; try lia;
    repeat (inversion Hb as [|? ? ? Hb']; subst; clear Hb; rename Hb' into Hb); unfold in_width in *; try lia.
  specialize (IH bs ltac:(lia) Hb). lia.
Qed.

(** ** The partial sums of a packet *)
Definition zsum (l : list Z) : Z := foldr Z.add 0 l.

Definition pair_term (lo hi : Z) (klo khi : bool) : Z :=
  if klo && khi then 256 * lo + hi else if klo then 256 * lo else 0.

Fixpoint pair_terms (data : list Z) (keep : list bool) : list Z :=
  match data, keep with
  | lo :: hi :: data, klo :: khi :: keep => pair_term lo hi klo khi :: pair_terms data keep
  | _, _ => []
  end.

Lemma zsum_zip l1 l2 : length l1 = length l2 -> zsum (zip_with Z.add l1 l2) = zsum l1 + zsum l2.
Proof.
  revert l2. induction l1 as [|x l1 IH]; intros [|y l2] Hl; simpl in *; try lia.
  unfold zsum in *. rewrite IH by lia. lia.
Qed.

Lemma zsum_app l1 l2 : zsum (l1 ++ l2) = zsum l1 + zsum l2.
Proof. induction l1 as [|x l1 IH]; [done|]. unfold zsum in *. simpl. rewrite IH. lia. Qed.

Lemma zsum_nonneg l : Forall (Z.le 0) l -> 0 <= zsum l.
Proof. induction 1; unfold zsum in *; simpl; lia. Qed.

Lemma be16 lo hi : in_width 8 lo -> in_width 8 hi -> set_bits 15 8 lo (set_bits 7 0 hi 0) = 256 * lo + hi.
Proof. intros Hl Hh. unfold set_bits, bits. wrap_lia. Qed.

(** The lanes in use hold bytes. *)
Fixpoint lanes_ok (data : list Z) (keep : list bool) : Prop :=
  match data, keep with
  | lo :: hi :: data, klo :: khi :: keep =>
      (klo = true -> in_width 8 lo) /\ (klo = true -> khi = true -> in_width 8 hi) /\
      lanes_ok data keep
  | [], [] => True
  | _, _ => False
  end.

Lemma pair_terms_nonneg data keep : lanes_ok data keep -> Forall (Z.le 0) (pair_terms data keep).
Proof.
  revert keep. assert (forall n data keep, (length data <= n)%nat -> lanes_ok data keep ->
    Forall (Z.le 0) (pair_terms data keep)) as H; [|intros keep; by eapply H].
  induction n as [|n IH]; intros [|lo [|hi d]] [|klo [|khi kp]] Hl Hok; simpl in *; try done; try lia.
  destruct Hok as (H1 & H2 & H3). constructor; [|apply IH; [lia|done]].
  unfold pair_term, in_width in *. destruct klo, khi; simpl; try lia;
    specialize (H1 eq_refl); try specialize (H2 eq_refl eq_refl); lia.
Qed.

Lemma add_pair_oc a lo hi klo khi :
  0 <= a -> (klo = true -> in_width 8 lo) -> (klo = true -> khi = true -> in_width 8 hi) ->
  add_pair (oc a) lo hi klo khi = oc (a + pair_term lo hi klo khi).
Proof.
  intros Ha Hlo Hhi. unfold add_pair, pair_term. destruct klo; simpl; [|by rewrite Z.add_0_r].
  specialize (Hlo eq_refl). destruct khi.
  - specialize (Hhi eq_refl eq_refl). rewrite be16 by done.
    unfold in_width in *. change (2 ^ 8) with 256 in *.
    rewrite <- (oc_small (256 * lo + hi)) at 1 by lia. apply add_carry_oc; lia.
  - rewrite be16 by done. unfold in_width in *. change (2 ^ 8) with 256 in *.
    rewrite Z.add_0_r, <- (oc_small (256 * lo)) at 1 by lia. apply add_carry_oc; lia.
Qed.

Lemma add_word_oc A data keep :
  Forall (Z.le 0) A -> lanes_ok data keep -> length data = (2 * length A)%nat ->
  add_word (map oc A) data keep = map oc (zip_with Z.add A (pair_terms data keep)) /\
  length (pair_terms data keep) = length A.
Proof.
  intros HA. revert data keep. induction HA as [|a A Ha _ IH];
    intros [|lo [|hi d]] [|klo [|khi kp]] Hok Hl; simpl in *; try lia; try done.
  destruct Hok as (H1 & H2 & H3). destruct (IH d kp H3 ltac:(lia)) as [-> ->].
  split; [|done]. f_equal. by apply add_pair_oc.
Qed.

(** The terms of a word that carries [bs] add up to the sum of [bs]. *)
Lemma word_terms bs pad n :
  bytes bs -> (length bs + length pad)%nat = (2 * n)%nat ->
  lanes_ok (bs ++ pad) (low_lanes (2 * n) (length bs)) /\
  zsum (pair_terms (bs ++ pad) (low_lanes (2 * n) (length bs))) = sum16 bs.
Proof.
  revert bs pad. induction n as [|n IH]; intros bs pad Hb Hl.
  - destruct bs, pad; simpl in *; try lia.
  - replace (2 * S n)%nat with (S (S (2 * n))) in * by lia.
    destruct bs as [|b [|c bs]].
    + destruct pad as [|p [|q pad]]; simpl in Hl; try lia.
      destruct (IH [] pad ltac:(constructor) ltac:(simpl in *; lia)) as [H1 H2]. simpl in *.
      unfold low_lanes in *. simpl in *. rewrite Nat.sub_0_r in *. split; [done|].
      unfold zsum in *. simpl. by rewrite H2.
    + destruct pad as [|q pad]; simpl in Hl; try lia. inversion Hb; subst.
      destruct (IH [] pad ltac:(constructor) ltac:(simpl in *; lia)) as [H3 H4].
      unfold low_lanes in *. simpl in *. rewrite Nat.sub_0_r in *. split; [done|].
      unfold zsum in *. simpl. rewrite H4. unfold pair_term. simpl. lia.
    + inversion Hb as [|? ? Hb1 Hb']; subst. inversion Hb' as [|? ? Hb2 Hb'']; subst.
      destruct (IH bs pad Hb'' ltac:(simpl in *; lia)) as [H1 H2].
      unfold low_lanes in *. simpl in *. split; [done|].
      unfold zsum in *. simpl. rewrite H2. unfold pair_term. simpl. lia.
Qed.

Lemma sum16_app bs1 bs2 n :
  length bs1 = (2 * n)%nat -> sum16 (bs1 ++ bs2) = sum16 bs1 + sum16 bs2.
Proof.
  revert bs1. induction n as [|n IH]; intros [|a [|b bs1]] Hl; simpl in *; try lia.
  rewrite (IH bs1) by lia. lia.
Qed.

#[export, refine] Instance subsum_kahn : KahnProcess two_complement_subchecksums subsum_arrive := {
  kahn_work e := length (tcts_dataIn e);
  kahn_progress := _;
  kahn_diamond := _
}.
Proof.
  - intros [sums [|w ws]]; [by left|right; simpl; lia].
  - intros a [sums [|w ws]]; [by left|by right].
Defined.

(** ** The tree of additions *)
Lemma fold_half_oc n A :
  Forall (Z.le 0) A -> length A = (2 * n)%nat ->
  exists A', fold_half n (map oc A) = map oc A' /\ Forall (Z.le 0) A' /\ length A' = n /\
    zsum A' = zsum A.
Proof.
  intros HA Hl. exists (zip_with Z.add (take n A) (drop n A)). unfold fold_half. split_and!.
  - rewrite <- !fmap_take, <- !fmap_drop.
    assert (Forall (Z.le 0) (take n A)) as H1 by by apply Forall_take.
    assert (Forall (Z.le 0) (drop n A)) as H2 by by apply Forall_drop.
    revert H1 H2. generalize (take n A) (drop n A). clear. intros B D HB. revert D.
    induction HB as [|b B Hb _ IH]; intros [|d D] HD; simpl; try done.
    inversion HD; subst. f_equal; [by apply add_carry_oc|by apply IH].
  - assert (Forall (Z.le 0) (take n A)) as H1 by by apply Forall_take.
    assert (Forall (Z.le 0) (drop n A)) as H2 by by apply Forall_drop.
    revert H1 H2. generalize (take n A) (drop n A). clear. intros B D HB. revert D.
    induction HB as [|b B Hb _ IH]; intros [|d D] HD; simpl; try constructor;
      inversion HD; subst; [lia|by apply IH].
  - rewrite length_zip_with, length_take, length_drop. lia.
  - rewrite zsum_zip by (rewrite length_take, length_drop; lia).
    rewrite <- zsum_app, take_drop. done.
Qed.

Lemma total_sum_oc A :
  Forall (Z.le 0) A -> (length A = 4 \/ length A = 8 \/ length A = 16 \/ length A = 32)%nat ->
  total_sum (map oc A) = oc (zsum A).
Proof.
  intros HA HlA. unfold total_sum. rewrite length_map.
  assert (forall B, Forall (Z.le 0) B -> length B = 4%nat ->
    match map oc B with
    | s0 :: s1 :: s2 :: s3 :: _ => add_carry (add_carry s0 s2) (add_carry s1 s3)
    | _ => 0
    end = oc (zsum B)) as H4.
  { intros B HB Hl. destruct B as [|b0 [|b1 [|b2 [|b3 [|]]]]]; simpl in Hl; try lia.
    repeat match goal with H : Forall _ (_ :: _) |- _ => inversion H; subst; clear H end.
    simpl. rewrite !add_carry_oc by lia. f_equal. unfold zsum. simpl. lia. }
  assert (forall B, Forall (Z.le 0) B -> length B = 8%nat ->
    exists B', fold_half 4 (map oc B) = map oc B' /\ Forall (Z.le 0) B' /\ length B' = 4%nat /\
      zsum B' = zsum B) as H8 by (intros; by apply fold_half_oc).
  assert (forall B, Forall (Z.le 0) B -> length B = 16%nat ->
    exists B', fold_half 8 (map oc B) = map oc B' /\ Forall (Z.le 0) B' /\ length B' = 8%nat /\
      zsum B' = zsum B) as H16 by (intros; by apply fold_half_oc).
  destruct HlA as [Hl|[Hl|[Hl|Hl]]]; rewrite Hl; simpl.
  - by apply H4.
  - destruct (H8 A HA Hl) as (B & -> & HB & HlB & <-). by apply H4.
  - destruct (H16 A HA Hl) as (B & -> & HB & HlB & <-).
    destruct (H8 B HB HlB) as (D & -> & HD & HlD & <-). by apply H4.
  - destruct (fold_half_oc 16 A HA Hl) as (F & -> & HF & HlF & <-).
    destruct (H16 F HF HlF) as (B & -> & HB & HlB & <-).
    destruct (H8 B HB HlB) as (D & -> & HD & HlD & <-). by apply H4.
Qed.

Lemma complement16 x : 0 <= x <= 65535 -> bits 15 0 (wrap 17 (Z.lnot x)) = 65535 - x.
Proof. intros Hx. rewrite bits_0. unfold Z.lnot. wrap_lia. Qed.

Lemma sum16_bound bs : bytes bs -> sum16 bs <= 65535 * Z.of_nat (length bs).
Proof.
  intros Hb. assert (forall n bs, (length bs <= n)%nat -> bytes bs -> sum16 bs <= 65535 * Z.of_nat (length bs));
    [|by eapply H]. clear.
  induction n as [|n IH]; intros [|a [|b bs]] Hl Hb; simpl length in *; try (simpl; lia);
    repeat (inversion Hb as [|? ? ? Hb']; subst; clear Hb; rename Hb' into Hb);
    unfold in_width in *; change (2 ^ 8) with 256 in *; cbn [sum16]; try lia.
  specialize (IH bs ltac:(lia) Hb). lia.
Qed.

Lemma rfc1071_oc bs : bytes bs -> rfc1071 bs = 65535 - oc (sum16 bs).
Proof.
  intros Hb. unfold rfc1071. rewrite fold_carries_oc; [done|].
  pose proof (sum16_nonneg bs Hb). pose proof (sum16_bound bs Hb). lia.
Qed.

Lemma finalize_packet A bs :
  Forall (Z.le 0) A -> (length A = 4 \/ length A = 8 \/ length A = 16 \/ length A = 32)%nat ->
  bytes bs -> zsum A = sum16 bs ->
  finalize_ipv4_checksum (map oc A) = rfc1071 bs.
Proof.
  intros HA Hl Hb Hs. unfold finalize_ipv4_checksum. rewrite total_sum_oc, Hs by done.
  rewrite complement16 by (apply oc_range; by apply sum16_nonneg). by rewrite rfc1071_oc.
Qed.

(** The checksum of a packet, put in the place of two zero bytes, makes it valid. *)
Lemma inserted_checksum_valid p q n :
  bytes (p ++ [0; 0] ++ q) -> length p = (2 * n)%nat -> 0 < sum16 (p ++ [0; 0] ++ q) ->
  let ck := rfc1071 (p ++ [0; 0] ++ q) in
  rfc1071 (p ++ [ck / 256; ck `mod` 256] ++ q) = 0.
Proof.
  intros Hb Hl Hpos ck. pose proof (rfc1071_oc _ Hb) as Hck. fold ck in Hck.
  destruct (oc_spec _ Hpos) as (k & Hk & Hr).
  assert (bytes (p ++ [ck / 256; ck `mod` 256] ++ q)) as Hb'.
  { apply Forall_app in Hb as [Hbp Hbq]. apply Forall_app in Hbq as [_ Hbq].
    apply Forall_app. split; [done|]. apply Forall_app. split; [|done].
    repeat constructor; change (2 ^ 8) with 256;
      try (apply Z.div_pos; lia); try (apply Z.div_lt_upper_bound; lia);
      try (pose proof (Z.mod_pos_bound ck 256); lia). }
  rewrite rfc1071_oc by done. assert (sum16 (p ++ [ck / 256; ck `mod` 256] ++ q)
    = sum16 (p ++ [0; 0] ++ q) + ck) as ->.
  { rewrite !(sum16_app p _ n) by done. simpl. pose proof (Z.div_mod ck 256). lia. }
  rewrite (oc_unique _ 65535); [lia|lia|lia|]. exists k. lia.
Qed.
(** Words of an even number of lanes. *)
Variable half : nat.
Hypothesis lanes_even : lanes = (2 * half)%nat.

Lemma zero_sums_oc : zero_sums = map oc (replicate half 0).
Proof.
  unfold zero_sums. rewrite lanes_even, Nat.mul_comm, Nat.div_mul by done.
  by rewrite fmap_replicate.
Qed.

Definition words_out (w : list subsum_write) : list net_axis :=
  omap (fun x => match x with W_tcts_dataOut wd => Some wd | _ => None end) w.
Definition sums_out (w : list subsum_write) : list (list Z) :=
  omap (fun x => match x with W_subChecksums s => Some s | _ => None end) w.

Lemma words_out_app w1 w2 : words_out (w1 ++ w2) = words_out w1 ++ words_out w2.
Proof. apply omap_app. Qed.
Lemma sums_out_app w1 w2 : sums_out (w1 ++ w2) = sums_out w1 ++ sums_out w2.
Proof. apply omap_app. Qed.

(** One word more. *)
Lemma add_word_packet A bs pad :
  Forall (Z.le 0) A -> length A = half -> bytes bs -> (length bs + length pad)%nat = lanes ->
  exists A', add_word (map oc A) (bs ++ pad) (low_lanes lanes (length bs)) = map oc A' /\
    Forall (Z.le 0) A' /\ length A' = half /\ zsum A' = zsum A + sum16 bs.
Proof.
  intros HA HlA Hb Hl. rewrite lanes_even in *.
  destruct (word_terms bs pad half Hb Hl) as [Hok Hsum].
  destruct (add_word_oc A (bs ++ pad) (low_lanes (2 * half) (length bs)) HA Hok) as [-> Hlen].
  { rewrite length_app. lia. }
  eexists. split; [done|]. pose proof (pair_terms_nonneg _ _ Hok) as Hp. split_and!.
  - clear -HA Hp. revert Hp. generalize (pair_terms (bs ++ pad) (low_lanes (2 * half) (length bs))).
    induction HA as [|a A Ha _ IH]; intros [|b B] HB; simpl; try constructor; inversion HB; subst; [lia|by apply IH].
  - rewrite length_zip_with. lia.
  - rewrite zsum_zip by lia. lia.
Qed.

Lemma subsums_packet A ws bs rest :
  packet ws bs -> bytes bs -> Forall (Z.le 0) A -> length A = half ->
  exists w A',
    drained two_complement_subchecksums subsum_arrive (mkSubsumEnv (map oc A) (ws ++ rest))
    = w ++ drained two_complement_subchecksums subsum_arrive (mkSubsumEnv zero_sums rest) /\
    words_out w = ws /\ sums_out w = [map oc A'] /\
    Forall (Z.le 0) A' /\ length A' = half /\ zsum A' = zsum A + sum16 bs.
Proof.
  intros Hp. revert A. induction Hp as [bs pad Hne Hl|bs ws bs' Hl Hp IH]; intros A Hb HA HlA.
  - destruct (add_word_packet A bs pad HA HlA Hb Hl) as (A' & HA' & Hnn & Hlen & Hsum).
    eexists [_; _], A'. erewrite drained_call by reflexivity. simpl. rewrite HA'.
    split; [reflexivity|]. split_and!; done.
  - apply Forall_app in Hb as [Hb Hb'].
    destruct (add_word_packet A bs [] HA HlA Hb) as (A1 & HA1 & Hnn1 & Hlen1 & Hsum1); [simpl; lia|].
    rewrite app_nil_r, Hl in HA1.
    destruct (IH A1 Hb' Hnn1 Hlen1) as (w & A' & Hd & Hw & Hs & Hnn & Hlen & Hsum).
    eexists (_ :: w), A'. erewrite drained_call by reflexivity. simpl. rewrite HA1.
    split; [f_equal; exact Hd|].
    change (words_out (W_tcts_dataOut ?x :: w)) with (x :: words_out w).
    change (sums_out (W_tcts_dataOut ?x :: w)) with (sums_out w).
    rewrite Hw, Hs. split_and!; try done.
    rewrite Hsum, Hsum1, (sum16_app bs bs' half) by lia. lia.
Qed.

Lemma subsums_packets ws bss :
  packets ws bss -> Forall (fun bs => bytes bs) bss ->
  exists As, let w := drained two_complement_subchecksums subsum_arrive (mkSubsumEnv zero_sums ws) in
    words_out w = ws /\ sums_out w = map (map oc) As /\
    Forall2 (fun A bs => Forall (Z.le 0) A /\ length A = half /\ zsum A = sum16 bs) As bss.
Proof.
  induction 1 as [|ws bs ws' bss Hp _ IH]; intros Hb.
  - exists []. by rewrite drained_stuck.
  - inversion Hb as [|? ? Hb1 Hb2]; subst. destruct (IH Hb2) as (As & Hw & Hs & HA).
    rewrite zero_sums_oc. destruct (subsums_packet (replicate half 0) ws bs ws') as
      (w & A & Hd & Hw1 & Hs1 & Hnn & Hlen & Hsum); [done|done| |apply length_replicate|].
    { by apply Forall_replicate. }
    exists (A :: As). cbv zeta. rewrite Hd, words_out_app, sums_out_app, Hw1, Hs1, Hw, Hs.
    split_and!; [done|done|]. constructor; [|done]. split_and!; [done|done|].
    rewrite Hsum. assert (zsum (replicate half 0) = 0) as ->; [|lia].
    clear. induction half as [|n IHn]; [done|]. unfold zsum in *. simpl. lia.
Qed.

Hypothesis half_ok : (half = 4 \/ half = 8 \/ half = 16 \/ half = 32)%nat.

Lemma finalize_packets As bss :
  Forall2 (fun A bs => Forall (Z.le 0) A /\ length A = half /\ zsum A = sum16 bs) As bss ->
  Forall (fun bs => bytes bs) bss ->
  map finalize_ipv4_checksum (map (map oc) As) = map rfc1071 bss.
Proof.
  induction 1 as [|A bs As bss (H1 & H2 & H3) _ IH]; intros Hb; [done|].
  apply Forall_cons_1 in Hb as [Hb1 Hb2]. simpl. rewrite IH by done. f_equal.
  apply finalize_packet; try done. lia.
Qed.

Lemma subsum_output s bss :
  packets (arrivals s) bss -> Forall (fun bs => bytes bs) bss ->
  let w := output two_complement_subchecksums subsum_arrive s subsum_init in
  words_out w = arrivals s /\
  map finalize_ipv4_checksum (sums_out w) = map rfc1071 bss /\
  map toe_check_ipv4_checksum (sums_out w) = map (fun bs => rfc1071 bs =? 0) bss.
Proof.
  intros Hp Hb w. unfold w. rewrite output_drained.
  assert (arrive_all subsum_arrive (arrivals s) subsum_init = mkSubsumEnv zero_sums (arrivals s)) as ->.
  { set (e := arrive_all _ _ _). transitivity (mkSubsumEnv (tcts_tcp_sums e) (tcts_dataIn e)); [by destruct e|].
    unfold e. f_equal; [by apply (arrive_all_other _ tcts_tcp_sums)|].
    rewrite (arrive_all_stream _ tcts_dataIn Some) by done. simpl.
    rewrite <- (map_id (arrivals s)) at 1. by apply omap_map_Some. }
  destruct (subsums_packets (arrivals s) bss Hp Hb) as (As & Hw & Hs & HA). cbv zeta in *.
  rewrite Hw, Hs. split; [done|].
  pose proof (finalize_packets As bss HA Hb) as Hf.
  split; [done|]. unfold toe_check_ipv4_checksum.
  rewrite <- (map_map finalize_ipv4_checksum (fun c => c =? 0)), Hf. by rewrite map_map.
Qed.

(** C35: the checksums are those of RFC 1071.  For any packets, arriving on any
    schedule, the words are passed on unchanged and one set of partial sums is
    written for each packet; the value [finalize_ipv4_checksum] makes of it is the
    RFC 1071 checksum of the bytes of the packet, and [toe_check_ipv4_checksum]
    accepts exactly the packets whose checksum is 0. *)
Theorem checksum_is_rfc1071 s bss :
  packets (arrivals s) bss -> Forall (fun bs => bytes bs) bss ->
  let w := output two_complement_subchecksums subsum_arrive s subsum_init in
  words_out w = arrivals s /\
  map finalize_ipv4_checksum (sums_out w) = map rfc1071 bss /\
  map toe_check_ipv4_checksum (sums_out w) = map (fun bs => rfc1071 bs =? 0) bss.
Proof. apply subsum_output. Qed.

End Checksum.

#[export] Existing Instances eta_subsum_env subsum_kahn.

Section ChecksumWitnesses.
Definition width8 : WordWidth := 8%nat.
Local Existing Instance width8.

(** The example of RFC 1071, and an odd number of bytes. *)
Definition demo_checksum_bytes : list (list Z) := [[0; 1; 242; 3; 244; 245; 246; 247]; [255; 255; 5]].
Definition demo_checksum_words : list net_axis :=
  [mkWord [0; 1; 242; 3; 244; 245; 246; 247] (low_lanes 8 8) true;
   mkWord [255; 255; 5; 77; 77; 77; 77; 77] (low_lanes 8 3) true].

Lemma checksum_is_rfc1071_witness :
  let w := output two_complement_subchecksums subsum_arrive (map Some demo_checksum_words) subsum_init in
  map finalize_ipv4_checksum (sums_out w) = [8717; 64255].
Proof.
  refine (eq_trans (proj1 (proj2 (checksum_is_rfc1071 4 eq_refl (or_introl eq_refl)
    (map Some demo_checksum_words) demo_checksum_bytes _ _))) _).
  - change (packets demo_checksum_words demo_checksum_bytes).
    apply (packets_cons [_] _ [_] [_]); [|apply (packets_cons [_] _ [] []); [|constructor]].
    + apply (packet_last [0; 1; 242; 3; 244; 245; 246; 247] []); done.
    + apply (packet_last [255; 255; 5] [77; 77; 77; 77; 77]); done.
  - repeat constructor; done.
  - by vm_compute.
Defined.
End ChecksumWitnesses.
