(* ===== verification/Headers.v ===== *)
(** * Packet headers ([packet.hpp], [toe/toe_internals.hpp], [ipv4/ipv4.hpp])

    [packetHeader] collects the words of a header into one number and hands it out
    again word by word; its subclasses name the fields.  A header is modelled as the
    number in [header], a field as its bit range. *)

From S2P Require Import Prelude Words ToeTypes.

(** ** The lanes of a number *)
Fixpoint le_bytes (n : nat) (z : Z) : list Z :=
  match n with
  | O => []
  | S n => z `mod` 256 :: le_bytes n (z / 256)
  end.

Lemma le_bytes_length n z : length (le_bytes n z) = n.
Proof. revert z. induction n as [|n IH]; intros z; [done|]. simpl. by rewrite IH. Qed.

Lemma le_bytes_bytes n z : bytes (le_bytes n z).
Proof.
  revert z. induction n as [|n IH]; intros z; constructor; [|apply IH].
  apply Z.mod_pos_bound. lia.
Qed.

Lemma le_val_bytes n z : le_val (le_bytes n z) = wrap (8 * Z.of_nat n) z.
Proof.
  revert z. induction n as [|n IH]; intros z.
  - symmetry. apply Z.mod_1_r.
  - simpl le_bytes. rewrite le_val_cons, IH. unfold wrap.
    replace (8 * Z.of_nat (S n)) with (8 + 8 * Z.of_nat n) by lia.
    rewrite Z.pow_add_r by lia. change (2 ^ 8) with 256. by rewrite Z.rem_mul_r by lia.
Qed.

Lemma le_bytes_val l : bytes l -> le_bytes (length l) (le_val l) = l.
Proof.
  induction 1 as [|b l Hb _ IH]; [done|]. simpl length. rewrite le_val_cons. simpl le_bytes.
  unfold in_width in Hb. change (2 ^ 8) with 256 in Hb. rewrite (Z.mul_comm 256). f_equal.
  - rewrite Z_mod_plus_full. by apply Z.mod_small.
  - rewrite Z.div_add, Z.div_small by lia. exact IH.
Qed.

(** Numbers of the same width with the same value have the same lanes. *)
Lemma le_val_inj l1 l2 : bytes l1 -> bytes l2 -> length l1 = length l2 -> le_val l1 = le_val l2 -> l1 = l2.
Proof.
  intros H1 H2 Hl He. rewrite <- (le_bytes_val l1), <- (le_bytes_val l2) by done. by rewrite Hl, He.
Qed.

Section PacketHeader.
Context {WW : WordWidth}.

(** [W], the width of a word. *)
Definition WIDTH : Z := 8 * Z.of_nat lanes.

(** ** [packetHeader<W, HEADER_SIZE>] *)
Record packetHeader := mkPacketHeader { ph_ready : bool; ph_idx : Z; ph_header : Z }.
#[export] Instance eta_packetHeader : Eta packetHeader := fun h =>
  mkPacketHeader (ph_ready h) (ph_idx h) (ph_header h).

(** [clear] keeps the old contents. *)
Definition clear (h : packetHeader) : packetHeader := h <| ph_ready := false |> <| ph_idx := 0 |>.

Section Header.
Variable HEADER_SIZE : Z.

Definition parseWord (w : list Z) (h : packetHeader) : packetHeader :=
  if ph_ready h then h
  else
    let idx := ph_idx h in
    let h :=
      if idx * WIDTH + WIDTH <? HEADER_SIZE
      then h <| ph_header := set_bits (idx * WIDTH + WIDTH - 1) (idx * WIDTH) (le_val w) (ph_header h) |>
      else h <| ph_header := set_bits (HEADER_SIZE - 1) (idx * WIDTH) (le_val w) (ph_header h) |>
             <| ph_ready := true |> in
    h <| ph_idx := wrap 16 (idx + 1) |>.

(** The word is passed by reference; the result is what remains of the header. *)
Definition consumeWord (w : list Z) (h : packetHeader) : packetHeader * list Z * Z :=
  let idx := ph_idx h in
  if (idx + 1) * WIDTH <=? HEADER_SIZE then
    (h <| ph_idx := wrap 16 (idx + 1) |>,
     le_bytes lanes (bits ((idx + 1) * WIDTH - 1) (idx * WIDTH) (ph_header h)),
     wrap 8 ((HEADER_SIZE - wrap 16 (idx + 1) * WIDTH) / 8))
  else if idx * WIDTH <? HEADER_SIZE then
    let n := Z.to_nat ((HEADER_SIZE mod WIDTH) / 8) in
    (h <| ph_idx := wrap 16 (idx + 1) |>,
     le_bytes n (bits (HEADER_SIZE - 1) (idx * WIDTH) (ph_header h)) ++ drop n w, 0)
  else (h, w, 0).
End Header.
End PacketHeader.

#[export] Existing Instances eta_packetHeader.

(** ** [tcpFullPseudoHeader] *)
Definition TCP_PSEUDO_HEADER_SIZE : Z := 96.
Definition TCP_FULL_PSEUDO_HEADER_SIZE : Z := 256.
Definition TCP_OPTIONAL_HEADER_SIZE : Z := 320.
Definition IPV4_HEADER_SIZE : Z := 160.

Module TcpFull.
(** The fields that the constructor sets; the others are undefined. *)
Definition init (h : Z) : Z :=
  set_bits 255 240 0 (set_bits 207 205 0 (set_bits 203 203 0 (set_bits 195 193 0
    (set_bits 192 192 0 (set_bits 79 72 6 (set_bits 71 64 0 h)))))).

Definition setSrcAddr (addr h : Z) : Z := set_bits 31 0 addr h.
Definition setDstAddr (addr h : Z) : Z := set_bits 63 32 addr h.
Definition setLength (len h : Z) : Z := set_bits 95 80 (reverse16 (wrap 16 len)) h.
Definition setSrcPort (port h : Z) : Z := set_bits 111 96 port h.
Definition setDstPort (port h : Z) : Z := set_bits 127 112 port h.
Definition setSeqNumb (seq h : Z) : Z := set_bits 159 128 (reverse32 seq) h.
Definition setAckNumb (ack h : Z) : Z := set_bits 191 160 (reverse32 ack) h.
Definition setDataOffset (offset h : Z) : Z := set_bits 199 196 offset h.
Definition setAckFlag (flag : bool) (h : Z) : Z := set_bits 204 204 (b2z flag) h.
Definition setRstFlag (flag : bool) (h : Z) : Z := set_bits 202 202 (b2z flag) h.
Definition setSynFlag (flag : bool) (h : Z) : Z := set_bits 201 201 (b2z flag) h.
Definition setFinFlag (flag : bool) (h : Z) : Z := set_bits 200 200 (b2z flag) h.
Definition setWindowSize (size h : Z) : Z := set_bits 223 208 (reverse16 size) h.
Definition setChecksum (checksum h : Z) : Z := set_bits 239 224 checksum h.

Definition getSrcAddr (h : Z) : Z := bits 31 0 h.
Definition getDstAddr (h : Z) : Z := bits 63 32 h.
Definition getLength (h : Z) : Z := reverse16 (bits 95 80 h).
Definition getSrcPort (h : Z) : Z := bits 111 96 h.
Definition getDstPort (h : Z) : Z := bits 127 112 h.
Definition getSeqNumb (h : Z) : Z := reverse32 (bits 159 128 h).
Definition getAckNumb (h : Z) : Z := reverse32 (bits 191 160 h).
Definition getDataOffset (h : Z) : Z := bits 199 196 h.
Definition getAckFlag (h : Z) : bool := nonzero (bit 204 h).
Definition getRstFlag (h : Z) : bool := nonzero (bit 202 h).
Definition getSynFlag (h : Z) : bool := nonzero (bit 201 h).
Definition getFinFlag (h : Z) : bool := nonzero (bit 200 h).
Definition getWindowSize (h : Z) : Z := reverse16 (bits 223 208 h).
End TcpFull.

(** ** [tcpPseudoHeader] *)
Module TcpPseudo.
Definition init (h : Z) : Z := set_bits 79 72 6 (set_bits 71 64 0 h).
Definition setSrcAddr (addr h : Z) : Z := set_bits 31 0 addr h.
Definition setDstAddr (addr h : Z) : Z := set_bits 63 32 addr h.
Definition setLength (len h : Z) : Z := set_bits 95 80 (reverse16 (wrap 16 len)) h.
End TcpPseudo.

(** ** [ipv4Header] *)
Module Ipv4.
Definition init (h : Z) : Z := set_bits 71 64 64 (set_bits 7 0 69 h).
Definition setSrcAddr (addr h : Z) : Z := set_bits 127 96 addr h.
Definition setDstAddr (addr h : Z) : Z := set_bits 159 128 addr h.
Definition setLength (len h : Z) : Z := set_bits 31 16 (reverse16 (wrap 16 len)) h.
Definition setProtocol (protocol h : Z) : Z := set_bits 79 72 protocol h.
Definition getSrcAddr (h : Z) : Z := bits 127 96 h.
Definition getDstAddr (h : Z) : Z := bits 159 128 h.
Definition getLength (h : Z) : Z := reverse16 (bits 31 16 h).
Definition getProtocol (h : Z) : Z := bits 79 72 h.
Definition getHeaderLength (h : Z) : Z := bits 3 0 h.
End Ipv4.

(** ** Reversal of the byte order *)
Lemma reverse16_lanes a b :
  in_width 8 a -> in_width 8 b -> reverse16 (le_val [a; b]) = 256 * a + b.
Proof. intros Ha Hb. unfold reverse16, set_bits, bits, le_val. simpl. wrap_lia. Qed.

Lemma reverse16_width w : in_width 16 (reverse16 w).
Proof. unfold reverse16, set_bits, bits. wrap_lia. Qed.

Lemma reverse32_width w : in_width 32 (reverse32 w).
Proof. unfold reverse32, set_bits, bits. wrap_lia. Qed.

Lemma reverse32_involutive w : in_width 32 w -> reverse32 (reverse32 w) = w.
Proof.
  intros Hw. unfold reverse32 at 1.
  assert (bits 31 24 (reverse32 w) = bits 7 0 w) as ->
    by (unfold reverse32; read_range; apply wrap_small; by apply (bits_range 7 0)).
  assert (bits 23 16 (reverse32 w) = bits 15 8 w) as ->
    by (unfold reverse32; read_range; apply wrap_small; by apply (bits_range 15 8)).
  assert (bits 15 8 (reverse32 w) = bits 23 16 w) as ->
    by (unfold reverse32; read_range; apply wrap_small; by apply (bits_range 23 16)).
  assert (bits 7 0 (reverse32 w) = bits 31 24 w) as ->
    by (unfold reverse32; read_range; apply wrap_small; by apply (bits_range 31 24)).
  unfold set_bits, bits. wrap_lia.
Qed.

Lemma reverse32_lanes a b c d :
  in_width 8 a -> in_width 8 b -> in_width 8 c -> in_width 8 d ->
  reverse32 (le_val [a; b; c; d]) = 16777216 * a + 65536 * b + 256 * c + d.
Proof. intros Ha Hb Hc Hd. unfold reverse32, set_bits, bits, le_val. simpl. wrap_lia. Qed.

(** ** Fields of a byte string

    [be_val] is the number in network byte order. *)
Definition be_val (l : list Z) : Z := foldl (fun v b => 256 * v + b) 0 l.

Definition field (m n : nat) (bs : list Z) : list Z := take n (drop m bs).

Lemma field_length m n bs : (m + n <= length bs)%nat -> length (field m n bs) = n.
Proof. intros H. unfold field. rewrite length_take, length_drop. lia. Qed.

Lemma field_bytes m n bs : bytes bs -> bytes (field m n bs).
Proof. intros H. by apply Forall_take, Forall_drop. Qed.

Lemma field_drop k m n bs : field m n (drop k bs) = field (k + m) n bs.
Proof. unfold field. by rewrite drop_drop. Qed.

Lemma field_app_r m n l1 l2 : (length l1 <= m)%nat -> field m n (l1 ++ l2) = field (m - length l1) n l2.
Proof. intros H. unfold field. by rewrite drop_app_ge. Qed.

Lemma field_app_l m n l1 l2 : (m + n <= length l1)%nat -> field m n (l1 ++ l2) = field m n l1.
Proof.
  intros H. unfold field. rewrite drop_app_le, take_app_le; [done| |lia]. rewrite length_drop. lia.
Qed.

Lemma reverse16_be l : bytes l -> length l = 2%nat -> reverse16 (le_val l) = be_val l.
Proof.
  intros Hb Hl. destruct l as [|a [|b []]]; try done. decompose_Forall.
  transitivity (256 * a + b); [by apply reverse16_lanes|unfold be_val; simpl; lia].
Qed.

Lemma reverse32_be l : bytes l -> length l = 4%nat -> reverse32 (le_val l) = be_val l.
Proof.
  intros Hb Hl. destruct l as [|a [|b [|c [|d []]]]]; try done. decompose_Forall.
  transitivity (16777216 * a + 65536 * b + 256 * c + d);
    [by apply reverse32_lanes|unfold be_val; simpl; lia].
Qed.

Lemma be_val_two a b : be_val [a; b] = 256 * a + b.
Proof. unfold be_val. simpl. lia. Qed.

Lemma be_val_range l : bytes l -> 0 <= be_val l < 2 ^ (8 * Z.of_nat (length l)).
Proof.
  induction l as [|b l IH] using rev_ind; [done|]. intros [Hl Hb]%Forall_app.
  inversion Hb; subst. specialize (IH Hl). unfold be_val in *. rewrite foldl_app, length_app. simpl in *.
  replace (8 * Z.of_nat (length l + 1)) with (8 + 8 * Z.of_nat (length l)) by lia.
  rewrite Z.pow_add_r by lia. unfold in_width in *. change (2 ^ 8) with 256 in *. nia.
Qed.

(** A range that ends below [k] bits is not changed by what is above. *)
Lemma bits_add_above hi lo k x y :
  0 <= lo -> lo <= hi + 1 -> hi < k -> bits hi lo (x + 2 ^ k * y) = bits hi lo x.
Proof.
  intros H0 Hl Hk. unfold bits.
  replace (2 ^ k * y) with ((y * 2 ^ (k - hi - 1)) * 2 ^ (hi - lo + 1) * 2 ^ lo).
  - rewrite Z.div_add by lia. by rewrite Z_mod_plus_full.
  - assert (2 ^ k = 2 ^ (k - hi - 1) * 2 ^ (hi - lo + 1) * 2 ^ lo) as ->; [|ring].
    rewrite <- !Z.pow_add_r by lia. f_equal. lia.
Qed.

(** A range of a range. *)
Lemma bits_bits hi lo hi' lo' x :
  0 <= lo -> 0 <= lo' -> lo' <= hi' + 1 -> hi' <= hi - lo ->
  bits hi' lo' (bits hi lo x) = bits (lo + hi') (lo + lo') x.
Proof.
  intros H0 H1 H2 H3. unfold bits at 2.
  rewrite (Z.mod_eq (x / 2 ^ lo)) by lia. set (q := x / 2 ^ lo / _).
  replace (x / 2 ^ lo - 2 ^ (hi - lo + 1) * q) with (x / 2 ^ lo + 2 ^ (hi - lo + 1) * (- q)) by ring.
  rewrite bits_add_above by lia. unfold bits.
  rewrite (Z.pow_add_r 2 lo), <- Z.div_div by lia. f_equal. f_equal. lia.
Qed.

(** The lanes in use determine the fields in them, whatever is in the others. *)
Lemma bits_field hi lo m n bs pad :
  bytes bs -> (m + n <= length bs)%nat -> lo = 8 * Z.of_nat m -> hi = lo + 8 * Z.of_nat n - 1 ->
  bits hi lo (le_val (bs ++ pad)) = le_val (field m n bs).
Proof.
  intros Hb Hl Hlo Hhi. rewrite le_val_app, bits_add_above by lia. by apply bits_le_val.
Qed.

Lemma le_val_single b : le_val [b] = b.
Proof. unfold le_val. simpl. lia. Qed.

Lemma bits_bit i x : 0 <= i -> nonzero (bits i i x) = Z.testbit x i.
Proof.
  intros Hi. unfold bits, nonzero. replace (i - i + 1) with 1 by lia. change (2 ^ 1) with 2.
  pose proof (Z.mod_pos_bound (x / 2 ^ i) 2 ltac:(lia)).
  destruct (Z.testbit x i) eqn:Ht.
  - apply Z.testbit_true in Ht; [|done]. by rewrite Ht.
  - apply Z.testbit_false in Ht; [|done]. by rewrite Ht.
Qed.

(** The byte at a position. *)
Definition byte_at (m : nat) (bs : list Z) : Z := default 0 (bs !! m).

Lemma field_one m bs : (m < length bs)%nat -> field m 1 bs = [byte_at m bs].
Proof.
  intros H. unfold field, byte_at. destruct (lookup_lt_is_Some_2 bs m H) as [b Hb].
  rewrite Hb. by rewrite (drop_S _ _ _ Hb).
Qed.

(** A range inside a lane. *)
Lemma bits_in_lane hi lo m hi' lo' bs pad :
  bytes bs -> (m < length bs)%nat -> 0 <= lo' -> lo' <= hi' + 1 -> hi' <= 7 ->
  lo = 8 * Z.of_nat m + lo' -> hi = 8 * Z.of_nat m + hi' ->
  bits hi lo (le_val (bs ++ pad)) = bits hi' lo' (byte_at m bs).
Proof.
  intros Hb Hm H0 H1 H2 -> ->.
  rewrite <- (bits_bits (8 * Z.of_nat m + 7) (8 * Z.of_nat m) hi' lo') by lia.
  rewrite (bits_field _ _ m 1) by (done || lia). by rewrite field_one, le_val_single by done.
Qed.

(** A header of whole lanes, taken from a word. *)
Lemma set_bits_header n v x : 0 <= n -> forall hi lo, 0 <= lo -> lo <= hi + 1 -> hi < n ->
  bits hi lo (set_bits (n - 1) 0 v x) = bits hi lo v.
Proof.
  intros Hn hi lo H0 H1 H2. transitivity (bits hi lo (bits (n - 1) 0 (set_bits (n - 1) 0 v x))).
  - rewrite bits_bits by lia. by rewrite !Z.add_0_l.
  - rewrite bits_set_bits by lia. replace (n - 1 - 0 + 1) with (n - 1 + 1) by lia.
    rewrite <- bits_0, bits_bits by lia. by rewrite !Z.add_0_l.
Qed.

(** A range in two parts. *)
Lemma bits_split mid hi lo x :
  0 <= lo -> lo <= mid + 1 -> mid <= hi ->
  bits hi lo x = bits mid lo x + 2 ^ (mid + 1 - lo) * bits hi (mid + 1) x.
Proof.
  intros H0 H1 H2. unfold bits. set (y := x / 2 ^ lo).
  replace (x / 2 ^ (mid + 1)) with (y / 2 ^ (mid + 1 - lo)).
  - replace (hi - lo + 1) with ((mid + 1 - lo) + (hi - (mid + 1) + 1)) by lia.
    replace (mid - lo + 1) with (mid + 1 - lo) by lia.
    rewrite Z.pow_add_r by lia. by rewrite Z.rem_mul_r by lia.
  - unfold y. rewrite Z.div_div by lia. rewrite <- Z.pow_add_r by lia. do 2 f_equal. lia.
Qed.

(** The same with the bounds given as numbers. *)
Lemma bits_cut mid mid1 w hi lo x :
  0 <= lo -> lo <= mid + 1 -> mid <= hi -> mid1 = mid + 1 -> w = mid1 - lo ->
  bits hi lo x = bits mid lo x + 2 ^ w * bits hi mid1 x.
Proof. intros H0 H1 H2 -> ->. by apply bits_split. Qed.

Lemma reverse16_le_val len :
  in_width 16 len -> reverse16 len = le_val [len / 256; len `mod` 256].
Proof. intros H. unfold reverse16, set_bits, bits, le_val. cbn. wrap_lia. Qed.

Lemma bytes_be16 len : in_width 16 len -> bytes [len / 256; len `mod` 256].
Proof. intros H. repeat constructor; wrap_lia. Qed.

(** The lanes of a range, in two parts. *)
Lemma le_bytes_app a b z : le_bytes (a + b) z = le_bytes a z ++ le_bytes b (z / 2 ^ (8 * Z.of_nat a)).
Proof.
  revert z. induction a as [|a IH]; intros z.
  - simpl. by rewrite Z.div_1_r.
  - cbn [le_bytes Nat.add app]. f_equal. rewrite IH. do 2 f_equal.
    rewrite Z.div_div by lia. f_equal. change 256 with (2 ^ 8). rewrite <- Z.pow_add_r by lia. f_equal. lia.
Qed.

Lemma le_bytes_wrap n z w : 8 * Z.of_nat n <= w -> le_bytes n (wrap w z) = le_bytes n z.
Proof.
  intros H. apply le_val_inj; try apply le_bytes_bytes; [by rewrite !le_bytes_length|].
  rewrite !le_val_bytes. apply wrap_narrow. lia.
Qed.

Lemma le_bytes_range a b hi lo h :
  0 <= lo -> hi = lo + 8 * Z.of_nat (a + b) - 1 ->
  le_bytes (a + b) (bits hi lo h)
  = le_bytes a (bits (lo + 8 * Z.of_nat a - 1) lo h) ++ le_bytes b (bits hi (lo + 8 * Z.of_nat a) h).
Proof.
  intros H0 ->. rewrite le_bytes_app. f_equal.
  - unfold bits. change (?x `mod` 2 ^ ?n) with (wrap n x). by rewrite !le_bytes_wrap by lia.
  - destruct b as [|b]; [done|]. f_equal. set (k := 8 * Z.of_nat a).
    replace (lo + 8 * Z.of_nat (a + S b) - 1) with (lo + (8 * Z.of_nat (a + S b) - 1)) by lia.
    rewrite <- (bits_bits (lo + (8 * Z.of_nat (a + S b) - 1)) lo _ k) by lia.
    set (x := bits _ lo h). assert (in_width (8 * Z.of_nat (a + S b)) x) as Hx.
    { unfold x. pose proof (bits_range (lo + (8 * Z.of_nat (a + S b) - 1)) lo h ltac:(lia)) as Hr.
      by replace (lo + (8 * Z.of_nat (a + S b) - 1) - lo + 1) with (8 * Z.of_nat (a + S b)) in Hr by lia. }
    unfold bits. symmetry. apply Z.mod_small. unfold in_width in Hx. split; [apply Z.div_pos; lia|].
    apply Z.div_lt_upper_bound; [lia|]. rewrite <- Z.pow_add_r by lia.
    replace (k + (8 * Z.of_nat (a + S b) - 1 - k + 1)) with (8 * Z.of_nat (a + S b)) by lia. apply Hx.
Qed.

Lemma le_bytes_cut a b hi mid top lo h :
  0 <= lo -> mid = lo + 8 * Z.of_nat a -> top = mid - 1 -> hi = mid + 8 * Z.of_nat b - 1 ->
  le_bytes (a + b) (bits hi lo h) = le_bytes a (bits top lo h) ++ le_bytes b (bits hi mid h).
Proof.
  intros H0 -> -> ->. rewrite (le_bytes_range a b _ lo) by lia. done.
Qed.

Lemma le_bytes_reverse16 n : in_width 16 n -> le_bytes 2 (reverse16 n) = [n / 256; n `mod` 256].
Proof.
  intros H. rewrite reverse16_le_val by done. change 2%nat with (length [n / 256; n `mod` 256]).
  by apply le_bytes_val, bytes_be16.
Qed.

(** A number in network byte order. *)
Definition be_bytes (n : nat) (z : Z) : list Z := reverse (le_bytes n z).

Lemma be_bytes_val n z : in_width (8 * Z.of_nat n) z -> be_val (be_bytes n z) = z.
Proof.
  intros H. unfold be_val, be_bytes. rewrite <- (wrap_small _ z H) at 2. rewrite <- le_val_bytes.
  generalize (le_bytes n z). clear. intros l. induction l as [|b l IH]; [done|].
  rewrite reverse_cons, foldl_app, IH. cbn [foldl]. rewrite le_val_cons. lia.
Qed.

Lemma be_bytes_length n z : length (be_bytes n z) = n.
Proof. unfold be_bytes. by rewrite length_reverse, le_bytes_length. Qed.

Lemma be_bytes_bytes n z : bytes (be_bytes n z).
Proof. apply Forall_reverse, le_bytes_bytes. Qed.

Lemma reverse32_bytes z : in_width 32 z -> le_bytes 4 (reverse32 z) = be_bytes 4 z.
Proof.
  intros Hz. apply le_val_inj; [apply le_bytes_bytes|apply be_bytes_bytes|by rewrite le_bytes_length, be_bytes_length|].
  rewrite le_val_bytes, wrap_small by apply reverse32_width.
  rewrite <- (reverse32_involutive (le_val (be_bytes 4 z))).
  - rewrite reverse32_be by (apply be_bytes_bytes || apply be_bytes_length). by rewrite be_bytes_val.
  - pose proof (le_val_range (be_bytes 4 z) (be_bytes_bytes 4 z)) as H. by rewrite be_bytes_length in H.
Qed.
