(* ===== verification/StateTable.v ===== *)
(** * The connection state table ([toe/state_table/state_table.cpp])

    One entry per session, read and then written by the TX application interface
    and by the RX engine; a read locks the entry for its reader until that side
    writes.  The close timer only closes.  Each side has one register for an
    access that found the entry locked by the other side. *)

From S2P Require Import Prelude ToeTypes.

Module StateTable.

(** The static variables and the four request streams. *)
Record state_table_env := mkStateTableEnv {
  stt_table : table sessionState;
  stt_txSessionID : Z;
  stt_rxSessionID : Z;
  stt_rxSessionLocked : bool;
  stt_txSessionLocked : bool;
  stt_txAccess : stateQuery;
  stt_rxAccess : stateQuery;
  stt_txWait : bool;
  stt_rxWait : bool;
  stt_closeSessionID : Z;
  stt_closeWait : bool;
  rxEng2stateTable_upd_req : stream stateQuery;
  txApp2stateTable_upd_req : stream stateQuery;
  txApp2stateTable_req : stream Z;
  timer2stateTable_releaseState : stream Z
}.

#[export] Instance eta_state_table_env : Eta state_table_env := fun e =>
  mkStateTableEnv (stt_table e) (stt_txSessionID e) (stt_rxSessionID e)
    (stt_rxSessionLocked e) (stt_txSessionLocked e) (stt_txAccess e) (stt_rxAccess e)
    (stt_txWait e) (stt_rxWait e) (stt_closeSessionID e) (stt_closeWait e)
    (rxEng2stateTable_upd_req e) (txApp2stateTable_upd_req e)
    (txApp2stateTable_req e) (timer2stateTable_releaseState e).

Definition state_table_init : state_table_env :=
  mkStateTableEnv ∅ 0 0 false false zero_init zero_init false false 0 false [] [] [] [].

Inductive state_table_write :=
| W_stateTable2rxEng_upd_rsp (s : sessionState)
| W_stateTable2TxApp_upd_rsp (s : sessionState)
| W_stateTable2txApp_rsp (s : sessionState)
| W_stateTable2sLookup_releaseSession (id : Z).

Definition rx_locks (e : state_table_env) (id : Z) : bool :=
  (id =? stt_rxSessionID e) && stt_rxSessionLocked e.
Definition tx_locks (e : state_table_env) (id : Z) : bool :=
  (id =? stt_txSessionID e) && stt_txSessionLocked e.

(** The accesses themselves, which the source writes out both where a request is
    read and where a delayed one is taken up again. *)
Definition tx_access (e : state_table_env) : state_table_env * list state_table_write :=
  let q := stt_txAccess e in
  let id := stq_sessionID q in
  if stq_write q
  then (e <| stt_table := tset id (stq_state q) (stt_table e) |>
          <| stt_txSessionLocked := false |>, [])
  else (e <| stt_txSessionID := id |> <| stt_txSessionLocked := true |>,
        [W_stateTable2TxApp_upd_rsp (stt_table e).[id]]).

Definition rx_access (e : state_table_env) : state_table_env * list state_table_write :=
  let q := stt_rxAccess e in
  let id := stq_sessionID q in
  if stq_write q
  then (e <| stt_table := tset id (stq_state q) (stt_table e) |>
          <| stt_rxSessionLocked := false |>,
        when (is_state (stq_state q) CLOSED) [W_stateTable2sLookup_releaseSession id])
  else (e <| stt_rxSessionID := id |> <| stt_rxSessionLocked := true |>,
        [W_stateTable2rxEng_upd_rsp (stt_table e).[id]]).

Definition close_access (e : state_table_env) : state_table_env * list state_table_write :=
  let id := stt_closeSessionID e in
  (e <| stt_table := tset id CLOSED (stt_table e) |>,
   [W_stateTable2sLookup_releaseSession id]).

(** The branches that take up a delayed access. *)
Definition waiting_access (e : state_table_env) : state_table_env * list state_table_write :=
  if stt_txWait e then
    if negb (rx_locks e (stq_sessionID (stt_txAccess e)))
    then tx_access (e <| stt_txWait := false |>)
    else (e, [])
  else if stt_rxWait e then
    if negb (tx_locks e (stq_sessionID (stt_rxAccess e)))
    then rx_access (e <| stt_rxWait := false |>)
    else (e, [])
  else if stt_closeWait e then
    if negb (rx_locks e (stt_closeSessionID e)) && negb (tx_locks e (stt_closeSessionID e))
    then close_access (e <| stt_closeWait := false |>)
    else (e, [])
  else (e, []).

(** The close timer branch and, below it, the delayed accesses. *)
Definition timer_access (e : state_table_env) : state_table_env * list state_table_write :=
  match timer2stateTable_releaseState e, stt_closeWait e with
  | id :: rest, false =>
      let e := e <| timer2stateTable_releaseState := rest |> <| stt_closeSessionID := id |> in
      if rx_locks e id || tx_locks e id
      then (e <| stt_closeWait := true |>, [])
      else close_access e
  | _, _ => waiting_access e
  end.

(** The RX engine branch. *)
Definition rxEng_access (e : state_table_env) : state_table_env * list state_table_write :=
  match rxEng2stateTable_upd_req e, stt_rxWait e with
  | q :: rest, false =>
      let e := e <| rxEng2stateTable_upd_req := rest |> <| stt_rxAccess := q |> in
      if tx_locks e (stq_sessionID q)
      then (e <| stt_rxWait := true |>, [])
      else rx_access e
  | _, _ => timer_access e
  end.

Definition state_table (e : state_table_env) : state_table_env * list state_table_write :=
  match txApp2stateTable_upd_req e, stt_txWait e with
  | q :: rest, false =>
      let e := e <| txApp2stateTable_upd_req := rest |> <| stt_txAccess := q |> in
      if rx_locks e (stq_sessionID q)
      then (e <| stt_txWait := true |>, [])
      else tx_access e
  | _, _ =>
      match txApp2stateTable_req e with
      | id :: rest =>
          (e <| txApp2stateTable_req := rest |>, [W_stateTable2txApp_rsp (stt_table e).[id]])
      | [] => rxEng_access e
      end
  end.

(** The four writers of the request streams. *)
Inductive state_table_arrival :=
| A_rxEng (q : stateQuery)
| A_txApp_upd (q : stateQuery)
| A_txApp (id : Z)
| A_timer (id : Z).

Definition state_table_arrive (a : state_table_arrival) (e : state_table_env) : state_table_env :=
  match a with
  | A_rxEng q => e <| rxEng2stateTable_upd_req := rxEng2stateTable_upd_req e ++ [q] |>
  | A_txApp_upd q => e <| txApp2stateTable_upd_req := txApp2stateTable_upd_req e ++ [q] |>
  | A_txApp id => e <| txApp2stateTable_req := txApp2stateTable_req e ++ [id] |>
  | A_timer id => e <| timer2stateTable_releaseState := timer2stateTable_releaseState e ++ [id] |>
  end.

Definition state_table_steps := steps state_table state_table_arrive.

(** ** Proof automation: the cases of one call *)
Ltac state_table_cases :=
  unfold state_table, rxEng_access, timer_access, waiting_access, rx_access,
    tx_access, close_access, rx_locks, tx_locks, when, is_state in *;
  simpl in *;
  repeat (case_match; simpl in *; try done); bool_prop; simplify_eq; try done.

(** ** Mutual exclusion *)
Definition locks_exclusive (e : state_table_env) : Prop :=
  stt_rxSessionLocked e = true -> stt_txSessionLocked e = true ->
  stt_rxSessionID e <> stt_txSessionID e.

Lemma locks_exclusive_call e : locks_exclusive e -> locks_exclusive (state_table e).1.
Proof.
  unfold locks_exclusive. destruct e. intros Hex.
  state_table_cases; intros; lia.
Qed.

Lemma locks_exclusive_arrive a e : locks_exclusive e -> locks_exclusive (state_table_arrive a e).
Proof. by destruct a. Qed.

(** ** What each side was last told *)
Fixpoint last_rsp (sel : state_table_write -> option sessionState)
    (w : list state_table_write) : option sessionState :=
  match w with
  | [] => None
  | x :: w => match last_rsp sel w with Some s => Some s | None => sel x end
  end.

Definition rx_rsp (x : state_table_write) : option sessionState :=
  match x with W_stateTable2rxEng_upd_rsp s => Some s | _ => None end.
Definition tx_rsp (x : state_table_write) : option sessionState :=
  match x with W_stateTable2TxApp_upd_rsp s => Some s | _ => None end.

Lemma last_rsp_app sel w1 w2 :
  last_rsp sel (w1 ++ w2) =
    match last_rsp sel w2 with Some s => Some s | None => last_rsp sel w1 end.
Proof. induction w1 as [|x w1 IH]; simpl; [by case_match|]. rewrite IH. by repeat case_match. Qed.

(** A locked entry is the state its holder was last told. *)
Definition locks_current (w : list state_table_write) (e : state_table_env) : Prop :=
  locks_exclusive e /\
  (stt_rxSessionLocked e = true ->
     last_rsp rx_rsp w = Some (stt_table e).[stt_rxSessionID e]) /\
  (stt_txSessionLocked e = true ->
     last_rsp tx_rsp w = Some (stt_table e).[stt_txSessionID e]).

Lemma locks_current_call w e :
  locks_current w e -> locks_current (w ++ (state_table e).2) (state_table e).1.
Proof.
  intros (Hex & Hrx & Htx). split; [by apply locks_exclusive_call|].
  rewrite !last_rsp_app. unfold locks_exclusive in Hex. destruct e.
  state_table_cases; split; intros;
    rewrite ?tget_tset_ne by lia; first [done | by apply Hrx | by apply Htx].
Qed.

Lemma locks_current_steps w e : state_table_steps state_table_init w e -> locks_current w e.
Proof.
  intros Hs. eapply (steps_trace_invariant _ _ locks_current); [| |exact Hs|].
  - intros. by apply locks_current_call.
  - intros w0 a e0 (? & ? & ?). split; [by apply locks_exclusive_arrive|]. by destruct a.
  - unfold locks_current, locks_exclusive. simpl. naive_solver.
Qed.

(** ** Properties *)

(** C16: read-modify-write accesses are atomic.  In every reachable state the RX
    engine and the TX application interface never hold the same session, and an
    entry held by one of them is still the state that side was last told: nobody
    else, the close timer included, has written it since. *)
Theorem state_table_rmw_atomic w e :
  state_table_steps state_table_init w e ->
  (stt_rxSessionLocked e = true -> stt_txSessionLocked e = true ->
     stt_rxSessionID e <> stt_txSessionID e) /\
  (stt_rxSessionLocked e = true ->
     last_rsp rx_rsp w = Some (stt_table e).[stt_rxSessionID e]) /\
  (stt_txSessionLocked e = true ->
     last_rsp tx_rsp w = Some (stt_table e).[stt_txSessionID e]).
Proof. apply locks_current_steps. Qed.

(** Both sides ask for session 5; the interface is served first, and holds it. *)
Definition demo_run := exec state_table state_table_arrive
  [Some (A_rxEng (stateQuery_rd 5)); Some (A_txApp_upd (stateQuery_rd 5)); None; None]
  state_table_init.

Lemma state_table_rmw_atomic_witness :
  stt_txSessionLocked demo_run.1 = true /\ stt_rxWait demo_run.1 = true /\
  last_rsp tx_rsp demo_run.2 = Some (stt_table demo_run.1).[stt_txSessionID demo_run.1].
Proof.
  split; [reflexivity|]. split; [reflexivity|].
  refine (proj2 (proj2 (state_table_rmw_atomic demo_run.2 demo_run.1 _)) _).
  - apply exec_steps.
  - reflexivity.
Defined.

(** Session identifiers are released exactly when their connection closes.
    A release written by a call leaves the entry CLOSED and every other entry as
    it was; and an entry that becomes CLOSED has been released by that call,
    unless the TX application interface wrote the CLOSED itself. *)
Theorem state_table_release e id :
  (W_stateTable2sLookup_releaseSession id ∈ (state_table e).2 ->
     (stt_table (state_table e).1).[id] = CLOSED /\
     forall j, j <> id -> (stt_table (state_table e).1).[j] = (stt_table e).[j]) /\
  ((stt_table e).[id] <> CLOSED -> (stt_table (state_table e).1).[id] = CLOSED ->
     W_stateTable2sLookup_releaseSession id ∈ (state_table e).2 \/
     stt_txAccess (state_table e).1 = stateQuery_wr id CLOSED).
Proof.
  unfold stateQuery_wr. destruct e.
  state_table_cases; rewrite ?list_elem_of_singleton, ?elem_of_nil;
    (split; [intros ?; simplify_eq; try done;
             split; intros; rewrite tget_tset; case_decide; congruence|]);
    rewrite ?tget_tset; intros; repeat case_decide; simplify_eq; try done; auto.
  all: right; match goal with |- ?q = _ => destruct q end; simpl in *; by subst.
Qed.
End StateTable.

(** ** The interface to the clients

    A read locks the entry for the client, so the client must follow it by a write of
    the same session.  [locked held qs] is the session a client still holds after the
    queries [qs] if it held [held] before; it is [None] after a second read before
    the write, or a write of another session than the one held. *)
Definition lock_step (held : option Z) (q : stateQuery) : option (option Z) :=
  match held, stq_write q with
  | None, false => Some (Some (stq_sessionID q))
  | None, true => Some None
  | Some id, true => if stq_sessionID q =? id then Some None else None
  | Some _, false => None
  end.

Fixpoint locked (held : option Z) (qs : list stateQuery) : option (option Z) :=
  match qs with
  | [] => Some held
  | q :: qs => match lock_step held q with Some h => locked h qs | None => None end
  end.

Lemma locked_app held qs1 qs2 :
  locked held (qs1 ++ qs2) =
    match locked held qs1 with Some h => locked h qs2 | None => None end.
Proof.
  revert held. induction qs1 as [|q qs1 IH]; intros held; [done|]. simpl.
  by destruct (lock_step held q).
Qed.

(** A client of the table: a process, its queries among its writes, and the session
    it holds in each of its states; every call keeps the brackets. *)
Class LockClient {E W} (call : E -> E * list W) (query : W -> option stateQuery)
    (held : E -> option Z) :=
  bracketed : forall e, locked (held e) (omap query (call e).2) = Some (held (call e).1).

Lemma lock_client_run {E W A} (call : E -> E * list W) (arrive : A -> E -> E) query held
    `{!LockClient call query held} e w e' :
  steps call arrive e w e' -> (forall a e, held (arrive a e) = held e) ->
  locked (held e) (omap query w) = Some (held e').
Proof.
  intros Hs Ha. induction Hs as [|e w e1 w1 e2 _ IH Hstep]; [done|].
  rewrite omap_app, locked_app, IH. destruct Hstep as [e1|a e1]; [apply bracketed|].
  simpl. by rewrite Ha.
Qed.
