(* ===== verification/SarTables.v ===== *)
(** * The sliding window tables

    [toe/rx_sar_table/rx_sar_table.cpp] keeps the receive window of every
    session, [toe/tx_sar_table/tx_sar_table.cpp] the transmit window.  Each table
    serves one request per call, in a fixed priority between the modules that use
    it.  There is no locking: every module owns some of the fields. *)

From S2P Require Import Prelude ToeTypes.

(** ** Receive windows *)
Module RxSar.

Record rx_sar_env := mkRxSarEnv {
  rx_table : table rxSarEntry;
  rxEng2rxSar_upd_req : stream rxSarRecvd;
  rxApp2rxSar_upd_req : stream rxSarAppd;
  txEng2rxSar_req : stream Z
}.
#[export] Instance eta_rx_sar_env : Eta rx_sar_env := fun e =>
  mkRxSarEnv (rx_table e) (rxEng2rxSar_upd_req e) (rxApp2rxSar_upd_req e) (txEng2rxSar_req e).

Inductive rx_sar_write :=
| W_rxSar2rxEng_upd_rsp (e : rxSarEntry)
| W_rxSar2rxApp_upd_rsp (a : rxSarAppd)
| W_rxSar2txEng_rsp (r : rxSarReply).

(** The free buffer space as the window the TX engine advertises. *)
Definition rx_sar_reply (entry : rxSarEntry) : rxSarReply :=
  let actualWindowSize :=
    wrap WINDOW_BITS (rxe_appd entry - wrap WINDOW_BITS (rxe_recvd entry) - 1) in
  mkRxSarReply (rxe_recvd entry) (rxe_win_shift entry)
    (wrap 16 (Z.shiftr actualWindowSize (rxe_win_shift entry))) 0.

Definition rxApp_update (q : rxSarAppd) (t : table rxSarEntry) : table rxSarEntry :=
  tset (rxa_sessionID q) (t.[rxa_sessionID q] <| rxe_appd := rxa_appd q |>) t.

Definition rxEng_update (q : rxSarRecvd) (t : table rxSarEntry) : table rxSarEntry :=
  let entry := t.[rxv_sessionID q]
    <| rxe_recvd := rxv_recvd q |> <| rxe_head := rxv_head q |>
    <| rxe_offset := rxv_offset q |> <| rxe_gap := rxv_gap q |> in
  tset (rxv_sessionID q)
    (if rxv_init q
     then entry <| rxe_appd := wrap WINDOW_BITS (rxv_recvd q) |>
                <| rxe_win_shift := rxv_win_shift q |>
     else entry) t.

Definition rx_sar_table (e : rx_sar_env) : rx_sar_env * list rx_sar_write :=
  match txEng2rxSar_req e with
  | addr :: rest =>
      (e <| txEng2rxSar_req := rest |>, [W_rxSar2txEng_rsp (rx_sar_reply (rx_table e).[addr])])
  | [] =>
  match rxApp2rxSar_upd_req e with
  | q :: rest =>
      let e := e <| rxApp2rxSar_upd_req := rest |> in
      if rxa_write q
      then (e <| rx_table := rxApp_update q (rx_table e) |>, [])
      else (e, [W_rxSar2rxApp_upd_rsp
                  (rxSarAppd_wr (rxa_sessionID q) (rxe_appd (rx_table e).[rxa_sessionID q]))])
  | [] =>
  match rxEng2rxSar_upd_req e with
  | q :: rest =>
      let e := e <| rxEng2rxSar_upd_req := rest |> in
      if rxv_write q
      then (e <| rx_table := rxEng_update q (rx_table e) |>, [])
      else (e, [W_rxSar2rxEng_upd_rsp (rx_table e).[rxv_sessionID q]])
  | [] => (e, [])
  end end end.

(** *** Properties *)

(** Buffer space not yet used by received data: the bytes between [recvd] and
    the application's read pointer, less one. *)
Definition free_space (entry : rxSarEntry) : Z :=
  wrap WINDOW_BITS (rxe_appd entry - rxe_recvd entry - 1).

Lemma rx_sar_reply_free entry :
  wrap WINDOW_BITS (rxe_appd entry - wrap WINDOW_BITS (rxe_recvd entry) - 1) = free_space entry.
Proof.
  unfold free_space. rewrite <- !Z.sub_add_distr.
  rewrite (Z.add_comm _ 1), (Z.add_comm _ 1), !Z.sub_add_distr. apply wrap_sub_r.
Qed.

(** C34: the advertised window is never larger than the free buffer space, and with
    the scaling factor negotiated for window scaling it is that space exactly, in
    units of [2 ^ win_shift] bytes: the truncation to 16 bits loses nothing. *)
Theorem rx_window_sound entry :
  0 <= rxe_win_shift entry ->
  let r := rx_sar_reply entry in
  in_width 16 (rxr_windowSize r) /\
  Z.shiftl (rxr_windowSize r) (rxr_win_shift r) <= free_space entry < BUFFER_SIZE /\
  (WINDOW_SCALE_BITS <= rxe_win_shift entry ->
     rxr_windowSize r = free_space entry / 2 ^ rxe_win_shift entry).
Proof.
  intros Hs. unfold rx_sar_reply. simpl. rewrite rx_sar_reply_free.
  assert (0 <= free_space entry < BUFFER_SIZE) as Hf by (apply Z.mod_pos_bound; done).
  set (f := free_space entry) in *. set (s := rxe_win_shift entry) in *.
  rewrite Z.shiftr_div_pow2, Z.shiftl_mul_pow2 by done.
  assert (0 < 2 ^ s) by lia.
  assert (f / 2 ^ s * 2 ^ s <= f) by (rewrite Z.mul_comm; by apply Z.mul_div_le).
  assert (0 <= f / 2 ^ s) by (apply Z.div_pos; lia).
  split; [by apply wrap_range|]. split; [split; [|lia]|].
  - unfold wrap. pose proof (Z.mod_le (f / 2 ^ s) (2 ^ 16)). nia.
  - intros Hs2. apply wrap_small. split; [done|].
    apply Z.div_lt_upper_bound; [done|].
    assert (2 ^ 2 <= 2 ^ s) by (apply Z.pow_le_mono_r; done).
    change BUFFER_SIZE with (2 ^ 2 * 2 ^ 16) in Hf. nia.
Qed.

Lemma rx_window_sound_witness :
  let entry := mkRxSarEntry 70000 5000 2 70000 0 false in
  rxr_windowSize (rx_sar_reply entry) = 49285 /\
  Z.shiftl (rxr_windowSize (rx_sar_reply entry)) 2 <= free_space entry < BUFFER_SIZE.
Proof.
  split; [reflexivity|].
  apply (rx_window_sound (mkRxSarEntry 70000 5000 2 70000 0 false)). simpl. lia.
Defined.

(** The RX engine and the application never overwrite each other's pointer.
    An application pointer update and a (non-initialising) RX engine update leave
    the same table in either order, whatever their sessions. *)
Theorem rx_sar_updates_commute qa qr t :
  rxv_init qr = false ->
  rxApp_update qa (rxEng_update qr t) = rxEng_update qr (rxApp_update qa t).
Proof.
  intros Hi. unfold rxApp_update, rxEng_update. rewrite !Hi.
  destruct (decide (rxa_sessionID qa = rxv_sessionID qr)) as [Heq|Hne].
  - rewrite Heq. autorewrite with toe. simpl. unfold tset. by rewrite !insert_insert_eq.
  - rewrite !tget_tset_ne by congruence. unfold tset. by apply insert_insert_ne.
Qed.

Lemma rx_sar_updates_commute_witness :
  rxApp_update (rxSarAppd_wr 3 77) (rxEng_update (rxSarRecvd_wr 3 100 100 0 false) ∅)
  = rxEng_update (rxSarRecvd_wr 3 100 100 0 false) (rxApp_update (rxSarAppd_wr 3 77) ∅).
Proof. apply rx_sar_updates_commute. reflexivity. Defined.
End RxSar.

(** ** Transmit windows *)
Module TxSar.

Record tx_sar_env := mkTxSarEnv {
  tx_table : table txSarEntry;
  rxEng2txSar_upd_req : stream rxTxSarQuery;
  txEng2txSar_upd_req : stream txTxSarQuery;
  txApp2txSar_app_push : stream txAppTxSarPush
}.
#[export] Instance eta_tx_sar_env : Eta tx_sar_env := fun e =>
  mkTxSarEnv (tx_table e) (rxEng2txSar_upd_req e) (txEng2txSar_upd_req e) (txApp2txSar_app_push e).

Inductive tx_sar_write :=
| W_txSar2rxEng_upd_rsp (r : rxTxSarReply)
| W_txSar2txEng_upd_rsp (r : txTxSarReply)
| W_txSar2txApp_ack_push (p : txSarAckPush).

(** The initial congestion window, 10 segments of 1460 bytes. *)
Definition INITIAL_CONG_WINDOW : Z := 14600.

Section TxSarTable.
(** The bits of the local [scaled_recv_window] outside the range assigned to it;
    the source leaves them uninitialised. *)
Variable junk : Z.

(** [scaled_recv_window(win_shift + 15, win_shift) = recv_window]. *)
Definition scale_window (win_shift recv_window : Z) : Z :=
  wrap 30 (set_bits (win_shift + 15) win_shift recv_window junk).

Definition min_window (cong_window scaled : Z) : Z :=
  if cong_window <? scaled then cong_window else wrap WINDOW_BITS scaled.

(** The reply to a read of the TX engine. *)
Definition tx_sar_reply (entry : txSarEntry) : txTxSarReply :=
  let usedLength :=
    wrap WINDOW_BITS (wrap WINDOW_BITS (txe_not_ackd entry) - txe_ackd entry) in
  let scaled_recv_window := scale_window (txe_win_shift entry) (txe_recv_window entry) in
  let minWindow := min_window (txe_cong_window entry) scaled_recv_window in
  let usableWindow :=
    if minWindow <? usedLength then wrap WINDOW_BITS (minWindow - usedLength) else 0 in
  mkTxTxSarReply (txe_ackd entry) (txe_not_ackd entry) usableWindow (txe_app entry)
    usedLength (txe_finReady entry) (txe_finSent entry) 0.

(** A write of the TX engine. *)
Definition txEng_update (q : txTxSarQuery) (entry : txSarEntry) : txSarEntry :=
  if ttq_isRtQuery q
  then entry <| txe_slowstart_threshold := getThreshold q |>
             <| txe_cong_window := INITIAL_CONG_WINDOW |>
  else
    let entry := entry <| txe_not_ackd := ttq_not_ackd q |> in
    let entry :=
      if ttq_init q
      then entry <| txe_app := wrap WINDOW_BITS (ttq_not_ackd q) |>
                 <| txe_ackd := wrap 32 (ttq_not_ackd q - 1) |>
                 <| txe_cong_window := INITIAL_CONG_WINDOW |>
                 <| txe_slowstart_threshold := 65535 |>
                 <| txe_finReady := ttq_finReady q |>
                 <| txe_finSent := ttq_finSent q |>
      else entry in
    let entry := if ttq_finReady q then entry <| txe_finReady := true |> else entry in
    if ttq_finSent q then entry <| txe_finSent := true |> else entry.

Definition txEng_update_push (q : txTxSarQuery) : list tx_sar_write :=
  when (negb (ttq_isRtQuery q) && ttq_init q)
    [W_txSar2txApp_ack_push (mkTxSarAckPush (ttq_sessionID q)
       (wrap WINDOW_BITS (ttq_not_ackd q)) INITIAL_CONG_WINDOW true)].

(** A write of the RX engine, and the acknowledgement it passes on. *)
Definition rxEng_update (q : rxTxSarQuery) (entry : txSarEntry) : txSarEntry :=
  let entry := entry
    <| txe_ackd := rtq_ackd q |> <| txe_recv_window := rtq_recv_window q |>
    <| txe_cong_window := rtq_cong_window q |> <| txe_count := rtq_count q |>
    <| txe_fastRetransmitted := rtq_fastRetransmitted q |> in
  if rtq_init q then entry <| txe_win_shift := rtq_win_shift q |> else entry.

Definition rxEng_update_push (q : rxTxSarQuery) (entry : txSarEntry) : txSarAckPush :=
  let win_shift := if rtq_init q then rtq_win_shift q else txe_win_shift entry in
  let scaled_recv_window := scale_window win_shift (rtq_recv_window q) in
  mkTxSarAckPush (rtq_sessionID q) (wrap WINDOW_BITS (rtq_ackd q))
    (min_window (rtq_cong_window q) scaled_recv_window) false.

Definition rx_sar_of_tx (entry : txSarEntry) : rxTxSarReply :=
  mkRxTxSarReply (txe_ackd entry) (txe_not_ackd entry) (txe_cong_window entry)
    (txe_slowstart_threshold entry) (txe_count entry) (txe_fastRetransmitted entry).

Definition app_update (p : txAppTxSarPush) (entry : txSarEntry) : txSarEntry :=
  entry <| txe_app := atp_app p |>.

Definition modify (id : Z) (f : txSarEntry -> txSarEntry) (t : table txSarEntry) :=
  tset id (f t.[id]) t.

Definition tx_sar_table (e : tx_sar_env) : tx_sar_env * list tx_sar_write :=
  match txEng2txSar_upd_req e with
  | q :: rest =>
      let e := e <| txEng2txSar_upd_req := rest |> in
      let id := ttq_sessionID q in
      if ttq_write q
      then (e <| tx_table := modify id (txEng_update q) (tx_table e) |>, txEng_update_push q)
      else (e, [W_txSar2txEng_upd_rsp (tx_sar_reply (tx_table e).[id])])
  | [] =>
  match txApp2txSar_app_push e with
  | p :: rest =>
      let e := e <| txApp2txSar_app_push := rest |> in
      (e <| tx_table := modify (atp_sessionID p) (app_update p) (tx_table e) |>, [])
  | [] =>
  match rxEng2txSar_upd_req e with
  | q :: rest =>
      let e := e <| rxEng2txSar_upd_req := rest |> in
      let id := rtq_sessionID q in
      if rtq_write q
      then (e <| tx_table := modify id (rxEng_update q) (tx_table e) |>,
            [W_txSar2txApp_ack_push (rxEng_update_push q (tx_table e).[id])])
      else (e, [W_txSar2rxEng_upd_rsp (rx_sar_of_tx (tx_table e).[id])])
  | [] => (e, [])
  end end end.
End TxSarTable.

(** *** Properties *)

Lemma modify_get id f t j : (modify id f t).[j] = if decide (id = j) then f t.[j] else t.[j].
Proof. unfold modify. rewrite tget_tset. case_decide; by subst. Qed.

Lemma modify_commute id1 f1 id2 f2 t :
  (forall x, f1 (f2 x) = f2 (f1 x)) ->
  modify id1 f1 (modify id2 f2 t) = modify id2 f2 (modify id1 f1 t).
Proof.
  intros Hc. unfold modify. destruct (decide (id1 = id2)) as [->|Hne].
  - autorewrite with toe. rewrite Hc. unfold tset. by rewrite !insert_insert_eq.
  - rewrite !tget_tset_ne by congruence. unfold tset. by apply insert_insert_ne.
Qed.

Lemma scale_window_clean s w :
  0 <= s <= 14 -> in_width 16 w -> scale_window 0 s w = Z.shiftl w s.
Proof.
  intros Hs Hw. unfold scale_window, set_bits, bits.
  rewrite Z.div_0_l, Z.mod_0_l by lia.
  replace (s + 15 - s + 1) with 16 by lia.
  rewrite (wrap_small 16) by done. rewrite Z.shiftl_mul_pow2 by lia.
  apply wrap_small. unfold in_width in *.
  assert (2 ^ s <= 2 ^ 14) by (apply Z.pow_le_mono_r; lia). nia.
Qed.

Lemma min_window_le cong scaled :
  in_width WINDOW_BITS cong -> 0 <= scaled ->
  min_window cong scaled = Z.min cong scaled.
Proof.
  unfold min_window, in_width. intros Hc Hs. case_match; bool_prop; [lia|].
  rewrite wrap_small; unfold in_width; lia.
Qed.

(** The window pushed to the application interface bounds what it may have in
    flight.  It never exceeds the congestion window, whatever the uninitialised
    bits of the scaled window are; and when they are zero it is the smaller of the
    congestion window and the peer's window scaled by the negotiated shift. *)
Theorem tx_ack_push_window junk q entry :
  in_width WINDOW_BITS (rtq_cong_window q) -> in_width 16 (rtq_recv_window q) ->
  let shift := if rtq_init q then rtq_win_shift q else txe_win_shift entry in
  tap_min_window (rxEng_update_push junk q entry) <= rtq_cong_window q /\
  (0 <= shift <= 14 ->
     tap_min_window (rxEng_update_push 0 q entry)
     = Z.min (rtq_cong_window q) (Z.shiftl (rtq_recv_window q) shift)).
Proof.
  intros Hc Hr shift. unfold rxEng_update_push. simpl. fold shift. split.
  - rewrite min_window_le; [lia|done|]. by apply wrap_range.
  - intros Hs. rewrite scale_window_clean by done. apply min_window_le; [done|].
    rewrite Z.shiftl_nonneg. apply Hr.
Qed.

Lemma tx_ack_push_window_witness :
  let q := rxTxSarQuery_init 7 1000 20000 14600 0 false 2 in
  tap_min_window (rxEng_update_push 0 q zero_init) = Z.min 14600 (Z.shiftl 20000 2).
Proof.
  refine (proj2 (tx_ack_push_window 0 (rxTxSarQuery_init 7 1000 20000 14600 0 false 2)
    zero_init _ _) _); simpl; unfold in_width; vm_compute; intuition discriminate.
Defined.

(** The usable window of a reply to the TX engine is zero exactly when data in
    flight does not exceed the smaller window, and otherwise it is the negative
    difference reduced modulo the buffer size: the comparison is the wrong way
    round, and a session with an open window is told it has none. *)
Theorem tx_usable_window_inverted entry :
  in_width WINDOW_BITS (txe_cong_window entry) -> in_width 16 (txe_recv_window entry) ->
  0 <= txe_win_shift entry <= 14 ->
  let minWindow := Z.min (txe_cong_window entry)
                         (Z.shiftl (txe_recv_window entry) (txe_win_shift entry)) in
  let r := tx_sar_reply 0 entry in
  (ttr_usedLength r <= minWindow -> ttr_usableWindow r = 0) /\
  (minWindow < ttr_usedLength r ->
     ttr_usableWindow r = BUFFER_SIZE - (ttr_usedLength r - minWindow)).
Proof.
  intros Hc Hr Hs. unfold tx_sar_reply. simpl.
  rewrite scale_window_clean by done.
  assert (0 <= Z.shiftl (txe_recv_window entry) (txe_win_shift entry)) as Hp
    by (rewrite Z.shiftl_nonneg; apply Hr).
  rewrite min_window_le by done.
  set (m := Z.min _ _). set (u := wrap _ _).
  assert (in_width WINDOW_BITS u) as Hu by (by apply wrap_range).
  assert (0 <= m < BUFFER_SIZE) by (unfold in_width, BUFFER_SIZE in *; lia).
  split; intros; case_match; bool_prop; try lia.
  replace (m - u) with (m - u + BUFFER_SIZE + (-1) * 2 ^ WINDOW_BITS)
    by (unfold BUFFER_SIZE; lia).
  rewrite wrap_add_mul, wrap_small; unfold in_width, BUFFER_SIZE in *; lia.
Qed.

Lemma tx_usable_window_inverted_witness :
  let entry := mkTxSarEntry 1000 3000 65535 2 14600 65535 3000 0 false false false in
  ttr_usedLength (tx_sar_reply 0 entry) = 2000 /\ ttr_usableWindow (tx_sar_reply 0 entry) = 0.
Proof.
  split; [reflexivity|].
  refine (proj1 (tx_usable_window_inverted
    (mkTxSarEntry 1000 3000 65535 2 14600 65535 3000 0 false false false) _ _ _) _);
    vm_compute; intuition discriminate.
Defined.

(** The three users of the transmit table do not disturb each other's fields.
    An ordinary TX engine update (neither an initialisation nor the reset of the
    congestion window before a retransmission) commutes with an RX engine update,
    and an application pointer push commutes with both. *)
Theorem tx_sar_updates_commute qt qr p t :
  ttq_init qt = false -> ttq_isRtQuery qt = false ->
  let tx := modify (ttq_sessionID qt) (txEng_update qt) in
  let rx := modify (rtq_sessionID qr) (rxEng_update qr) in
  let app := modify (atp_sessionID p) (app_update p) in
  tx (rx t) = rx (tx t) /\ tx (app t) = app (tx t) /\ rx (app t) = app (rx t).
Proof.
  intros Hi Hr. simpl. split; [|split]; apply modify_commute; intros entry;
    unfold txEng_update, rxEng_update, app_update; rewrite ?Hi, ?Hr;
    repeat case_match; reflexivity.
Qed.

Lemma tx_sar_updates_commute_witness :
  let tx := modify 4 (txEng_update (txTxSarQuery_wr 4 900)) in
  let rx := modify 4 (rxEng_update (rxTxSarQuery_wr 4 800 10 20 0 false)) in
  tx (rx ∅) = rx (tx ∅).
Proof.
  refine (proj1 (tx_sar_updates_commute (txTxSarQuery_wr 4 900)
    (rxTxSarQuery_wr 4 800 10 20 0 false) (mkTxAppTxSarPush 4 5) ∅ _ _)); reflexivity.
Defined.
End TxSar.
