(* ===== verification/PortTable.v ===== *)
(** * The port table ([toe/port_table/port_table.cpp])

    Ports below 32768 are opened for listening by the application, the others are
    handed out for outgoing connections.  The RX engine asks whether a destination
    port is open; the question is routed to one of the two tables by the port
    number, and the answers are merged back in the order of the questions. *)

From S2P Require Import Prelude ToeTypes.

Module PortTable.

(** ** The listening ports *)
Record listening_env := mkListeningEnv {
  listeningPortTable : table bool;
  rxApp2portTable_listen_req : stream Z;
  pt_portCheckListening_req_fifo : stream Z
}.
#[export] Instance eta_listening_env : Eta listening_env := fun e =>
  mkListeningEnv (listeningPortTable e) (rxApp2portTable_listen_req e)
    (pt_portCheckListening_req_fifo e).

Inductive listening_write :=
| W_portTable2rxApp_listen_rsp (ok : bool)
| W_pt_portCheckListening_rsp_fifo (open : bool).

Definition listening_port_table (e : listening_env) : listening_env * list listening_write :=
  match rxApp2portTable_listen_req e with
  | currPort :: rest =>
      let e := e <| rxApp2portTable_listen_req := rest |> in
      if (listeningPortTable e).[bits 14 0 currPort] && (currPort <? 32768)
      then (e, [W_portTable2rxApp_listen_rsp true])
      else if negb (listeningPortTable e).[bits 14 0 currPort] && (currPort <? 32768)
      then (e <| listeningPortTable := tset currPort true (listeningPortTable e) |>,
            [W_portTable2rxApp_listen_rsp true])
      else (e, [W_portTable2rxApp_listen_rsp false])
  | [] =>
  match pt_portCheckListening_req_fifo e with
  | p :: rest =>
      (e <| pt_portCheckListening_req_fifo := rest |>,
       [W_pt_portCheckListening_rsp_fifo (listeningPortTable e).[p]])
  | [] => (e, [])
  end end.

Inductive listening_arrival := A_listen (port : Z) | A_checkListening (port : Z).
Definition listening_arrive (a : listening_arrival) (e : listening_env) : listening_env :=
  match a with
  | A_listen p => e <| rxApp2portTable_listen_req := rxApp2portTable_listen_req e ++ [p] |>
  | A_checkListening p =>
      e <| pt_portCheckListening_req_fifo := pt_portCheckListening_req_fifo e ++ [p] |>
  end.

(** ** The ports for outgoing connections *)
Record free_port_env := mkFreePortEnv {
  freePortTable : table bool;     (* true: handed out *)
  pt_cursor : Z;
  sLookup2portTable_releasePort : stream Z;
  pt_portCheckUsed_req_fifo : stream Z;
  portTable2txApp_full : bool     (* [portTable2txApp_port_rsp.full()] *)
}.
#[export] Instance eta_free_port_env : Eta free_port_env := fun e =>
  mkFreePortEnv (freePortTable e) (pt_cursor e) (sLookup2portTable_releasePort e)
    (pt_portCheckUsed_req_fifo e) (portTable2txApp_full e).

Inductive free_port_write :=
| W_pt_portCheckUsed_rsp_fifo (used : bool)
| W_portTable2txApp_port_rsp (port : Z).

Definition free_port_table (e : free_port_env) : free_port_env * list free_port_write :=
  let '(e, w) :=
    match sLookup2portTable_releasePort e with
    | currPort :: rest =>
        let e := e <| sLookup2portTable_releasePort := rest |> in
        if 32768 <=? currPort
        then (e <| freePortTable := tset (bits 14 0 currPort) false (freePortTable e) |>, [])
        else (e, [])
    | [] =>
    match pt_portCheckUsed_req_fifo e with
    | p :: rest =>
        (e <| pt_portCheckUsed_req_fifo := rest |>,
         [W_pt_portCheckUsed_rsp_fifo (freePortTable e).[p]])
    | [] =>
        if negb (freePortTable e).[pt_cursor e] && negb (portTable2txApp_full e)
        then (e <| freePortTable := tset (pt_cursor e) true (freePortTable e) |>,
              [W_portTable2txApp_port_rsp (set_bits 15 15 1 (set_bits 14 0 (pt_cursor e) 0))])
        else (e, [])
    end end in
  (e <| pt_cursor := wrap 15 (pt_cursor e + 1) |>, w).

Inductive free_port_arrival :=
  A_releasePort (port : Z) | A_checkUsed (port : Z) | A_full (b : bool).
Definition free_port_arrive (a : free_port_arrival) (e : free_port_env) : free_port_env :=
  match a with
  | A_releasePort p =>
      e <| sLookup2portTable_releasePort := sLookup2portTable_releasePort e ++ [p] |>
  | A_checkUsed p => e <| pt_portCheckUsed_req_fifo := pt_portCheckUsed_req_fifo e ++ [p] |>
  | A_full b => e <| portTable2txApp_full := b |>
  end.

(** ** Routing of the checks *)
Inductive check_in_write :=
| W_checkListening_req (port : Z)
| W_checkUsed_req (port : Z)
| W_dstFifo (dst : bool).

Definition LT : bool := true.
Definition FT : bool := false.

Definition swap_port (checkPort : Z) : Z :=
  set_bits 15 8 (bits 7 0 checkPort) (set_bits 7 0 (bits 15 8 checkPort) 0).

(** The requests are narrowed to [ap_uint<15>]. *)
Definition check_in_multiplexer (rxEng2portTable_check_req : stream Z)
  : stream Z * list check_in_write :=
  match rxEng2portTable_check_req with
  | checkPort :: rest =>
      let swappedCheckPort := swap_port checkPort in
      (rest,
       if swappedCheckPort <? 32768
       then [W_checkListening_req (wrap 15 swappedCheckPort); W_dstFifo LT]
       else [W_checkUsed_req (wrap 15 swappedCheckPort); W_dstFifo FT])
  | [] => ([], [])
  end.

Inductive cmFsmStateType := READ_DST | READ_LISTENING | READ_USED.

Record check_out_env := mkCheckOutEnv {
  cm_fsmState : cmFsmStateType;
  pt_dstFifoIn : stream bool;
  pt_listening_rsp : stream bool;
  pt_used_rsp : stream bool
}.
#[export] Instance eta_check_out_env : Eta check_out_env := fun e =>
  mkCheckOutEnv (cm_fsmState e) (pt_dstFifoIn e) (pt_listening_rsp e) (pt_used_rsp e).

(** The writes are those to [portTable2rxEng_check_rsp]. *)
Definition check_out_multiplexer (e : check_out_env) : check_out_env * list bool :=
  match cm_fsmState e with
  | READ_DST =>
      match pt_dstFifoIn e with
      | dst :: rest =>
          (e <| pt_dstFifoIn := rest |>
             <| cm_fsmState := if dst then READ_LISTENING else READ_USED |>, [])
      | [] => (e, [])
      end
  | READ_LISTENING =>
      match pt_listening_rsp e with
      | r :: rest => (e <| pt_listening_rsp := rest |> <| cm_fsmState := READ_DST |>, [r])
      | [] => (e, [])
      end
  | READ_USED =>
      match pt_used_rsp e with
      | r :: rest => (e <| pt_used_rsp := rest |> <| cm_fsmState := READ_DST |>, [r])
      | [] => (e, [])
      end
  end.

(** ** Properties *)

(** *** Listening *)
Definition listening_steps := steps listening_port_table listening_arrive.

Lemma listening_monotone_call e p :
  (listeningPortTable e).[p] = true ->
  (listeningPortTable (listening_port_table e).1).[p] = true.
Proof.
  intros Hp. unfold listening_port_table. repeat case_match; simpl; try done.
  rewrite tget_tset. by case_decide.
Qed.

(** An application may listen on exactly the ports below 32768, and a port it
    listens on stays open: the request is answered [true] if and only if the port
    is below 32768, and after any further calls and requests the table still has
    the port open and answers every check of it with [true]. *)
Theorem listen_opens_port e port rest w e' :
  in_width 16 port ->
  rxApp2portTable_listen_req e = port :: rest ->
  (listening_port_table e).2 = [W_portTable2rxApp_listen_rsp (bool_decide (port < 32768))] /\
  (port < 32768 ->
   listening_steps (listening_port_table e).1 w e' ->
   (listeningPortTable e').[port] = true).
Proof.
  intros Hw Hreq. split.
  - unfold listening_port_table. rewrite Hreq. simpl.
    repeat case_match; bool_prop; simpl; try (rewrite bool_decide_true by lia; done).
    rewrite bool_decide_false; [done|]. intros ?. destruct (_.[_]); simpl in *; lia.
  - intros Hp Hs.
    eapply (steps_invariant listening_port_table listening_arrive (fun e => (listeningPortTable e).[port] = true));
      [intros; by apply listening_monotone_call|intros a e0; by destruct a|exact Hs|].
    assert (bits 14 0 port = port) as Hbits.
    { rewrite bits_0. apply wrap_small. unfold in_width in *. simpl. lia. }
    unfold listening_port_table. rewrite Hreq. simpl. rewrite Hbits.
    repeat case_match; bool_prop; simpl; try done; [by rewrite tget_tset_eq|].
    destruct (_.[_]); simpl in *; lia.
Qed.

Lemma listen_opens_port_witness :
  let e := mkListeningEnv ∅ [5001] [] in
  (listening_port_table e).2 = [W_portTable2rxApp_listen_rsp true] /\
  (listeningPortTable (calls listening_port_table 2 (listening_port_table e).1).1).[5001] = true.
Proof.
  set (e := mkListeningEnv ∅ [5001] []). split.
  - refine (proj1 (listen_opens_port e 5001 [] [] e _ _)); vm_compute; intuition discriminate.
  - refine (proj2 (listen_opens_port e 5001 [] _ _ _ _) _ (calls_steps _ listening_arrive 2 _));
      vm_compute; intuition discriminate.
Defined.

(** *** Outgoing ports *)
Definition free_port_steps := steps free_port_table free_port_arrive.

Definition port_index (port : Z) : Z := bits 14 0 port.
Definition high_port (i : Z) : Z := set_bits 15 15 1 (set_bits 14 0 i 0).

Lemma high_port_eq i : in_width 15 i -> high_port i = 32768 + i.
Proof. intros H. unfold high_port, set_bits, bits. wrap_lia. Qed.

Definition cursor_ok (e : free_port_env) : Prop := in_width 15 (pt_cursor e).

Lemma cursor_ok_call e : cursor_ok e -> cursor_ok (free_port_table e).1.
Proof.
  intros _. unfold cursor_ok, free_port_table.
  repeat case_match; simplify_eq; simpl; by apply wrap_range.
Qed.

(** The ports given out by a trace, oldest first. *)
Definition handed_out (w : list free_port_write) : list Z :=
  omap (fun x => match x with W_portTable2txApp_port_rsp p => Some p | _ => None end) w.

Lemma handed_out_app w1 w2 : handed_out (w1 ++ w2) = handed_out w1 ++ handed_out w2.
Proof. apply omap_app. Qed.

Lemma NoDup_snoc_iff {A} (l : list A) x : NoDup (l ++ [x]) <-> NoDup l /\ x ∉ l.
Proof.
  rewrite list.NoDup_app. split; [intros (? & Hx & _)|intros (? & Hx)].
  - split; [done|]. intros ?. eapply Hx; [done|]. by apply list_elem_of_singleton.
  - split_and!; [done| |by apply NoDup_singleton].
    intros y Hy Hyx%list_elem_of_singleton. by subst.
Qed.

(** Without releases, every port given out is marked. *)
Definition ports_marked (w : list free_port_write) (e : free_port_env) : Prop :=
  cursor_ok e /\ sLookup2portTable_releasePort e = [] /\ NoDup (handed_out w) /\
  forall p, p ∈ handed_out w ->
    32768 <= p < 65536 /\ (freePortTable e).[p - 32768] = true.

Lemma ports_marked_call w e :
  ports_marked w e -> ports_marked (w ++ (free_port_table e).2) (free_port_table e).1.
Proof.
  intros (Hc & Hrel & Hnd & Hm). split; [by apply cursor_ok_call|].
  rewrite handed_out_app. unfold free_port_table. rewrite Hrel.
  destruct (pt_portCheckUsed_req_fifo e); simpl; [|by rewrite app_nil_r].
  destruct ((freePortTable e).[pt_cursor e]) eqn:Hfree; simpl; [by rewrite app_nil_r|].
  destruct (portTable2txApp_full e); simpl; [by rewrite app_nil_r|].
  fold (high_port (pt_cursor e)). rewrite (high_port_eq _ Hc).
  unfold cursor_ok, in_width in Hc. split; [done|]. split.
  - apply NoDup_snoc_iff. split; [done|]. intros [? Hp]%Hm.
    replace (32768 + pt_cursor e - 32768) with (pt_cursor e) in Hp by lia. congruence.
  - intros p [Hp| ->%list_elem_of_singleton]%elem_of_app; rewrite tget_tset.
    + destruct (Hm p Hp). split; [done|]. by case_decide.
    + split; [lia|]. case_decide; [done|lia].
Qed.

Lemma ports_marked_arrive w a e :
  (forall p, a <> A_releasePort p) -> ports_marked w e -> ports_marked w (free_port_arrive a e).
Proof. intros Ha. destruct a; simpl; [by edestruct Ha|done|done]. Qed.

(** Arrivals other than releases. *)
Definition no_release_arrive (a : Z + bool) : free_port_env -> free_port_env :=
  free_port_arrive match a with inl p => A_checkUsed p | inr b => A_full b end.

(** Outgoing connections get distinct ports.  As long as no port is released,
    the ports handed out are pairwise different, lie in the upper half of the port
    range, and are reported as used by every later check. *)
Theorem free_ports_distinct w e :
  steps free_port_table no_release_arrive (mkFreePortEnv ∅ 0 [] [] false) w e ->
  NoDup (handed_out w) /\
  forall p, p ∈ handed_out w ->
    32768 <= p < 65536 /\ (freePortTable e).[port_index p] = true.
Proof.
  intros Hs.
  assert (ports_marked w e) as (_ & _ & Hnd & Hm).
  { eapply (steps_trace_invariant _ _ ports_marked); [| |exact Hs|].
    - intros. by apply ports_marked_call.
    - intros w0 [p|b] e0 Hi; by apply ports_marked_arrive.
    - split_and!; [by apply (wrap_range 15 0)|done|constructor|].
      intros p Hp. by apply elem_of_nil in Hp. }
  split; [done|]. intros p Hp. destruct (Hm p Hp) as [Hr Ht]. split; [done|].
  replace (port_index p) with (p - 32768); [done|].
  unfold port_index, bits. wrap_lia.
Qed.

Lemma free_ports_distinct_witness :
  let r := exec free_port_table no_release_arrive
             [None; Some (inr true); None; Some (inr false); None] (mkFreePortEnv ∅ 0 [] [] false) in
  handed_out r.2 = [32768; 32770] /\ NoDup (handed_out r.2).
Proof.
  split; [reflexivity|].
  refine (proj1 (free_ports_distinct _ _ (exec_steps _ _ _ _))).
Defined.

(** A released port is available again.  The call that serves the release of a
    port handed out clears its mark, and when the cursor next passes over it with
    nothing else to do, that port is given out. *)
Theorem free_port_reuse e p rest :
  32768 <= p < 65536 ->
  sLookup2portTable_releasePort e = p :: rest ->
  (freePortTable (free_port_table e).1).[port_index p] = false /\
  forall e',
    freePortTable e' = freePortTable (free_port_table e).1 ->
    pt_cursor e' = port_index p -> sLookup2portTable_releasePort e' = [] ->
    pt_portCheckUsed_req_fifo e' = [] -> portTable2txApp_full e' = false ->
    (free_port_table e').2 = [W_portTable2txApp_port_rsp p].
Proof.
  intros Hp Hrel.
  assert ((freePortTable (free_port_table e).1).[port_index p] = false) as Hfree.
  { unfold free_port_table. rewrite Hrel. replace (32768 <=? p) with true by lia. simpl.
    by rewrite tget_tset_eq. }
  split; [done|]. intros e' Ht Hc Hr Hq Hf. unfold free_port_table at 1.
  rewrite Hr, Hq, Hc, Ht, Hfree, Hf. simpl.
  f_equal. f_equal. fold (high_port (port_index p)).
  rewrite high_port_eq by (by apply (bits_range 14 0)). unfold port_index, bits. wrap_lia.
Qed.

Lemma free_port_reuse_witness :
  let e := mkFreePortEnv (tset 9 true ∅) 0 [32777] [] false in
  (free_port_table ((free_port_table e).1 <| pt_cursor := 9 |>)).2
    = [W_portTable2txApp_port_rsp 32777].
Proof.
  refine (proj2 (free_port_reuse (mkFreePortEnv (tset 9 true ∅) 0 [32777] [] false) 32777 [] _ _)
    _ _ _ _ _ _); try reflexivity. lia.
Defined.

(** *** The answers come back in order *)

(** The reference: each question answered from the stream of its own table. *)
Fixpoint merge_answers (dsts : list bool) (listening used : list bool) : list bool :=
  match dsts with
  | [] => []
  | true :: dsts =>
      match listening with r :: l => r :: merge_answers dsts l used | [] => [] end
  | false :: dsts =>
      match used with r :: u => r :: merge_answers dsts listening u | [] => [] end
  end.

Lemma check_out_pair dst dsts l u :
  calls check_out_multiplexer 2 (mkCheckOutEnv READ_DST (dst :: dsts) l u) =
  if dst
  then match l with
       | r :: l => (mkCheckOutEnv READ_DST dsts l u, [r])
       | [] => (mkCheckOutEnv READ_LISTENING dsts l u, [])
       end
  else match u with
       | r :: u => (mkCheckOutEnv READ_DST dsts l u, [r])
       | [] => (mkCheckOutEnv READ_USED dsts l u, [])
       end.
Proof. by destruct dst; [destruct l|destruct u]. Qed.

(** The check of a port is answered in the order the RX engine asked.  Once the
    two tables have produced their answers, two calls of the output multiplexer per
    question deliver exactly one answer per question, each taken from the table its
    port belongs to. *)
Theorem check_answers_in_order dsts listening used :
  length listening = length (List.filter (fun b => b) dsts) ->
  length used = length (List.filter negb dsts) ->
  (calls check_out_multiplexer (2 * length dsts)
     (mkCheckOutEnv READ_DST dsts listening used)).2 = merge_answers dsts listening used /\
  length (merge_answers dsts listening used) = length dsts.
Proof.
  revert listening used. induction dsts as [|dst dsts IH]; intros l u Hl Hu; [done|].
  replace (2 * length (dst :: dsts))%nat with (2 + 2 * length dsts)%nat by (simpl; lia).
  rewrite calls_add, check_out_pair.
  destruct dst; simpl in Hl, Hu.
  - destruct l as [|r l]; [done|]. simpl in *. by destruct (IH l u) as [-> ->]; [lia..|].
  - destruct u as [|r u]; [done|]. simpl in *. by destruct (IH l u) as [-> ->]; [lia..|].
Qed.

Lemma check_answers_in_order_witness :
  (calls check_out_multiplexer 6
     (mkCheckOutEnv READ_DST [true; false; true] [true; false] [true])).2
    = [true; true; false].
Proof.
  refine (proj1 (check_answers_in_order [true; false; true] [true; false] [true] _ _)); reflexivity.
Defined.
End PortTable.

#[export] Existing Instances PortTable.eta_listening_env PortTable.eta_free_port_env
  PortTable.eta_check_out_env.
