(* ===== verification/Timers.v ===== *)
(** * The timers ([toe/retransmit_timer], [toe/probe_timer], [toe/close_timer])

    Each timer keeps one entry per session and, when it has nothing else to do,
    walks over the table, counting the running entries down.  [timerWrapper]
    ([toe.cpp]) merges their events and their session releases. *)

From S2P Require Import Prelude ToeTypes.

Section Timers.
Context {C : ToeConfig}.

(** ** Retransmission timer *)
Record retransmitTimerEntry := mkRetransmitTimerEntry {
  rt_time : Z; rt_retries : Z; rt_active : bool; rt_type : eventType
}.
#[export] Instance eta_retransmitTimerEntry : Eta retransmitTimerEntry := fun r =>
  mkRetransmitTimerEntry (rt_time r) (rt_retries r) (rt_active r) (rt_type r).
#[export] Instance zero_init_retransmitTimerEntry : ZeroInit retransmitTimerEntry :=
  mkRetransmitTimerEntry 0 0 false TX.

(** The static variables, the two request streams, and whether
    [rtTimer2eventEng_setEvent] is full. *)
Record retransmit_timer_env := mkRetransmitTimerEnv {
  retransmitTimerTable : table retransmitTimerEntry;
  rt_position : Z;
  rt_waitForWrite : bool;
  rt_prevPosition : Z;
  rt_update : rxRetransmitTimerUpdate;
  rxEng2timer_clearRetransmitTimer : stream rxRetransmitTimerUpdate;
  txEng2timer_setRetransmitTimer : stream txRetransmitTimerSet;
  rtTimer2eventEng_full : bool
}.
#[export] Instance eta_retransmit_timer_env : Eta retransmit_timer_env := fun e =>
  mkRetransmitTimerEnv (retransmitTimerTable e) (rt_position e) (rt_waitForWrite e)
    (rt_prevPosition e) (rt_update e) (rxEng2timer_clearRetransmitTimer e)
    (txEng2timer_setRetransmitTimer e) (rtTimer2eventEng_full e).

Definition retransmit_timer_init : retransmit_timer_env :=
  mkRetransmitTimerEnv ∅ 0 false 0 zero_init [] [] false.

Inductive retransmit_timer_write :=
| W_rtTimer2eventEng_setEvent (ev : event)
| W_rtTimer2stateTable_releaseState (id : Z)
| W_rtTimer2rxApp_notification (n : appNotification)
| W_rtTimer2txApp_notification (s : openStatus).

(** The interval for the [retries]-th retransmission. *)
Definition rt_backoff (retries : Z) : Z :=
  if retries =? 0 then TIME_1s
  else if retries =? 1 then TIME_5s
  else if retries =? 2 then TIME_10s
  else if retries =? 3 then TIME_15s
  else TIME_30s.

(** [case 1]: the TX engine (re)starts the timer. *)
Definition rt_set (set : txRetransmitTimerSet) (currEntry : retransmitTimerEntry)
  : retransmitTimerEntry :=
  let currEntry := currEntry <| rt_type := rts_type set |> in
  let currEntry :=
    if rt_active currEntry then currEntry
    else currEntry <| rt_time := rt_backoff (rt_retries currEntry) |> in
  currEntry <| rt_active := true |>.

(** [case 0]: the sweep visits entry [currID]. *)
Definition rt_tick (isFull : bool) (currID : Z) (currEntry : retransmitTimerEntry)
  : retransmitTimerEntry * list retransmit_timer_write :=
  if rt_active currEntry then
    if 0 <? rt_time currEntry
    then (currEntry <| rt_time := wrap 32 (rt_time currEntry - 1) |>, [])
    else if negb isFull then
      let currEntry := currEntry <| rt_time := 0 |> <| rt_active := false |> in
      if rt_retries currEntry <? 4 then
        let currEntry := currEntry <| rt_retries := wrap 3 (rt_retries currEntry + 1) |> in
        (currEntry, [W_rtTimer2eventEng_setEvent
                       (event3 (rt_type currEntry) currID (rt_retries currEntry))])
      else
        (currEntry <| rt_retries := 0 |>,
         [W_rtTimer2stateTable_releaseState currID;
          if is_event (rt_type currEntry) SYN
          then W_rtTimer2txApp_notification (openStatus2 currID false)
          else W_rtTimer2rxApp_notification (appNotification_timeout currID true)])
    else (currEntry, [])
  else (currEntry, []).

(** A pending acknowledgement is applied to its entry. *)
Definition rt_clear (upd : rxRetransmitTimerUpdate) (entry : retransmitTimerEntry)
  : retransmitTimerEntry :=
  let entry :=
    if negb (rtu_stop upd) then entry <| rt_time := TIME_1s |>
    else entry <| rt_time := 0 |> <| rt_active := false |> in
  entry <| rt_retries := 0 |>.

Definition retransmit_timer (e : retransmit_timer_env)
  : retransmit_timer_env * list retransmit_timer_write :=
  if rt_waitForWrite e && negb (rtu_sessionID (rt_update e) =? rt_prevPosition e) then
    let id := rtu_sessionID (rt_update e) in
    (e <| retransmitTimerTable :=
            tset id (rt_clear (rt_update e) (retransmitTimerTable e).[id]) (retransmitTimerTable e) |>
       <| rt_waitForWrite := false |>, [])
  else
  match rxEng2timer_clearRetransmitTimer e, rt_waitForWrite e with
  | upd :: rest, false =>
      (e <| rxEng2timer_clearRetransmitTimer := rest |> <| rt_update := upd |>
         <| rt_waitForWrite := true |>, [])
  | _, _ =>
  match txEng2timer_setRetransmitTimer e with
  | set :: rest =>
      let currID := rts_sessionID set in
      (e <| txEng2timer_setRetransmitTimer := rest |>
         <| rt_position :=
              if (currID - 3 <? rt_position e) && (rt_position e <=? currID)
              then wrap 16 (rt_position e + 5) else rt_position e |>
         <| retransmitTimerTable :=
              tset currID (rt_set set (retransmitTimerTable e).[currID]) (retransmitTimerTable e) |>
         <| rt_prevPosition := currID |>, [])
  | [] =>
      let currID := rt_position e in
      let next := wrap 16 (rt_position e + 1) in
      let '(entry, w) := rt_tick (rtTimer2eventEng_full e) currID (retransmitTimerTable e).[currID] in
      (e <| rt_position := if MAX_SESSIONS <=? next then 0 else next |>
         <| retransmitTimerTable := tset currID entry (retransmitTimerTable e) |>
         <| rt_prevPosition := currID |>, w)
  end end.

Inductive retransmit_timer_arrival :=
| A_clearRetransmitTimer (u : rxRetransmitTimerUpdate)
| A_setRetransmitTimer (s : txRetransmitTimerSet)
| A_eventFull (b : bool).

Definition retransmit_timer_arrive (a : retransmit_timer_arrival) (e : retransmit_timer_env)
  : retransmit_timer_env :=
  match a with
  | A_clearRetransmitTimer u =>
      e <| rxEng2timer_clearRetransmitTimer := rxEng2timer_clearRetransmitTimer e ++ [u] |>
  | A_setRetransmitTimer s =>
      e <| txEng2timer_setRetransmitTimer := txEng2timer_setRetransmitTimer e ++ [s] |>
  | A_eventFull b => e <| rtTimer2eventEng_full := b |>
  end.

(** ** Probe timer *)
Record probe_timer_entry := mkProbeTimerEntry { pb_time : Z; pb_active : bool }.
#[export] Instance zero_init_probe_timer_entry : ZeroInit probe_timer_entry :=
  mkProbeTimerEntry 0 false.

Record probe_timer_env := mkProbeTimerEnv {
  probeTimerTable : table probe_timer_entry;
  pt_currSessionID : Z;
  pt_updSessionID : Z;
  pt_prevSessionID : Z;
  pt_WaitForWrite : bool;
  rxEng2timer_clearProbeTimer : stream Z;
  txEng2timer_setProbeTimer : stream Z;
  probeTimer2eventEng_full : bool
}.
#[export] Instance eta_probe_timer_env : Eta probe_timer_env := fun e =>
  mkProbeTimerEnv (probeTimerTable e) (pt_currSessionID e) (pt_updSessionID e)
    (pt_prevSessionID e) (pt_WaitForWrite e) (rxEng2timer_clearProbeTimer e)
    (txEng2timer_setProbeTimer e) (probeTimer2eventEng_full e).

(** The visit of an entry, by the sweep or ([fastResume]) by the RX engine. *)
Definition probe_visit (isFull fastResume : bool) (checkID : Z) (entry : probe_timer_entry)
  : probe_timer_entry * list event :=
  if pb_active entry && negb isFull then
    if (pb_time entry =? 0) || fastResume
    then (mkProbeTimerEntry 0 false, [event2 RT checkID])
    else (mkProbeTimerEntry (wrap 32 (pb_time entry - 1)) (pb_active entry), [])
  else (entry, []).

(** The writes are those to [probeTimer2eventEng_setEvent]. *)
Definition probe_timer (e : probe_timer_env) : probe_timer_env * list event :=
  if pt_WaitForWrite e then
    let e := if negb (pt_updSessionID e =? pt_prevSessionID e)
             then e <| probeTimerTable := tset (pt_updSessionID e)
                         (mkProbeTimerEntry TIME_50ms true) (probeTimerTable e) |>
                    <| pt_WaitForWrite := false |>
             else e in
    (e <| pt_prevSessionID := wrap 16 (pt_prevSessionID e - 1) |>, [])
  else
  match txEng2timer_setProbeTimer e with
  | id :: rest =>
      (e <| txEng2timer_setProbeTimer := rest |> <| pt_updSessionID := id |>
         <| pt_WaitForWrite := true |>, [])
  | [] =>
      let '(e, checkID, fastResume) :=
        match rxEng2timer_clearProbeTimer e with
        | id :: rest => (e <| rxEng2timer_clearProbeTimer := rest |>, id, true)
        | [] =>
            let next := wrap 16 (pt_currSessionID e + 1) in
            (e <| pt_currSessionID := if next =? MAX_SESSIONS then 0 else next |>,
             pt_currSessionID e, false)
        end in
      let '(entry, w) :=
        probe_visit (probeTimer2eventEng_full e) fastResume checkID (probeTimerTable e).[checkID] in
      (e <| probeTimerTable := tset checkID entry (probeTimerTable e) |>
         <| pt_prevSessionID := checkID |>, w)
  end.

(** ** Close timer *)
Record close_timer_entry := mkCloseTimerEntry { cl_time : Z; cl_active : bool }.
#[export] Instance zero_init_close_timer_entry : ZeroInit close_timer_entry :=
  mkCloseTimerEntry 0 false.

Record close_timer_env := mkCloseTimerEnv {
  closeTimerTable : table close_timer_entry;
  ct_currSessionID : Z;
  ct_setSessionID : Z;
  ct_prevSessionID : Z;
  ct_waitForWrite : bool;
  rxEng2timer_setCloseTimer : stream Z
}.
#[export] Instance eta_close_timer_env : Eta close_timer_env := fun e =>
  mkCloseTimerEnv (closeTimerTable e) (ct_currSessionID e) (ct_setSessionID e)
    (ct_prevSessionID e) (ct_waitForWrite e) (rxEng2timer_setCloseTimer e).

Definition close_visit (currID : Z) (entry : close_timer_entry) : close_timer_entry * list Z :=
  if cl_active entry then
    if 0 <? cl_time entry
    then (mkCloseTimerEntry (wrap 32 (cl_time entry - 1)) (cl_active entry), [])
    else (mkCloseTimerEntry 0 false, [currID])
  else (entry, []).

(** The writes are those to [closeTimer2stateTable_releaseState]. *)
Definition close_timer (e : close_timer_env) : close_timer_env * list Z :=
  if ct_waitForWrite e then
    let e := if negb (ct_setSessionID e =? ct_prevSessionID e)
             then e <| closeTimerTable := tset (ct_setSessionID e)
                         (mkCloseTimerEntry TIME_60s true) (closeTimerTable e) |>
                    <| ct_waitForWrite := false |>
             else e in
    (e <| ct_prevSessionID := wrap 16 (ct_prevSessionID e - 1) |>, [])
  else
  match rxEng2timer_setCloseTimer e with
  | id :: rest =>
      (e <| rxEng2timer_setCloseTimer := rest |> <| ct_setSessionID := id |>
         <| ct_waitForWrite := true |>, [])
  | [] =>
      let currID := ct_currSessionID e in
      let '(entry, w) := close_visit currID (closeTimerTable e).[currID] in
      let next := wrap 16 (currID + 1) in
      (e <| ct_prevSessionID := currID |>
         <| closeTimerTable := tset currID entry (closeTimerTable e) |>
         <| ct_currSessionID := if next =? MAX_SESSIONS then 0 else next |>, w)
  end.

(** ** The wrapper *)

(** [stream_merger] ([axi_utils.hpp]) and [timerCloseMerger]: one element per call,
    the first stream before the second. *)
Definition stream_merger {T} (in1 in2 : stream T) : stream T * stream T * list T :=
  match in1 with
  | x :: in1 => (in1, in2, [x])
  | [] => match in2 with
          | x :: in2 => ([], in2, [x])
          | [] => ([], [], [])
          end
  end.

Definition timerCloseMerger (in1 in2 : stream Z) : stream Z * stream Z * list Z :=
  match in1 with
  | sessionID :: in1 => (in1, in2, [sessionID])
  | [] => match in2 with
          | sessionID :: in2 => ([], in2, [sessionID])
          | [] => ([], [], [])
          end
  end.

Record timer_env := mkTimerEnv {
  tm_rt : retransmit_timer_env;
  tm_probe : probe_timer_env;
  tm_close : close_timer_env;
  closeTimer2stateTable_releaseState : stream Z;
  rtTimer2stateTable_releaseState : stream Z;
  rtTimer2eventEng_setEvent : stream event;
  probeTimer2eventEng_setEvent : stream event
}.

Inductive timer_write :=
| W_timer2stateTable_releaseState (id : Z)
| W_timer2eventEng_setEvent (ev : event)
| W_timer2rxApp_notification (n : appNotification)
| W_timer2txApp_notification (s : openStatus).

Definition rt_events (w : list retransmit_timer_write) : list event :=
  omap (fun x => match x with W_rtTimer2eventEng_setEvent ev => Some ev | _ => None end) w.
Definition rt_releases (w : list retransmit_timer_write) : list Z :=
  omap (fun x => match x with W_rtTimer2stateTable_releaseState id => Some id | _ => None end) w.
Definition rt_notifications (w : list retransmit_timer_write) : list timer_write :=
  omap (fun x => match x with
                 | W_rtTimer2rxApp_notification n => Some (W_timer2rxApp_notification n)
                 | W_rtTimer2txApp_notification s => Some (W_timer2txApp_notification s)
                 | _ => None end) w.

(** The two event streams have depth 2. *)
Definition timerWrapper (e : timer_env) : timer_env * list timer_write :=
  let '(rtEvents, probeEvents, wEvent) :=
    stream_merger (rtTimer2eventEng_setEvent e) (probeTimer2eventEng_setEvent e) in
  let '(rt, wrt) := retransmit_timer (tm_rt e <| rtTimer2eventEng_full := full 2 rtEvents |>) in
  let '(probe, wprobe) :=
    probe_timer (tm_probe e <| probeTimer2eventEng_full := full 2 probeEvents |>) in
  let '(close, wclose) := close_timer (tm_close e) in
  let '(closeRel, rtRel, wRel) :=
    stream_merger (closeTimer2stateTable_releaseState e ++ wclose)
                  (rtTimer2stateTable_releaseState e ++ rt_releases wrt) in
  (mkTimerEnv rt probe close closeRel rtRel
     (rtEvents ++ rt_events wrt) (probeEvents ++ wprobe),
   map W_timer2eventEng_setEvent wEvent ++ rt_notifications wrt
     ++ map W_timer2stateTable_releaseState wRel).

(** ** Facts about single calls *)

(** The write trace of a session: the retry counts of its events, an abort as 0. *)
Definition id_counts (id : Z) (w : list retransmit_timer_write) : list Z :=
  omap (fun x => match x with
                 | W_rtTimer2eventEng_setEvent ev =>
                     if ev_sessionID ev =? id then Some (ev_rt_count ev) else None
                 | W_rtTimer2stateTable_releaseState i => if i =? id then Some 0 else None
                 | _ => None end) w.

Lemma id_counts_app id w1 w2 : id_counts id (w1 ++ w2) = id_counts id w1 ++ id_counts id w2.
Proof. apply omap_app. Qed.

Lemma rt_tick_other isFull i id entry : i <> id -> id_counts id (rt_tick isFull i entry).2 = [].
Proof.
  intros Hne. unfold rt_tick. assert ((i =? id) = false) as Hi by lia.
  repeat (case_match; simpl; rewrite ?Hi; try done).
Qed.

(** The counts so far are 1, 2, 3, 4, 0, 1, ... and [retries] is the next one. *)
Definition retry_schedule (n : nat) : list Z := map (fun k => (Z.of_nat k + 1) `mod` 5) (seq 0 n).

Definition on_schedule (l : list Z) (entry : retransmitTimerEntry) : Prop :=
  l = retry_schedule (length l) /\ rt_retries entry = Z.of_nat (length l) `mod` 5.

Lemma on_schedule_tick isFull id entry l :
  on_schedule l entry ->
  on_schedule (l ++ id_counts id (rt_tick isFull id entry).2) (rt_tick isFull id entry).1.
Proof.
  intros [Hl Hr]. unfold rt_tick.
  assert (forall x, x = (Z.of_nat (length l) + 1) `mod` 5 ->
            l ++ [x] = retry_schedule (length (l ++ [x]))) as Hsnoc.
  { intros x ->. rewrite length_app. simpl. unfold retry_schedule in *.
    rewrite Nat.add_1_r, seq_S, map_app. simpl. by rewrite <- Hl. }
  assert (on_schedule (l ++ []) entry) as Hnil by (by rewrite app_nil_r).
  destruct (rt_active entry); [|done]. destruct (0 <? _); [by rewrite app_nil_r|].
  destruct isFull; [done|]. simpl. destruct (rt_retries entry <? 4) eqn:H4; simpl;
    [|destruct (is_event _ _); simpl]; rewrite Z.eqb_refl; bool_prop;
    (split; [apply Hsnoc|rewrite length_app; simpl; rewrite Nat2Z.inj_add; simpl]);
    rewrite ?Hr in *; wrap_lia.
Qed.

Lemma on_schedule_set s l entry : on_schedule l entry -> on_schedule l (rt_set s entry).
Proof. intros [Hl Hr]. unfold rt_set. by destruct (rt_active _). Qed.

(** No acknowledgement of session [id] is pending. *)
Definition no_clear (id : Z) (e : retransmit_timer_env) : Prop :=
  (rt_waitForWrite e = true -> rtu_sessionID (rt_update e) <> id) /\
  Forall (fun u => rtu_sessionID u <> id) (rxEng2timer_clearRetransmitTimer e).

Definition not_clear_of (id : Z) (a : retransmit_timer_arrival) : Prop :=
  match a with A_clearRetransmitTimer u => rtu_sessionID u <> id | _ => True end.

Lemma no_clear_call id e : no_clear id e -> no_clear id (retransmit_timer e).1.
Proof.
  intros [Hw Hq]. unfold retransmit_timer.
  destruct (rt_waitForWrite e && _) eqn:Hb; [by split|].
  destruct (rxEng2timer_clearRetransmitTimer e) as [|u rest] eqn:Hc;
    [|destruct (rt_waitForWrite e) eqn:Hwf].
  3:{ inversion Hq; subst. by split. }
  all: destruct (txEng2timer_setRetransmitTimer e); [destruct (rt_tick _ _ _)|];
    unfold no_clear; simpl; rewrite ?Hc, ?Hwf; by split.
Qed.

Lemma no_clear_arrive id a e :
  not_clear_of id a -> no_clear id e -> no_clear id (retransmit_timer_arrive a e).
Proof.
  intros Ha [Hw Hq]. destruct a; [|by split..]. split; [done|]. simpl.
  apply Forall_app. split; [done|]. by apply Forall_singleton.
Qed.

Lemma on_schedule_call id l e :
  no_clear id e -> on_schedule l (retransmitTimerTable e).[id] ->
  on_schedule (l ++ id_counts id (retransmit_timer e).2)
    (retransmitTimerTable (retransmit_timer e).1).[id].
Proof.
  intros [Hw Hq] Hs. unfold retransmit_timer.
  destruct (rt_waitForWrite e && _) eqn:Hb; bool_prop; simpl.
  { rewrite app_nil_r, tget_tset_ne by auto. done. }
  assert (forall e', retransmitTimerTable e' = retransmitTimerTable e ->
    on_schedule (l ++ []) (retransmitTimerTable e').[id]) as Hsame.
  { intros e' ->. by rewrite app_nil_r. }
  destruct (rxEng2timer_clearRetransmitTimer e) as [|u rest];
    [|destruct (rt_waitForWrite e); [|by apply Hsame]].
  all: destruct (txEng2timer_setRetransmitTimer e) as [|s srest]; simpl;
    [|rewrite app_nil_r, tget_tset; case_decide; [subst; by apply on_schedule_set|done]].
  all: destruct (decide (rt_position e = id)) as [Hp|Hne];
    [subst; pose proof (on_schedule_tick (rtTimer2eventEng_full e) (rt_position e) _ _ Hs)
    |pose proof (rt_tick_other (rtTimer2eventEng_full e) _ _
                   (retransmitTimerTable e).[rt_position e] Hne) as Hn];
    destruct (rt_tick _ _ _) as [entry w]; simpl in *; rewrite ?tget_tset_eq; try done;
    by rewrite Hn, app_nil_r, tget_tset_ne.
Qed.

(** ** Sweeps of the retransmission timer *)
Definition rt_idle (e : retransmit_timer_env) : Prop :=
  rt_waitForWrite e = false /\ rxEng2timer_clearRetransmitTimer e = [] /\
  txEng2timer_setRetransmitTimer e = [] /\ rtTimer2eventEng_full e = false /\
  0 <= rt_position e < MAX_SESSIONS /\
  forall i, in_width 32 (rt_time (retransmitTimerTable e).[i]).

Definition rt_armed (i : Z) (e : retransmit_timer_env) : option Z :=
  let entry := (retransmitTimerTable e).[i] in
  if rt_active entry then Some (rt_time entry) else None.

(** Session [i] had an event or was aborted. *)
Definition rt_fired (i : Z) (w : list retransmit_timer_write) : bool :=
  negb (bool_decide (id_counts i w = [])).

Lemma rt_fired_app i w1 w2 : rt_fired i (w1 ++ w2) = rt_fired i w1 || rt_fired i w2.
Proof.
  unfold rt_fired. rewrite id_counts_app. rewrite <- negb_andb. f_equal.
  destruct (id_counts i w1); [done|]. by rewrite bool_decide_false.
Qed.

Lemma rt_fired_nil i : rt_fired i [] = false.
Proof. done. Qed.

(** What an idle call does. *)
Lemma rt_idle_call_eq e :
  rt_idle e ->
  let t := rt_tick false (rt_position e) (retransmitTimerTable e).[rt_position e] in
  retransmit_timer e =
    (e <| rt_position := if MAX_SESSIONS <=? wrap 16 (rt_position e + 1) then 0
                         else wrap 16 (rt_position e + 1) |>
       <| retransmitTimerTable := tset (rt_position e) t.1 (retransmitTimerTable e) |>
       <| rt_prevPosition := rt_position e |>, t.2).
Proof.
  intros (Hw & Hc & Hs & Hf & _). unfold retransmit_timer. rewrite Hw, Hc, Hs, Hf. simpl.
  by destruct (rt_tick _ _ _).
Qed.

Lemma rt_tick_time isFull i entry :
  in_width 32 (rt_time entry) -> in_width 32 (rt_time (rt_tick isFull i entry).1).
Proof.
  intros Ht. unfold rt_tick. repeat (case_match; simpl; try done); by apply wrap_range.
Qed.

Section RtSweep.
Hypothesis Hcfg : config_ok C.

Lemma rt_pos_call e :
  rt_idle e -> rt_position (retransmit_timer e).1 = (rt_position e + 1) `mod` MAX_SESSIONS.
Proof using Hcfg. intros He. rewrite rt_idle_call_eq by done. simpl. by apply next_position, He. Qed.

Lemma rt_idle_call e : rt_idle e -> rt_idle (retransmit_timer e).1.
Proof using Hcfg.
  intros He. pose proof (rt_pos_call e He) as Hp. rewrite rt_idle_call_eq in * by done.
  pose proof (sessions_range C Hcfg). destruct He as (? & ? & ? & ? & ? & Ht).
  pose proof (Z.mod_pos_bound (rt_position e + 1) MAX_SESSIONS).
  unfold rt_idle. rewrite Hp. simpl. split_and!; try (done || lia).
  intros i. rewrite tget_tset. case_decide; [|done]. by apply rt_tick_time.
Qed.

Lemma rt_sweep n e i t :
  rt_idle e -> 0 <= i < MAX_SESSIONS -> rt_armed i e = Some t ->
  rt_fired i (calls retransmit_timer n e).2 =
    (until MAX_SESSIONS rt_position i e + t * MAX_SESSIONS <? Z.of_nat n).
Proof using Hcfg.
  intros He Hi Ha. pose proof (sessions_range C Hcfg).
  apply (sweep_fires retransmit_timer MAX_SESSIONS rt_idle rt_position rt_armed rt_fired);
    auto using rt_fired_app, rt_idle_call, rt_pos_call; try lia.
  - clear. intros e He. apply He.
  - clear. intros e i He Hne. rewrite rt_idle_call_eq by done. unfold rt_armed, rt_fired. simpl.
    rewrite tget_tset_ne, rt_tick_other by done. done.
  - clear. intros e t He Ha Ht. rewrite rt_idle_call_eq by done. unfold rt_armed in *. simpl.
    rewrite tget_tset_eq. destruct He as (_ & _ & _ & _ & _ & Hw).
    specialize (Hw (rt_position e)). unfold rt_tick in *.
    destruct (rt_active _) eqn:Hact; simplify_eq.
    replace (0 <? _) with true by lia. simpl. rewrite Hact. split; [|done].
    f_equal. apply wrap_small. unfold in_width in *. lia.
  - clear. intros e He Ha. rewrite rt_idle_call_eq by done. unfold rt_armed, rt_fired, rt_tick in *.
    destruct (rt_active _); simplify_eq. rewrite Ha.
    destruct (_ <? 4); simpl; by rewrite Z.eqb_refl.
  - destruct He as (_ & _ & _ & _ & _ & Hw). unfold rt_armed in Ha.
    destruct (rt_active _); simplify_eq. apply Hw.
Qed.
End RtSweep.

(** ** Sweeps of the probe timer and of the close timer *)
Definition probe_idle (e : probe_timer_env) : Prop :=
  pt_WaitForWrite e = false /\ txEng2timer_setProbeTimer e = [] /\
  rxEng2timer_clearProbeTimer e = [] /\ probeTimer2eventEng_full e = false /\
  0 <= pt_currSessionID e < MAX_SESSIONS /\
  forall i, in_width 32 (pb_time (probeTimerTable e).[i]).

Definition probe_armed (i : Z) (e : probe_timer_env) : option Z :=
  let entry := (probeTimerTable e).[i] in if pb_active entry then Some (pb_time entry) else None.

Definition probe_fired (i : Z) (w : list event) : bool := among i (map ev_sessionID w).

Definition close_idle (e : close_timer_env) : Prop :=
  ct_waitForWrite e = false /\ rxEng2timer_setCloseTimer e = [] /\
  0 <= ct_currSessionID e < MAX_SESSIONS /\
  forall i, in_width 32 (cl_time (closeTimerTable e).[i]).

Definition close_armed (i : Z) (e : close_timer_env) : option Z :=
  let entry := (closeTimerTable e).[i] in if cl_active entry then Some (cl_time entry) else None.

Lemma probe_idle_call_eq e :
  probe_idle e ->
  let i := pt_currSessionID e in
  let t := probe_visit false false i (probeTimerTable e).[i] in
  let next := wrap 16 (i + 1) in
  probe_timer e =
    (e <| pt_currSessionID := if next =? MAX_SESSIONS then 0 else next |>
       <| probeTimerTable := tset i t.1 (probeTimerTable e) |> <| pt_prevSessionID := i |>, t.2).
Proof.
  intros (Hw & Hs & Hc & Hf & _). unfold probe_timer. rewrite Hw, Hs, Hc. simpl. rewrite Hf.
  by destruct (probe_visit _ _ _ _).
Qed.

Lemma close_idle_call_eq e :
  close_idle e ->
  let i := ct_currSessionID e in
  let t := close_visit i (closeTimerTable e).[i] in
  let next := wrap 16 (i + 1) in
  close_timer e =
    (e <| ct_prevSessionID := i |> <| closeTimerTable := tset i t.1 (closeTimerTable e) |>
       <| ct_currSessionID := if next =? MAX_SESSIONS then 0 else next |>, t.2).
Proof.
  intros (Hw & Hs & _). unfold close_timer. rewrite Hw, Hs. simpl.
  by destruct (close_visit _ _).
Qed.

Section Sweeps.
Hypothesis Hcfg : config_ok C.

Lemma probe_pos_call e :
  probe_idle e ->
  pt_currSessionID (probe_timer e).1 = (pt_currSessionID e + 1) `mod` MAX_SESSIONS.
Proof using Hcfg. intros He. rewrite probe_idle_call_eq by done. by apply next_session, He. Qed.

Lemma probe_idle_call e : probe_idle e -> probe_idle (probe_timer e).1.
Proof using Hcfg.
  intros He. pose proof (probe_pos_call e He) as Hp. rewrite probe_idle_call_eq in * by done.
  pose proof (sessions_range C Hcfg). destruct He as (? & ? & ? & ? & ? & Ht).
  pose proof (Z.mod_pos_bound (pt_currSessionID e + 1) MAX_SESSIONS).
  unfold probe_idle. rewrite Hp. simpl. split_and!; try (done || lia).
  intros i. rewrite tget_tset. case_decide; [|done].
  unfold probe_visit. repeat case_match; simpl; first [apply Ht|done|by apply wrap_range].
Qed.

Lemma probe_sweep n e i t :
  probe_idle e -> 0 <= i < MAX_SESSIONS -> probe_armed i e = Some t ->
  probe_fired i (calls probe_timer n e).2 =
    (until MAX_SESSIONS pt_currSessionID i e + t * MAX_SESSIONS <? Z.of_nat n).
Proof using Hcfg.
  intros He Hi Ha. pose proof (sessions_range C Hcfg).
  apply (sweep_fires probe_timer MAX_SESSIONS probe_idle pt_currSessionID probe_armed probe_fired);
    auto using probe_idle_call, probe_pos_call; try lia.
  - intros. unfold probe_fired. by rewrite map_app, among_app.
  - clear. intros e He. apply He.
  - clear. intros e i He Hne. rewrite probe_idle_call_eq by done.
    unfold probe_armed, probe_fired, probe_visit. simpl. rewrite tget_tset_ne by done.
    split; [done|]. repeat case_match; simpl; try done. rewrite among_single. simpl. lia.
  - clear. intros e t He Ha Ht. rewrite probe_idle_call_eq by done. unfold probe_armed in *.
    simpl. rewrite tget_tset_eq. destruct He as (_ & _ & _ & _ & _ & Hw).
    specialize (Hw (pt_currSessionID e)). unfold probe_visit.
    destruct (pb_active _) eqn:Hact; simplify_eq. simpl.
    replace (pb_time _ =? 0) with false by lia. simpl. split; [|done].
    f_equal. apply wrap_small. unfold in_width in *. lia.
  - clear. intros e He Ha. rewrite probe_idle_call_eq by done.
    unfold probe_armed, probe_fired, probe_visit in *.
    destruct (pb_active _); simplify_eq. rewrite Ha. simpl. rewrite among_single. simpl. lia.
  - destruct He as (_ & _ & _ & _ & _ & Hw). unfold probe_armed in Ha.
    destruct (pb_active _); simplify_eq. apply Hw.
Qed.

Lemma close_pos_call e :
  close_idle e ->
  ct_currSessionID (close_timer e).1 = (ct_currSessionID e + 1) `mod` MAX_SESSIONS.
Proof using Hcfg. intros He. rewrite close_idle_call_eq by done. by apply next_session, He. Qed.

Lemma close_idle_call e : close_idle e -> close_idle (close_timer e).1.
Proof using Hcfg.
  intros He. pose proof (close_pos_call e He) as Hp. rewrite close_idle_call_eq in * by done.
  pose proof (sessions_range C Hcfg). destruct He as (? & ? & ? & Ht).
  pose proof (Z.mod_pos_bound (ct_currSessionID e + 1) MAX_SESSIONS).
  unfold close_idle. rewrite Hp. simpl. split_and!; try (done || lia).
  intros i. rewrite tget_tset. case_decide; [|done].
  unfold close_visit. repeat case_match; simpl; first [apply Ht|done|by apply wrap_range].
Qed.

Lemma close_sweep n e i t :
  close_idle e -> 0 <= i < MAX_SESSIONS -> close_armed i e = Some t ->
  among i (calls close_timer n e).2 =
    (until MAX_SESSIONS ct_currSessionID i e + t * MAX_SESSIONS <? Z.of_nat n).
Proof using Hcfg.
  intros He Hi Ha. pose proof (sessions_range C Hcfg).
  apply (sweep_fires close_timer MAX_SESSIONS close_idle ct_currSessionID close_armed among);
    auto using close_idle_call, close_pos_call, among_app; try lia.
  - clear. intros e He. apply He.
  - clear. intros e i He Hne. rewrite close_idle_call_eq by done.
    unfold close_armed, close_visit. simpl. rewrite tget_tset_ne by done.
    split; [done|]. repeat case_match; simpl; try done. rewrite among_single. lia.
  - clear. intros e t He Ha Ht. rewrite close_idle_call_eq by done. unfold close_armed in *.
    simpl. rewrite tget_tset_eq. destruct He as (_ & _ & _ & Hw).
    specialize (Hw (ct_currSessionID e)). unfold close_visit.
    destruct (cl_active _) eqn:Hact; simplify_eq.
    replace (0 <? cl_time _) with true by lia. simpl. split; [|done].
    f_equal. apply wrap_small. unfold in_width in *. lia.
  - clear. intros e He Ha. rewrite close_idle_call_eq by done.
    unfold close_armed, close_visit in *.
    destruct (cl_active _); simplify_eq. rewrite Ha. simpl. rewrite among_single. simpl. lia.
  - destruct He as (_ & _ & _ & Hw). unfold close_armed in Ha.
    destruct (cl_active _); simplify_eq. apply Hw.
Qed.
End Sweeps.

(** A request for an entry is in the table two or three calls later, and the sweep
    has not moved in between. *)
Definition request_calls (id prev : Z) : nat := if id =? prev then 3 else 2.

Lemma wrap_pred_ne id : in_width 16 id -> id <> wrap 16 (id - 1).
Proof. intros H. wrap_lia. Qed.

Lemma close_request_calls e id :
  ct_waitForWrite e = false -> rxEng2timer_setCloseTimer e = [id] -> in_width 16 id ->
  exists prev,
  calls close_timer (request_calls id (ct_prevSessionID e)) e =
    (mkCloseTimerEnv (tset id (mkCloseTimerEntry TIME_60s true) (closeTimerTable e))
       (ct_currSessionID e) id prev false [], []).
Proof.
  intros Hw Hs Hid. unfold request_calls. pose proof (wrap_pred_ne id Hid).
  destruct e; simpl in *; subst.
  destruct (id =? _) eqn:Hp; unfold close_timer; simpl; rewrite Hp; simpl; [|by eexists].
  bool_prop; subst. replace (_ =? wrap _ _) with false by lia. simpl. by eexists.
Qed.

Lemma probe_request_calls e id :
  pt_WaitForWrite e = false -> txEng2timer_setProbeTimer e = [id] -> in_width 16 id ->
  exists prev,
  calls probe_timer (request_calls id (pt_prevSessionID e)) e =
    (mkProbeTimerEnv (tset id (mkProbeTimerEntry TIME_50ms true) (probeTimerTable e))
       (pt_currSessionID e) id prev false (rxEng2timer_clearProbeTimer e) []
       (probeTimer2eventEng_full e), []).
Proof.
  intros Hw Hs Hid. unfold request_calls. pose proof (wrap_pred_ne id Hid).
  destruct e; simpl in *; subst.
  destruct (id =? _) eqn:Hp; unfold probe_timer; simpl; rewrite Hp; simpl; [|by eexists].
  bool_prop; subst. replace (_ =? wrap _ _) with false by lia. simpl. by eexists.
Qed.

(** A prefix of a run that writes nothing writes nothing. *)
Lemma calls_prefix_nil {E W} (call : E -> E * list W) n m e :
  (n <= m)%nat -> (calls call m e).2 = [] -> (calls call n e).2 = [].
Proof.
  intros Hnm. replace m with (n + (m - n))%nat by lia. rewrite calls_add. simpl.
  by intros [? _]%app_nil.
Qed.

(** A connection that entered TIME-WAIT is released at a definite time.  If the
    RX engine has asked for the close timer of a session and nothing else is asked,
    the session is released to the state table after the two or three calls that
    store the request, the calls until the sweep reaches the entry and [TIME_60s]
    rounds over the table, and not earlier; whatever the entry held before. *)
Theorem close_request_releases n e id :
  config_ok C ->
  ct_waitForWrite e = false -> rxEng2timer_setCloseTimer e = [id] ->
  0 <= id < MAX_SESSIONS -> 0 <= ct_currSessionID e < MAX_SESSIONS ->
  (forall i, in_width 32 (cl_time (closeTimerTable e).[i])) ->
  id ∈ (calls close_timer n e).2 <->
  Z.of_nat (request_calls id (ct_prevSessionID e))
    + (id - ct_currSessionID e) `mod` MAX_SESSIONS + TIME_60s * MAX_SESSIONS < Z.of_nat n.
Proof.
  intros Hcfg Hw Hs Hid Hc Ht. pose proof (sessions_range C Hcfg).
  pose proof (time_60s_range C Hcfg).
  destruct (close_request_calls e id) as [prev Hk]; [done|done|unfold in_width; lia|].
  set (k := request_calls _ _) in *.
  pose proof (Z.mod_pos_bound (id - ct_currSessionID e) MAX_SESSIONS).
  destruct (decide (n < k)%nat) as [Hn|Hn].
  - rewrite (calls_prefix_nil _ n k) by (rewrite ?Hk; done || lia).
    rewrite elem_of_nil. nia.
  - replace n with (k + (n - k))%nat by lia. rewrite calls_add, Hk. simpl.
    rewrite <- (bool_decide_eq_true (_ ∈ _)). fold (among id).
    match goal with |- bool_decide (_ ∈ (calls _ _ ?e1).2) = _ <-> _ =>
      pose proof (close_sweep Hcfg (n - k) e1 id TIME_60s) as Hsweep end.
    unfold among in Hsweep. rewrite Hsweep; [|split_and!; simpl; try (done || lia)|done|].
    + unfold until. simpl. lia.
    + clear Hsweep. intros i. simpl. rewrite tget_tset. case_decide; [|apply Ht]. unfold in_width. simpl. lia.
    + unfold close_armed. simpl. by rewrite tget_tset_eq.
Qed.

(** A probe is sent at a definite time.  If the TX engine has asked for the probe
    timer of a session and nothing else is asked, an event for the session is written
    after the two or three calls that store the request, the calls until the sweep
    reaches the entry and [TIME_50ms] rounds over the table, and not earlier. *)
Theorem probe_request_fires n e id :
  config_ok C ->
  pt_WaitForWrite e = false -> txEng2timer_setProbeTimer e = [id] ->
  rxEng2timer_clearProbeTimer e = [] -> probeTimer2eventEng_full e = false ->
  0 <= id < MAX_SESSIONS -> 0 <= pt_currSessionID e < MAX_SESSIONS ->
  (forall i, in_width 32 (pb_time (probeTimerTable e).[i])) ->
  id ∈ map ev_sessionID (calls probe_timer n e).2 <->
  Z.of_nat (request_calls id (pt_prevSessionID e))
    + (id - pt_currSessionID e) `mod` MAX_SESSIONS + TIME_50ms * MAX_SESSIONS < Z.of_nat n.
Proof.
  intros Hcfg Hw Hs Hcl Hf Hid Hc Ht. pose proof (sessions_range C Hcfg).
  pose proof (time_50ms_range C Hcfg).
  destruct (probe_request_calls e id) as [prev Hk]; [done|done|unfold in_width; lia|].
  set (k := request_calls _ _) in *.
  pose proof (Z.mod_pos_bound (id - pt_currSessionID e) MAX_SESSIONS).
  destruct (decide (n < k)%nat) as [Hn|Hn].
  - rewrite (calls_prefix_nil _ n k) by (rewrite ?Hk; done || lia).
    rewrite elem_of_nil. nia.
  - replace n with (k + (n - k))%nat by lia. rewrite calls_add, Hk. simpl.
    rewrite <- (bool_decide_eq_true (_ ∈ _)).
    match goal with |- bool_decide (_ ∈ map _ (calls _ _ ?e1).2) = _ <-> _ =>
      pose proof (probe_sweep Hcfg (n - k) e1 id TIME_50ms) as Hsweep end.
    unfold probe_fired, among in Hsweep.
    rewrite Hsweep; [|split_and!; simpl; try (done || lia)|done|].
    + unfold until. simpl. lia.
    + clear Hsweep. intros i. simpl. rewrite tget_tset. case_decide; [|apply Ht]. unfold in_width. simpl. lia.
    + unfold probe_armed. simpl. by rewrite tget_tset_eq.
Qed.


(** The retransmission schedule of a session.  As long as the peer acknowledges
    nothing on it, whatever else happens, the events of a session carry the retry
    counts 1, 2, 3, 4 in this order and the next expiry aborts it; after the abort
    the schedule starts again. *)
Theorem rt_retry_schedule id w e :
  steps retransmit_timer (arrive_if (not_clear_of id) retransmit_timer_arrive)
    retransmit_timer_init w e ->
  id_counts id w = retry_schedule (length (id_counts id w)) /\
  rt_retries (retransmitTimerTable e).[id] = Z.of_nat (length (id_counts id w)) `mod` 5.
Proof.
  intros Hs.
  assert (no_clear id e /\ on_schedule (id_counts id w) (retransmitTimerTable e).[id]) as [_ H]
    by (eapply (steps_trace_invariant retransmit_timer (arrive_if (not_clear_of id) _)
                  (fun w e => no_clear id e /\
                     on_schedule (id_counts id w) (retransmitTimerTable e).[id])); [| |exact Hs|];
        [intros w0 e0 [? ?]; rewrite id_counts_app; split;
           [by apply no_clear_call|by apply on_schedule_call]
        |intros w0 [a Ha] e0 [? ?]; split; [by apply no_clear_arrive|by destruct a]
        |done]).
  exact H.
Qed.

(** A session is given up only after its fourth retransmission timed out, and
    whoever waits for it is told.  A call that releases a session found its timer
    running, expired and with four retries; it leaves the timer stopped with the
    retry count cleared, and in the same call tells the TX application interface
    that the connection failed if it was being opened, and otherwise the application
    that it was closed. *)
Theorem rt_abort_notifies e id :
  W_rtTimer2stateTable_releaseState id ∈ (retransmit_timer e).2 ->
  let entry := (retransmitTimerTable e).[id] in
  rt_active entry = true /\ rt_time entry <= 0 /\ 4 <= rt_retries entry /\
  (retransmit_timer e).2 =
    [W_rtTimer2stateTable_releaseState id;
     if is_event (rt_type entry) SYN
     then W_rtTimer2txApp_notification (openStatus2 id false)
     else W_rtTimer2rxApp_notification (appNotification_timeout id true)] /\
  (retransmitTimerTable (retransmit_timer e).1).[id] =
    mkRetransmitTimerEntry 0 0 false (rt_type entry).
Proof.
  assert (forall i entry0 isFull, W_rtTimer2stateTable_releaseState id ∈ (rt_tick isFull i entry0).2 ->
    i = id /\ rt_active entry0 = true /\ rt_time entry0 <= 0 /\ 4 <= rt_retries entry0 /\
    rt_tick isFull i entry0 = (mkRetransmitTimerEntry 0 0 false (rt_type entry0),
    [W_rtTimer2stateTable_releaseState id;
     if is_event (rt_type entry0) SYN
     then W_rtTimer2txApp_notification (openStatus2 id false)
     else W_rtTimer2rxApp_notification (appNotification_timeout id true)])) as Htick.
  { intros i entry0 isFull. unfold rt_tick.
    destruct (rt_active entry0); simpl; [|by intros ?%elem_of_nil].
    destruct (0 <? _) eqn:?; simpl; [by intros ?%elem_of_nil|].
    destruct isFull; simpl; [by intros ?%elem_of_nil|].
    destruct (_ <? 4) eqn:?; simpl; [by intros ?%list_elem_of_singleton|]. bool_prop.
    intros [Heq|Hin%list_elem_of_singleton]%elem_of_cons; [by injection Heq as ->|].
    destruct (is_event _ _); discriminate. }
  unfold retransmit_timer.
  destruct (rt_waitForWrite e && _); [by intros ?%elem_of_nil|].
  destruct (rxEng2timer_clearRetransmitTimer e);
    [|destruct (rt_waitForWrite e); [|by intros ?%elem_of_nil]].
  all: destruct (txEng2timer_setRetransmitTimer e); [|by intros ?%elem_of_nil].
  all: pose proof (Htick (rt_position e) (retransmitTimerTable e).[rt_position e]
         (rtTimer2eventEng_full e)) as Ht; clear Htick;
    destruct (rt_tick _ _ _) as [entry w]; simpl in *; intros Hin;
    destruct (Ht Hin) as (<- & ? & ? & ? & Heq); injection Heq as -> ->;
    split_and!; try done; by rewrite tget_tset_eq.
Qed.

(** Session numbers of the retransmission timer's requests are in range. *)
Definition set_in_range (a : retransmit_timer_arrival) : Prop :=
  match a with A_setRetransmitTimer s => 0 <= rts_sessionID s < MAX_SESSIONS | _ => True end.

Definition rt_in_range (e : retransmit_timer_env) : Prop :=
  0 <= rt_position e <= MAX_SESSIONS + 4 /\
  Forall (fun s => 0 <= rts_sessionID s < MAX_SESSIONS) (txEng2timer_setRetransmitTimer e).

Lemma rt_in_range_call e : config_ok C -> rt_in_range e -> rt_in_range (retransmit_timer e).1.
Proof.
  intros Hcfg [Hp Hq]. pose proof (sessions_range C Hcfg).
  unfold retransmit_timer. destruct (_ && _); [by split|].
  assert (rt_in_range
    match txEng2timer_setRetransmitTimer e with
    | set :: rest => e <| txEng2timer_setRetransmitTimer := rest |>
         <| rt_position :=
              if (rts_sessionID set - 3 <? rt_position e) && (rt_position e <=? rts_sessionID set)
              then wrap 16 (rt_position e + 5) else rt_position e |>
    | [] => e <| rt_position := if MAX_SESSIONS <=? wrap 16 (rt_position e + 1) then 0
                                else wrap 16 (rt_position e + 1) |>
    end) as Hmain.
  { destruct (txEng2timer_setRetransmitTimer e) as [|s rest] eqn:Hs; split; simpl.
    - pose proof (wrap_range 16 (rt_position e + 1)). unfold in_width in *. case_match; lia.
    - by rewrite Hs.
    - inversion Hq; subst. destruct (_ && _) eqn:?; [|lia].
      rewrite wrap_small; unfold in_width; lia.
    - by inversion Hq. }
  destruct (rxEng2timer_clearRetransmitTimer e); [|destruct (rt_waitForWrite e); [|by split]].
  all: destruct (txEng2timer_setRetransmitTimer e) eqn:Hs; [|exact Hmain].
  all: destruct (rt_tick _ _ _); unfold rt_in_range in *; simpl in *; by rewrite Hs in *.
Qed.

(** The run that moves the position past the table: the sweep comes to the last entry
    and the timer of that session is set. *)
Definition overrun_schedule : list (option retransmit_timer_arrival) :=
  [Some (A_setRetransmitTimer (txRetransmitTimerSet_rt (MAX_SESSIONS - 1))); None].

(** The index of the retransmission timer's table is not confined to the table.
    With session numbers in range the position of the sweep stays below
    [MAX_SESSIONS + 5]; and the bound is attained: from the initial state, the sweep
    comes to the last entry, a request for that session moves the position by five,
    and the next idle call reads and writes entry [MAX_SESSIONS + 4]. *)
Theorem rt_position_overrun w e :
  config_ok C ->
  steps retransmit_timer (arrive_if set_in_range retransmit_timer_arrive)
    retransmit_timer_init w e ->
  rt_position e <= MAX_SESSIONS + 4 /\
  let e1 := (calls retransmit_timer (Z.to_nat (MAX_SESSIONS - 1)) retransmit_timer_init).1 in
  rt_position (exec retransmit_timer retransmit_timer_arrive overrun_schedule e1).1
    = MAX_SESSIONS + 4.
Proof.
  intros Hcfg Hs. pose proof (sessions_range C Hcfg). split.
  - eapply (steps_invariant retransmit_timer (arrive_if set_in_range _) rt_in_range);
      [intros; by apply rt_in_range_call| |exact Hs|split; simpl; [lia|done]].
    intros [a Ha] e0 [? ?]. destruct a; split; try done. simpl.
    apply Forall_app. split; [done|]. by apply Forall_singleton.
  - intros e1. assert (rt_idle retransmit_timer_init) as Hinit.
    { split_and!; simpl; done || lia. }
    assert (rt_idle e1) as He1 by (by apply (idle_calls _ rt_idle (rt_idle_call Hcfg))).
    assert (rt_position e1 = MAX_SESSIONS - 1) as Hpos.
    { unfold e1. rewrite (pos_calls retransmit_timer MAX_SESSIONS rt_idle rt_position);
        auto using rt_idle_call, rt_pos_call; [|by intros ? (_ & _ & _ & _ & ? & _)].
      simpl. rewrite Z.mod_small; lia. }
    destruct He1 as (Hw & Hc & Hq & _). simpl. unfold retransmit_timer. simpl.
    rewrite Hw, Hc, Hq, Hpos. simpl.
    replace (_ <? _) with true by lia. replace (_ <=? _) with true by lia. simpl.
    rewrite wrap_small; unfold in_width; lia.
Qed.

(** The two event streams between the timers and their merger hold at most two
    elements. *)
Definition event_fifos_bounded (e : timer_env) : Prop :=
  (length (rtTimer2eventEng_setEvent e) <= 2)%nat /\
  (length (probeTimer2eventEng_setEvent e) <= 2)%nat.

Lemma rt_events_full e : rtTimer2eventEng_full e = true -> rt_events (retransmit_timer e).2 = [].
Proof.
  intros Hf. unfold retransmit_timer, rt_tick. rewrite Hf.
  repeat (case_match; simplify_eq; simpl; try done).
Qed.

Lemma rt_events_one e : (length (rt_events (retransmit_timer e).2) <= 1)%nat.
Proof.
  unfold retransmit_timer, rt_tick.
  repeat (case_match; simplify_eq; simpl; try lia).
Qed.

Lemma probe_events_full e : probeTimer2eventEng_full e = true -> (probe_timer e).2 = [].
Proof.
  intros Hf. unfold probe_timer. repeat (case_match; simplify_eq; simpl; try done);
    unfold probe_visit in *; simpl in *; rewrite Hf, andb_false_r in *; by simplify_eq.
Qed.

Lemma probe_events_one e : (length (probe_timer e).2 <= 1)%nat.
Proof.
  unfold probe_timer. repeat (case_match; simplify_eq; simpl; try lia);
    unfold probe_visit in *; repeat (case_match; simplify_eq; simpl; try lia).
Qed.

(** The timers never write to a full event stream.  The retransmission timer and
    the probe timer test for it, so the streams between them and the merger never
    hold more than their depth of two, whatever requests arrive; and a call delivers
    at most one event, a retransmission before a probe. *)
Theorem timer_event_fifos_bounded e :
  event_fifos_bounded e ->
  event_fifos_bounded (timerWrapper e).1 /\
  omap (fun x => match x with W_timer2eventEng_setEvent ev => Some ev | _ => None end)
    (timerWrapper e).2
  = take 1 (rtTimer2eventEng_setEvent e ++ probeTimer2eventEng_setEvent e).
Proof.
  intros [Hr Hp]. unfold timerWrapper.
  destruct (stream_merger (rtTimer2eventEng_setEvent e) _) as [[rtE pE] wE] eqn:Hm.
  assert ((length rtE <= 2)%nat /\ (length pE <= 2)%nat /\
          wE = take 1 (rtTimer2eventEng_setEvent e ++ probeTimer2eventEng_setEvent e)) as (Hr' & Hp' & ->).
  { unfold stream_merger in Hm. repeat case_match; simplify_eq; simpl in *; auto with lia. }
  pose proof (rt_events_full (tm_rt e <| rtTimer2eventEng_full := full 2 rtE |>)) as Hrf.
  pose proof (rt_events_one (tm_rt e <| rtTimer2eventEng_full := full 2 rtE |>)) as Hr1.
  pose proof (probe_events_full (tm_probe e <| probeTimer2eventEng_full := full 2 pE |>)) as Hpf.
  pose proof (probe_events_one (tm_probe e <| probeTimer2eventEng_full := full 2 pE |>)) as Hp1.
  destruct (retransmit_timer _) as [rt wrt], (probe_timer _) as [pr wpr], (close_timer _) as [cl wcl].
  destruct (stream_merger (_ ++ wcl) _) as [[cR rR] wR]. simpl in *.
  split; [split; simpl; rewrite length_app; unfold full in *|].
  - destruct (2 <=? length rtE)%nat eqn:?; [rewrite Hrf by done; simpl|]; lia.
  - destruct (2 <=? length pE)%nat eqn:?; [rewrite Hpf by done; simpl|]; lia.
  - rewrite !omap_app, omap_map_Some, (omap_map_None _ W_timer2stateTable_releaseState) by done.
    set (l := take 1 _). rewrite <- (app_nil_r l) at 2. f_equal.
    rewrite app_nil_r. unfold rt_notifications. clear.
    induction wrt as [|x wrt IH]; [done|]. by destruct x.
Qed.
End Timers.

#[export] Existing Instances eta_retransmitTimerEntry eta_retransmit_timer_env eta_probe_timer_env eta_close_timer_env.

(** ** The properties at work, in a configuration with four sessions *)
Section Witnesses.
Local Existing Instance tiny_config.

Lemma close_request_releases_witness :
  2 ∈ (calls close_timer 17 (mkCloseTimerEnv ∅ 0 0 0 false [2])).2 /\
  ~ 2 ∈ (calls close_timer 16 (mkCloseTimerEnv ∅ 0 0 0 false [2])).2.
Proof.
  split.
  - refine (proj2 (close_request_releases 17 (mkCloseTimerEnv ∅ 0 0 0 false [2]) 2
      tiny_config_ok eq_refl eq_refl _ _ _) _); done || (simpl; lia).
  - intros H. pose proof (proj1 (close_request_releases 16
      (mkCloseTimerEnv ∅ 0 0 0 false [2]) 2 tiny_config_ok eq_refl eq_refl
      ltac:(simpl; lia) ltac:(simpl; lia) (fun i => ltac:(done))) H) as Hn.
    vm_compute in Hn. discriminate.
Defined.

Lemma probe_request_fires_witness :
  1 ∈ map ev_sessionID (calls probe_timer 13 (mkProbeTimerEnv ∅ 0 0 1 false [] [1] false)).2.
Proof.
  refine (proj2 (probe_request_fires 13 (mkProbeTimerEnv ∅ 0 0 1 false [] [1] false) 1
    tiny_config_ok eq_refl eq_refl eq_refl eq_refl _ _ _) _); done || (simpl; lia).
Defined.


(** Session 3 is set, times out, is set again and times out again. *)
Definition retry_run :=
  let set := A_setRetransmitTimer (txRetransmitTimerSet_rt 3) in
  let idle n := replicate n None in
  exec retransmit_timer (arrive_if (not_clear_of 3) retransmit_timer_arrive)
    ([Some (set ↾ I)] ++ idle 20%nat ++ [Some (set ↾ I)] ++ idle 20%nat) retransmit_timer_init.

Lemma rt_retry_schedule_witness :
  id_counts 3 retry_run.2 = [1; 2] /\
  rt_retries (retransmitTimerTable retry_run.1).[3] = 2.
Proof.
  assert (length (id_counts 3 retry_run.2) = 2%nat) as Hl by reflexivity.
  destruct (rt_retry_schedule 3 retry_run.2 retry_run.1) as [H1 H2]; [apply exec_steps|].
  rewrite Hl in H1, H2. split; [exact H1|exact H2].
Defined.

Lemma rt_abort_notifies_witness :
  let e := mkRetransmitTimerEnv (tset 1 (mkRetransmitTimerEntry 0 4 true SYN) ∅)
             1 false 0 zero_init [] [] false in
  (retransmit_timer e).2 = [W_rtTimer2stateTable_releaseState 1;
                            W_rtTimer2txApp_notification (openStatus2 1 false)].
Proof.
  refine (proj1 (proj2 (proj2 (proj2 (rt_abort_notifies
    (mkRetransmitTimerEnv (tset 1 (mkRetransmitTimerEntry 0 4 true SYN) ∅)
       1 false 0 zero_init [] [] false) 1 _))))).
  vm_compute. apply list_elem_of_here.
Defined.

Lemma rt_position_overrun_witness :
  let e1 := (calls retransmit_timer 3 retransmit_timer_init).1 in
  rt_position (exec retransmit_timer retransmit_timer_arrive overrun_schedule e1).1 = 8.
Proof.
  refine (proj2 (rt_position_overrun [] retransmit_timer_init tiny_config_ok _)).
  constructor.
Defined.

Lemma timer_event_fifos_bounded_witness :
  let e := mkTimerEnv retransmit_timer_init (mkProbeTimerEnv ∅ 0 0 1 false [] [1] false)
             (mkCloseTimerEnv ∅ 0 0 0 false [2]) [] [] [event3 RT 1 1] [event2 RT 2] in
  event_fifos_bounded (timerWrapper e).1.
Proof.
  refine (proj1 (timer_event_fifos_bounded (mkTimerEnv retransmit_timer_init
    (mkProbeTimerEnv ∅ 0 0 1 false [] [1] false)
    (mkCloseTimerEnv ∅ 0 0 0 false [2]) [] [] [event3 RT 1 1] [event2 RT 2]) _)).
  split; simpl; lia.
Defined.
End Witnesses.
