(* ===== verification/Events.v ===== *)
(** * Events on their way to the TX engine ([toe/event_engine], [toe/ack_delay])

    [event_engine] merges the events of the RX engine, of the timers and of the
    application into one stream; [ack_delay] holds back a first acknowledgement for
    up to [TIME_64us], in case a second event of the session makes it unnecessary.
    The two count each other's and the TX engine's reads and writes, to know when
    the path between them is drained. *)

From S2P Require Import Prelude ToeTypes.

Section Events.
Context {C : ToeConfig}.

(** ** The delayed acknowledgements *)
Record ack_delay_env := mkAckDelayEnv {
  ack_table : table Z;
  ad_pointer : Z;
  ad_input : stream extendedEvent;
  ad_output_full : bool
}.
#[export] Instance eta_ack_delay_env : Eta ack_delay_env := fun e =>
  mkAckDelayEnv (ack_table e) (ad_pointer e) (ad_input e) (ad_output_full e).

Definition ack_delay_init : ack_delay_env := mkAckDelayEnv ∅ 0 [] false.

Inductive ack_delay_write :=
| W_output (ev : extendedEvent)
| W_readCountFifo
| W_writeCountFifo.

Definition ack_delay (e : ack_delay_env) : ack_delay_env * list ack_delay_write :=
  match ad_input e with
  | xev :: rest =>
      let e := e <| ad_input := rest |> in
      let id := ev_sessionID (xev_event xev) in
      if is_event (ev_type (xev_event xev)) ACK && ((ack_table e).[id] =? 0)
      then (e <| ack_table := tset id (wrap 12 TIME_64us) (ack_table e) |>, [W_readCountFifo])
      else (e <| ack_table := tset id 0 (ack_table e) |>,
            [W_readCountFifo; W_output xev; W_writeCountFifo])
  | [] =>
      let p := ad_pointer e in
      let count := (ack_table e).[p] in
      let '(e, w) :=
        if (0 <? count) && negb (ad_output_full e)
        then (e <| ack_table := tset p (wrap 12 (count - 1)) (ack_table e) |>,
              when (count =? 1) [W_output (extend_event (event2 ACK p)); W_writeCountFifo])
        else (e, []) in
      let next := wrap 16 (p + 1) in
      (e <| ad_pointer := if next =? MAX_SESSIONS then 0 else next |>, w)
  end.

Inductive ack_delay_arrival := A_input (ev : extendedEvent) | A_outputFull (b : bool).
Definition ack_delay_arrive (a : ack_delay_arrival) (e : ack_delay_env) : ack_delay_env :=
  match a with
  | A_input ev => e <| ad_input := ad_input e ++ [ev] |>
  | A_outputFull b => e <| ad_output_full := b |>
  end.

(** ** The event engine *)
Record event_engine_env := mkEventEngineEnv {
  ee_writeCounter : Z;
  ee_adReadCounter : Z;
  ee_adWriteCounter : Z;
  ee_txEngReadCounter : Z;
  txApp2eventEng_setEvent : stream event;
  rxEng2eventEng_setEvent : stream extendedEvent;
  timer2eventEng_setEvent : stream event;
  ackDelayFifoReadCount : stream unit;
  ackDelayFifoWriteCount : stream unit;
  txEngFifoReadCount : stream unit;
  eventEng2txEng_full : bool
}.
#[export] Instance eta_event_engine_env : Eta event_engine_env := fun e =>
  mkEventEngineEnv (ee_writeCounter e) (ee_adReadCounter e) (ee_adWriteCounter e)
    (ee_txEngReadCounter e) (txApp2eventEng_setEvent e) (rxEng2eventEng_setEvent e)
    (timer2eventEng_setEvent e) (ackDelayFifoReadCount e) (ackDelayFifoWriteCount e)
    (txEngFifoReadCount e) (eventEng2txEng_full e).

Definition event_engine_init : event_engine_env :=
  mkEventEngineEnv 0 0 0 0 [] [] [] [] [] [] false.

(** The guard of the lower-priority events. *)
Definition path_drained (e : event_engine_env) : bool :=
  (ee_writeCounter e =? ee_adReadCounter e) && (ee_adWriteCounter e =? ee_txEngReadCounter e).

Definition select_event (e : event_engine_env) : event_engine_env * list extendedEvent :=
  match rxEng2eventEng_setEvent e, eventEng2txEng_full e with
  | ev :: rest, false =>
      (e <| rxEng2eventEng_setEvent := rest |>
         <| ee_writeCounter := wrap 8 (ee_writeCounter e + 1) |>, [ev])
  | _, _ =>
      if path_drained e then
        match timer2eventEng_setEvent e with
        | ev :: rest =>
            (e <| timer2eventEng_setEvent := rest |>
               <| ee_writeCounter := wrap 8 (ee_writeCounter e + 1) |>, [extend_event ev])
        | [] =>
        match txApp2eventEng_setEvent e with
        | ev :: rest =>
            (e <| txApp2eventEng_setEvent := rest |>
               <| ee_writeCounter := wrap 8 (ee_writeCounter e + 1) |>, [extend_event ev])
        | [] => (e, [])
        end end
      else (e, [])
  end.

Definition count_reads (e : event_engine_env) : event_engine_env :=
  let e := match ackDelayFifoReadCount e with
           | _ :: rest => e <| ackDelayFifoReadCount := rest |>
                            <| ee_adReadCounter := wrap 8 (ee_adReadCounter e + 1) |>
           | [] => e end in
  let e := match ackDelayFifoWriteCount e with
           | _ :: rest => e <| ackDelayFifoWriteCount := rest |>
                            <| ee_adWriteCounter := wrap 8 (ee_adWriteCounter e + 1) |>
           | [] => e end in
  match txEngFifoReadCount e with
  | _ :: rest => e <| txEngFifoReadCount := rest |>
                   <| ee_txEngReadCounter := wrap 8 (ee_txEngReadCounter e + 1) |>
  | [] => e end.

Definition event_engine (e : event_engine_env) : event_engine_env * list extendedEvent :=
  let '(e, w) := select_event e in (count_reads e, w).

(** ** The path: event engine, acknowledgement delay and the TX engine's reads

    The FIFOs between them ([toe.cpp]) have depth 64. *)
Record event_path := mkEventPath {
  ep_eventEngine : event_engine_env;
  ep_ackDelay : ack_delay_env;
  eventEng2txEng_event : stream extendedEvent
}.

Definition event_path_init : event_path := mkEventPath event_engine_init ack_delay_init [].

Definition outputs (w : list ack_delay_write) : list extendedEvent :=
  omap (fun x => match x with W_output ev => Some ev | _ => None end) w.
Definition read_counts (w : list ack_delay_write) : list unit :=
  omap (fun x => match x with W_readCountFifo => Some () | _ => None end) w.
Definition write_counts (w : list ack_delay_write) : list unit :=
  omap (fun x => match x with W_writeCountFifo => Some () | _ => None end) w.

Definition run_event_engine (p : event_path) : event_path :=
  let '(ee, w) := event_engine (ep_eventEngine p
    <| eventEng2txEng_full := full 64 (ad_input (ep_ackDelay p)) |>) in
  mkEventPath ee (ep_ackDelay p <| ad_input := ad_input (ep_ackDelay p) ++ w |>)
    (eventEng2txEng_event p).

Definition run_ack_delay (p : event_path) : event_path :=
  let '(ad, w) := ack_delay (ep_ackDelay p
    <| ad_output_full := full 64 (eventEng2txEng_event p) |>) in
  let ee := ep_eventEngine p in
  mkEventPath
    (ee <| ackDelayFifoReadCount := ackDelayFifoReadCount ee ++ read_counts w |>
        <| ackDelayFifoWriteCount := ackDelayFifoWriteCount ee ++ write_counts w |>)
    ad (eventEng2txEng_event p ++ outputs w).

(** The TX engine reads an event and counts it. *)
Definition txEng_reads (p : event_path) : event_path :=
  match eventEng2txEng_event p with
  | _ :: rest =>
      let ee := ep_eventEngine p in
      mkEventPath (ee <| txEngFifoReadCount := txEngFifoReadCount ee ++ [()] |>)
        (ep_ackDelay p) rest
  | [] => p
  end.

Inductive event_source := from_rxEng (ev : extendedEvent) | from_timer (ev : event) | from_txApp (ev : event).
Definition event_arrives (s : event_source) (p : event_path) : event_path :=
  let ee := ep_eventEngine p in
  let ee := match s with
            | from_rxEng ev => ee <| rxEng2eventEng_setEvent := rxEng2eventEng_setEvent ee ++ [ev] |>
            | from_timer ev => ee <| timer2eventEng_setEvent := timer2eventEng_setEvent ee ++ [ev] |>
            | from_txApp ev => ee <| txApp2eventEng_setEvent := txApp2eventEng_setEvent ee ++ [ev] |>
            end in
  mkEventPath ee (ep_ackDelay p) (eventEng2txEng_event p).

Inductive event_path_reachable : event_path -> Prop :=
| path_start : event_path_reachable event_path_init
| path_eventEngine p : event_path_reachable p -> event_path_reachable (run_event_engine p)
| path_ackDelay p : event_path_reachable p -> event_path_reachable (run_ack_delay p)
| path_txEng p : event_path_reachable p -> event_path_reachable (txEng_reads p)
| path_arrival s p : event_path_reachable p -> event_path_reachable (event_arrives s p).

(** ** The delayed acknowledgement of a session *)
Definition ack_pending (id : Z) (e : ack_delay_env) : bool := 0 <? (ack_table e).[id].

Definition output_ids (w : list ack_delay_write) : list Z :=
  map (fun xev => ev_sessionID (xev_event xev)) (outputs w).

Lemma output_ids_app w1 w2 : output_ids (w1 ++ w2) = output_ids w1 ++ output_ids w2.
Proof. unfold output_ids, outputs. by rewrite omap_app, map_app. Qed.

Definition ad_fired (i : Z) (w : list ack_delay_write) : bool := among i (output_ids w).

Definition ad_idle (e : ack_delay_env) : Prop :=
  ad_input e = [] /\ ad_output_full e = false /\ 0 <= ad_pointer e < MAX_SESSIONS /\
  forall i, in_width 12 (ack_table e).[i].

(** The rounds the sweep still makes before it acknowledges. *)
Definition ad_armed (i : Z) (e : ack_delay_env) : option Z :=
  if ack_pending i e then Some ((ack_table e).[i] - 1) else None.

Lemma ad_idle_call_eq e :
  ad_idle e ->
  let p := ad_pointer e in
  let next := wrap 16 (p + 1) in
  ack_delay e =
    (e <| ack_table := if ack_pending p e then tset p ((ack_table e).[p] - 1) (ack_table e)
                       else ack_table e |>
       <| ad_pointer := if next =? MAX_SESSIONS then 0 else next |>,
     when (ack_pending p e && ((ack_table e).[p] =? 1))
       [W_output (extend_event (event2 ACK p)); W_writeCountFifo]).
Proof.
  intros (Hi & Hf & _ & Ht). unfold ack_delay, ack_pending. rewrite Hi, Hf. simpl.
  rewrite andb_true_r. destruct (0 <? _) eqn:Hp; [|by destruct e].
  rewrite wrap_small; [done|]. specialize (Ht (ad_pointer e)). unfold in_width in *. lia.
Qed.

Section AckSweep.
Hypothesis Hcfg : config_ok C.

Lemma ad_pos_call e :
  ad_idle e -> ad_pointer (ack_delay e).1 = (ad_pointer e + 1) `mod` MAX_SESSIONS.
Proof using Hcfg. intros He. rewrite ad_idle_call_eq by done. by apply next_session, He. Qed.

Lemma ad_idle_call e : ad_idle e -> ad_idle (ack_delay e).1.
Proof using Hcfg.
  intros He. pose proof (ad_pos_call e He) as Hp. rewrite ad_idle_call_eq in * by done.
  pose proof (sessions_range C Hcfg). destruct He as (? & ? & ? & Ht).
  pose proof (Z.mod_pos_bound (ad_pointer e + 1) MAX_SESSIONS).
  unfold ad_idle. rewrite Hp. simpl. split_and!; try (done || lia).
  intros i. destruct (ack_pending _ _) eqn:Hk; [|apply Ht]. unfold ack_pending in Hk.
  pose proof (Ht (ad_pointer e)). rewrite tget_tset. unfold in_width in *.
  case_decide; [lia|apply Ht].
Qed.

Lemma ad_sweep n e i t :
  ad_idle e -> 0 <= i < MAX_SESSIONS -> ad_armed i e = Some t ->
  ad_fired i (calls ack_delay n e).2 =
    (until MAX_SESSIONS ad_pointer i e + t * MAX_SESSIONS <? Z.of_nat n).
Proof using Hcfg.
  intros He Hi Ha. pose proof (sessions_range C Hcfg).
  apply (sweep_fires ack_delay MAX_SESSIONS ad_idle ad_pointer ad_armed ad_fired);
    auto using ad_idle_call, ad_pos_call; try lia.
  - intros. unfold ad_fired. by rewrite output_ids_app, among_app.
  - clear. intros e He. apply He.
  - clear. intros e i He Hne. rewrite ad_idle_call_eq by done.
    unfold ad_armed, ad_fired, ack_pending. simpl. split.
    + destruct (0 <? (ack_table e).[ad_pointer e]); by rewrite ?tget_tset_ne.
    + unfold when. case_match; [|done]. simpl. unfold among.
      apply bool_decide_false. cbn. rewrite list_elem_of_singleton. congruence.
  - clear. intros e t He Ha Ht. rewrite ad_idle_call_eq by done. unfold ad_armed, ack_pending in *.
    simpl. destruct (0 <? (ack_table e).[ad_pointer e]) eqn:Hk; simplify_eq.
    rewrite tget_tset_eq. replace (0 <? _) with true by lia.
    replace (_ =? 1) with false by lia. done.
  - clear. intros e He Ha. rewrite ad_idle_call_eq by done.
    unfold ad_armed, ad_fired, ack_pending in *. simpl.
    destruct (0 <? (ack_table e).[ad_pointer e]) eqn:Hk; simplify_eq.
    replace (_ =? 1) with true by lia. simpl. cbn. by apply among_single_eq.
  - unfold ad_armed, ack_pending in Ha. destruct (0 <? _) eqn:?; simplify_eq. lia.
Qed.
End AckSweep.

(** ** Properties *)

(** A delayed acknowledgement is sent by its deadline.  When the RX engine asks
    for an acknowledgement of a session that has none pending, and no other event
    follows, the acknowledgement leaves after the call that reads the request, the
    calls until the sweep reaches the session and [TIME_64us - 1] rounds over the
    table, and not earlier. *)
Theorem ack_delay_deadline n e xev :
  config_ok C ->
  ad_input e = [xev] -> ev_type (xev_event xev) = ACK -> ad_output_full e = false ->
  let id := ev_sessionID (xev_event xev) in
  0 <= id < MAX_SESSIONS -> 0 <= ad_pointer e < MAX_SESSIONS ->
  (forall i, in_width 12 (ack_table e).[i]) -> ack_pending id e = false ->
  id ∈ output_ids (calls ack_delay n e).2 <->
  1 + (id - ad_pointer e) `mod` MAX_SESSIONS + (TIME_64us - 1) * MAX_SESSIONS < Z.of_nat n.
Proof.
  intros Hcfg Hin Hty Hf id Hid Hp Ht Hk.
  pose proof (sessions_range C Hcfg). pose proof (time_64us_range C Hcfg).
  pose proof (Z.mod_pos_bound (id - ad_pointer e) MAX_SESSIONS).
  set (e1 := e <| ad_input := [] |> <| ack_table := tset id TIME_64us (ack_table e) |>).
  assert (ack_delay e = (e1, [W_readCountFifo])) as Hc.
  { unfold ack_delay. rewrite Hin, Hty. fold id. simpl.
    unfold ack_pending in Hk. specialize (Ht id). unfold in_width in Ht.
    replace (_ =? 0) with true by lia. simpl. by rewrite wrap_small by (unfold in_width; lia). }
  destruct n as [|n]; [simpl; rewrite elem_of_nil; nia|].
  rewrite calls_S, Hc. simpl. change (W_readCountFifo :: ?l) with ([W_readCountFifo] ++ l).
  rewrite output_ids_app. simpl. rewrite <- (bool_decide_eq_true (_ ∈ _)).
  pose proof (ad_sweep Hcfg n e1 id (TIME_64us - 1)) as Hsweep.
  unfold ad_fired, among in Hsweep. rewrite Hsweep; [|split_and!; simpl; try (done || lia)|done|].
  - unfold until. simpl. lia.
  - clear Hsweep. intros i. simpl. rewrite tget_tset. case_decide; [|apply Ht].
    unfold in_width. lia.
  - unfold ad_armed, ack_pending. simpl. rewrite tget_tset_eq. by replace (0 <? _) with true by lia.
Qed.


(** A reset of a connection the engine does not know drops the delayed
    acknowledgement of session 0.  Such an event carries session number 0 without
    belonging to that session; it clears the acknowledgement pending there, and the
    only event that leaves is the reset, which is not addressed to session 0. *)
Theorem ack_lost_by_reset e seq rest :
  ad_input e = extend_event (rstEvent_noSession seq) :: rest ->
  ack_pending 0 (ack_delay e).1 = false /\
  outputs (ack_delay e).2 = [extend_event (rstEvent_noSession seq)] /\
  hasSessionID (rstEvent_noSession seq) = false.
Proof.
  intros Hin. unfold ack_delay, ack_pending. rewrite Hin. simpl.
  by rewrite (tget_tset_eq (ack_table e) 0).
Qed.

(** What is on its way between the event engine and the counters. *)
Definition in_transit (p : event_path) : nat :=
  length (ad_input (ep_ackDelay p)) + length (ackDelayFifoReadCount (ep_eventEngine p)).

Definition path_ok (p : event_path) : Prop :=
  let ee := ep_eventEngine p in
  (in_transit p <= 64)%nat /\
  in_width 8 (ee_writeCounter ee) /\ in_width 8 (ee_adReadCounter ee) /\
  ee_writeCounter ee = wrap 8 (ee_adReadCounter ee + Z.of_nat (in_transit p)).

(** The second half: what the acknowledgement delay has written, counted or not, is
    what the TX engine has read, counted or not, and what still waits for it. *)
Definition output_ok (p : event_path) : Prop :=
  let ee := ep_eventEngine p in
  in_width 8 (ee_adWriteCounter ee) /\ in_width 8 (ee_txEngReadCounter ee) /\
  wrap 8 (ee_adWriteCounter ee + Z.of_nat (length (ackDelayFifoWriteCount ee)))
  = wrap 8 (ee_txEngReadCounter ee
            + Z.of_nat (length (txEngFifoReadCount ee) + length (eventEng2txEng_event p))).

Lemma output_ok_drained p :
  output_ok p ->
  ee_adWriteCounter (ep_eventEngine p) = ee_txEngReadCounter (ep_eventEngine p) ->
  ackDelayFifoWriteCount (ep_eventEngine p) = [] ->
  (length (txEngFifoReadCount (ep_eventEngine p)) <= 64)%nat ->
  (length (eventEng2txEng_event p) <= 64)%nat ->
  eventEng2txEng_event p = [].
Proof.
  intros (Hw & Hr & Heq) Hc Hwc H1 H2. rewrite Hwc, Hc in Heq. simpl in Heq.
  apply length_zero_iff_nil. clear Hwc Hc Hw. wrap_lia.
Qed.

Lemma path_ok_drained p :
  path_ok p ->
  ee_writeCounter (ep_eventEngine p) = ee_adReadCounter (ep_eventEngine p) <-> in_transit p = O.
Proof.
  intros (Hb & Hw & Hr & Heq). rewrite Heq. split; intros H.
  - wrap_lia.
  - rewrite H, Z.add_0_r. by apply wrap_small.
Qed.

(** One event more, and one count less, leave the bookkeeping right. *)
Lemma counters_write (w r k : Z) :
  w = wrap 8 (r + k) -> wrap 8 (w + 1) = wrap 8 (r + (k + 1)).
Proof. intros ->. rewrite wrap_add_l. f_equal. lia. Qed.

Lemma counters_read (w r k : Z) :
  w = wrap 8 (r + k) -> w = wrap 8 (wrap 8 (r + 1) + (k - 1)).
Proof. intros ->. rewrite wrap_add_l. f_equal. lia. Qed.

(** The effect of selecting an event on the counters. *)
Lemma select_event_spec e :
  let '(e', w) := select_event e in
  ackDelayFifoReadCount e' = ackDelayFifoReadCount e /\
  ee_adReadCounter e' = ee_adReadCounter e /\
  ((w = [] /\ ee_writeCounter e' = ee_writeCounter e) \/
   (length w = 1%nat /\ ee_writeCounter e' = wrap 8 (ee_writeCounter e + 1) /\
    (eventEng2txEng_full e = false \/ ee_writeCounter e = ee_adReadCounter e))).
Proof.
  unfold select_event, path_drained.
  repeat (case_match; simplify_eq; simpl in *); bool_prop; split_and!; try done; tauto.
Qed.

Lemma count_reads_spec e :
  ee_writeCounter (count_reads e) = ee_writeCounter e /\
  ackDelayFifoReadCount (count_reads e) = tail (ackDelayFifoReadCount e) /\
  ee_adReadCounter (count_reads e) =
    match ackDelayFifoReadCount e with
    | [] => ee_adReadCounter e
    | _ => wrap 8 (ee_adReadCounter e + 1)
    end.
Proof. unfold count_reads. repeat (case_match; simplify_eq; simpl in *; auto). Qed.

Lemma path_ok_eventEngine p : path_ok p -> path_ok (run_event_engine p).
Proof.
  intros Hp. pose proof (path_ok_drained p Hp) as Hd. destruct Hp as (Hb & Hw & Hr & Heq).
  unfold run_event_engine, event_engine.
  pose proof (select_event_spec (ep_eventEngine p
    <| eventEng2txEng_full := full 64 (ad_input (ep_ackDelay p)) |>)) as Hsel.
  destruct (select_event _) as [ee w]. simpl in Hsel. destruct Hsel as (Hc & Hrd & Hsel).
  pose proof (count_reads_spec ee) as (Hc1 & Hc2 & Hc3). rewrite Hc, Hrd in *.
  unfold path_ok, in_transit in *. simpl. rewrite Hc1, Hc2, Hc3, length_app.
  assert (in_width 8 (ee_writeCounter ee)) as Hw'.
  { destruct Hsel as [[_ ->]|(_ & -> & _)]; [done|by apply wrap_range]. }
  assert (ee_writeCounter ee = wrap 8 (ee_adReadCounter (ep_eventEngine p) +
    (Z.of_nat (length (ad_input (ep_ackDelay p)) + length (ackDelayFifoReadCount (ep_eventEngine p)))
     + Z.of_nat (length w)))) as Heq'.
  { destruct Hsel as [[-> ->]|(-> & -> & _)]; [by rewrite Z.add_0_r|by apply counters_write]. }
  assert (length (ad_input (ep_ackDelay p)) + length w <= 64)%nat as Hlen.
  { destruct Hsel as [[-> _]|(-> & _ & [Hf|Hf])]; [simpl; lia|unfold full in Hf; lia|].
    apply Hd in Hf. lia. }
  assert (length w <= 1)%nat as Hlen1 by (destruct Hsel as [[-> _]|(-> & _ & _)]; simpl; lia).
  destruct (ackDelayFifoReadCount (ep_eventEngine p)) as [|x rest]; simpl in *.
  - split_and!; try (done || lia). rewrite Heq'. f_equal. lia.
  - split_and!; try lia; [done|by apply wrap_range|].
    rewrite (counters_read _ _ _ Heq'). f_equal. lia.
Qed.

Lemma ack_delay_transit e :
  (length (ad_input (ack_delay e).1) + length (read_counts (ack_delay e).2))%nat
  = length (ad_input e).
Proof.
  unfold ack_delay. destruct (ad_input e) as [|x rest] eqn:Hin.
  - destruct (_ && negb _); simpl; rewrite Hin; [by destruct (_ =? 1)|done].
  - destruct (_ && _); simpl; lia.
Qed.

Lemma path_ok_reachable p : event_path_reachable p -> path_ok p.
Proof.
  induction 1 as [|p _ IH|p _ IH|p _ IH|s p _ IH].
  - split_and!; unfold in_transit; simpl; done || lia.
  - by apply path_ok_eventEngine.
  - destruct IH as (Hb & Hw & Hr & Heq).
    pose proof (ack_delay_transit (ep_ackDelay p
      <| ad_output_full := full 64 (eventEng2txEng_event p) |>)) as Ht. simpl in Ht.
    unfold path_ok, in_transit, run_ack_delay in *.
    destruct (ack_delay _) as [ad w]. simpl in *. rewrite length_app.
    split_and!; [lia|done|done|]. rewrite Heq. do 2 f_equal. lia.
  - unfold txEng_reads. by destruct (eventEng2txEng_event p).
  - by destruct s.
Qed.

Lemma count_reads_output e :
  let e' := count_reads e in
  in_width 8 (ee_adWriteCounter e) -> in_width 8 (ee_txEngReadCounter e) ->
  in_width 8 (ee_adWriteCounter e') /\ in_width 8 (ee_txEngReadCounter e') /\
  wrap 8 (ee_adWriteCounter e' + Z.of_nat (length (ackDelayFifoWriteCount e')))
  = wrap 8 (ee_adWriteCounter e + Z.of_nat (length (ackDelayFifoWriteCount e))) /\
  forall k, wrap 8 (ee_txEngReadCounter e' + Z.of_nat (length (txEngFifoReadCount e') + k))
    = wrap 8 (ee_txEngReadCounter e + Z.of_nat (length (txEngFifoReadCount e) + k)).
Proof.
  intros e' H1 H2. unfold e', count_reads.
  destruct (ackDelayFifoReadCount e), (ackDelayFifoWriteCount e) eqn:Hw,
    (txEngFifoReadCount e) eqn:Hr; simpl; rewrite ?Hw, ?Hr; simpl; split_and!;
    try done; try (by apply wrap_range); intros; rewrite wrap_add_l; f_equal; lia.
Qed.

Lemma select_event_output e :
  let e' := (select_event e).1 in
  ee_adWriteCounter e' = ee_adWriteCounter e /\
  ee_txEngReadCounter e' = ee_txEngReadCounter e /\
  ackDelayFifoWriteCount e' = ackDelayFifoWriteCount e /\
  txEngFifoReadCount e' = txEngFifoReadCount e.
Proof. unfold select_event. by repeat (case_match; simplify_eq; simpl in *). Qed.

Lemma ack_delay_written e :
  length (outputs (ack_delay e).2) = length (write_counts (ack_delay e).2).
Proof.
  unfold ack_delay. destruct (ad_input e) as [|x rest].
  - destruct (_ && negb _); simpl; [by destruct (_ =? 1)|done].
  - by destruct (_ && _).
Qed.

Lemma output_ok_reachable p : event_path_reachable p -> output_ok p.
Proof.
  induction 1 as [|p _ (Hw & Hr & Heq)|p _ (Hw & Hr & Heq)|p _ (Hw & Hr & Heq)|s p _ IH].
  - done.
  - unfold run_event_engine, event_engine.
    set (e := ep_eventEngine p <| eventEng2txEng_full := _ |>).
    destruct (select_event_output e) as (H1 & H2 & H3 & H4).
    destruct (select_event e) as [ee w]. simpl in H1, H2, H3, H4.
    destruct (count_reads_output ee) as (H5 & H6 & H7 & H8); [by rewrite H1|by rewrite H2|].
    split_and!; [done|done|]. simpl. rewrite H7, H8, H1, H2, H3, H4. exact Heq.
  - unfold run_ack_delay.
    pose proof (ack_delay_written (ep_ackDelay p
      <| ad_output_full := full 64 (eventEng2txEng_event p) |>)) as Ht.
    destruct (ack_delay _) as [ad w]. simpl in Ht. unfold output_ok. simpl.
    split_and!; [done|done|]. rewrite !length_app, Ht. clear Ht ad. revert Heq.
    generalize (length (write_counts w)) as k. intros k Heq. wrap_lia.
  - unfold txEng_reads. destruct (eventEng2txEng_event p) eqn:Ho; [unfold output_ok; by rewrite Ho|].
    split_and!; [done|done|]. simpl in *. rewrite Heq, length_app. do 2 f_equal. simpl. lia.
  - by destruct s.
Qed.

End Events.

#[export] Existing Instances eta_ack_delay_env eta_event_engine_env.

Section EventWitnesses.
Local Existing Instance tiny_config.

Definition demo_ack : ack_delay_env := mkAckDelayEnv ∅ 1 [extend_event (event2 ACK 3)] false.

(** With [TIME_64us = 1] the acknowledgement leaves when the sweep first comes by. *)
Lemma ack_delay_deadline_witness : 3 ∈ output_ids (calls ack_delay 4 demo_ack).2.
Proof.
  refine (proj2 (ack_delay_deadline 4 demo_ack (extend_event (event2 ACK 3))
    tiny_config_ok eq_refl eq_refl eq_refl _ _ _ eq_refl) _); done || (simpl; lia).
Defined.


Lemma ack_lost_by_reset_witness :
  let e := mkAckDelayEnv (tset 0 1 ∅) 1 [extend_event (rstEvent_noSession 77)] false in
  ack_pending 0 e = true /\ ack_pending 0 (ack_delay e).1 = false.
Proof.
  split; [done|]. refine (proj1 (ack_lost_by_reset
    (mkAckDelayEnv (tset 0 1 ∅) 1 [extend_event (rstEvent_noSession 77)] false) 77 [] _)). done.
Defined.

(** An event of the RX engine is under way, and the timer's waits. *)
Definition demo_path : event_path :=
  run_event_engine (event_arrives (from_timer (event3 RT 2 1))
    (event_arrives (from_rxEng (extend_event (event2 ACK 1))) event_path_init)).

End EventWitnesses.
