(* ===== verification/SessionLookup.v ===== *)
(** * Session numbers ([toe/session_lookup_controller])

    A connection is known outside by its tuple and inside by a session number.  The
    controller looks tuples up in the hash table, allocates numbers from a free
    list, keeps the reverse table from numbers to tuples, and takes numbers back
    when connections close.  Its five processes run concurrently and share FIFOs;
    the table answers lookups and updates in order.  What it has to provide is the class
    [SessionTable], and the theorems on the whole are proved from its laws. *)

From S2P Require Import Prelude ToeTypes.

(** ** Data ([session_lookup_controller.hpp]) *)
Inductive lookupSource := RX | TX_APP.
Inductive lookupOp := INSERT | DELETE.

#[export] Instance lookupSource_eq_dec : EqDecision lookupSource.
Proof. solve_decision. Defined.
#[export] Instance lookupOp_eq_dec : EqDecision lookupOp.
Proof. solve_decision. Defined.

Record threeTupleInternal := mkThreeTuple { tt_theirIp : Z; tt_myPort : Z; tt_theirPort : Z }.
#[export] Instance threeTupleInternal_eq_dec : EqDecision threeTupleInternal.
Proof. solve_decision. Defined.
#[export] Instance zero_init_threeTuple : ZeroInit threeTupleInternal := mkThreeTuple 0 0 0.

#[export] Instance threeTupleInternal_countable : Countable threeTupleInternal.
Proof.
  apply (inj_countable' (fun t => (tt_theirIp t, tt_myPort t, tt_theirPort t))
           (fun '(a, b, c) => mkThreeTuple a b c)).
  by intros [].
Defined.

(** [operator <]: lexicographic. *)
Definition threeTuple_lt (t other : threeTupleInternal) : bool :=
  if tt_theirIp t <? tt_theirIp other then true
  else if tt_theirIp t =? tt_theirIp other then
    if tt_myPort t <? tt_myPort other then true
    else if tt_myPort t =? tt_myPort other then tt_theirPort t <? tt_theirPort other
    else false
  else false.

Record sessionLookupQueryInternal := mkQueryInternal {
  qi_tuple : threeTupleInternal; qi_allowCreation : bool; qi_source : lookupSource
}.
Record rtlSessionLookupRequest := mkRtlLookupRequest {
  rlq_key : threeTupleInternal; rlq_source : lookupSource
}.
Record rtlSessionUpdateRequest := mkRtlUpdateRequest {
  ruq_key : threeTupleInternal; ruq_value : Z; ruq_op : lookupOp; ruq_source : lookupSource
}.
Record rtlSessionLookupReply := mkRtlLookupReply {
  rlr_key : threeTupleInternal; rlr_sessionID : Z; rlr_hit : bool; rlr_source : lookupSource
}.
Record rtlSessionUpdateReply := mkRtlUpdateReply {
  rur_op : lookupOp; rur_key : threeTupleInternal; rur_sessionID : Z; rur_success : bool;
  rur_source : lookupSource
}.
Record revLupInsert := mkRevLupInsert { rli_key : Z; rli_value : threeTupleInternal }.

Inductive slcFsmStateType := LUP_REQ | LUP_RSP | UPD_RSP.

(** ** The table of tuples, as the controller sees it

    Its operations; an update tells whether it was carried out. *)
Class SessionTable (T : Type) := {
  table_empty : T;
  table_lookup : T -> threeTupleInternal -> option Z;
  table_insert : threeTupleInternal -> Z -> T -> T * bool;
  table_delete : threeTupleInternal -> T -> T * bool
}.

(** What it promises: it holds a finite map, to which a successful insertion of a
    new tuple adds it; a rejected one loses some tuple, maybe another one. *)
Class SessionTableLaws (T : Type) `{!SessionTable T} := {
  table_holds : T -> gmap threeTupleInternal Z -> Prop;
  holds_empty : table_holds table_empty ∅;
  holds_lookup t m k : table_holds t m -> table_lookup t k = m !! k;
  holds_insert t m k id : table_holds t m -> m !! k = None ->
    (table_insert k id t).2 = true -> table_holds (table_insert k id t).1 (<[k := id]> m);
  holds_reject t m k id : table_holds t m -> m !! k = None ->
    (table_insert k id t).2 = false ->
    exists lost, is_Some (<[k := id]> m !! lost) /\
      table_holds (table_insert k id t).1 (delete lost (<[k := id]> m));
  holds_delete t m k : table_holds t m -> table_holds (table_delete k t).1 (delete k m)
}.

Section SessionLookup.
Context {C : ToeConfig}.

(** ** State: the static variables of the five processes and the FIFOs *)
Record slc_env := mkSlcEnv {
  slc_fsmState : slcFsmStateType;
  slc_queryCache : stream sessionLookupQueryInternal;
  slc_insertTuples : stream threeTupleInternal;
  id_counter : Z;
  usedSessionIDs : Z;
  reverseLookupTable : table threeTupleInternal;
  tupleValid : table bool;
  slc_sessionIdFreeList : stream Z;
  slc_sessionIdFinFifo : stream Z;
  slc_sessionInsert_rsp : stream rtlSessionUpdateReply;
  sessionInsert_req : stream rtlSessionUpdateRequest;
  sessionDelete_req : stream rtlSessionUpdateRequest;
  reverseLupInsertFifo : stream revLupInsert;
  rxEng2sLookup_req : stream sessionLookupQuery;
  txApp2sLookup_req : stream fourTuple;
  stateTable2sLookup_releaseSession : stream Z;
  txEng2sLookup_rev_req : stream Z;
  sessionLookup_req : stream rtlSessionLookupRequest;
  sessionLookup_rsp : stream rtlSessionLookupReply;
  sessionUpdate_req : stream rtlSessionUpdateRequest;
  sessionUpdate_rsp : stream rtlSessionUpdateReply
}.
#[export] Instance eta_slc_env : Eta slc_env := fun e =>
  mkSlcEnv (slc_fsmState e) (slc_queryCache e) (slc_insertTuples e) (id_counter e)
    (usedSessionIDs e) (reverseLookupTable e) (tupleValid e) (slc_sessionIdFreeList e)
    (slc_sessionIdFinFifo e) (slc_sessionInsert_rsp e) (sessionInsert_req e)
    (sessionDelete_req e) (reverseLupInsertFifo e) (rxEng2sLookup_req e)
    (txApp2sLookup_req e) (stateTable2sLookup_releaseSession e) (txEng2sLookup_rev_req e)
    (sessionLookup_req e) (sessionLookup_rsp e) (sessionUpdate_req e) (sessionUpdate_rsp e).

Definition slc_init : slc_env :=
  mkSlcEnv LUP_REQ [] [] 0 0 ∅ ∅ [] [] [] [] [] [] [] [] [] [] [] [] [] [].

Inductive slc_write :=
| W_sLookup2rxEng_rsp (r : sessionLookupReply)
| W_sLookup2txApp_rsp (r : sessionLookupReply)
| W_sLookup2portTable_releasePort (port : Z)
| W_sLookup2txEng_rev_rsp (t : fourTuple)
| W_regSessionCount (n : Z).

(** ** The processes *)
Definition sessionIdManager (e : slc_env) : slc_env :=
  match slc_sessionIdFinFifo e with
  | id :: rest =>
      e <| slc_sessionIdFinFifo := rest |>
        <| slc_sessionIdFreeList := slc_sessionIdFreeList e ++ [id] |>
  | [] =>
      if id_counter e <? MAX_SESSIONS
      then e <| slc_sessionIdFreeList := slc_sessionIdFreeList e ++ [id_counter e] |>
             <| id_counter := wrap 14 (id_counter e + 1) |>
      else e
  end.

(** The internal tuple of an outgoing connection, and of a received segment. *)
Definition tuple_of_txApp (t : fourTuple) : threeTupleInternal :=
  mkThreeTuple (ft_dstIp t) (ft_srcPort t) (ft_dstPort t).
Definition tuple_of_rxEng (t : fourTuple) : threeTupleInternal :=
  mkThreeTuple (ft_srcIp t) (ft_dstPort t) (ft_srcPort t).

Definition issue_lookup (q : sessionLookupQueryInternal) (e : slc_env) : slc_env :=
  e <| sessionLookup_req := sessionLookup_req e ++ [mkRtlLookupRequest (qi_tuple q) (qi_source q)] |>
    <| slc_queryCache := slc_queryCache e ++ [q] |>
    <| slc_fsmState := LUP_RSP |>.

Definition reply_to (src : lookupSource) (r : sessionLookupReply) : slc_write :=
  match src with RX => W_sLookup2rxEng_rsp r | TX_APP => W_sLookup2txApp_rsp r end.

Definition lookupReplyHandler (e : slc_env) : slc_env * list slc_write :=
  match slc_fsmState e with
  | LUP_REQ =>
      match txApp2sLookup_req e with
      | toeTuple :: rest =>
          (issue_lookup (mkQueryInternal (tuple_of_txApp toeTuple) true TX_APP)
             (e <| txApp2sLookup_req := rest |>), [])
      | [] =>
      match rxEng2sLookup_req e with
      | query :: rest =>
          (issue_lookup (mkQueryInternal (tuple_of_rxEng (slq_tuple query))
                           (slq_allowCreation query) RX)
             (e <| rxEng2sLookup_req := rest |>), [])
      | [] => (e, [])
      end end
  | LUP_RSP =>
      match sessionLookup_rsp e, slc_queryCache e with
      | lupReply :: rest, intQuery :: qrest =>
          let e := e <| sessionLookup_rsp := rest |> <| slc_queryCache := qrest |> in
          match slc_sessionIdFreeList e with
          | freeID :: frest =>
              if negb (rlr_hit lupReply) && qi_allowCreation intQuery
              then (e <| slc_sessionIdFreeList := frest |>
                      <| sessionInsert_req := sessionInsert_req e ++
                           [mkRtlUpdateRequest (qi_tuple intQuery) freeID INSERT (rlr_source lupReply)] |>
                      <| slc_insertTuples := slc_insertTuples e ++ [qi_tuple intQuery] |>
                      <| slc_fsmState := UPD_RSP |>, [])
              else (e <| slc_fsmState := LUP_REQ |>,
                    [reply_to (rlr_source lupReply)
                       (mkSessionLookupReply (rlr_sessionID lupReply) (rlr_hit lupReply))])
          | [] => (e <| slc_fsmState := LUP_REQ |>,
                   [reply_to (rlr_source lupReply)
                      (mkSessionLookupReply (rlr_sessionID lupReply) (rlr_hit lupReply))])
          end
      | _, _ => (e, [])
      end
  | UPD_RSP =>
      match slc_sessionInsert_rsp e, slc_insertTuples e with
      | insertReply :: rest, tuple :: trest =>
          (e <| slc_sessionInsert_rsp := rest |> <| slc_insertTuples := trest |>
             <| reverseLupInsertFifo := reverseLupInsertFifo e ++
                  [mkRevLupInsert (rur_sessionID insertReply) tuple] |>
             <| slc_fsmState := LUP_REQ |>,
           [reply_to (rur_source insertReply)
              (mkSessionLookupReply (rur_sessionID insertReply) true)])
      | _, _ => (e, [])
      end
  end.

Definition updateRequestSender (e : slc_env) : slc_env * list slc_write :=
  match sessionInsert_req e with
  | request :: rest =>
      let used := wrap 16 (usedSessionIDs e + 1) in
      (e <| sessionInsert_req := rest |>
         <| sessionUpdate_req := sessionUpdate_req e ++ [request] |>
         <| usedSessionIDs := used |>, [W_regSessionCount used])
  | [] =>
  match sessionDelete_req e with
  | request :: rest =>
      let used := wrap 16 (usedSessionIDs e - 1) in
      (e <| sessionDelete_req := rest |>
         <| sessionUpdate_req := sessionUpdate_req e ++ [request] |>
         <| slc_sessionIdFinFifo := slc_sessionIdFinFifo e ++ [wrap 14 (ruq_value request)] |>
         <| usedSessionIDs := used |>, [W_regSessionCount used])
  | [] => (e, [])
  end end.

Definition updateReplyHandler (e : slc_env) : slc_env :=
  match sessionUpdate_rsp e with
  | upReply :: rest =>
      let e := e <| sessionUpdate_rsp := rest |> in
      if bool_decide (rur_op upReply = INSERT)
      then e <| slc_sessionInsert_rsp := slc_sessionInsert_rsp e ++ [upReply] |>
      else e
  | [] => e
  end.

Definition reverseLookupTableInterface (myIpAddress : Z) (e : slc_env)
  : slc_env * list slc_write :=
  match reverseLupInsertFifo e with
  | insert :: rest =>
      (e <| reverseLupInsertFifo := rest |>
         <| reverseLookupTable := tset (rli_key insert) (rli_value insert) (reverseLookupTable e) |>
         <| tupleValid := tset (rli_key insert) true (tupleValid e) |>, [])
  | [] =>
  match stateTable2sLookup_releaseSession e with
  | sessionID :: rest =>
      let releaseTuple := (reverseLookupTable e).[sessionID] in
      let e := e <| stateTable2sLookup_releaseSession := rest |> in
      if (tupleValid e).[sessionID]
      then (e <| sessionDelete_req := sessionDelete_req e ++
                   [mkRtlUpdateRequest releaseTuple sessionID DELETE RX] |>
              <| tupleValid := tset sessionID false (tupleValid e) |>,
            [W_sLookup2portTable_releasePort (tt_myPort releaseTuple)])
      else (e <| tupleValid := tset sessionID false (tupleValid e) |>, [])
  | [] =>
  match txEng2sLookup_rev_req e with
  | sessionID :: rest =>
      let t := (reverseLookupTable e).[sessionID] in
      (e <| txEng2sLookup_rev_req := rest |>,
       [W_sLookup2txEng_rev_rsp
          (mkFourTuple myIpAddress (tt_theirIp t) (tt_myPort t) (tt_theirPort t))])
  | [] => (e, [])
  end end end.

(** The controller calls its processes in this order. *)
Definition session_lookup_controller (myIpAddress : Z) (e : slc_env) : slc_env * list slc_write :=
  let '(e, w1) := lookupReplyHandler e in
  let '(e, w2) := updateRequestSender e in
  let e := sessionIdManager e in
  let e := updateReplyHandler e in
  let '(e, w3) := reverseLookupTableInterface myIpAddress e in
  (e, w1 ++ w2 ++ w3).

(** ** The whole: the processes, their clients and the table of tuples

    The table answers lookups and updates in order and copies key and source of a
    request into its reply; the number in a reply that does not hit is one that was
    never assigned ([missed]). *)
Section System.
Context {T : Type} `{!SessionTable T}.
Variable missed : Z.
Variable myIpAddress : Z.

Definition rtl_lookup (t : T) (q : rtlSessionLookupRequest) : rtlSessionLookupReply :=
  match table_lookup t (rlq_key q) with
  | Some id => mkRtlLookupReply (rlq_key q) id true (rlq_source q)
  | None => mkRtlLookupReply (rlq_key q) missed false (rlq_source q)
  end.

Definition rtl_update (t : T) (q : rtlSessionUpdateRequest) : T * bool :=
  match ruq_op q with
  | INSERT => table_insert (ruq_key q) (ruq_value q) t
  | DELETE => table_delete (ruq_key q) t
  end.

Definition rtl_reply (q : rtlSessionUpdateRequest) (success : bool) : rtlSessionUpdateReply :=
  mkRtlUpdateReply (ruq_op q) (ruq_key q) (ruq_value q) success (ruq_source q).

Inductive slc_client :=
| C_rxEng (q : sessionLookupQuery)
| C_txApp (t : fourTuple)
| C_release (id : Z)
| C_rev (id : Z).

Definition slc_arrive (c : slc_client) (e : slc_env) : slc_env :=
  match c with
  | C_rxEng q => e <| rxEng2sLookup_req := rxEng2sLookup_req e ++ [q] |>
  | C_txApp t => e <| txApp2sLookup_req := txApp2sLookup_req e ++ [t] |>
  | C_release id =>
      e <| stateTable2sLookup_releaseSession := stateTable2sLookup_releaseSession e ++ [id] |>
  | C_rev id => e <| txEng2sLookup_rev_req := txEng2sLookup_rev_req e ++ [id] |>
  end.

(** A step, and whether it was not the rejection of an insertion. *)
Inductive slc_step : bool -> slc_env * T -> slc_env * T -> Prop :=
| S_lookupReplyHandler e t : slc_step true (e, t) ((lookupReplyHandler e).1, t)
| S_updateRequestSender e t : slc_step true (e, t) ((updateRequestSender e).1, t)
| S_sessionIdManager e t : slc_step true (e, t) (sessionIdManager e, t)
| S_updateReplyHandler e t : slc_step true (e, t) (updateReplyHandler e, t)
| S_reverseLookup e t : slc_step true (e, t) ((reverseLookupTableInterface myIpAddress e).1, t)
| S_client c e t : slc_step true (e, t) (slc_arrive c e, t)
| S_rtl_lookup e t q rest : sessionLookup_req e = q :: rest ->
    slc_step true (e, t)
      (e <| sessionLookup_req := rest |>
         <| sessionLookup_rsp := sessionLookup_rsp e ++ [rtl_lookup t q] |>, t)
| S_rtl_update e t q rest : sessionUpdate_req e = q :: rest ->
    slc_step (bool_decide (ruq_op q = DELETE) || (rtl_update t q).2) (e, t)
      (e <| sessionUpdate_req := rest |>
         <| sessionUpdate_rsp := sessionUpdate_rsp e ++ [rtl_reply q (rtl_update t q).2] |>,
       (rtl_update t q).1).

Inductive slc_reachable : slc_env * T -> Prop :=
| reach_init : slc_reachable (slc_init, table_empty)
| reach_step b s s' : slc_reachable s -> slc_step b s s' -> slc_reachable s'.

(** Reachable without a rejected insertion. *)
Inductive slc_served : slc_env * T -> Prop :=
| served_init : slc_served (slc_init, table_empty)
| served_step s s' : slc_served s -> slc_step true s s' -> slc_served s'.

(** One cycle in which every process is called once and the table answers. *)
Definition rtl_serve (s : slc_env * T) : slc_env * T :=
  let '(e, t) := s in
  let e := match sessionLookup_req e with
           | q :: rest => e <| sessionLookup_req := rest |>
                            <| sessionLookup_rsp := sessionLookup_rsp e ++ [rtl_lookup t q] |>
           | [] => e end in
  match sessionUpdate_req e with
  | q :: rest =>
      (e <| sessionUpdate_req := rest |>
         <| sessionUpdate_rsp := sessionUpdate_rsp e ++ [rtl_reply q (rtl_update t q).2] |>,
       (rtl_update t q).1)
  | [] => (e, t)
  end.

Definition cycle (s : slc_env * T) : (slc_env * T) * list slc_write :=
  let '(e, w) := session_lookup_controller myIpAddress s.1 in (rtl_serve (e, s.2), w).

(** ** Conservation of session numbers *)
Definition inserts (l : list rtlSessionUpdateRequest) : list Z :=
  omap (fun q => if bool_decide (ruq_op q = INSERT) then Some (ruq_value q) else None) l.
Definition inserted (l : list rtlSessionUpdateReply) : list Z :=
  omap (fun r => if bool_decide (rur_op r = INSERT) then Some (rur_sessionID r) else None) l.

(** The places a session number can be: free, released, requested for a session,
    being inserted, waiting for the reverse table, in use, or being deleted. *)
Definition places (e : slc_env) : list Z :=
  slc_sessionIdFreeList e ++ slc_sessionIdFinFifo e ++ map ruq_value (sessionInsert_req e) ++
  inserts (sessionUpdate_req e) ++ inserted (sessionUpdate_rsp e) ++
  map rur_sessionID (slc_sessionInsert_rsp e) ++ map rli_key (reverseLupInsertFifo e) ++
  map ruq_value (sessionDelete_req e).

Definition id_count (id : Z) (e : slc_env) : nat :=
  (occurrences id (places e) + (if (tupleValid e).[id] then 1 else 0))%nat.

Definition conserved (e : slc_env) : Prop :=
  0 <= id_counter e <= MAX_SESSIONS /\
  (forall id, id_count id e = if (0 <=? id) && (id <? id_counter e) then 1%nat else 0%nat) /\
  Forall (fun q => ruq_op q = INSERT) (sessionInsert_req e) /\
  Forall (fun q => ruq_op q = DELETE) (sessionDelete_req e) /\
  usedSessionIDs e = wrap 16 (id_counter e - Z.of_nat (length (slc_sessionIdFreeList e)
    + length (slc_sessionIdFinFifo e) + length (sessionInsert_req e))).

#[local] Arguments inserts _ : simpl never.
#[local] Arguments inserted _ : simpl never.

Lemma inserts_cons q l :
  inserts (q :: l) = if bool_decide (ruq_op q = INSERT) then ruq_value q :: inserts l else inserts l.
Proof. unfold inserts. simpl. by destruct (bool_decide _). Qed.
Lemma inserted_cons r l :
  inserted (r :: l) = if bool_decide (rur_op r = INSERT) then rur_sessionID r :: inserted l else inserted l.
Proof. unfold inserted. simpl. by destruct (bool_decide _). Qed.
Lemma inserts_app l1 l2 : inserts (l1 ++ l2) = inserts l1 ++ inserts l2.
Proof. apply omap_app. Qed.
Lemma inserted_app l1 l2 : inserted (l1 ++ l2) = inserted l1 ++ inserted l2.
Proof. apply omap_app. Qed.

(** [count_tac] reduces the bookkeeping of one step to linear arithmetic. *)
Ltac count_tac :=
  unfold id_count, places in *; simpl in *;
  repeat (rewrite ?occurrences_app, ?map_app, ?inserts_app, ?inserted_app, ?length_app in *;
          simpl in *).

Lemma conserved_lookupReplyHandler e : conserved e -> conserved (lookupReplyHandler e).1.
Proof.
  intros (Hc & Ho & Hi & Hd & Hu). destruct e. unfold conserved, lookupReplyHandler, issue_lookup in *.
  simpl in *. destruct slc_fsmState0; simpl.
  - repeat (case_match; simpl; try done).
  - repeat (case_match; simpl; try done). subst. split_and!; try done; try lia.
    + intros id. specialize (Ho id). count_tac. lia.
    + apply Forall_app. split; [done|]. by apply Forall_singleton.
    + f_equal. count_tac. lia.
  - repeat (case_match; simpl; try done). subst. split_and!; try done; try lia.
    intros id. specialize (Ho id). count_tac. lia.
Qed.

Lemma conserved_sessionIdManager e : config_ok C -> conserved e -> conserved (sessionIdManager e).
Proof.
  intros Hcfg (Hc & Ho & Hi & Hd & Hu). pose proof (sessions_range C Hcfg).
  destruct e. unfold conserved, sessionIdManager in *. simpl in *.
  destruct slc_sessionIdFinFifo0 as [|x fin]; [destruct (_ <? _) eqn:Hlt; [|done]|]; simpl;
    bool_prop.
  - rewrite wrap_small by (unfold in_width; lia). split_and!; try done; try lia.
    + intros id. specialize (Ho id). count_tac.
      destruct (id_counter0 =? id) eqn:?; bool_prop; [subst id|];
        repeat case_match; bool_prop; lia.
    + rewrite Hu. f_equal. count_tac. lia.
  - split_and!; try done; try lia.
    + intros id. specialize (Ho id). count_tac. lia.
    + rewrite Hu. f_equal. count_tac. lia.
Qed.

Lemma conserved_updateRequestSender e :
  config_ok C -> conserved e -> conserved (updateRequestSender e).1.
Proof.
  intros Hcfg (Hc & Ho & Hi & Hd & Hu). pose proof (sessions_range C Hcfg).
  destruct e. unfold conserved, updateRequestSender in *. simpl in *.
  destruct sessionInsert_req0 as [|q rest]; [destruct sessionDelete_req0 as [|q rest]; [done|]|];
    simpl.
  - apply Forall_cons_1 in Hd as [Hq Hd].
    assert (wrap 14 (ruq_value q) = ruq_value q) as ->.
    { apply wrap_small. specialize (Ho (ruq_value q)). count_tac.
      rewrite Z.eqb_refl in Ho. unfold in_width.
      destruct (_ && _) eqn:Hr in Ho; bool_prop; lia. }
    split_and!; try done; try lia.
    + intros id. specialize (Ho id). count_tac. rewrite inserts_cons, Hq. simpl. lia.
    + rewrite Hu. count_tac. rewrite wrap_sub_l. f_equal. lia.
  - apply Forall_cons_1 in Hi as [Hq Hi].
    split_and!; try done; try lia.
    + intros id. specialize (Ho id). count_tac. rewrite inserts_cons, Hq. simpl. lia.
    + rewrite Hu. count_tac. rewrite wrap_add_l. f_equal. lia.
Qed.

Lemma conserved_updateReplyHandler e : conserved e -> conserved (updateReplyHandler e).
Proof.
  intros (Hc & Ho & Hi & Hd & Hu). destruct e. unfold conserved, updateReplyHandler in *.
  simpl in *. destruct sessionUpdate_rsp0 as [|r rest]; [done|]. simpl.
  destruct (bool_decide (rur_op r = INSERT)) eqn:Hop; simpl; split_and!; try done; try lia.
  all: intros id; specialize (Ho id); count_tac; rewrite inserted_cons, Hop in Ho;
    simpl in Ho; lia.
Qed.

Lemma conserved_reverse e :
  conserved e -> conserved (reverseLookupTableInterface myIpAddress e).1.
Proof.
  intros (Hc & Ho & Hi & Hd & Hu). destruct e.
  unfold conserved, reverseLookupTableInterface in *. simpl in *.
  destruct reverseLupInsertFifo0 as [|r rest];
    [destruct stateTable2sLookup_releaseSession0 as [|r rest];
       [by destruct txEng2sLookup_rev_req0|destruct (tupleValid0.[r]) eqn:Hv]|]; simpl;
    split_and!; try done; try lia.
  - intros id. specialize (Ho id). count_tac. rewrite tget_tset.
    destruct (decide (r = id)) as [->|]; [rewrite Hv, Z.eqb_refl in *; lia|].
    replace (r =? id) with false by lia. lia.
  - apply Forall_app. split; [done|]. by apply Forall_singleton.
  - intros id. specialize (Ho id). count_tac. rewrite tget_tset.
    destruct (decide (r = id)) as [->|]; [rewrite Hv in *|]; lia.
  - intros id. specialize (Ho id). count_tac. rewrite tget_tset.
    destruct (decide (rli_key r = id)) as [<-|].
    + rewrite Z.eqb_refl in Ho. destruct (tupleValid0.[_]); [|lia].
      destruct (_ && _) in Ho; lia.
    + replace (_ =? id) with false in Ho by lia. lia.
Qed.

Lemma conserved_step b s s' :
  config_ok C -> slc_step b s s' -> conserved s.1 -> conserved s'.1.
Proof.
  intros Hcfg Hstep. destruct Hstep as [| | | | |c e m|e m q rest Hq|e m q rest Hq]; simpl;
    auto using conserved_lookupReplyHandler, conserved_sessionIdManager,
      conserved_updateRequestSender, conserved_updateReplyHandler, conserved_reverse.
  - intros H. destruct c, e; exact H.
  - intros (Hc & Ho & Hi & Hd & Hu). destruct e. unfold conserved in *. simpl in *. subst.
    split_and!; try done; try lia. intros id. specialize (Ho id). count_tac.
    rewrite inserts_cons in Ho. rewrite inserted_cons. simpl.
    destruct (bool_decide (ruq_op q = INSERT)); simpl in *; lia.
Qed.

Lemma conserved_reachable s : config_ok C -> slc_reachable s -> conserved s.1.
Proof.
  intros Hcfg. induction 1 as [|b s s' _ IH Hs]; [|by eapply conserved_step].
  pose proof (sessions_range C Hcfg). split_and!; simpl; try done; try lia.
  intros id. unfold id_count. simpl. rewrite (tget_empty (T := bool) id). simpl.
  destruct ((0 <=? id) && (id <? 0)) eqn:?; bool_prop; lia.
Qed.

(** ** Properties *)

(** C19: session numbers are neither lost nor given out twice.  However the five
    processes, their clients and the table interleave, every number the
    controller ever issued is at exactly one place: free, released, requested, being
    inserted, waiting for the reverse table, in use, or being deleted; so a number
    on the free list belongs to no connection.  At most [MAX_SESSIONS] numbers are
    issued, and the session count register is the number of those not free. *)
Theorem session_ids_conserved s :
  config_ok C -> slc_reachable s ->
  0 <= id_counter s.1 <= MAX_SESSIONS /\
  (forall id, id_count id s.1 =
     if (0 <=? id) && (id <? id_counter s.1) then 1%nat else 0%nat) /\
  usedSessionIDs s.1 = wrap 16 (id_counter s.1 - Z.of_nat (length (slc_sessionIdFreeList s.1)
    + length (slc_sessionIdFinFifo s.1) + length (sessionInsert_req s.1))).
Proof.
  intros Hcfg Hs. destruct (conserved_reachable s Hcfg Hs) as (Hc & Ho & _ & _ & Hu). done.
Qed.

(** Nothing is under way in the controller. *)
Definition quiet (e : slc_env) : Prop :=
  slc_fsmState e = LUP_REQ /\ slc_queryCache e = [] /\ slc_insertTuples e = [] /\
  slc_sessionInsert_rsp e = [] /\ sessionInsert_req e = [] /\ sessionDelete_req e = [] /\
  reverseLupInsertFifo e = [] /\ rxEng2sLookup_req e = [] /\ txApp2sLookup_req e = [] /\
  stateTable2sLookup_releaseSession e = [] /\ sessionLookup_req e = [] /\
  sessionLookup_rsp e = [] /\ sessionUpdate_req e = [] /\ sessionUpdate_rsp e = [] /\
  slc_sessionIdFinFifo e = [] /\ txEng2sLookup_rev_req e = [].

Definition replies (w : list slc_write) : list (lookupSource * sessionLookupReply) :=
  omap (fun x => match x with
                 | W_sLookup2rxEng_rsp r => Some (RX, r)
                 | W_sLookup2txApp_rsp r => Some (TX_APP, r)
                 | _ => None end) w.

Definition cycles := calls cycle.

(** The states of the controller while it serves one request: everything else is
    empty. *)
Definition serving fsm cache tuples ctr used rev valid free irsp txreq lrsp ursp : slc_env :=
  mkSlcEnv fsm cache tuples ctr used rev valid free [] irsp [] [] [] [] txreq [] [] [] lrsp [] ursp.

(** The free list and the counter after the manager's turn: what was first stays
    first, and nothing is added once all numbers are issued. *)
Definition managed (ctr ctr' : Z) (l : list Z) : Prop := MAX_SESSIONS <= ctr -> l = [] /\ ctr' = ctr.

Lemma managed_trans c1 c2 c3 l1 l2 :
  managed c1 c2 l1 -> managed c2 c3 l2 -> managed c1 c3 (l1 ++ l2).
Proof. intros H1 H2 Hc. destruct (H1 Hc) as [-> ->]. by destruct (H2 Hc) as [-> ->]. Qed.

Ltac cycle_tac ctr :=
  destruct (ctr <? MAX_SESSIONS) eqn:Hlt; bool_prop;
  [exists (wrap 14 (ctr + 1)), [ctr]|exists ctr, []];
  (split; [|by unfold managed; intros; first [done|lia]]);
  unfold cycle, session_lookup_controller, serving; cbn -[wrap rtl_update rtl_lookup];
  unfold sessionIdManager; cbn -[wrap rtl_update rtl_lookup];
  first [rewrite (proj2 (Z.ltb_lt _ _) Hlt)|rewrite (proj2 (Z.ltb_ge _ _) Hlt)];
  cbn -[wrap rtl_update rtl_lookup]; rewrite ?app_nil_r; reflexivity.

Lemma cycle_lookup ctr used rev valid free t m :
  exists c l,
  cycle (serving LUP_REQ [] [] ctr used rev valid free [] [t] [] [], m) =
    ((serving LUP_RSP [mkQueryInternal (tuple_of_txApp t) true TX_APP] [] c used rev valid
        (free ++ l) [] [] [rtl_lookup m (mkRtlLookupRequest (tuple_of_txApp t) TX_APP)] [], m), [])
  /\ managed ctr c l.
Proof. cycle_tac ctr. Qed.

Lemma cycle_insert q key r ctr used rev valid id free m :
  qi_allowCreation q = true ->
  exists c l,
  cycle (serving LUP_RSP [q] [] ctr used rev valid (id :: free) [] []
           [mkRtlLookupReply key r false TX_APP] [], m) =
    (let req := mkRtlUpdateRequest (qi_tuple q) id INSERT TX_APP in
    ((serving UPD_RSP [] [qi_tuple q] c (wrap 16 (used + 1)) rev valid (free ++ l) [] [] []
        [rtl_reply req (rtl_update m req).2], (rtl_update m req).1),
     [W_regSessionCount (wrap 16 (used + 1))]))
  /\ managed ctr c l.
Proof. intros Hq. destruct q. simpl in Hq. subst. cycle_tac ctr. Qed.

Lemma cycle_reply q r ctr used rev valid free m :
  rlr_hit r = true \/ free = [] -> rlr_source r = TX_APP ->
  exists c l,
  cycle (serving LUP_RSP [q] [] ctr used rev valid free [] [] [r] [], m) =
    ((serving LUP_REQ [] [] c used rev valid (free ++ l) [] [] [] [], m),
     [W_sLookup2txApp_rsp (mkSessionLookupReply (rlr_sessionID r) (rlr_hit r))])
  /\ managed ctr c l.
Proof.
  intros Hr Hs. destruct r as [key rid hit src]. simpl in *. subst src.
  destruct free as [|f free]; [clear Hr|destruct Hr as [->|?]; [|done]]; cycle_tac ctr.
Qed.

Lemma cycle_update_reply tuple r ctr used rev valid free m :
  rur_op r = INSERT ->
  exists c l,
  cycle (serving UPD_RSP [] [tuple] ctr used rev valid free [] [] [] [r], m) =
    ((serving UPD_RSP [] [tuple] c used rev valid (free ++ l) [r] [] [] [], m), [])
  /\ managed ctr c l.
Proof. intros Hr. destruct r. simpl in Hr. subst. cycle_tac ctr. Qed.

Lemma cycle_inserted tuple r ctr used rev valid free m :
  rur_source r = TX_APP ->
  exists c l,
  cycle (serving UPD_RSP [] [tuple] ctr used rev valid free [r] [] [] [], m) =
    ((serving LUP_REQ [] [] c used (tset (rur_sessionID r) tuple rev)
        (tset (rur_sessionID r) true valid) (free ++ l) [] [] [] [], m),
     [W_sLookup2txApp_rsp (mkSessionLookupReply (rur_sessionID r) true)])
  /\ managed ctr c l.
Proof. intros Hr. destruct r. simpl in Hr. subst. cycle_tac ctr. Qed.

Lemma cycle_idle ctr used rev valid free m :
  exists c l,
  cycle (serving LUP_REQ [] [] ctr used rev valid free [] [] [] [], m) =
    ((serving LUP_REQ [] [] c used rev valid (free ++ l) [] [] [] [], m), [])
  /\ managed ctr c l.
Proof. cycle_tac ctr. Qed.

Lemma cycles_4 s0 s1 s2 s3 s4 w1 w2 w3 w4 :
  cycle s0 = (s1, w1) -> cycle s1 = (s2, w2) -> cycle s2 = (s3, w3) -> cycle s3 = (s4, w4) ->
  calls cycle 4 s0 = (s4, w1 ++ w2 ++ w3 ++ w4).
Proof. intros H1 H2 H3 H4. rewrite !calls_S, H1. simpl. rewrite H2. simpl. rewrite H3. simpl.
  rewrite H4. simpl. by rewrite app_nil_r. Qed.

Lemma arrive_serving e t :
  quiet e ->
  slc_arrive (C_txApp t) e =
    serving LUP_REQ [] [] (id_counter e) (usedSessionIDs e) (reverseLookupTable e) (tupleValid e)
      (slc_sessionIdFreeList e) [] [t] [] [].
Proof. intros Hq. destruct e; unfold quiet in Hq; simpl in Hq; destruct_and! Hq; by subst. Qed.

(** C29: what a connection request is answered.  A request of the application on a
    quiet controller is answered within four cycles and exactly once: with the number
    the table of tuples holds for it; or, if it holds none, the free list is not empty
    and the table does not reject the insertion, with the first free number, which the
    table then holds for the tuple and for which the reverse table has the connection;
    and with a miss if no number is free and none is left to issue. *)
Theorem open_request_answered `{!SessionTableLaws T} e t m tuple :
  quiet e -> table_holds t m ->
  let key := tuple_of_txApp tuple in
  let '((e', t'), w) := calls cycle 4 (slc_arrive (C_txApp tuple) e, t) in
  match m !! key, slc_sessionIdFreeList e with
  | Some id, _ => replies w = [(TX_APP, mkSessionLookupReply id true)] /\ t' = t
  | None, id :: _ =>
      (table_insert key id t).2 = true ->
      replies w = [(TX_APP, mkSessionLookupReply id true)] /\
      table_holds t' (<[key := id]> m) /\
      (reverseLookupTable e').[id] = key /\ (tupleValid e').[id] = true
  | None, [] =>
      MAX_SESSIONS <= id_counter e ->
      replies w = [(TX_APP, mkSessionLookupReply missed false)] /\ t' = t
  end.
Proof.
  intros Hq Ht key. rewrite (arrive_serving e tuple Hq).
  set (u := usedSessionIDs e). set (r := reverseLookupTable e). set (v := tupleValid e).
  destruct (cycle_lookup (id_counter e) u r v (slc_sessionIdFreeList e) tuple t)
    as (c1 & l1 & H1 & Hm1).
  unfold rtl_lookup in H1. simpl in H1. fold key in H1. rewrite (holds_lookup _ _ _ Ht) in H1.
  set (q := mkQueryInternal _ _ _) in H1.
  destruct (m !! key) as [id|] eqn:Hm; [|destruct (slc_sessionIdFreeList e) as [|id free] eqn:Hfree].
  - destruct (cycle_reply q (mkRtlLookupReply key id true TX_APP) c1 u r v
      (slc_sessionIdFreeList e ++ l1) t (or_introl eq_refl) eq_refl) as (c2 & l2 & H2 & _).
    destruct (cycle_idle c2 u r v ((slc_sessionIdFreeList e ++ l1) ++ l2) t)
      as (c3 & l3 & H3 & _).
    destruct (cycle_idle c3 u r v (((slc_sessionIdFreeList e ++ l1) ++ l2) ++ l3) t)
      as (c4 & l4 & H4 & _).
    by rewrite (cycles_4 _ _ _ _ _ _ _ _ _ H1 H2 H3 H4).
  - destruct (decide (MAX_SESSIONS <= id_counter e)) as [Hmax|Hmax].
    2:{ destruct (calls _ _ _) as [[e' t'] w]. intros ?. lia. }
    destruct (Hm1 Hmax) as [-> ->].
    destruct (cycle_reply q (mkRtlLookupReply key missed false TX_APP) (id_counter e) u r v
      ([] ++ []) t (or_intror eq_refl) eq_refl) as (c2 & l2 & H2 & _).
    destruct (cycle_idle c2 u r v (([] ++ []) ++ l2) t) as (c3 & l3 & H3 & _).
    destruct (cycle_idle c3 u r v ((([] ++ []) ++ l2) ++ l3) t) as (c4 & l4 & H4 & _).
    by rewrite (cycles_4 _ _ _ _ _ _ _ _ _ H1 H2 H3 H4).
  - destruct (cycle_insert q key missed c1 u r v id (free ++ l1) t eq_refl) as (c2 & l2 & H2 & _).
    cbv zeta in H2. set (rsp := rtl_reply _ _) in H2.
    destruct (cycle_update_reply (qi_tuple q) rsp c2 (wrap 16 (u + 1)) r v ((free ++ l1) ++ l2)
      (table_insert key id t).1 eq_refl) as (c3 & l3 & H3 & _).
    destruct (cycle_inserted (qi_tuple q) rsp c3 (wrap 16 (u + 1)) r v
      (((free ++ l1) ++ l2) ++ l3) (table_insert key id t).1 eq_refl) as (c4 & l4 & H4 & _).
    rewrite (cycles_4 _ _ _ _ _ _ _ _ _ H1 H2 H3 H4). simpl. intros Hok.
    rewrite !tget_tset_eq. by auto using holds_insert.
Qed.

(** The reverse table answers with the tuple the session was opened with, and a
    session is released once.  When the insertion of a session is pending and the TX
    engine asks for its tuple, the second call delivers the four-tuple of the
    connection as seen from this side; a release of the session then deletes exactly
    this tuple and hands back its port, and releasing it again does nothing. *)
Theorem reverse_lookup_roundtrip e id t :
  reverseLupInsertFifo e = [mkRevLupInsert id (tuple_of_txApp t)] ->
  stateTable2sLookup_releaseSession e = [] -> txEng2sLookup_rev_req e = [id] ->
  ft_srcIp t = myIpAddress ->
  let rev := reverseLookupTableInterface myIpAddress in
  let e1 := (rev (rev e).1).1 in
  (rev (rev e).1).2 = [W_sLookup2txEng_rev_rsp t] /\
  let e2 := slc_arrive (C_release id) e1 in
  (rev e2).2 = [W_sLookup2portTable_releasePort (ft_srcPort t)] /\
  sessionDelete_req (rev e2).1 =
    sessionDelete_req e ++ [mkRtlUpdateRequest (tuple_of_txApp t) id DELETE RX] /\
  let e3 := slc_arrive (C_release id) (rev e2).1 in
  (rev e3).2 = [] /\ sessionDelete_req (rev e3).1 = sessionDelete_req (rev e2).1.
Proof.
  intros Hi Hr Hq Hip. destruct e. simpl in *. subst. simpl.
  unfold reverseLookupTableInterface. simpl. rewrite !tget_tset_eq. simpl.
  rewrite !tget_tset_eq. simpl. rewrite ?tget_tset_eq. by destruct t.
Qed.

(** The tuple under which the application opens a connection is the one under which
    the segments the peer sends back are looked up. *)
Lemma tuples_of_both_sides_agree t :
  tuple_of_rxEng (mkFourTuple (ft_dstIp t) (ft_srcIp t) (ft_dstPort t) (ft_srcPort t))
  = tuple_of_txApp t.
Proof. done. Qed.
End System.
End SessionLookup.

#[export] Existing Instance eta_slc_env.

Section SessionWitnesses.
Local Existing Instance tiny_config.

(** The reference table: a finite map without bound. *)
#[local] Instance map_table : SessionTable (gmap threeTupleInternal Z) := {|
  table_empty := ∅; table_lookup m k := m !! k;
  table_insert k id m := (<[k := id]> m, true);
  table_delete k m := (delete k m, bool_decide (is_Some (m !! k)))
|}.
#[local] Instance map_table_laws : SessionTableLaws (gmap threeTupleInternal Z).
Proof. by exists eq; simpl; intros; subst. Defined.

Lemma session_ids_conserved_witness :
  id_count 0 (sessionIdManager slc_init) = 1%nat /\ id_count 1 (sessionIdManager slc_init) = 0%nat.
Proof.
  destruct (session_ids_conserved 0 0 (sessionIdManager slc_init, table_empty) tiny_config_ok)
    as (_ & H & _).
  - eapply reach_step; [apply reach_init|]. apply S_sessionIdManager.
  - split; [exact (H 0)|exact (H 1)].
Defined.

Lemma open_request_answered_witness :
  let e := slc_init <| slc_sessionIdFreeList := [3] |> in
  let t := mkFourTuple 1 2 3 4 in
  replies (calls (cycle 0 1) 4 (slc_arrive (C_txApp t) e, table_empty)).2
    = [(TX_APP, mkSessionLookupReply 3 true)].
Proof.
  pose proof (open_request_answered 0 1 (slc_init <| slc_sessionIdFreeList := [3] |>) table_empty ∅
    (mkFourTuple 1 2 3 4)) as H.
  cbv zeta. destruct (calls _ _ _) as [[e' m'] w] eqn:Hrun in H |- *.
  exact (proj1 (H ltac:(by split_and!) eq_refl eq_refl)).
Defined.

Lemma reverse_lookup_roundtrip_witness :
  let e := slc_init <| reverseLupInsertFifo :=
             [mkRevLupInsert 3 (tuple_of_txApp (mkFourTuple 1 2 3 4))] |>
           <| txEng2sLookup_rev_req := [3] |> in
  (reverseLookupTableInterface 1 (reverseLookupTableInterface 1 e).1).2
    = [W_sLookup2txEng_rev_rsp (mkFourTuple 1 2 3 4)].
Proof.
  refine (proj1 (reverse_lookup_roundtrip 1 (slc_init <| reverseLupInsertFifo :=
             [mkRevLupInsert 3 (tuple_of_txApp (mkFourTuple 1 2 3 4))] |>
           <| txEng2sLookup_rev_req := [3] |>) 3 (mkFourTuple 1 2 3 4) _ _ _ _)); done.
Defined.
End SessionWitnesses.
