(* ===== verification/SessionTracking.v ===== *)
(** * The two tables of the session lookup are inverse to each other

    The controller keeps a reverse table from session numbers to tuples beside the
    table from tuples to numbers.  As long as the latter rejects no insertion, the two
    agree in every reachable state, whatever the interleaving: the tuples held are
    those of the sessions in the reverse table and of those on their way into it or
    out of it ([live]). *)

From S2P Require Import Prelude ToeTypes SessionLookup.

Section Tracking.
Context {C : ToeConfig} {T : Type} `{!SessionTable T} `{!SessionTableLaws T}.
Variables (missed myIpAddress : Z).
Abbreviation pair := (threeTupleInternal * Z)%type.

(** ** Where a tuple that is held can be *)

Definition is_insert (q : rtlSessionUpdateRequest) : bool := bool_decide (ruq_op q = INSERT).
Definition request_pair (q : rtlSessionUpdateRequest) : pair := (ruq_key q, ruq_value q).

Definition deletes (l : list rtlSessionUpdateRequest) : list pair :=
  omap (fun q => if is_insert q then None else Some (request_pair q)) l.

(** The insertion under way: requested, or carried out and not yet entered into the
    reverse table. *)
Definition pending (e : slc_env) : list rtlSessionUpdateRequest :=
  sessionInsert_req e ++ List.filter is_insert (sessionUpdate_req e).
Definition answered (e : slc_env) : list Z :=
  inserted (sessionUpdate_rsp e) ++ map rur_sessionID (slc_sessionInsert_rsp e).

(** The sessions of the reverse table. *)
Definition valid_pair (rev : table threeTupleInternal) (valid : table bool) (id : Z) : option pair :=
  if valid.[id] then Some (rev.[id], id) else None.
Definition valid_pairs (rev : table threeTupleInternal) (valid : table bool) : list pair :=
  omap (valid_pair rev valid) (seqZ 0 MAX_SESSIONS).

Definition live (e : slc_env) : list pair :=
  zip (slc_insertTuples e) (answered e) ++
  map (fun r => (rli_value r, rli_key r)) (reverseLupInsertFifo e) ++
  valid_pairs (reverseLookupTable e) (tupleValid e) ++
  map request_pair (sessionDelete_req e) ++ deletes (sessionUpdate_req e).

(** The controller handles one request at a time. *)
Definition phase (e : slc_env) (m : gmap threeTupleInternal Z) : Prop :=
  match slc_fsmState e with
  | LUP_REQ =>
      slc_insertTuples e = [] /\ pending e = [] /\ answered e = [] /\
      slc_queryCache e = [] /\ sessionLookup_req e = [] /\ sessionLookup_rsp e = []
  | LUP_RSP =>
      slc_insertTuples e = [] /\ pending e = [] /\ answered e = [] /\
      exists q, slc_queryCache e = [q] /\
        ((exists r, sessionLookup_req e = [r] /\ rlq_key r = qi_tuple q /\ sessionLookup_rsp e = []) \/
         (sessionLookup_req e = [] /\ exists r, sessionLookup_rsp e = [r] /\
            (rlr_hit r = false -> m !! qi_tuple q = None)))
  | UPD_RSP =>
      slc_queryCache e = [] /\ sessionLookup_req e = [] /\ sessionLookup_rsp e = [] /\
      exists key, slc_insertTuples e = [key] /\
        ((exists q, pending e = [q] /\ ruq_key q = key /\ m !! key = None /\ answered e = []) \/
         (pending e = [] /\ exists id, answered e = [id]))
  end.

Definition tracked (e : slc_env) (m : gmap threeTupleInternal Z) : Prop :=
  phase e m /\ map_to_list m ≡ₚ live e.

(** ** Lemmas on the lists *)
Lemma deletes_app l1 l2 : deletes (l1 ++ l2) = deletes l1 ++ deletes l2.
Proof. apply omap_app. Qed.

Lemma insert_request q : ruq_op q = INSERT -> List.filter is_insert [q] = [q] /\ deletes [q] = [].
Proof. intros Hq. unfold deletes, is_insert. simpl. by rewrite Hq. Qed.
Lemma delete_request q :
  ruq_op q = DELETE -> List.filter is_insert [q] = [] /\ deletes [q] = [request_pair q].
Proof. intros Hq. unfold deletes, is_insert. simpl. by rewrite Hq. Qed.

Lemma valid_pairs_other rev valid rev' valid' (l : list Z) :
  (forall id, id ∈ l -> valid_pair rev' valid' id = valid_pair rev valid id) ->
  omap (valid_pair rev' valid') l = omap (valid_pair rev valid) l.
Proof.
  induction l as [|id l IH]; intros Hl; [done|]. cbn -[omap valid_pair].
  change (omap ?f (id :: l)) with (match f id with Some y => y :: omap f l | None => omap f l end).
  rewrite Hl, IH by set_solver. done.
Qed.

(** Entering a session into the reverse table, and taking it out. *)
Lemma valid_pairs_change rev valid rev' valid' id :
  0 <= id < MAX_SESSIONS ->
  (forall j, j <> id -> valid_pair rev' valid' j = valid_pair rev valid j) ->
  exists l, valid_pairs rev valid ≡ₚ option_list (valid_pair rev valid id) ++ l /\
            valid_pairs rev' valid' ≡ₚ option_list (valid_pair rev' valid' id) ++ l.
Proof.
  intros Hid Hj. unfold valid_pairs.
  assert (id ∈ seqZ 0 MAX_SESSIONS) as Hin by (apply elem_of_seqZ; lia).
  pose proof (NoDup_seqZ 0 MAX_SESSIONS) as Hnd.
  apply list_elem_of_split in Hin as (l1 & l2 & Heq). rewrite Heq in *.
  apply list.NoDup_app in Hnd as (_ & Hd1 & [Hd2 _]%list.NoDup_cons).
  exists (omap (valid_pair rev valid) l1 ++ omap (valid_pair rev valid) l2).
  assert (forall r v, omap (valid_pair r v) (l1 ++ id :: l2) ≡ₚ
            option_list (valid_pair r v id) ++ omap (valid_pair r v) l1 ++ omap (valid_pair r v) l2) as Hsplit.
  { intros r v. rewrite omap_app.
    change (omap ?f (id :: l2)) with (match f id with Some y => y :: omap f l2 | None => omap f l2 end).
    destruct (valid_pair r v id); simpl; [|done]. by rewrite <- Permutation_middle. }
  split; [apply Hsplit|]. rewrite Hsplit.
  rewrite (valid_pairs_other rev valid rev' valid' l1), (valid_pairs_other rev valid rev' valid' l2);
    [done| |]; intros j Hjl; apply Hj; set_solver.
Qed.

(** ** The steps *)
Ltac track_simpl := unfold tracked, phase, live, pending, answered in *; simpl in *.

Lemma tracked_lookupReplyHandler e m : tracked e m -> tracked (lookupReplyHandler e).1 m.
Proof.
  intros [Hp Hl]. destruct e. unfold lookupReplyHandler, issue_lookup. track_simpl.
  destruct slc_fsmState; simpl.
  - destruct Hp as (-> & Hpe & Han & -> & -> & ->).
    destruct txApp2sLookup_req as [|t rest]; [destruct rxEng2sLookup_req as [|t rest]|];
      simpl; (split; [|done]); split_and!; try done; eexists; (split; [done|]); left; by eexists.
  - destruct Hp as (-> & Hpe & Han & q & -> & [(r & -> & Hk & ->)|(-> & r & -> & Hr)]); simpl;
      [by split; [split_and!; try done; exists q; split; [done|]; left; exists r|]|].
    destruct slc_sessionIdFreeList as [|id free]; simpl; [done|].
    destruct (negb (rlr_hit r) && qi_allowCreation q) eqn:Hmiss; simpl; [|done].
    apply andb_true_iff in Hmiss as [Hmiss%negb_true_iff _].
    apply app_eq_nil in Hpe as [-> Hpe]. simpl. rewrite Han, Hpe. split; [|by rewrite Han in Hl].
    split_and!; try done. eexists. split; [done|]. left. eexists. by split_and!; eauto.
  - destruct Hp as (-> & -> & -> & key & -> & Hst). simpl.
    destruct slc_sessionInsert_rsp as [|r rest]; simpl; [split; [|done]; split_and!; try done; eauto|].
    destruct Hst as [(q & _ & _ & _ & Han)|(Hpe & id & Han)].
    { by apply app_eq_nil in Han as [_ Han]. }
    destruct (inserted sessionUpdate_rsp) as [|x xs] eqn:Hins; simpl in Han; [|by destruct xs].
    injection Han as <- Hrest. destruct rest; [|done]. simpl. split; [by split_and!|].
    rewrite Hl. simpl. rewrite map_app. simpl. solve_Permutation.
Qed.

Lemma tracked_updateRequestSender e m :
  Forall (fun q => ruq_op q = INSERT) (sessionInsert_req e) ->
  Forall (fun q => ruq_op q = DELETE) (sessionDelete_req e) ->
  tracked e m -> tracked (updateRequestSender e).1 m.
Proof.
  intros Hi Hd [Hp Hl]. destruct e. unfold updateRequestSender. track_simpl.
  destruct sessionInsert_req as [|q rest]; [destruct sessionDelete_req as [|q rest]; [done|]|];
    simpl.
  - apply Forall_cons_1 in Hd as [Hq Hd].
    destruct (delete_request q Hq) as [Hf Hdq]. rewrite List.filter_app, deletes_app, Hf, Hdq, app_nil_r.
    split; [done|]. rewrite Hl. simpl. solve_Permutation.
  - apply Forall_cons_1 in Hi as [Hq Hi].
    destruct (insert_request q Hq) as [Hfq Hdq]. rewrite List.filter_app, deletes_app, Hfq, Hdq, app_nil_r.
    split; [|done].
    assert (rest = [] /\ List.filter is_insert sessionUpdate_req = [] \/
            forall q', q :: rest ++ List.filter is_insert sessionUpdate_req <> [q']) as Hone.
    { destruct rest, (List.filter _ _); naive_solver. }
    destruct slc_fsmState; try naive_solver.
    destruct Hp as (? & ? & ? & key & ? & Hst). split_and!; try done. exists key. split; [done|].
    destruct Hst as [(q' & Hpe & Hst)|[? _]]; [|done]. left. exists q'. split; [|done].
    destruct Hone as [[-> Hf]|Hone]; [|by apply Hone in Hpe]. by rewrite Hf in *.
Qed.

Lemma tracked_sessionIdManager e m : tracked e m -> tracked (sessionIdManager e) m.
Proof.
  intros Ht. destruct e. unfold sessionIdManager. simpl.
  destruct slc_sessionIdFinFifo; [destruct (_ <? _)|]; exact Ht.
Qed.

Lemma tracked_updateReplyHandler e m : tracked e m -> tracked (updateReplyHandler e) m.
Proof.
  intros [Hp Hl]. destruct e. unfold updateReplyHandler. track_simpl.
  destruct sessionUpdate_rsp as [|r rest]; simpl; [done|].
  rewrite inserted_cons in *. destruct (bool_decide (rur_op r = INSERT)) eqn:Hop; simpl; [|done].
  rewrite map_app. simpl in *.
  assert (rur_sessionID r :: inserted rest ++ map rur_sessionID slc_sessionInsert_rsp = [] \/
    (exists id, rur_sessionID r :: inserted rest ++ map rur_sessionID slc_sessionInsert_rsp = [id]) ->
    inserted rest = [] /\ slc_sessionInsert_rsp = []) as Hone.
  { intros [?|[id Hid]]; [done|]. injection Hid as _ Hid. apply app_eq_nil in Hid as [? Hid].
    by destruct slc_sessionInsert_rsp. }
  assert (inserted rest = [] /\ slc_sessionInsert_rsp = []) as [Hr ->].
  { apply Hone. destruct slc_fsmState.
    - destruct Hp as (_ & _ & Ha & _). by left.
    - destruct Hp as (_ & _ & Ha & _). by left.
    - destruct Hp as (_ & _ & _ & key & _ & [(q & _ & _ & _ & Ha)|[_ Ha]]); [by left|by right]. }
  by rewrite Hr in *.
Qed.

(** A number in the FIFO of the reverse table is in range and not in the table yet;
    a number in the table is in range. *)
Lemma conserved_fifo e id :
  conserved e -> id ∈ map rli_key (reverseLupInsertFifo e) ->
  0 <= id < MAX_SESSIONS /\ (tupleValid e).[id] = false.
Proof.
  intros (Hc & Ho & _) Hid. specialize (Ho id).
  assert (forall l, id ∈ l -> (0 < occurrences id l)%nat) as Hocc.
  { induction l as [|x l IH]; intros Hl; [set_solver|]. simpl.
    apply elem_of_cons in Hl as [->|Hl]; [rewrite Z.eqb_refl; lia|]. specialize (IH Hl). lia. }
  apply Hocc in Hid. unfold id_count, places in Ho. rewrite !occurrences_app in Ho.
  destruct ((tupleValid e).[id]), (_ && _) eqn:Hr in Ho; bool_prop; split; try lia; done.
Qed.

Lemma conserved_valid e id :
  conserved e -> (tupleValid e).[id] = true -> 0 <= id < MAX_SESSIONS.
Proof.
  intros (Hc & Ho & _) Hid. specialize (Ho id). unfold id_count in Ho. rewrite Hid in Ho.
  destruct (_ && _) eqn:Hr in Ho; bool_prop; lia.
Qed.

Lemma tracked_reverse e m :
  conserved e -> tracked e m -> tracked (reverseLookupTableInterface myIpAddress e).1 m.
Proof.
  intros Hcons [Hp Hl]. unfold reverseLookupTableInterface.
  destruct (reverseLupInsertFifo e) as [|r rest] eqn:Hf.
  - destruct (stateTable2sLookup_releaseSession e) as [|id rel] eqn:Hrel.
    + by destruct (txEng2sLookup_rev_req e), e.
    + destruct (tupleValid e).[id] eqn:Hv.
      * pose proof (conserved_valid e id Hcons Hv) as Hid.
        destruct (valid_pairs_change (reverseLookupTable e) (tupleValid e) (reverseLookupTable e)
          (tset id false (tupleValid e)) id Hid) as (l & H1 & H2).
        { intros j Hj. unfold valid_pair. by rewrite tget_tset_ne. }
        unfold valid_pair in H1, H2. rewrite Hv in H1. rewrite tget_tset_eq in H2.
        destruct e. track_simpl. rewrite Hv. split; [done|]. subst. simpl. rewrite Hl, H1, H2, map_app. simpl.
        solve_Permutation.
      * assert (valid_pairs (reverseLookupTable e) (tset id false (tupleValid e)) =
                valid_pairs (reverseLookupTable e) (tupleValid e)) as Hsame.
        { apply valid_pairs_other. intros j _. unfold valid_pair.
          rewrite tget_tset. case_decide; subst; by rewrite ?Hv. }
        destruct e. track_simpl. rewrite Hv. simpl. by rewrite Hsame.
  - destruct (conserved_fifo e (rli_key r) Hcons) as [Hid Hv]; [rewrite Hf; left|].
    destruct (valid_pairs_change (reverseLookupTable e) (tupleValid e)
      (tset (rli_key r) (rli_value r) (reverseLookupTable e))
      (tset (rli_key r) true (tupleValid e)) (rli_key r) Hid) as (l & H1 & H2).
    { intros j Hj. unfold valid_pair. by rewrite !tget_tset_ne. }
    unfold valid_pair in H1, H2. rewrite Hv in H1. rewrite !tget_tset_eq in H2.
    destruct e. track_simpl. subst. split; [done|]. simpl in *. rewrite Hl, H1, H2. solve_Permutation.
Qed.

Lemma tracked_arrive c e m : tracked e m -> tracked (slc_arrive c e) m.
Proof. intros Ht. by destruct c, e. Qed.

Lemma tracked_rtl_lookup e t m q rest :
  tracked e m -> table_holds t m -> sessionLookup_req e = q :: rest ->
  tracked (e <| sessionLookup_req := rest |>
             <| sessionLookup_rsp := sessionLookup_rsp e ++ [rtl_lookup missed t q] |>) m.
Proof.
  intros [Hp Hl] Ht Hq. destruct e. track_simpl. split; [|done]. subst.
  destruct slc_fsmState; simpl.
  - naive_solver.
  - destruct Hp as (? & ? & ? & q' & -> & [(r & [= -> ->] & Hk & ->)|[? _]]); [|done].
    split_and!; try done. exists q'. split; [done|]. right. split; [done|].
    eexists. split; [done|]. unfold rtl_lookup. rewrite (holds_lookup _ _ _ Ht), Hk.
    by destruct (m !! qi_tuple q') eqn:Hm.
  - naive_solver.
Qed.

Lemma tracked_insert e m q rest success :
  sessionUpdate_req e = q :: rest -> ruq_op q = INSERT -> tracked e m ->
  m !! ruq_key q = None /\
  tracked (e <| sessionUpdate_req := rest |>
             <| sessionUpdate_rsp := sessionUpdate_rsp e ++ [rtl_reply q success] |>)
          (<[ruq_key q := ruq_value q]> m).
Proof.
  intros Hq Hop [Hp Hl]. destruct e. track_simpl. subst.
  assert (List.filter is_insert (q :: rest) = q :: List.filter is_insert rest /\
          deletes (q :: rest) = deletes rest) as [Hfq Hdq].
  { unfold deletes, is_insert. simpl. by rewrite Hop. }
  rewrite Hfq, Hdq in *.
  destruct slc_fsmState; simpl.
  1-2: by destruct Hp as (_ & Hpe & _); apply app_eq_nil in Hpe as [_ Hpe].
  destruct Hp as (-> & -> & -> & key & -> & [(q' & Hpe & Hk & Hm & Han)|[Hpe _]]);
    [|by apply app_eq_nil in Hpe as [_ Hpe]].
  destruct sessionInsert_req as [|x [|]]; [|done..]. injection Hpe as -> Hrest. subst key.
  apply app_eq_nil in Han as [Hi Hs%map_eq_nil]. subst. split; [done|].
  rewrite inserted_app, Hi, Hrest. unfold inserted. simpl. rewrite Hop. simpl. split.
  - split_and!; try done. eexists. split; [done|]. right. by eauto.
  - rewrite map_to_list_insert, Hl, Hi by done. simpl. done.
Qed.

Lemma tracked_delete e m q rest success :
  sessionUpdate_req e = q :: rest -> ruq_op q = DELETE -> tracked e m ->
  tracked (e <| sessionUpdate_req := rest |>
             <| sessionUpdate_rsp := sessionUpdate_rsp e ++ [rtl_reply q success] |>)
          (delete (ruq_key q) m).
Proof.
  intros Hq Hop [Hp Hl]. destruct e. track_simpl. subst.
  assert (List.filter is_insert (q :: rest) = List.filter is_insert rest /\
          deletes (q :: rest) = request_pair q :: deletes rest) as [Hfq Hdq].
  { unfold deletes, is_insert. simpl. by rewrite Hop. }
  rewrite Hfq, Hdq in *.
  assert (inserted (sessionUpdate_rsp ++ [rtl_reply q success]) = inserted sessionUpdate_rsp) as ->.
  { rewrite inserted_app. unfold inserted at 2. simpl. rewrite Hop. by rewrite app_nil_r. }
  split.
  - assert (forall k, m !! k = None -> delete (ruq_key q) m !! k = None) as Hdel
      by (intros; by apply lookup_delete_None; right).
    destruct slc_fsmState; [done| |]; destruct Hp as (? & ? & ? & k & ? & Hst); split_and!; try done;
      exists k; naive_solver.
  - assert (m !! ruq_key q = Some (ruq_value q)) as Hm.
    { apply elem_of_map_to_list. rewrite Hl. unfold request_pair. set_solver. }
    apply (Permutation_cons_inv (a := request_pair q)). unfold request_pair at 1.
    rewrite map_to_list_delete, Hl by done. solve_Permutation.
Qed.

Lemma served_reachable s : slc_served missed myIpAddress s -> slc_reachable missed myIpAddress s.
Proof. induction 1 as [|s s' _ IH Hs]; [apply reach_init|by eapply reach_step]. Qed.

Lemma conserved_served s : config_ok C -> slc_served missed myIpAddress s -> conserved s.1.
Proof. intros Hcfg Hs. eapply conserved_reachable; [done|]. by apply served_reachable. Qed.

Lemma tracked_step s s' m :
  config_ok C -> conserved s.1 -> slc_step missed myIpAddress true s s' ->
  table_holds s.2 m -> tracked s.1 m -> exists m', table_holds s'.2 m' /\ tracked s'.1 m'.
Proof.
  intros Hcfg Hc Hs Ht Hm. remember true as b eqn:Hb.
  destruct Hs as [e t|e t|e t|e t|e t|c e t|e t q rest Hq|e t q rest Hq]; simpl in *.
  1-7: exists m; split; [done|].
  - by apply tracked_lookupReplyHandler.
  - destruct Hc as (_ & _ & Hi & Hd & _). by apply tracked_updateRequestSender.
  - by apply tracked_sessionIdManager.
  - by apply tracked_updateReplyHandler.
  - by apply tracked_reverse.
  - by apply tracked_arrive.
  - by apply tracked_rtl_lookup.
  - destruct (ruq_op q) eqn:Hop.
    + destruct (tracked_insert _ _ _ _ (rtl_update t q).2 Hq Hop Hm) as [Hnone Hm'].
      eexists. split; [|exact Hm']. unfold rtl_update in Hb |- *. rewrite Hop in Hb |- *.
      by apply holds_insert.
    + eexists. split; [|by apply tracked_delete]. unfold rtl_update. rewrite Hop.
      by apply holds_delete.
Qed.

Lemma tracked_served s :
  config_ok C -> slc_served missed myIpAddress s ->
  conserved s.1 /\ exists m, table_holds s.2 m /\ tracked s.1 m.
Proof.
  intros Hcfg Hs. split; [by apply conserved_served|].
  induction Hs as [|s s' Hs (m & Ht & Hm) Hstep].
  - exists ∅. split; [apply holds_empty|]. split; [by split_and!|].
    rewrite map_to_list_empty. unfold live. simpl. rewrite app_nil_r. unfold valid_pairs.
    induction (seqZ 0 MAX_SESSIONS) as [|id l IH]; [done|]. exact IH.
  - by eapply tracked_step; [|apply conserved_served|..].
Qed.

Lemma elem_of_valid_pairs rev valid k id :
  (k, id) ∈ valid_pairs rev valid <->
  0 <= id < MAX_SESSIONS /\ valid.[id] = true /\ rev.[id] = k.
Proof.
  unfold valid_pairs, valid_pair. rewrite list_elem_of_omap. split.
  - intros (j & Hj%elem_of_seqZ & Heq). destruct (valid.[j]) eqn:Hv; [|done].
    injection Heq as <- <-. split_and!; try done; lia.
  - intros (Hid & Hv & <-). exists id. rewrite elem_of_seqZ, Hv. split; [lia|done].
Qed.

Lemma live_quiet e : quiet e -> live e = valid_pairs (reverseLookupTable e) (tupleValid e).
Proof.
  intros Hq. destruct e. unfold quiet in Hq. simpl in Hq. destruct_and! Hq. subst.
  unfold live. simpl. by rewrite app_nil_r.
Qed.

Lemma holds_live s m k id :
  table_holds s.2 m -> tracked s.1 m -> table_lookup s.2 k = Some id <-> (k, id) ∈ live s.1.
Proof. intros Ht [_ Hl]. by rewrite (holds_lookup _ _ _ Ht), <- elem_of_map_to_list, Hl. Qed.

(** ** Properties *)

(** C20: the table of tuples and the reverse table are inverse to each other.
    However the processes of the controller, its clients and the table interleave, as
    long as the table has rejected no insertion: the tuple of every session in the
    reverse table is looked up to the number of this session, so that no two sessions
    share a tuple; and a tuple that is found belongs to the session of this number,
    which is in the reverse table or on its way into it or out of it.  When nothing is
    under way, a tuple is found exactly if its session is in the reverse table. *)
Theorem session_tables_inverse s :
  config_ok C -> slc_served missed myIpAddress s ->
  let rev := reverseLookupTable s.1 in
  let valid := tupleValid s.1 in
  (forall id, valid.[id] = true -> table_lookup s.2 rev.[id] = Some id) /\
  (forall k id, table_lookup s.2 k = Some id <-> (k, id) ∈ live s.1) /\
  (quiet s.1 -> forall k id,
     table_lookup s.2 k = Some id <-> valid.[id] = true /\ rev.[id] = k).
Proof.
  intros Hcfg Hs rev valid. destruct (tracked_served _ Hcfg Hs) as (Hc & m & Ht & Hm).
  pose proof (fun k id => holds_live s m k id Ht Hm) as Hk.
  split_and!; [|done|].
  - intros id Hv. apply Hk. pose proof (conserved_valid _ _ Hc Hv).
    unfold live. rewrite !elem_of_app. right. right. left. by apply elem_of_valid_pairs.
  - intros Hq k id. rewrite Hk, (live_quiet _ Hq), elem_of_valid_pairs.
    split; [tauto|]. intros [Hv ?]. pose proof (conserved_valid _ _ Hc Hv). done.
Qed.

End Tracking.

(** ** Witnesses *)
Section TrackingWitnesses.
Local Existing Instance tiny_config.
Local Existing Instance map_table.
Local Existing Instance map_table_laws.

(** A connection is opened: the served states on the way, as far as the update
    request, and to the end. *)
Definition demo_tuple : fourTuple := mkFourTuple 1 2 3 4.

Definition demo_lookup : slc_env :=
  (lookupReplyHandler (slc_arrive (C_txApp demo_tuple) (sessionIdManager slc_init))).1.

Definition demo_request `{SessionTable T} (t : T) : slc_env :=
  let e := demo_lookup <| sessionLookup_req := [] |>
             <| sessionLookup_rsp := [rtl_lookup 0 t (mkRtlLookupRequest
                                        (tuple_of_txApp demo_tuple) TX_APP)] |> in
  (updateRequestSender (lookupReplyHandler e).1).1.

Lemma demo_request_served `{SessionTable T} :
  slc_served 0 1 (demo_request table_empty, table_empty).
Proof.
  eapply served_step; [|apply S_updateRequestSender].
  eapply served_step; [|apply S_lookupReplyHandler].
  eapply served_step; [|exact (S_rtl_lookup 0 1 demo_lookup table_empty _ [] eq_refl)].
  eapply served_step; [|apply S_lookupReplyHandler].
  eapply served_step; [|apply (S_client 0 1 (C_txApp demo_tuple))].
  eapply served_step; [|apply S_sessionIdManager]. apply served_init.
Qed.

Definition demo_open : slc_env * gmap threeTupleInternal Z :=
  let q := mkRtlUpdateRequest (tuple_of_txApp demo_tuple) 0 INSERT TX_APP in
  let e := demo_request (∅ : gmap threeTupleInternal Z) in
  let e := e <| sessionUpdate_req := [] |> <| sessionUpdate_rsp := [rtl_reply q true] |> in
  ((reverseLookupTableInterface 1 (lookupReplyHandler (updateReplyHandler e)).1).1,
   {[tuple_of_txApp demo_tuple := 0]}).

Lemma demo_open_served : slc_served 0 1 demo_open.
Proof.
  eapply served_step; [|apply S_reverseLookup].
  eapply served_step; [|apply S_lookupReplyHandler].
  eapply served_step; [|apply S_updateReplyHandler].
  eapply served_step; [apply demo_request_served|].
  exact (S_rtl_update 0 1 (demo_request table_empty) (∅ : gmap threeTupleInternal Z) _ _ eq_refl).
Qed.

Lemma session_tables_inverse_witness :
  table_lookup demo_open.2 (mkThreeTuple 2 3 4) = Some 0 /\ (tupleValid demo_open.1).[0] = true.
Proof.
  destruct (session_tables_inverse 0 1 demo_open tiny_config_ok demo_open_served) as (H & _ & _).
  split; [|reflexivity]. exact (H 0 eq_refl).
Defined.

(** A table that rejects every insertion. *)
#[local] Instance full_table : SessionTable unit := {|
  table_empty := tt; table_lookup _ _ := None;
  table_insert _ _ t := (t, false); table_delete _ t := (t, false)
|}.
#[local] Instance full_table_laws : SessionTableLaws unit.
Proof.
  exists (fun _ m => m = ∅); simpl; intros; subst; try done.
  exists k. rewrite lookup_insert_eq. split; [eauto|]. by rewrite delete_insert_id.
Defined.

End TrackingWitnesses.
