(* ===== verification/HashTable.v ===== *)
(** * The hash table of the sessions ([hash_table/hash_table.cpp])

    A cuckoo hash table with nine subtables: a key has one place in each of them, an
    insertion takes a free one or moves another entry out of the way, up to
    [MAX_TRIALS] times.  The key is a template parameter; the table looks at it by
    [operator==] and by its bits.  The table is shown to implement a finite map
    ([represents]) as long as insertions succeed, and to be a [SessionTable]. *)

From S2P Require Import Prelude ToeTypes SessionLookup SessionTracking.

(** ** Constants ([hash_table.hpp]) *)
Fixpoint ConstLog2 (val : positive) : Z :=
  match val with xH => 0 | xO p | xI p => 1 + ConstLog2 p end.

Definition MAX_KEY_SIZE : nat := 64.
Definition NUM_TABLES : nat := 9.
Definition KEY_SIZE : nat := 64.
Definition MAX_TRIALS : nat := 12.

(** ** Data ([hash_table.hpp]) *)
Inductive kvOperation := KV_INSERT | KV_DELETE.

Section Data.
Context {K : Type}.

Record htLookupReq := mkHtLookupReq { hlq_key : K; hlq_source : lookupSource }.
Record htLookupResp := mkHtLookupResp {
  hlr_key : K; hlr_value : Z; hlr_hit : bool; hlr_source : lookupSource
}.
Record htUpdateReq := mkHtUpdateReq {
  huq_op : kvOperation; huq_key : K; huq_value : Z; huq_source : lookupSource
}.
Record htUpdateResp := mkHtUpdateResp {
  hur_op : kvOperation; hur_key : K; hur_value : Z; hur_success : bool; hur_source : lookupSource
}.
Record htEntry := mkHtEntry { he_key : K; he_value : Z; he_valid : bool }.
End Data.
Arguments htLookupReq : clear implicits.
Arguments htLookupResp : clear implicits.
Arguments htUpdateReq : clear implicits.
Arguments htUpdateResp : clear implicits.
Arguments htEntry : clear implicits.

(** The constructor [htEntry(key, value)]. *)
Definition newEntry {K} (key : K) (value : Z) : htEntry K := mkHtEntry key value true.

#[export] Instance zero_init_htEntry {K} `{ZeroInit K} : ZeroInit (htEntry K) :=
  mkHtEntry zero_init 0 false.

Section HashTable.
Context {C : ToeConfig}.
Context {K : Type} `{Countable K} `{ZeroInit K}.
(** [key[k]], the bits of a key, and the table of random numbers. *)
Variable key_bit : K -> nat -> Z.
Variable tabulation_table : nat -> Z -> nat -> Z.

(** [hash_table_config.hpp.in]: both are set from [TCP_STACK_MAX_SESSIONS]. *)
Definition MAX_NUMBER_OF_ENTRIES : Z := MAX_SESSIONS.
Definition TABLE_ADDRESS_BITS : Z :=
  ConstLog2 (Z.to_pos (MAX_NUMBER_OF_ENTRIES / (Z.of_nat NUM_TABLES - 1))).
Definition TABLE_SIZE : Z := 2 ^ TABLE_ADDRESS_BITS.

(** ** State *)
Abbreviation tables := (gmap (nat * Z) (htEntry K)).

Record ht_env := mkHtEnv {
  cuckooTables : tables;
  victimIdx : Z;
  victimBit : Z;
  insertFailureCounter : Z;
  s_axis_lup_req : stream (htLookupReq K);
  s_axis_upd_req : stream (htUpdateReq K)
}.
#[local] Instance eta_ht_env : Eta ht_env := fun e =>
  mkHtEnv (cuckooTables e) (victimIdx e) (victimBit e) (insertFailureCounter e)
    (s_axis_lup_req e) (s_axis_upd_req e).

Definition ht_init : ht_env := mkHtEnv ∅ 0 0 0 [] [].

Inductive ht_write :=
| W_m_axis_lup_rsp (r : htLookupResp K)
| W_m_axis_upd_rsp (r : htUpdateResp K)
| W_regInsertFailureCount (n : Z).

(** [cuckooTables[i][a]]. *)
Definition cell (t : tables) (i : nat) (a : Z) : htEntry K := default zero_init (t !! (i, a)).

(** ** The operations *)

(** The array [hashes]. *)
Definition calculate_hashes (key : K) (i : nat) : Z :=
  foldl (fun hash k => Z.lxor hash
           (bits (TABLE_ADDRESS_BITS - 1) 0 (tabulation_table i (key_bit key k) k)))
    0 (seq 0 KEY_SIZE).

(** The loops that look for a slot: the last one with the property, if any. *)
Definition find_slot (p : nat -> bool) : option nat :=
  foldl (fun slot i => if p i then Some i else slot) None (seq 0 NUM_TABLES).

(** [currentEntries], read from the tables and written back to them. *)
Definition read_entries (hashes : nat -> Z) (t : tables) (i : nat) : htEntry K :=
  cell t i (hashes i).
Definition write_back (hashes : nat -> Z) (currentEntries : nat -> htEntry K) (t : tables) : tables :=
  foldl (fun t i => <[(i, hashes i) := currentEntries i]> t) t (seq 0 NUM_TABLES).
Definition set_entry (slot : nat) (x : htEntry K) (currentEntries : nat -> htEntry K) (i : nat) :=
  if decide (i = slot) then x else currentEntries i.

(** [junk_value] is what the value of a response is that was never assigned. *)
Definition lookup (junk_value : Z) (request : htLookupReq K) (e : ht_env) : htLookupResp K :=
  let hashes := calculate_hashes (hlq_key request) in
  let currentEntries := read_entries hashes (cuckooTables e) in
  match find_slot (fun i => he_valid (currentEntries i)
                            && bool_decide (he_key (currentEntries i) = hlq_key request)) with
  | Some slot =>
      mkHtLookupResp (hlq_key request) (he_value (currentEntries slot)) true (hlq_source request)
  | None => mkHtLookupResp (hlq_key request) junk_value false (hlq_source request)
  end.

(** The body of [insertLoop] for the remaining [n] trials: the environment and
    whether the entry, or the last one moved out of the way, was stored. *)
Fixpoint insertLoop (n : nat) (currentEntry : htEntry K) (e : ht_env) : ht_env * bool :=
  match n with
  | O => (e, false)
  | S n =>
      let hashes := calculate_hashes (he_key currentEntry) in
      let currentEntries := read_entries hashes (cuckooTables e) in
      let next_bit := wrap 1 (victimBit e + 1) in
      match find_slot (fun i => negb (he_valid (currentEntries i))) with
      | Some slot =>
          (e <| cuckooTables := write_back hashes (set_entry slot currentEntry currentEntries)
                                  (cuckooTables e) |>
             <| victimBit := next_bit |>, true)
      | None =>
          let victimPos := Z.to_nat (hashes (Z.to_nat (victimIdx e)) `mod` (Z.of_nat NUM_TABLES - 1)
                                     + victimBit e) in
          let victimEntry := currentEntries victimPos in
          let idx := wrap 8 (victimIdx e + 1) in
          insertLoop n victimEntry
            (e <| victimIdx := if idx =? Z.of_nat NUM_TABLES then 0 else idx |>
               <| cuckooTables := write_back hashes
                                    (set_entry victimPos currentEntry currentEntries)
                                    (cuckooTables e) |>
               <| victimBit := next_bit |>)
      end
  end.

Definition insert (request : htUpdateReq K) (e : ht_env) : ht_env * list ht_write :=
  let '(e', success) :=
    insertLoop MAX_TRIALS (newEntry (huq_key request) (huq_value request))
      (e <| victimIdx := 0 |>) in
  (if success then e'
   else e' <| insertFailureCounter := wrap 16 (insertFailureCounter e' + 1) |>,
   [W_regInsertFailureCount (insertFailureCounter e);
    W_m_axis_upd_rsp (mkHtUpdateResp (huq_op request) (huq_key request) (huq_value request)
                        success (huq_source request))]).

(** One round of the loop of [remove]. *)
Definition remove_round (key : K) (hashes : nat -> Z) (s : tables * bool) (i : nat) : tables * bool :=
  let x := cell s.1 i (hashes i) in
  if he_valid x && bool_decide (he_key x = key)
  then (<[(i, hashes i) := mkHtEntry (he_key x) (he_value x) false]> s.1, true)
  else (<[(i, hashes i) := x]> s.1, s.2).

Definition remove (request : htUpdateReq K) (e : ht_env) : ht_env * list ht_write :=
  let hashes := calculate_hashes (huq_key request) in
  let '(t, success) := foldl (remove_round (huq_key request) hashes) (cuckooTables e, false)
                         (seq 0 NUM_TABLES) in
  (e <| cuckooTables := t |>,
   [W_m_axis_upd_rsp (mkHtUpdateResp (huq_op request) (huq_key request) (huq_value request)
                        success (huq_source request))]).

Definition hash_table (junk_value : Z) (e : ht_env) : ht_env * list ht_write :=
  match s_axis_lup_req e, s_axis_upd_req e with
  | request :: rest, _ =>
      (e <| s_axis_lup_req := rest |>, [W_m_axis_lup_rsp (lookup junk_value request e)])
  | [], request :: rest =>
      let e := e <| s_axis_upd_req := rest |> in
      match huq_op request with
      | KV_INSERT => insert request e
      | KV_DELETE => remove request e
      end
  | [], [] => (e, [])
  end.

(** ** The cells after an operation *)
Definition same_cells (t t' : tables) : Prop := forall i a, cell t i a = cell t' i a.

#[local] Instance same_cells_equivalence : Equivalence same_cells.
Proof.
  split; [by intros t i a|by intros t t' Ht i a|].
  intros t1 t2 t3 H1 H2 i a. by rewrite H1.
Qed.

Lemma cell_insert t i a x j b :
  cell (<[(i, a) := x]> t) j b = if decide (i = j /\ a = b) then x else cell t j b.
Proof.
  unfold cell. case_decide as Hd; [destruct Hd as [-> ->]; by rewrite lookup_insert_eq|].
  rewrite lookup_insert_ne; [done|]. intros [= -> ->]. by destruct Hd.
Qed.

#[local] Instance insert_same_cells i a x : Proper (same_cells ==> same_cells) (<[(i, a) := x]>).
Proof. intros t t' Ht j b. rewrite !cell_insert. by rewrite Ht. Qed.

Lemma in_tables i : i ∈ seq 0 NUM_TABLES <-> (i < NUM_TABLES)%nat.
Proof. rewrite elem_of_seq. lia. Qed.

Lemma write_back_cells hashes entries t l i a :
  cell (foldl (fun t i => <[(i, hashes i) := entries i]> t) t l) i a =
  if decide (i ∈ l /\ a = hashes i) then entries i else cell t i a.
Proof.
  revert t. induction l as [|j l IH]; intros t; simpl.
  - done.
  - rewrite IH, cell_insert. destruct (decide (i ∈ l /\ a = hashes i)) as [Hd|Hd].
    + rewrite decide_True by set_solver. done.
    + destruct (decide (j = i /\ hashes j = a)) as [[-> <-]|Hj].
      * by rewrite decide_True by set_solver.
      * rewrite decide_False; [done|]. intros [Hi ->].
        apply elem_of_cons in Hi as [->|Hi]; naive_solver.
Qed.

(** Writing the entries back changes the one slot that was assigned. *)
Lemma write_back_slot hashes slot x t :
  (slot < NUM_TABLES)%nat ->
  same_cells (write_back hashes (set_entry slot x (read_entries hashes t)) t)
             (<[(slot, hashes slot) := x]> t).
Proof.
  intros Hs i a. unfold write_back. rewrite write_back_cells, cell_insert.
  unfold set_entry, read_entries.
  destruct (decide (slot = i /\ hashes slot = a)) as [[-> <-]|Hd].
  - rewrite !decide_True; [done..|]. by rewrite in_tables.
  - case_decide as Hi; [|done]. destruct Hi as [Hi ->].
    rewrite decide_False; [done|]. intros ->. by destruct Hd.
Qed.

Lemma find_slot_spec p :
  match find_slot p with
  | Some i => (i < NUM_TABLES)%nat /\ p i = true
  | None => forall i, (i < NUM_TABLES)%nat -> p i = false
  end.
Proof.
  assert (forall l slot,
    match foldl (fun slot i => if p i then Some i else slot) slot l with
    | Some i => slot = Some i \/ (i ∈ l /\ p i = true)
    | None => slot = None /\ (forall i, i ∈ l -> p i = false)
    end) as Hl.
  { induction l as [|j l IH]; intros slot; simpl; [destruct slot; set_solver|].
    specialize (IH (if p j then Some j else slot)).
    destruct (foldl _ _ l) as [i|], (p j) eqn:Hj; set_solver. }
  specialize (Hl (seq 0 NUM_TABLES) None). unfold find_slot.
  destruct (foldl _ _ _) as [i|]; setoid_rewrite in_tables in Hl; naive_solver.
Qed.

(** ** The map that the tables represent

    A valid entry is at the place of its key in its subtable, a key is stored once,
    and the entries are those of the map. *)
Definition stored (t : tables) (i : nat) (a : Z) (k : K) (v : Z) : Prop :=
  cell t i a = newEntry k v.

Record represents (t : tables) (m : gmap K Z) : Prop := {
  rep_place : forall i a k v, stored t i a k v -> (i < NUM_TABLES)%nat /\ a = calculate_hashes k i;
  rep_once : forall i j a b k v w, stored t i a k v -> stored t j b k w -> i = j;
  rep_map : forall k v, m !! k = Some v <-> exists i a, stored t i a k v
}.

#[local] Instance represents_proper : Proper (same_cells ==> eq ==> iff) represents.
Proof.
  assert (forall t t' m, same_cells t t' -> represents t m -> represents t' m) as Hp.
  { intros t t' m Ht [H1 H2 H3].
    assert (forall i a k v, stored t i a k v <-> stored t' i a k v) as Hs
      by (intros; unfold stored; by rewrite Ht).
    split; [intros ????|intros ???????|intros ??]; setoid_rewrite <- Hs; eauto. }
  intros t t' Ht m ? <-. split; apply Hp; [done|by symmetry].
Qed.

Lemma represents_empty : represents ∅ ∅.
Proof.
  assert (forall i a k v, ~ stored ∅ i a k v) as Hn by (intros i a k v; by unfold stored, cell).
  split; [intros; by exfalso; eapply Hn|intros; by exfalso; eapply Hn|].
  intros k v. rewrite lookup_empty. split; [done|]. intros (i & a & Hs). by apply Hn in Hs.
Qed.

Lemma stored_insert t i a x j b k v :
  stored (<[(i, a) := x]> t) j b k v <->
  (i = j /\ a = b /\ x = newEntry k v) \/ (~ (i = j /\ a = b) /\ stored t j b k v).
Proof. unfold stored. rewrite cell_insert. case_decide; naive_solver. Qed.

Lemma invalid_not_stored t i a k v : he_valid (cell t i a) = false -> ~ stored t i a k v.
Proof. unfold stored. intros Hv Hs. by rewrite Hs in Hv. Qed.

Lemma valid_stored t i a :
  he_valid (cell t i a) = true -> stored t i a (he_key (cell t i a)) (he_value (cell t i a)).
Proof. unfold stored. destruct (cell t i a). simpl. by intros ->. Qed.

(** Removing an entry. *)
Lemma represents_clear t m i a k v x :
  represents t m -> stored t i a k v -> he_valid x = false ->
  represents (<[(i, a) := x]> t) (delete k m).
Proof.
  intros [H1 H2 H3] Hs Hx.
  assert (forall j b l w, stored (<[(i, a) := x]> t) j b l w <->
                          ~ (i = j /\ a = b) /\ stored t j b l w) as Hst.
  { intros j b l w. rewrite stored_insert. split; [|by right].
    intros [(_ & _ & ->)|?]; done. }
  split; [intros j b l w|intros j j' b b' l w w'|intros l w]; setoid_rewrite Hst.
  - intros [_ Hj]. by eapply H1.
  - intros [_ Hj] [_ Hj']. by eapply H2.
  - rewrite lookup_delete_Some, H3. split.
    + intros (Hk & j & b & Hj). exists j, b. split; [|done].
      intros [<- <-]. unfold stored in Hs, Hj. rewrite Hs in Hj. by injection Hj.
    + intros (j & b & Hne & Hj). split; [|by exists j, b]. intros <-. apply Hne.
      pose proof (H2 _ _ _ _ _ _ _ Hs Hj) as <-. split; [done|].
      destruct (H1 _ _ _ _ Hs) as [_ ->]. by destruct (H1 _ _ _ _ Hj) as [_ ->].
Qed.

(** Filling a free place of a new key. *)
Lemma represents_fill t m i k v :
  represents t m -> (i < NUM_TABLES)%nat -> m !! k = None ->
  he_valid (cell t i (calculate_hashes k i)) = false ->
  represents (<[(i, calculate_hashes k i) := newEntry k v]> t) (<[k := v]> m).
Proof.
  intros [H1 H2 H3] Hi Hm Hv.
  assert (forall j b w, ~ stored t j b k w) as Hk.
  { intros j b w Hj. assert (m !! k = Some w) by (apply H3; eauto). congruence. }
  assert (forall l w, newEntry k v = newEntry l w -> l = k /\ w = v) as Hnew
    by (unfold newEntry; naive_solver).
  split; [intros j b l w|intros j j' b b' l w w'|intros l w]; rewrite ?stored_insert.
  - intros [(<- & <- & Hj)|[_ Hj]]; [|by eapply H1]. by apply Hnew in Hj as [-> ->].
  - intros [(<- & <- & Hj)|[_ Hj]] [(<- & <- & Hj')|[_ Hj']];
      [done| | |by eapply H2].
    + apply Hnew in Hj as [-> _]. by apply Hk in Hj'.
    + apply Hnew in Hj' as [-> _]. by apply Hk in Hj.
  - setoid_rewrite stored_insert. rewrite lookup_insert_Some, H3. split.
    + intros [[<- <-]|[Hkl (j & b & Hj)]]; [exists i, (calculate_hashes k i); by left|].
      exists j, b. right. split; [|done]. intros [<- <-].
      by apply (invalid_not_stored _ _ _ _ _ Hv) in Hj.
    + intros (j & b & [(_ & _ & Hj)|[_ Hj]]); [apply Hnew in Hj as [-> ->]; by left|].
      right. split; [|by exists j, b]. intros <-. by apply Hk in Hj.
Qed.

(** Taking the place of another entry. *)
Lemma represents_evict t m i k v :
  represents t m -> (i < NUM_TABLES)%nat -> m !! k = None ->
  let old := cell t i (calculate_hashes k i) in
  he_valid old = true ->
  m !! he_key old = Some (he_value old) /\
  represents (<[(i, calculate_hashes k i) := newEntry k v]> t) (<[k := v]> (delete (he_key old) m)).
Proof.
  intros Hr Hi Hm old Hv. pose proof (valid_stored _ _ _ Hv) as Hs. fold old in Hs.
  split; [apply Hr; eauto|].
  pose proof (represents_clear _ _ _ _ _ _ zero_init Hr Hs eq_refl) as Hc.
  apply (represents_fill _ _ i k v) in Hc; [|done| |].
  - by rewrite insert_insert_eq in Hc.
  - by rewrite lookup_delete_None; right.
  - by rewrite cell_insert, decide_True.
Qed.

(** ** Lookup *)
Definition matches (key : K) (x : htEntry K) : bool :=
  he_valid x && bool_decide (he_key x = key).

Lemma matches_stored key t i a :
  matches key (cell t i a) = true <-> exists v, stored t i a key v.
Proof.
  unfold matches. rewrite andb_true_iff, bool_decide_eq_true. split.
  - intros [Hv <-]. eauto using valid_stored.
  - by intros [v ->].
Qed.

Lemma lookup_represents junk_value request e m :
  represents (cuckooTables e) m ->
  lookup junk_value request e =
    match m !! hlq_key request with
    | Some v => mkHtLookupResp (hlq_key request) v true (hlq_source request)
    | None => mkHtLookupResp (hlq_key request) junk_value false (hlq_source request)
    end.
Proof.
  intros Hr. unfold lookup, read_entries. set (h := calculate_hashes _).
  pose proof (find_slot_spec (fun i => matches (hlq_key request) (cell (cuckooTables e) i (h i)))) as Hf.
  unfold matches in Hf at 1. destruct (find_slot _) as [slot|].
  - destruct Hf as [_ (v & Hs)%matches_stored].
    assert (m !! hlq_key request = Some v) as -> by (apply Hr; eauto). by rewrite Hs.
  - destruct (m !! hlq_key request) as [v|] eqn:Hm; [|done].
    apply Hr in Hm as (i & a & Hs). destruct (rep_place _ _ Hr _ _ _ _ Hs) as [Hi ->].
    specialize (Hf i Hi). rewrite (proj2 (matches_stored _ _ _ _)) in Hf; [done|eauto].
Qed.

(** ** Removal *)
Definition invalidated (x : htEntry K) : htEntry K := mkHtEntry (he_key x) (he_value x) false.

Lemma existsb_agree {A} (f g : A -> bool) l :
  (forall x, x ∈ l -> f x = g x) -> existsb f l = existsb g l.
Proof.
  induction l as [|x l IH]; intros Hfg; simpl; [done|]. rewrite Hfg, IH by set_solver. done.
Qed.

Lemma remove_rounds key hashes l t b :
  NoDup l ->
  let r := foldl (remove_round key hashes) (t, b) l in
  (forall i a, cell r.1 i a =
     if bool_decide (i ∈ l) && (a =? hashes i) && matches key (cell t i a)
     then invalidated (cell t i a) else cell t i a) /\
  r.2 = b || existsb (fun i => matches key (cell t i (hashes i))) l.
Proof.
  revert t b. induction l as [|j l IH]; intros t b Hl; simpl; [by rewrite orb_false_r|].
  apply list.NoDup_cons in Hl as [Hj Hl].
  unfold remove_round at 2 4. simpl. fold (matches key (cell t j (hashes j))).
  set (x := if matches key (cell t j (hashes j)) then invalidated (cell t j (hashes j))
            else cell t j (hashes j)).
  assert ((if matches key (cell t j (hashes j))
           then (<[(j, hashes j) := mkHtEntry (he_key (cell t j (hashes j)))
                   (he_value (cell t j (hashes j))) false]> t, true)
           else (<[(j, hashes j) := cell t j (hashes j)]> t, b)) =
          (<[(j, hashes j) := x]> t, b || matches key (cell t j (hashes j)))) as Hround.
  { unfold x, invalidated. destruct (matches _ _); [by rewrite orb_true_r|by rewrite orb_false_r]. }
  rewrite !Hround. destruct (IH (<[(j, hashes j) := x]> t) (b || matches key (cell t j (hashes j))) Hl)
    as [IHc IHb]. split.
  - intros i a. rewrite IHc, cell_insert.
    destruct (decide (j = i /\ hashes j = a)) as [[-> <-]|Hne].
    + rewrite (bool_decide_false (i ∈ l)), bool_decide_true, Z.eqb_refl by set_solver.
      simpl. unfold x. by destruct (matches _ _).
    + destruct (a =? hashes i) eqn:Ha; [|by rewrite !andb_false_r]. bool_prop. subst a.
      rewrite (bool_decide_ext (i ∈ l) (i ∈ j :: l)) by set_solver. done.
  - rewrite IHb, <- orb_assoc. do 2 f_equal. apply existsb_agree. intros i Hi.
    rewrite cell_insert, decide_False; [done|]. intros [-> _]. done.
Qed.

Lemma remove_represents key t m :
  represents t m ->
  let r := foldl (remove_round key (calculate_hashes key)) (t, false) (seq 0 NUM_TABLES) in
  represents r.1 (delete key m) /\ r.2 = bool_decide (is_Some (m !! key)).
Proof.
  intros Hr r.
  destruct (remove_rounds key (calculate_hashes key) _ t false (NoDup_seq 0 NUM_TABLES)) as [Hc Hb].
  fold r in Hc, Hb. rewrite orb_false_l in Hb. destruct (m !! key) as [v|] eqn:Hm.
  - apply Hr in Hm as (i & a & Hs). destruct (rep_place _ _ Hr _ _ _ _ Hs) as [Hi ->].
    split.
    + assert (same_cells r.1 (<[(i, calculate_hashes key i) := invalidated (newEntry key v)]> t)) as ->.
      * intros j b. rewrite Hc, cell_insert.
        destruct (decide (i = j /\ calculate_hashes key i = b)) as [[<- <-]|Hne].
        -- rewrite bool_decide_true, Z.eqb_refl by (by apply in_tables).
           rewrite (proj2 (matches_stored _ _ _ _)) by eauto. by rewrite Hs.
        -- destruct (matches key (cell t j b)) eqn:Hmatch; [|by rewrite andb_false_r].
           apply matches_stored in Hmatch as [w Hw]. destruct Hne.
           pose proof (rep_once _ _ Hr _ _ _ _ _ _ _ Hs Hw) as <-.
           by destruct (rep_place _ _ Hr _ _ _ _ Hw) as [_ ->].
      * by eapply represents_clear.
    + rewrite Hb, bool_decide_true by eauto. apply existsb_exists. exists i. split.
      * by apply list_elem_of_In, in_tables.
      * apply matches_stored. eauto.
  - assert (forall i a, matches key (cell t i a) = false) as Hnone.
    { intros i a. apply not_true_iff_false. intros (w & Hw)%matches_stored.
      assert (m !! key = Some w) by (apply Hr; eauto). congruence. }
    split.
    + rewrite delete_id by done.
      assert (same_cells r.1 t) as ->; [|done]. intros i a. by rewrite Hc, Hnone, andb_false_r.
    + rewrite Hb, bool_decide_false by (by intros [? ?]).
      apply not_true_iff_false. rewrite existsb_exists. intros (i & _ & Hi). by rewrite Hnone in Hi.
Qed.

(** ** Insertion *)
Definition ht_represents (e : ht_env) (m : gmap K Z) : Prop :=
  represents (cuckooTables e) m /\ 0 <= victimBit e <= 1.

(** What an insertion loop with [m] in the tables and [x] in hand ends with: the
    entry in hand may be another one by then, and it is lost if the trials run out. *)
Lemma insertLoop_represents n x e m :
  ht_represents e m -> he_valid x = true -> m !! he_key x = None ->
  let full := <[he_key x := he_value x]> m in
  let '(e', success) := insertLoop n x e in
  if success then ht_represents e' full
  else exists k, is_Some (full !! k) /\ ht_represents e' (delete k full).
Proof.
  revert x e m. induction n as [|n IH]; intros x e m [Hr Hbit] Hx Hm full; simpl.
  - exists (he_key x). unfold full. by rewrite lookup_insert_eq, delete_insert_id.
  - assert (x = newEntry (he_key x) (he_value x)) as Hnew by (destruct x; simpl in Hx; by subst).
    set (h := calculate_hashes (he_key x)).
    pose proof (find_slot_spec (fun i => negb (he_valid (read_entries h (cuckooTables e) i)))) as Hf.
    pose proof (wrap_range 1 (victimBit e + 1) ltac:(lia)) as Hb. unfold in_width in Hb.
    destruct (find_slot _) as [slot|].
    + destruct Hf as [Hslot Hfree%negb_true_iff]. split; [|simpl; lia]. simpl.
      rewrite write_back_slot by done. rewrite Hnew at 1. by apply represents_fill.
    + set (pos := Z.to_nat _). assert (pos < NUM_TABLES)%nat as Hpos.
      { unfold pos. pose proof (Z.mod_pos_bound (h (Z.to_nat (victimIdx e)))
          (Z.of_nat NUM_TABLES - 1) eq_refl). unfold NUM_TABLES in *. lia. }
      specialize (Hf pos Hpos). apply negb_false_iff in Hf.
      set (victim := read_entries h (cuckooTables e) pos) in *.
      destruct (represents_evict _ _ pos (he_key x) (he_value x) Hr Hpos Hm Hf) as [Hv He].
      change (cell (cuckooTables e) pos (calculate_hashes (he_key x) pos)) with victim in Hv, He.
      rewrite <- Hnew in He.
      match goal with |- context [insertLoop n victim ?e1] => set (e' := e1) end.
      specialize (IH victim e' (<[he_key x := he_value x]> (delete (he_key victim) m))).
      assert (he_key victim <> he_key x) as Hne by (intros Heq; rewrite Heq in Hv; congruence).
      assert (<[he_key victim := he_value victim]> (<[he_key x := he_value x]>
                (delete (he_key victim) m)) = full) as Hfull.
      { unfold full. rewrite insert_insert_ne, insert_delete_id by done. done. }
      rewrite Hfull in IH. apply IH; [|done|].
      * split; [|unfold e'; simpl; lia]. unfold e'. simpl. by rewrite write_back_slot.
      * by rewrite lookup_insert_ne, lookup_delete_eq.
Qed.

(** ** The size of the table *)
Lemma lxor_width n a b : in_width n a -> in_width n b -> in_width n (Z.lxor a b).
Proof.
  unfold in_width. intros Ha Hb. assert (0 <= Z.lxor a b) as Hnn by (apply Z.lxor_nonneg; lia).
  split; [done|]. destruct (decide (Z.lxor a b = 0)) as [->|Hne]; [lia|].
  assert (0 <= n) as Hn by (destruct (decide (0 <= n)); [done|]; rewrite Z.pow_neg_r in Ha; lia).
  assert (0 < n) as Hpos.
  { destruct (decide (n = 0)) as [->|]; [|lia]. change (2 ^ 0) with 1 in *.
    assert (a = 0) as -> by lia. assert (b = 0) as -> by lia. by destruct Hne. }
  assert (forall x, 0 <= x < 2 ^ n -> Z.log2 x < n) as Hlog.
  { intros x Hx. destruct (decide (x = 0)) as [->|]; [simpl; lia|]. apply Z.log2_lt_pow2; lia. }
  apply Z.log2_lt_pow2; [lia|]. pose proof (Z.log2_lxor a b ltac:(lia) ltac:(lia)).
  pose proof (Hlog a Ha). pose proof (Hlog b Hb). lia.
Qed.

Lemma ConstLog2_nonneg p : 0 <= ConstLog2 p.
Proof. induction p; simpl; lia. Qed.

Lemma hashes_range key i : in_width TABLE_ADDRESS_BITS (calculate_hashes key i).
Proof.
  unfold calculate_hashes. assert (0 <= TABLE_ADDRESS_BITS) as Hbits by apply ConstLog2_nonneg.
  generalize (seq 0 KEY_SIZE). intros l.
  assert (in_width TABLE_ADDRESS_BITS 0) as Hz by (unfold in_width; lia).
  revert Hz. generalize 0 at 1 3. induction l as [|k l IH]; intros h Hh; simpl; [done|].
  apply IH, lxor_width; [done|].
  replace (TABLE_ADDRESS_BITS) with (TABLE_ADDRESS_BITS - 1 - 0 + 1) at 1 by lia.
  apply bits_range. lia.
Qed.

Lemma represents_size t m :
  represents t m -> Z.of_nat (size m) <= Z.of_nat NUM_TABLES * TABLE_SIZE.
Proof.
  intros Hr. set (places := list_prod (seq 0 NUM_TABLES) (seqZ 0 TABLE_SIZE)).
  assert ((map_to_list m).*1 ⊆+ map (fun '(i, a) => he_key (cell t i a)) places) as Hsub.
  { apply NoDup_submseteq; [apply NoDup_fst_map_to_list|].
    intros k ([k' v] & -> & Hk%elem_of_map_to_list)%list_elem_of_fmap.
    apply Hr in Hk as (i & a & Hs). destruct (rep_place _ _ Hr _ _ _ _ Hs) as [Hi Ha].
    apply list_elem_of_fmap. exists (i, a). split; [by rewrite Hs|].
    apply list_elem_of_In, in_prod; apply list_elem_of_In; [by apply in_tables|].
    apply elem_of_seqZ. pose proof (hashes_range k' i) as Hw. unfold in_width in Hw.
    unfold TABLE_SIZE. simpl in Hs. lia. }
  apply submseteq_length in Hsub.
  rewrite length_fmap, length_map_to_list, length_map in Hsub.
  unfold places in Hsub. rewrite length_prod, length_seq, length_seqZ in Hsub.
  pose proof (Z.pow_nonneg 2 TABLE_ADDRESS_BITS ltac:(lia)). unfold TABLE_SIZE in *. lia.
Qed.

(** ** Properties *)

(** The answer to an update: what is written and what the map is afterwards. *)
Definition update_spec (m : gmap K Z) (request : htUpdateReq K) (success : bool) (m' : gmap K Z) : Prop :=
  match huq_op request with
  | KV_DELETE => success = bool_decide (is_Some (m !! huq_key request)) /\
                 m' = delete (huq_key request) m
  | KV_INSERT =>
      let full := <[huq_key request := huq_value request]> m in
      if success then m' = full
      else exists lost, is_Some (full !! lost) /\ m' = delete lost full
  end.

Definition update_response (request : htUpdateReq K) (success : bool) : htUpdateResp K :=
  mkHtUpdateResp (huq_op request) (huq_key request) (huq_value request) success (huq_source request).

Lemma insert_represents request e m :
  ht_represents e m -> m !! huq_key request = None -> huq_op request = KV_INSERT ->
  exists success m',
    (insert request e).2 = [W_regInsertFailureCount (insertFailureCounter e);
                            W_m_axis_upd_rsp (update_response request success)] /\
    update_spec m request success m' /\ ht_represents (insert request e).1 m'.
Proof.
  intros Hr Hm Hop. unfold insert, update_spec. rewrite Hop.
  set (x := newEntry _ _). set (e0 := e <| victimIdx := 0 |>).
  pose proof (insertLoop_represents MAX_TRIALS x e0 m Hr eq_refl Hm) as Hl.
  destruct (insertLoop MAX_TRIALS x e0) as [e' success]. simpl in Hl. exists success.
  unfold update_response. rewrite Hop.
  destruct success; simpl; [by eexists|]. destruct Hl as (lost & Hlost & Hl).
  eexists. split; [done|]. split; [by exists lost|]. exact Hl.
Qed.

Lemma remove_call request e m :
  ht_represents e m -> huq_op request = KV_DELETE ->
  let success := bool_decide (is_Some (m !! huq_key request)) in
  (remove request e).2 = [W_m_axis_upd_rsp (update_response request success)] /\
  ht_represents (remove request e).1 (delete (huq_key request) m).
Proof.
  intros [Hr Hbit] Hop success. unfold remove.
  destruct (remove_represents (huq_key request) _ _ Hr) as [Ht Hs].
  destruct (foldl _ _ _) as [t' ok]. simpl in *. subst ok. by split.
Qed.

Lemma insertLoop_streams n x e :
  let e' := (insertLoop n x e).1 in
  s_axis_lup_req e' = s_axis_lup_req e /\ s_axis_upd_req e' = s_axis_upd_req e.
Proof.
  revert x e. induction n as [|n IH]; intros x e; simpl; [done|].
  destruct (find_slot _); [done|]. match goal with |- context [insertLoop n ?v ?e1] =>
    destruct (IH v e1) as [-> ->] end. done.
Qed.

Lemma update_streams request e :
  s_axis_upd_req (insert request e).1 = s_axis_upd_req e /\
  s_axis_upd_req (remove request e).1 = s_axis_upd_req e.
Proof.
  unfold insert, remove. set (x := newEntry _ _). set (e0 := e <| victimIdx := 0 |>).
  pose proof (insertLoop_streams MAX_TRIALS x e0) as [_ H'].
  destruct (insertLoop _ _ _) as [e' success], (foldl _ _ _). by destruct success.
Qed.

(** C21: the hash table is a finite map.  A call serves a lookup first, and answers
    it from the map; it serves an update if there is no lookup, and the map changes as
    the operation says: a removal tells whether there was something to remove; an
    insertion of a new key adds it, or is reported as failed, and then exactly one
    entry is lost, which is the new one or one that was moved out of the way. *)
Theorem hash_table_implements_map junk_value e m :
  ht_represents e m ->
  match s_axis_lup_req e, s_axis_upd_req e with
  | q :: rest, _ =>
      hash_table junk_value e =
        (e <| s_axis_lup_req := rest |>,
         [W_m_axis_lup_rsp match m !! hlq_key q with
                           | Some v => mkHtLookupResp (hlq_key q) v true (hlq_source q)
                           | None => mkHtLookupResp (hlq_key q) junk_value false (hlq_source q)
                           end])
  | [], q :: rest =>
      (huq_op q = KV_INSERT -> m !! huq_key q = None) ->
      exists success m',
        update_spec m q success m' /\ ht_represents (hash_table junk_value e).1 m' /\
        s_axis_upd_req (hash_table junk_value e).1 = rest /\
        W_m_axis_upd_rsp (update_response q success) ∈ (hash_table junk_value e).2
  | [], [] => hash_table junk_value e = (e, [])
  end.
Proof.
  intros Hr. unfold hash_table.
  destruct (s_axis_lup_req e) as [|q rest] eqn:Hlup;
    [destruct (s_axis_upd_req e) as [|q rest] eqn:Hupd; [done|]|].
  - intros Hnew. set (e0 := e <| s_axis_upd_req := rest |>).
    assert (ht_represents e0 m) as Hr0 by exact Hr.
    destruct (update_streams q e0) as [Hi Hd]. destruct (huq_op q) eqn:Hop.
    + destruct (insert_represents q e0 m Hr0 (Hnew eq_refl) Hop) as (ok & m' & Hw & Hs & Hr').
      exists ok, m'. rewrite Hw, Hi. split; [exact Hs|]. split; [exact Hr'|]. split; [done|].
      rewrite !elem_of_cons. by right; left.
    + destruct (remove_call q e0 m Hr0 Hop) as [Hw Hr'].
      eexists _, _. rewrite Hw, Hd. split; [|split; [exact Hr'|]; split; [done|]].
      * unfold update_spec. by rewrite Hop.
      * rewrite elem_of_cons. by left.
  - by rewrite (lookup_represents junk_value q e m (proj1 Hr)).
Qed.
End HashTable.

(** [tabulation_table.txt], the random numbers the source includes. *)
Definition tabulation_table_txt : list (list (list Z)) :=
  [[[0; 538; 3094; 1878; 2182; 896; 192; 2780; 2782; 3828; 1570; 2127; 3403; 141; 218; 2169;
      2749; 31; 1570; 273; 1710; 2813; 2412; 3811; 3465; 2158; 376; 2678; 1703; 2872; 3728;
      3121; 1075; 194; 3014; 1344; 2591; 3098; 4059; 1496; 1011; 4024; 2960; 3085; 2668; 297;
      2587; 3623; 1117; 1787; 3139; 1956; 973; 1126; 1471; 682; 1992; 3676; 3724; 248; 3705;
      2066; 2114; 1306];
    [4041; 2023; 1090; 371; 3882; 302; 2050; 1573; 1134; 3743; 2169; 1902; 3854; 205; 3119;
      3154; 3390; 513; 64; 2819; 3556; 2578; 3015; 2971; 4093; 3639; 955; 1254; 1437; 2102;
      2421; 3465; 1687; 3446; 1103; 1701; 2200; 1916; 1176; 730; 629; 2341; 3286; 135; 2189;
      2041; 3913; 3065; 2271; 3648; 2559; 3449; 654; 871; 2927; 534; 372; 1124; 12; 1696; 110;
      2907; 3841; 982]];
   [[740; 1300; 3633; 2670; 615; 2790; 1580; 1588; 2046; 604; 2405; 3463; 2417; 3913; 2277; 606;
      4027; 1674; 580; 2313; 1032; 2000; 1900; 3936; 516; 818; 1307; 2577; 519; 2667; 2546;
      3289; 1015; 1951; 1594; 832; 116; 3693; 1746; 581; 3880; 1680; 537; 3627; 377; 664; 291;
      1496; 1036; 553; 3207; 1864; 1431; 1852; 3313; 3816; 2669; 881; 2783; 3722; 1024; 3526;
      1930; 2072];
    [2459; 3348; 3095; 1893; 3896; 2591; 1799; 3377; 2822; 2876; 4043; 3909; 3486; 1185; 2201;
      2107; 423; 1695; 2362; 3590; 1802; 2989; 3560; 2931; 3279; 2893; 3038; 78; 3629; 2150;
      1897; 267; 2922; 2002; 2734; 2793; 817; 3754; 3546; 3645; 2228; 570; 1844; 4052; 882;
      1826; 1293; 2108; 3610; 1801; 1915; 3304; 1495; 866; 4092; 629; 2582; 2524; 2; 3; 3167;
      2979; 1307; 1710]];
   [[2795; 2787; 840; 3425; 2903; 3394; 387; 334; 3129; 2578; 875; 874; 332; 1592; 3900; 3881;
      1596; 1102; 2835; 1163; 3182; 3210; 1730; 1155; 794; 46; 785; 4027; 999; 3357; 558; 1630;
      2461; 724; 3392; 646; 4046; 1053; 956; 416; 898; 2599; 2850; 3255; 2851; 3084; 2742; 2594;
      231; 2450; 929; 1305; 2866; 481; 3123; 2155; 2268; 2408; 1350; 2879; 585; 662; 1987; 3523];
    [3331; 2280; 3026; 1294; 554; 2164; 1272; 2408; 2122; 1764; 1060; 1516; 1609; 1830; 1949;
      1588; 1143; 320; 1514; 1040; 2751; 2769; 2105; 2984; 2952; 3869; 1887; 3850; 1317; 1885;
      2118; 2708; 1645; 2480; 4040; 616; 2744; 1408; 2218; 2141; 3396; 61; 1123; 2633; 2236;
      3759; 1092; 3973; 1010; 3456; 2842; 1866; 3346; 90; 658; 2895; 2899; 1788; 2385; 3079;
      4061; 2849; 1144; 3087]];
   [[701; 17; 2030; 327; 667; 3699; 3207; 3058; 1787; 25; 2395; 2123; 273; 2228; 1596; 884;
      1580; 2567; 2699; 2905; 2206; 1148; 3342; 1523; 2810; 1270; 38; 425; 2133; 3178; 903; 226;
      289; 656; 2964; 1216; 207; 1957; 1872; 2129; 1828; 615; 1171; 3414; 2849; 2366; 2790;
      1356; 235; 4042; 2221; 6; 3506; 120; 1546; 2005; 2360; 3026; 2782; 2196; 145; 501; 3986;
      771];
    [1439; 2515; 2488; 515; 2264; 3907; 1461; 3432; 3990; 1060; 1030; 1738; 3330; 3677; 1001;
      3115; 2846; 1850; 1079; 2725; 477; 858; 465; 2240; 24; 720; 2454; 1769; 337; 2815; 1537;
      3425; 506; 3986; 121; 329; 2024; 3151; 3825; 1024; 1473; 3150; 2047; 3068; 2752; 2792;
      3099; 148; 944; 907; 2304; 2673; 2525; 1521; 920; 957; 2674; 679; 3047; 654; 195; 2711;
      511; 3887]];
   [[1983; 2543; 3743; 73; 2431; 2956; 2034; 219; 1808; 2126; 3161; 267; 1813; 4002; 1915; 1347;
      1826; 3044; 841; 701; 1525; 3849; 3952; 1044; 288; 507; 2155; 655; 2120; 430; 3447; 1509;
      1736; 1340; 2922; 2362; 3571; 3105; 3426; 2866; 1593; 3830; 2480; 1483; 2209; 1863; 1645;
      984; 340; 1726; 1934; 1186; 429; 886; 3285; 2160; 2739; 3537; 998; 2914; 1079; 1568; 331;
      1883];
    [953; 3257; 2012; 13; 1090; 2722; 1741; 765; 3946; 549; 3259; 3875; 701; 2482; 261; 1423;
      1197; 2087; 3382; 3417; 2975; 1349; 3285; 2587; 185; 169; 627; 3141; 252; 2127; 3805; 903;
      837; 364; 2865; 2893; 2026; 1072; 2914; 1549; 821; 952; 1786; 1923; 3527; 4002; 1820; 140;
      2145; 129; 3085; 2423; 3370; 1349; 950; 2197; 1763; 1653; 4044; 3960; 3483; 3553; 1276;
      607]];
   [[4086; 2619; 1917; 3817; 2829; 3339; 2218; 2346; 652; 3871; 3364; 636; 168; 1407; 450; 395;
      2124; 91; 2299; 3509; 2117; 2762; 3019; 2860; 93; 786; 2748; 1416; 271; 576; 3772; 907;
      1556; 2400; 685; 107; 2830; 3122; 2923; 316; 2415; 3790; 3808; 1763; 2072; 3404; 3765;
      2464; 2964; 2127; 2010; 661; 3998; 2352; 1119; 2176; 2861; 2732; 399; 2247; 2501; 2735;
      2028; 2341];
    [2412; 1807; 619; 2057; 2995; 129; 211; 2138; 1313; 143; 1004; 439; 1568; 2260; 2446; 2503;
      3830; 3162; 2101; 1993; 2662; 2854; 1669; 1994; 1965; 2910; 2188; 1133; 2480; 1147; 2881;
      2172; 3843; 964; 1693; 2447; 3207; 3769; 2791; 3363; 2160; 943; 588; 3684; 1029; 2668; 19;
      3833; 1127; 3517; 1142; 3901; 2075; 503; 1705; 2877; 1787; 441; 3138; 409; 1807; 1411;
      1216; 3103]];
   [[1386; 1354; 227; 2347; 1987; 829; 468; 3990; 3541; 2014; 1504; 3296; 664; 653; 236; 611;
      1917; 1558; 3619; 1737; 1688; 2667; 1262; 246; 3335; 3676; 3766; 3691; 3154; 699; 2344;
      128; 3290; 2138; 3529; 1135; 3561; 2403; 1594; 3325; 2153; 3849; 1720; 2375; 3068; 3607;
      1384; 776; 3043; 2944; 3601; 298; 2908; 3600; 1472; 368; 659; 1707; 394; 2763; 2304; 3330;
      3597; 3151];
    [2601; 3672; 3597; 1992; 463; 1546; 1567; 2816; 498; 314; 586; 1956; 2902; 974; 1601; 3997;
      2575; 2790; 3722; 1484; 3519; 3253; 1756; 301; 2042; 1981; 1846; 2046; 3034; 3820; 1229;
      598; 450; 328; 3983; 1671; 976; 3945; 3413; 811; 530; 804; 1389; 2357; 1803; 2398; 1773;
      1508; 1565; 2458; 1759; 609; 2745; 4077; 2859; 1649; 3478; 3356; 3249; 1532; 39; 1965;
      2617; 2648]];
   [[2641; 3272; 1545; 1465; 1595; 1369; 2840; 593; 1194; 2731; 3499; 1289; 590; 2466; 22; 3771;
      1564; 2115; 1410; 1081; 1191; 3414; 509; 2599; 199; 1876; 1543; 638; 3095; 2727; 47; 3255;
      2297; 1182; 1702; 1313; 2107; 2945; 3449; 949; 1904; 1529; 204; 302; 829; 2319; 3405;
      1730; 3438; 1200; 742; 1464; 3826; 2414; 1511; 1896; 2571; 3868; 1662; 206; 1822; 2440;
      3065; 3539];
    [536; 428; 2725; 3413; 2380; 2697; 4022; 77; 3774; 797; 3963; 2142; 1141; 2948; 2418; 3428;
      3418; 2702; 2991; 2633; 1431; 2190; 2720; 1324; 3560; 1811; 3760; 1133; 3898; 480; 1703;
      3425; 3942; 1363; 2155; 2195; 3350; 3808; 2715; 996; 3856; 2444; 516; 1011; 3632; 803;
      667; 3424; 2467; 2552; 3435; 2751; 1603; 3568; 2733; 473; 0; 2769; 2575; 1861; 2352; 132;
      1439; 3502]];
   [[1518; 2709; 2361; 245; 3049; 1144; 1812; 722; 376; 3675; 4064; 2433; 135; 2830; 1995; 2332;
      3668; 1779; 2820; 832; 1973; 1115; 3879; 1000; 3904; 1953; 520; 3938; 3510; 890; 28; 3205;
      206; 3932; 2627; 2348; 561; 528; 3377; 2055; 2686; 2068; 2156; 484; 3698; 2739; 1136;
      1583; 1603; 3404; 995; 505; 2983; 2654; 824; 3476; 92; 432; 769; 1478; 3193; 2945; 2729;
      2379];
    [1438; 643; 1196; 692; 916; 2749; 1657; 3631; 2373; 1400; 1790; 2865; 3417; 3243; 3477;
      1155; 1084; 696; 2185; 299; 4090; 3072; 500; 674; 1741; 3167; 874; 1777; 135; 3806; 434;
      1090; 1974; 3247; 1054; 876; 1156; 1559; 852; 3803; 3129; 2525; 2358; 1459; 3718; 810;
      467; 3240; 2859; 74; 3063; 469; 3665; 2681; 1416; 1566; 880; 1356; 72; 3745; 3217; 1611;
      2990; 3406]]].

Definition tabulation_table (i : nat) (b : Z) (k : nat) : Z :=
  nth k (nth (Z.to_nat b) (nth i tabulation_table_txt []) []) 0.

(** ** The table of tuples

    The key of the session table is the struct of its three members, packed with the
    first one in the lowest bits ([aggregate compact=bit]). *)
Definition key_bit (t : threeTupleInternal) (k : nat) : Z :=
  bit (Z.of_nat k) (tt_theirIp t + tt_myPort t * 2 ^ 32 + tt_theirPort t * 2 ^ 48).

#[local] Arguments insertLoop : simpl never.
#[local] Arguments calculate_hashes : simpl never.

Section SessionHashTable.
Context {C : ToeConfig}.
Variable junk_value : Z.

Abbreviation session_ht := (@ht_env threeTupleInternal).

(** The success flag of the response among the writes of an update. *)
Definition succeeded (w : list (@ht_write threeTupleInternal)) : bool :=
  existsb (fun x => match x with W_m_axis_upd_rsp r => hur_success r | _ => false end) w.

Definition ht_lookup (e : session_ht) (k : threeTupleInternal) : option Z :=
  let r := lookup key_bit tabulation_table junk_value (mkHtLookupReq k RX) e in
  if hlr_hit r then Some (hlr_value r) else None.
Definition ht_insert (k : threeTupleInternal) (id : Z) (e : session_ht) : session_ht * bool :=
  let '(e', w) := insert key_bit tabulation_table (mkHtUpdateReq KV_INSERT k id RX) e in
  (e', succeeded w).
Definition ht_delete (k : threeTupleInternal) (e : session_ht) : session_ht * bool :=
  let '(e', w) := remove key_bit tabulation_table (mkHtUpdateReq KV_DELETE k 0 RX) e in
  (e', succeeded w).

#[export] Instance session_hash_table : SessionTable session_ht := {|
  table_empty := ht_init; table_lookup := ht_lookup;
  table_insert := ht_insert; table_delete := ht_delete
|}.

Lemma ht_insert_holds t m k id :
  ht_represents key_bit tabulation_table t m -> m !! k = None ->
  let '(t', ok) := ht_insert k id t in
  exists m', update_spec m (mkHtUpdateReq KV_INSERT k id RX) ok m' /\
             ht_represents key_bit tabulation_table t' m'.
Proof.
  intros Hr Hm. unfold ht_insert.
  destruct (insert_represents key_bit tabulation_table (mkHtUpdateReq KV_INSERT k id RX) t m Hr Hm eq_refl)
    as (ok & m' & Hw & Hs & Hr').
  destruct (insert _ _ _ _) as [t' w]. simpl in *. subst w. simpl. rewrite orb_false_r. eauto.
Qed.

(** The laws, one by one. *)
Lemma ht_lookup_holds t m k :
  ht_represents key_bit tabulation_table t m -> ht_lookup t k = m !! k.
Proof.
  intros [Hr _]. unfold ht_lookup. rewrite (lookup_represents _ _ _ _ _ _ Hr).
  cbn [hlq_key]. by destruct (m !! k).
Qed.

Lemma ht_delete_holds t m k :
  ht_represents key_bit tabulation_table t m ->
  ht_represents key_bit tabulation_table (ht_delete k t).1 (delete k m).
Proof.
  intros Hr. unfold ht_delete.
  destruct (remove_call key_bit tabulation_table (mkHtUpdateReq KV_DELETE k 0 RX) t m Hr eq_refl)
    as [_ Hr'].
  by destruct (remove _ _ _ _).
Qed.

#[export] Instance session_hash_table_laws : SessionTableLaws session_ht.
Proof.
  refine {| table_holds := ht_represents key_bit tabulation_table |}.
  - split; [apply represents_empty|split; discriminate].
  - exact ht_lookup_holds.
  - intros t m k id Hr Hm. change (table_insert k id t) with (ht_insert k id t). intros Hok.
    pose proof (ht_insert_holds t m k id Hr Hm) as H.
    destruct (ht_insert k id t) as [t' ok]. cbn [snd fst] in *. subst ok.
    destruct H as (m' & Hs & H). unfold update_spec in Hs. cbn in Hs. by rewrite <- Hs.
  - intros t m k id Hr Hm. change (table_insert k id t) with (ht_insert k id t). intros Hok.
    pose proof (ht_insert_holds t m k id Hr Hm) as H.
    destruct (ht_insert k id t) as [t' ok]. cbn [snd fst] in *. subst ok.
    destruct H as (m' & Hs & H). unfold update_spec in Hs. cbn in Hs.
    destruct Hs as (lost & Hlost & Hs). exists lost. split; [done|]. by rewrite <- Hs.
  - exact ht_delete_holds.
Defined.

End SessionHashTable.

(** ** Properties of the session table *)

Section Capacity.
Variables (ddr_bypass : bool) (junk_value : Z).
#[local] Instance build_config : ToeConfig := sim_config ddr_bypass.
#[local] Instance build_table : SessionTable (@ht_env threeTupleInternal) :=
  session_hash_table junk_value.

(** The capacity of the session table.  As long as no insertion is rejected, the
    sessions that exist, those on their way in or out included, are at most nine
    subtables full of entries; with 1000 sessions configured a subtable has 64
    entries, the next power of two below an eighth, so that at most 576 of the 1000
    session numbers can be in use before the controller loses a session. *)
Theorem session_capacity missed myIpAddress s :
  slc_served missed myIpAddress s ->
  Z.of_nat (length (live s.1)) <= Z.of_nat NUM_TABLES * TABLE_SIZE /\
  Z.of_nat NUM_TABLES * TABLE_SIZE = 576 /\ 576 < MAX_SESSIONS.
Proof.
  intros Hs. split; [|by split].
  destruct (tracked_served _ _ _ (sim_config_ok ddr_bypass) Hs) as (_ & m & [Hm _] & [_ Hl]).
  rewrite <- Hl, length_map_to_list. by eapply represents_size.
Qed.
End Capacity.

(** ** Witnesses *)
Section HashWitnesses.
#[local] Instance witness_config : ToeConfig := sim_config true.

Definition demo_key : threeTupleInternal := mkThreeTuple 1 2 3.
Definition demo_insert : @ht_env threeTupleInternal :=
  mkHtEnv ∅ 0 0 0 [] [mkHtUpdateReq KV_INSERT demo_key 7 RX].

Lemma hash_table_implements_map_witness :
  exists success m',
    update_spec ∅ (mkHtUpdateReq KV_INSERT demo_key 7 RX) success m' /\
    ht_represents key_bit tabulation_table
      (hash_table key_bit tabulation_table 0 demo_insert).1 m'.
Proof.
  destruct (hash_table_implements_map key_bit tabulation_table 0 demo_insert ∅) as (ok & m' & Hs & Hr & _).
  - split; [apply represents_empty|split; discriminate].
  - reflexivity.
  - exists ok, m'. split; [exact Hs|exact Hr].
Defined.
End HashWitnesses.

Lemma session_capacity_witness :
  Z.of_nat (length (live (C := sim_config true) slc_init)) <= 576.
Proof.
  destruct (session_capacity true 0 0 0 (slc_init, ht_init)) as (H & _ & _);
    [exact (served_init (SessionTable0 := build_table true 0) 0 0)|exact H].
Defined.
