(* ===== verification/AppInterfaces.v ===== *)
(** * The application interfaces ([toe/rx_app_if], [toe/rx_app_stream_if],
    [toe/tx_app_if], [toe/tx_app_stream_if], [toe/tx_app_interface])

    On the receive side applications open ports and fetch received bytes; on the
    transmit side they open and close connections and write data, which is accepted
    only if it fits the free buffer space and the usable window.  Every process is a
    function of its own environment. *)

From S2P Require Import Prelude ToeTypes StateTable SarTables PortTable SessionLookup.

(** ** Receive side *)

(** *** [rx_app_if] *)
Record rx_app_if_env := mkRxAppIfEnv {
  rai_wait : bool;
  appListenPortReq : stream Z;
  portTable2rxApp_listen_rsp : stream bool
}.
#[export] Instance eta_rx_app_if_env : Eta rx_app_if_env := fun e =>
  mkRxAppIfEnv (rai_wait e) (appListenPortReq e) (portTable2rxApp_listen_rsp e).

Inductive rx_app_if_write :=
| W_rxApp2portTable_listen_req (port : Z)
| W_appListenPortRsp (ok : bool).

Definition rx_app_if (e : rx_app_if_env) : rx_app_if_env * list rx_app_if_write :=
  match appListenPortReq e, rai_wait e with
  | port :: rest, false =>
      (e <| appListenPortReq := rest |> <| rai_wait := true |>,
       [W_rxApp2portTable_listen_req port])
  | _, _ =>
  match portTable2rxApp_listen_rsp e, rai_wait e with
  | listening :: rest, true =>
      (e <| portTable2rxApp_listen_rsp := rest |> <| rai_wait := false |>,
       [W_appListenPortRsp listening])
  | _, _ => (e, [])
  end end.

Section AppInterfaces.
Context {C : ToeConfig}.

(** *** [rx_app_stream_if] *)
Record rx_app_stream_if_env := mkRxAppStreamIfEnv {
  rasi_readLength : Z;
  rasi_fsmState : Z;
  appRxDataReq : stream appReadRequest;
  rxSar2rxApp_upd_rsp : stream rxSarAppd
}.
#[export] Instance eta_rx_app_stream_if_env : Eta rx_app_stream_if_env := fun e =>
  mkRxAppStreamIfEnv (rasi_readLength e) (rasi_fsmState e) (appRxDataReq e)
    (rxSar2rxApp_upd_rsp e).

Inductive rx_app_stream_write :=
| W_appRxDataRspMetadata (id : Z)
| W_rxApp2rxSar_upd_req (q : rxSarAppd)
| W_rxBufferReadCmd (cmd : mmCmd)
| W_rxBufferReadCmd_bypass.

Definition rx_app_stream_if (e : rx_app_stream_if_env)
  : rx_app_stream_if_env * list rx_app_stream_write :=
  if rasi_fsmState e =? 0 then
    match appRxDataReq e with
    | req :: rest =>
        let e := e <| appRxDataReq := rest |> in
        if negb (arr_length req =? 0)
        then (e <| rasi_readLength := arr_length req |> <| rasi_fsmState := 1 |>,
              [W_rxApp2rxSar_upd_req (rxSarAppd_rd (arr_sessionID req))])
        else (e, [])
    | [] => (e, [])
    end
  else
    match rxSar2rxApp_upd_rsp e with
    | rxSar :: rest =>
        (e <| rxSar2rxApp_upd_rsp := rest |> <| rasi_fsmState := 0 |>,
         [W_appRxDataRspMetadata (rxa_sessionID rxSar);
          if RX_DDR_BYPASS then W_rxBufferReadCmd_bypass
          else W_rxBufferReadCmd
                 (mmCmd_new (buffer_addr (rxa_sessionID rxSar) (rxa_appd rxSar)) (rasi_readLength e));
          W_rxApp2rxSar_upd_req
            (rxSarAppd_wr (rxa_sessionID rxSar)
               (wrap WINDOW_BITS (rxa_appd rxSar + rasi_readLength e)))])
    | [] => (e, [])
    end.

(** *** [rxAppMemAccessBreakdown] ([toe.cpp]) *)
Record rx_breakdown_env := mkRxBreakdownEnv {
  rxAppBreakdown : bool;
  rxAppTempCmd : mmCmd;
  rxAppAccLength : Z;
  inputMemAccess : stream mmCmd
}.
#[export] Instance eta_rx_breakdown_env : Eta rx_breakdown_env := fun e =>
  mkRxBreakdownEnv (rxAppBreakdown e) (rxAppTempCmd e) (rxAppAccLength e) (inputMemAccess e).

Inductive rx_breakdown_write :=
| W_outputMemAccess (cmd : mmCmd)
| W_rxAppDoubleAccess (b : bool).

Definition rxAppMemAccessBreakdown (e : rx_breakdown_env)
  : rx_breakdown_env * list rx_breakdown_write :=
  if negb (rxAppBreakdown e) then
    match inputMemAccess e with
    | cmd :: rest =>
        let e := e <| inputMemAccess := rest |> <| rxAppTempCmd := cmd |> in
        if 65536 <? bits 15 0 (mc_saddr cmd) + mc_bbt cmd
        then
          let len := wrap 16 (65536 - mc_saddr cmd) in
          (e <| rxAppAccLength := len |> <| rxAppBreakdown := true |>,
           [W_outputMemAccess (mmCmd_new (mc_saddr cmd) len); W_rxAppDoubleAccess true])
        else (e, [W_outputMemAccess cmd; W_rxAppDoubleAccess false])
    | [] => (e, [])
    end
  else
    let cmd := rxAppTempCmd e <| mc_saddr := set_bits 15 0 0 (mc_saddr (rxAppTempCmd e)) |> in
    let len := wrap 16 (mc_bbt cmd - rxAppAccLength e) in
    (e <| rxAppTempCmd := cmd |> <| rxAppAccLength := len |> <| rxAppBreakdown := false |>,
     [W_outputMemAccess (mmCmd_new (mc_saddr cmd) len)]).

(** ** Transmit side *)

(** *** [tx_app_if]: opening and closing connections *)
Inductive taiFsmStateType := IDLE | CLOSE_CONN.

Record tx_app_if_env := mkTxAppIfEnv {
  tai_fsmState : taiFsmStateType;
  tai_closeSessionID : Z;
  appOpenConnReq : stream ipTuple;
  closeConnReq : stream Z;
  sLookup2txApp_rsp : stream sessionLookupReply;
  portTable2txApp_port_rsp : stream Z;
  stateTable2txApp_upd_rsp : stream sessionState;
  conEstablishedIn : stream openStatus;
  rtTimer2txApp_notification : stream openStatus
}.
#[export] Instance eta_tx_app_if_env : Eta tx_app_if_env := fun e =>
  mkTxAppIfEnv (tai_fsmState e) (tai_closeSessionID e) (appOpenConnReq e) (closeConnReq e)
    (sLookup2txApp_rsp e) (portTable2txApp_port_rsp e) (stateTable2txApp_upd_rsp e)
    (conEstablishedIn e) (rtTimer2txApp_notification e).

Inductive tx_app_if_write :=
| W_appOpenConnRsp (s : openStatus)
| W_txApp2sLookup_req (t : fourTuple)
| W_txApp2stateTable_upd_req (q : stateQuery)
| W_txApp2eventEng_mergeEvent (ev : event).

(** The tuple an outgoing connection is looked up under; addresses and ports are in
    network byte order. *)
Definition open_tuple (myIpAddress : Z) (server_addr : ipTuple) (freePort : Z) : fourTuple :=
  mkFourTuple myIpAddress (reverse32 (ipt_ip_address server_addr)) (reverse16 freePort)
    (reverse16 (ipt_ip_port server_addr)).

(** The states in which the application may close. *)
Definition closable (s : sessionState) : bool :=
  is_state s ESTABLISHED || is_state s FIN_WAIT_2 || is_state s FIN_WAIT_1.

(** The request part, tried on every call whatever the state of the FSM. *)
Definition tx_app_open (myIpAddress : Z) (e : tx_app_if_env)
  : tx_app_if_env * list tx_app_if_write :=
  match appOpenConnReq e, portTable2txApp_port_rsp e with
  | server_addr :: rest, freePort :: prest =>
      (e <| appOpenConnReq := rest |> <| portTable2txApp_port_rsp := prest |>,
       [W_txApp2sLookup_req (open_tuple myIpAddress server_addr freePort)])
  | _, _ => (e, [])
  end.

Definition tx_app_fsm (e : tx_app_if_env) : tx_app_if_env * list tx_app_if_write :=
  match tai_fsmState e with
  | IDLE =>
      match sLookup2txApp_rsp e with
      | session :: rest =>
          (e <| sLookup2txApp_rsp := rest |>,
           if slr_hit session
           then [W_txApp2eventEng_mergeEvent (event2 SYN (slr_sessionID session));
                 W_txApp2stateTable_upd_req (stateQuery_wr (slr_sessionID session) SYN_SENT)]
           else [W_appOpenConnRsp (openStatus2 0 false)])
      | [] =>
      match conEstablishedIn e with
      | s :: rest => (e <| conEstablishedIn := rest |>, [W_appOpenConnRsp s])
      | [] =>
      match rtTimer2txApp_notification e with
      | s :: rest => (e <| rtTimer2txApp_notification := rest |>, [W_appOpenConnRsp s])
      | [] =>
      match closeConnReq e with
      | id :: rest =>
          (e <| closeConnReq := rest |> <| tai_closeSessionID := id |>
             <| tai_fsmState := CLOSE_CONN |>,
           [W_txApp2stateTable_upd_req (stateQuery_rd id)])
      | [] => (e, [])
      end end end end
  | CLOSE_CONN =>
      match stateTable2txApp_upd_rsp e with
      | state :: rest =>
          (e <| stateTable2txApp_upd_rsp := rest |> <| tai_fsmState := IDLE |>,
           if closable state
           then [W_txApp2stateTable_upd_req (stateQuery_wr (tai_closeSessionID e) FIN_WAIT_1);
                 W_txApp2eventEng_mergeEvent (event2 FIN (tai_closeSessionID e))]
           else [W_txApp2stateTable_upd_req (stateQuery_wr (tai_closeSessionID e) state)])
      | [] => (e, [])
      end
  end.

Definition tx_app_if (myIpAddress : Z) (e : tx_app_if_env)
  : tx_app_if_env * list tx_app_if_write :=
  let '(e, w1) := tx_app_open myIpAddress e in
  let '(e, w2) := tx_app_fsm e in (e, w1 ++ w2).

(** *** [tasi_metaLoader]: may the application write? *)
Inductive tai_states := READ_REQUEST | READ_META.

Record tasi_env := mkTasiEnv {
  tai_state : tai_states;
  tasi_writeMeta : appTxMeta;
  appTxDataReqMetaData : stream appTxMeta;
  stateTable2txApp_rsp : stream sessionState;
  txSar2txApp_upd_rsp : stream txAppTxSarReply
}.
#[export] Instance eta_tasi_env : Eta tasi_env := fun e =>
  mkTasiEnv (tai_state e) (tasi_writeMeta e) (appTxDataReqMetaData e) (stateTable2txApp_rsp e)
    (txSar2txApp_upd_rsp e).

Inductive tasi_write :=
| W_appTxDataRsp (r : appTxRsp)
| W_txApp2stateTable_req (id : Z)
| W_txApp2txSar_upd_req (q : txAppTxSarQuery)
| W_tasi_meta2pkgPushCmd (cmd : mmCmd)
| W_txAppStream2eventEng_setEvent (ev : event).

Definition max_write_length (sar : txAppTxSarReply) : Z :=
  wrap WINDOW_BITS (atr_ackd sar - atr_mempt sar - 1).
Definition used_length (sar : txAppTxSarReply) : Z :=
  wrap WINDOW_BITS (atr_mempt sar - atr_ackd sar).
Definition usable_window (sar : txAppTxSarReply) : Z :=
  if used_length sar <? atr_min_window sar
  then wrap WINDOW_BITS (atr_min_window sar - used_length sar) else 0.

(** The answer that accepts a write. *)
Definition write_accepted (meta : appTxMeta) (sar : txAppTxSarReply) : list tasi_write :=
  let id := atm_sessionID meta in
  let len := atm_length meta in
  [W_tasi_meta2pkgPushCmd (mmCmd_new (buffer_addr id (atr_mempt sar)) len);
   W_appTxDataRsp (mkAppTxRsp id len (max_write_length sar) NO_ERROR);
   W_txAppStream2eventEng_setEvent (event4 TX id (atr_mempt sar) len);
   W_txApp2txSar_upd_req (txAppTxSarQuery_wr id (wrap WINDOW_BITS (atr_mempt sar + len)))].

(** The answer to a write request, given the session's state and window. *)
Definition tasi_decide (meta : appTxMeta) (state : sessionState) (sar : txAppTxSarReply)
  : list tasi_write :=
  let id := atm_sessionID meta in
  let len := atm_length meta in
  if negb (is_state state ESTABLISHED)
  then [W_appTxDataRsp (mkAppTxRsp id len (max_write_length sar) ERROR_NOCONNCECTION)]
  else if (max_write_length sar <? len) || (usable_window sar <? len)
  then [W_appTxDataRsp (mkAppTxRsp id len (usable_window sar) ERROR_NOSPACE)]
  else write_accepted meta sar.

Definition tasi_metaLoader (e : tasi_env) : tasi_env * list tasi_write :=
  match tai_state e with
  | READ_REQUEST =>
      match appTxDataReqMetaData e with
      | meta :: rest =>
          (e <| appTxDataReqMetaData := rest |> <| tasi_writeMeta := meta |>
             <| tai_state := READ_META |>,
           [W_txApp2stateTable_req (atm_sessionID meta);
            W_txApp2txSar_upd_req (txAppTxSarQuery_rd (atm_sessionID meta))])
      | [] => (e, [])
      end
  | READ_META =>
      match txSar2txApp_upd_rsp e, stateTable2txApp_rsp e with
      | sar :: rest, state :: srest =>
          (e <| txSar2txApp_upd_rsp := rest |> <| stateTable2txApp_rsp := srest |>
             <| tai_state := READ_REQUEST |>,
           tasi_decide (tasi_writeMeta e) state sar)
      | _, _ => (e, [])
      end
  end.

(** *** [tx_app_table]: the application's view of the transmit windows *)
Record txAppTableEntry := mkTxAppTableEntry { tae_ackd : Z; tae_mempt : Z; tae_min_window : Z }.
#[export] Instance eta_txAppTableEntry : Eta txAppTableEntry := fun r =>
  mkTxAppTableEntry (tae_ackd r) (tae_mempt r) (tae_min_window r).
#[export] Instance zero_init_txAppTableEntry : ZeroInit txAppTableEntry := mkTxAppTableEntry 0 0 0.

Record tx_app_table_env := mkTxAppTableEnv {
  app_table : table txAppTableEntry;
  txSar2txApp_ack_push : stream txSarAckPush;
  txApp_upd_req : stream txAppTxSarQuery
}.
#[export] Instance eta_tx_app_table_env : Eta tx_app_table_env := fun e =>
  mkTxAppTableEnv (app_table e) (txSar2txApp_ack_push e) (txApp_upd_req e).

Definition ack_pushed (p : txSarAckPush) (entry : txAppTableEntry) : txAppTableEntry :=
  if tap_init p
  then mkTxAppTableEntry (wrap WINDOW_BITS (tap_ackd p - 1)) (tap_ackd p) (tap_min_window p)
  else entry <| tae_ackd := tap_ackd p |> <| tae_min_window := tap_min_window p |>.

(** The writes are those to [txApp_upd_rsp]. *)
Definition tx_app_table (e : tx_app_table_env) : tx_app_table_env * list txAppTxSarReply :=
  match txSar2txApp_ack_push e with
  | p :: rest =>
      (e <| txSar2txApp_ack_push := rest |>
         <| app_table := tset (tap_sessionID p) (ack_pushed p (app_table e).[tap_sessionID p])
                           (app_table e) |>, [])
  | [] =>
  match txApp_upd_req e with
  | q :: rest =>
      let id := atq_sessionID q in
      let entry := (app_table e).[id] in
      let e := e <| txApp_upd_req := rest |> in
      if atq_write q
      then (e <| app_table := tset id (entry <| tae_mempt := atq_mempt q |>) (app_table e) |>, [])
      else (e, [mkTxAppTxSarReply id (tae_ackd entry) (tae_mempt entry) (tae_min_window entry)])
  | [] => (e, [])
  end end.

(** *** [txEventMerger] and [txAppStatusHandler] *)
Inductive merger_write := W_out (ev : event) | W_tasi_txEventCacheFifo (ev : event).

Definition txEventMerger (in1 in2 : stream event) : stream event * stream event * list merger_write :=
  match in1 with
  | ev :: in1 => (in1, in2, [W_out ev])
  | [] =>
  match in2 with
  | ev :: in2 => ([], in2, W_out ev :: when (is_event (ev_type ev) TX) [W_tasi_txEventCacheFifo ev])
  | [] => ([], [], [])
  end end.

Inductive fsmStatus := READ_EV | READ_STATUS_1 | READ_STATUS_2.

Record tash_env := mkTashEnv {
  tash_state : fsmStatus;
  tash_ev : event;
  txBufferWriteStatus : stream mmStatus;
  tasi_eventCacheFifo : stream event
}.
#[export] Instance eta_tash_env : Eta tash_env := fun e =>
  mkTashEnv (tash_state e) (tash_ev e) (txBufferWriteStatus e) (tasi_eventCacheFifo e).

Definition app_push (ev : event) : txAppTxSarPush :=
  mkTxAppTxSarPush (ev_sessionID ev) (wrap WINDOW_BITS (ev_address ev + ev_length ev)).

(** The writes are those to [txApp2txSar_app_push]. *)
Definition txAppStatusHandler (e : tash_env) : tash_env * list txAppTxSarPush :=
  match tash_state e with
  | READ_EV =>
      match tasi_eventCacheFifo e with
      | ev :: rest =>
          (e <| tasi_eventCacheFifo := rest |> <| tash_ev := ev |>
             <| tash_state := if is_event (ev_type ev) TX then READ_STATUS_1 else READ_EV |>, [])
      | [] => (e, [])
      end
  | READ_STATUS_1 =>
      match txBufferWriteStatus e with
      | status :: rest =>
          let e := e <| txBufferWriteStatus := rest |> in
          if ms_okay status then
            if BUFFER_SIZE <? wrap 32 (ev_address (tash_ev e) + ev_length (tash_ev e))
            then (e <| tash_state := READ_STATUS_2 |>, [])
            else (e <| tash_state := READ_EV |>, [app_push (tash_ev e)])
          else (e, [])
      | [] => (e, [])
      end
  | READ_STATUS_2 =>
      match txBufferWriteStatus e with
      | status :: rest =>
          let e := e <| txBufferWriteStatus := rest |> in
          if ms_okay status
          then (e <| tash_state := READ_EV |>, [app_push (tash_ev e)])
          else (e, [])
      | [] => (e, [])
      end
  end.

(** ** Properties *)

(** *** Accepting writes *)
Lemma max_write_length_eq sar :
  in_width WINDOW_BITS (atr_ackd sar) -> in_width WINDOW_BITS (atr_mempt sar) ->
  max_write_length sar = BUFFER_SIZE - 1 - used_length sar.
Proof.
  unfold max_write_length, used_length, BUFFER_SIZE, WINDOW_BITS, WINDOW_SCALE_BITS, in_width, wrap.
  simpl. intros. pow2. Z.div_mod_to_equations. lia.
Qed.

Lemma usable_window_eq sar :
  in_width WINDOW_BITS (atr_min_window sar) ->
  usable_window sar = Z.max 0 (atr_min_window sar - used_length sar).
Proof.
  intros Hw. assert (in_width WINDOW_BITS (used_length sar)) as Hu by (by apply wrap_range).
  unfold usable_window, in_width in *. case_match; bool_prop; [|lia].
  rewrite wrap_small; unfold in_width; lia.
Qed.

(** Data is accepted from the application exactly when it can be stored and
    sent.  A write of [len > 0] bytes to an established connection is accepted if and
    only if, with the bytes not yet acknowledged, it stays within the send window
    and below the buffer size; an accepted write extends the data in flight by [len]
    bytes and touches no byte of the buffer that is not yet acknowledged.  A refused
    write changes nothing: its only effect is the answer, with the matching error. *)
Theorem write_accepted_iff_fits meta state sar :
  0 < atm_length meta < 2 ^ 16 ->
  in_width WINDOW_BITS (atr_ackd sar) -> in_width WINDOW_BITS (atr_mempt sar) ->
  in_width WINDOW_BITS (atr_min_window sar) ->
  let used := used_length sar in
  let len := atm_length meta in
  (tasi_decide meta state sar = write_accepted meta sar <->
     state = ESTABLISHED /\ used + len <= atr_min_window sar /\ used + len < BUFFER_SIZE) /\
  (tasi_decide meta state sar <> write_accepted meta sar ->
     exists space err, err <> NO_ERROR /\
       tasi_decide meta state sar = [W_appTxDataRsp (mkAppTxRsp (atm_sessionID meta) len space err)]) /\
  (used + len < BUFFER_SIZE ->
     wrap WINDOW_BITS (wrap WINDOW_BITS (atr_mempt sar + len) - atr_ackd sar) = used + len /\
     forall k, 0 <= k < len -> used <= wrap WINDOW_BITS (atr_mempt sar + k - atr_ackd sar)).
Proof.
  intros Hl Ha Hm Hw used len. unfold tasi_decide.
  set (acc := write_accepted meta sar) in *.
  rewrite max_write_length_eq, usable_window_eq by done. fold used len.
  assert (in_width WINDOW_BITS used) as Hu by (by apply wrap_range).
  split; [|split].
  - unfold is_state. destruct (bool_decide (state = ESTABLISHED)) eqn:Hs; simpl; bool_prop.
    + destruct (_ || _) eqn:Ho.
      * split; [done|]. intros (_ & ? & ?). apply orb_true_iff in Ho. unfold in_width in *.
        destruct Ho; bool_prop; lia.
      * bool_prop. split; [|done]. intros _. unfold in_width in *.
        split_and!; [done|lia|lia].
    + split; [done|]. by intros (? & _).
  - destruct (is_state _ _); simpl; [destruct (_ || _); [|done]|]; intros _;
      (do 2 eexists; split; [|reflexivity]; done).
  - intros Hfit. unfold used, used_length, BUFFER_SIZE, WINDOW_BITS, WINDOW_SCALE_BITS, in_width, wrap in *.
    simpl in *. pow2. split; [|intros k Hk]; Z.div_mod_to_equations; lia.
Qed.

Lemma write_accepted_iff_fits_witness :
  let meta := mkAppTxMeta 5 1000 in
  let sar := mkTxAppTxSarReply 5 262000 100 14600 in
  tasi_decide meta ESTABLISHED sar = write_accepted meta sar.
Proof.
  refine (proj2 (proj1 (write_accepted_iff_fits (mkAppTxMeta 5 1000) ESTABLISHED
    (mkTxAppTxSarReply 5 262000 100 14600) _ _ _ _)) _);
    vm_compute; intuition discriminate.
Defined.

(** *** Confirmed writes *)

(** Bytes become sendable only once they are in the buffer.  For the TX event at
    the head of the queue, with all memory statuses fine, the application pointer is
    pushed to the end of the written bytes after one status if the bytes fit before
    the end of the buffer and after two if they wrap around; that is one status for
    every memory command of the write. *)
Theorem status_handler_confirms e ev rest s1 s2 srest :
  tash_state e = READ_EV -> tasi_eventCacheFifo e = ev :: rest -> ev_type ev = TX ->
  txBufferWriteStatus e = s1 :: s2 :: srest -> ms_okay s1 = true -> ms_okay s2 = true ->
  in_width WINDOW_BITS (ev_address ev) -> in_width 16 (ev_length ev) ->
  if BUFFER_SIZE <? ev_address ev + ev_length ev
  then calls txAppStatusHandler 3 e = (mkTashEnv READ_EV ev srest rest, [app_push ev])
  else calls txAppStatusHandler 2 e = (mkTashEnv READ_EV ev (s2 :: srest) rest, [app_push ev]).
Proof.
  intros Hst Hev Hty Hs H1 H2 Ha Hl. destruct e. simpl in *. subst.
  assert (wrap 32 (ev_address ev + ev_length ev) = ev_address ev + ev_length ev) as Hw.
  { apply wrap_small. unfold in_width, WINDOW_BITS, WINDOW_SCALE_BITS in *. simpl in *. lia. }
  destruct (BUFFER_SIZE <? ev_address ev + ev_length ev) eqn:Hb; unfold txAppStatusHandler;
    simpl; unfold is_event; rewrite bool_decide_true by done; simpl; rewrite H1, Hw, Hb;
    simpl; rewrite ?H2; done.
Qed.

Lemma status_handler_confirms_witness :
  let ok := mkMmStatus 0 false false false true in
  let ev := event4 TX 3 262000 1000 in
  calls txAppStatusHandler 3 (mkTashEnv READ_EV zero_init [ok; ok] [ev])
    = (mkTashEnv READ_EV ev [] [], [mkTxAppTxSarPush 3 856]).
Proof.
  refine (status_handler_confirms (mkTashEnv READ_EV zero_init
    [mkMmStatus 0 false false false true; mkMmStatus 0 false false false true]
    [event4 TX 3 262000 1000]) (event4 TX 3 262000 1000) [] _ _ [] _ _ _ _ _ _ _ _);
    vm_compute; intuition discriminate.
Defined.

(** *** Reading *)

(** A read by the application advances its pointer by what was asked for.  A
    request of [len] bytes, served by the receive window table, answers with the
    session number, reads [len] bytes of the session's buffer from the old pointer
    on, and leaves the table with the pointer advanced by [len] modulo the buffer
    size and all else as it was; a request of length 0 is dropped. *)
Theorem rx_read_advances e id len rest t :
  rasi_fsmState e = 0 -> rxSar2rxApp_upd_rsp e = [] ->
  appRxDataReq e = mkAppReadRequest id len :: rest -> 0 <= len < 2 ^ 16 ->
  let serve q := RxSar.rx_sar_table (RxSar.mkRxSarEnv t [] [q] []) in
  let appd := rxe_appd t.[id] in
  if len =? 0 then rx_app_stream_if e = (e <| appRxDataReq := rest |>, [])
  else
    (rx_app_stream_if e).2 = [W_rxApp2rxSar_upd_req (rxSarAppd_rd id)] /\
    (serve (rxSarAppd_rd id)).2 = [RxSar.W_rxSar2rxApp_upd_rsp (rxSarAppd_wr id appd)] /\
    let e1 := (rx_app_stream_if e).1 <| rxSar2rxApp_upd_rsp := [rxSarAppd_wr id appd] |> in
    let appd' := wrap WINDOW_BITS (appd + len) in
    (rx_app_stream_if e1).2 =
      [W_appRxDataRspMetadata id;
       if RX_DDR_BYPASS then W_rxBufferReadCmd_bypass
       else W_rxBufferReadCmd (mmCmd_new (buffer_addr id appd) len);
       W_rxApp2rxSar_upd_req (rxSarAppd_wr id appd')] /\
    rasi_fsmState (rx_app_stream_if e1).1 = 0 /\
    RxSar.rx_table (serve (rxSarAppd_wr id appd')).1 = tset id (t.[id] <| rxe_appd := appd' |>) t.
Proof.
  intros Hst Hr Hq Hl. destruct e; simpl in *; subst. unfold rx_app_stream_if. simpl.
  by destruct (len =? 0).
Qed.

(** A read that crosses a 64 KiB boundary fetches wrong bytes.  The receive
    buffers have 256 KiB, but the breakdown of read commands splits at multiples of
    64 KiB and continues at the beginning of the same 64 KiB; so the address of the
    second access is never the address that follows the first access, nor the start
    of the session's buffer unless the first access was in its first quarter. *)
Theorem rx_breakdown_wrong_half cmd e rest :
  rxAppBreakdown e = false -> inputMemAccess e = cmd :: rest ->
  0 <= mc_saddr cmd < 2 ^ 32 - 2 ^ 16 -> 0 <= mc_bbt cmd < 2 ^ 16 ->
  65536 < bits 15 0 (mc_saddr cmd) + mc_bbt cmd ->
  let len1 := 65536 - bits 15 0 (mc_saddr cmd) in
  exists cmd2,
    (calls rxAppMemAccessBreakdown 2 e).2 =
      [W_outputMemAccess (mkMmCmd (mc_saddr cmd) len1); W_rxAppDoubleAccess true;
       W_outputMemAccess cmd2] /\
    mc_bbt cmd2 = mc_bbt cmd - len1 /\
    mc_saddr cmd2 = mc_saddr cmd + len1 - 65536 /\
    (mc_saddr cmd2 = mc_saddr cmd - bits (WINDOW_BITS - 1) 0 (mc_saddr cmd) <->
     bits (WINDOW_BITS - 1) 0 (mc_saddr cmd) < 65536).
Proof.
  intros Hb Hi Ha Hl Hx len1. destruct e; simpl in *; subst.
  unfold rxAppMemAccessBreakdown. simpl.
  replace (65536 <? _) with true by lia. simpl.
  assert (wrap 16 (65536 - mc_saddr cmd) = len1) as ->.
  { unfold len1, bits in *. wrap_lia. }
  eexists. split; [|split_and!].
  - unfold mmCmd_new. rewrite (wrap_small 32), (wrap_small 16); [done| |];
      unfold in_width, len1, bits in *; wrap_lia.
  - unfold mmCmd_new. simpl. rewrite wrap_wrap. unfold len1, bits in *. wrap_lia.
  - unfold mmCmd_new. simpl. unfold len1, set_bits, bits in *. wrap_lia.
  - unfold mmCmd_new. simpl. unfold WINDOW_BITS, WINDOW_SCALE_BITS, set_bits, bits in *.
    simpl in *. wrap_lia.
Qed.

(** *** Opening and closing connections *)

(** What the interface sends to the state table. *)
Definition state_query (x : tx_app_if_write) : option stateQuery :=
  match x with W_txApp2stateTable_upd_req q => Some q | _ => None end.

Definition closing (e : tx_app_if_env) : option Z :=
  match tai_fsmState e with IDLE => None | CLOSE_CONN => Some (tai_closeSessionID e) end.

#[export] Instance tx_app_if_lock_client myIp : LockClient (tx_app_if myIp) state_query closing.
Proof.
  intros e. unfold tx_app_if. destruct (tx_app_open myIp e) as [e1 w1] eqn:Ho.
  assert (closing e1 = closing e /\ omap state_query w1 = []) as [Hc Hw].
  { unfold tx_app_open in Ho. repeat case_match; by simplify_eq. }
  destruct (tx_app_fsm e1) as [e2 w2] eqn:Hf. simpl. rewrite omap_app, Hw. simpl.
  rewrite <- Hc. unfold tx_app_fsm, closing in *.
  repeat (case_match; simplify_eq; simpl in *; rewrite ?Z.eqb_refl in *; try done).
Qed.

Inductive tx_app_if_arrival :=
| A_openConn (a : ipTuple) | A_closeConn (id : Z) | A_session (r : sessionLookupReply)
| A_port (p : Z) | A_state (s : sessionState) | A_established (s : openStatus) | A_timeout (s : openStatus).

Definition tx_app_if_arrive (a : tx_app_if_arrival) (e : tx_app_if_env) : tx_app_if_env :=
  match a with
  | A_openConn x => e <| appOpenConnReq := appOpenConnReq e ++ [x] |>
  | A_closeConn x => e <| closeConnReq := closeConnReq e ++ [x] |>
  | A_session x => e <| sLookup2txApp_rsp := sLookup2txApp_rsp e ++ [x] |>
  | A_port x => e <| portTable2txApp_port_rsp := portTable2txApp_port_rsp e ++ [x] |>
  | A_state x => e <| stateTable2txApp_upd_rsp := stateTable2txApp_upd_rsp e ++ [x] |>
  | A_established x => e <| conEstablishedIn := conEstablishedIn e ++ [x] |>
  | A_timeout x => e <| rtTimer2txApp_notification := rtTimer2txApp_notification e ++ [x] |>
  end.

Definition tx_app_if_init : tx_app_if_env := mkTxAppIfEnv IDLE 0 [] [] [] [] [] [] [].

(** The application interface always releases the state table.  In every run the
    queries it sends are well bracketed: after the read that locks the entry of the
    session to close, the next query is a write of the same session, whatever state
    it was told; and an entry is locked only while the interface waits for that
    state. *)
Theorem close_releases_lock myIp w e :
  steps (tx_app_if myIp) tx_app_if_arrive tx_app_if_init w e ->
  locked None (omap state_query w) = Some (closing e).
Proof.
  intros Hs. refine (lock_client_run _ _ _ _ _ _ _ Hs _). by intros [].
Qed.

Definition close_run := exec (tx_app_if 1) tx_app_if_arrive
  [Some (A_closeConn 4); None; Some (A_state TIME_WAIT); None; None] tx_app_if_init.

Lemma close_releases_lock_witness :
  omap state_query close_run.2 = [stateQuery_rd 4; stateQuery_wr 4 TIME_WAIT] /\
  locked None (omap state_query close_run.2) = Some None.
Proof.
  split; [reflexivity|]. refine (close_releases_lock 1 close_run.2 close_run.1 _).
  apply exec_steps.
Defined.

(** A connection is closed with a FIN exactly when it is open.  Told the state of
    the session, the interface sends a FIN event and moves the session to FIN_WAIT_1
    if the state is ESTABLISHED, FIN_WAIT_1 or FIN_WAIT_2, and otherwise writes back
    the state it read and sends nothing. *)
Theorem close_sends_fin e state rest :
  tai_fsmState e = CLOSE_CONN -> stateTable2txApp_upd_rsp e = state :: rest ->
  let id := tai_closeSessionID e in
  let w := (tx_app_fsm e).2 in
  (W_txApp2eventEng_mergeEvent (event2 FIN id) ∈ w <->
     state = ESTABLISHED \/ state = FIN_WAIT_1 \/ state = FIN_WAIT_2) /\
  omap state_query w =
    [stateQuery_wr id (if closable state then FIN_WAIT_1 else state)] /\
  tai_fsmState (tx_app_fsm e).1 = IDLE.
Proof.
  intros Hf Hs id w. unfold w, tx_app_fsm. rewrite Hf, Hs. simpl. unfold closable, is_state.
  split; [|by destruct state].
  destruct state; simpl; rewrite ?elem_of_cons, ?elem_of_nil; intuition (discriminate || auto).
Qed.

Lemma close_sends_fin_witness :
  let e := mkTxAppIfEnv CLOSE_CONN 4 [] [] [] [] [ESTABLISHED] [] [] in
  omap state_query (tx_app_fsm e).2 = [stateQuery_wr 4 FIN_WAIT_1].
Proof.
  refine (proj1 (proj2 (close_sends_fin (mkTxAppIfEnv CLOSE_CONN 4 [] [] [] [] [ESTABLISHED] [] [])
    ESTABLISHED [] _ _))); done.
Defined.

(** *** The port of a closed connection *)

(** The calls that hand the port of session [id] back to the port table, and the
    port table's service of that message. *)
Definition release_port (myIp id : Z) (slc : slc_env) (ports : PortTable.free_port_env)
  : PortTable.free_port_env :=
  let w := (reverseLookupTableInterface myIp (slc <| stateTable2sLookup_releaseSession := [id] |>)).2 in
  let released := omap (fun x => match x with W_sLookup2portTable_releasePort p => Some p
                                 | _ => None end) w in
  (PortTable.free_port_table (ports <| PortTable.sLookup2portTable_releasePort := released |>)).1.

(** The port of a closed outgoing connection is not given back.  The tuple of the
    connection holds the port in network byte order, the port table expects it in
    host order; so the release clears the mark of the byte-swapped port number if
    that is above 32767, and does nothing otherwise.  A port that is not its own swap
    stays marked as used, and the port whose mark is cleared may be in use. *)
Theorem released_port_swapped myIp id server port slc ports :
  32768 <= port < 65536 ->
  reverseLupInsertFifo slc = [] ->
  (reverseLookupTable slc).[id] = tuple_of_txApp (open_tuple myIp server port) ->
  (tupleValid slc).[id] = true ->
  let ports' := release_port myIp id slc ports in
  let swapped := reverse16 port in
  PortTable.freePortTable ports' =
    (if 32768 <=? swapped
     then tset (PortTable.port_index swapped) false (PortTable.freePortTable ports)
     else PortTable.freePortTable ports) /\
  (swapped <> port -> (PortTable.freePortTable ports).[PortTable.port_index port] = true ->
     (PortTable.freePortTable ports').[PortTable.port_index port] = true).
Proof.
  intros Hp Hi Hr Hv ports' swapped.
  assert (PortTable.freePortTable ports' =
    (if 32768 <=? swapped
     then tset (PortTable.port_index swapped) false (PortTable.freePortTable ports)
     else PortTable.freePortTable ports)) as Heq.
  { unfold ports', release_port, reverseLookupTableInterface. simpl. rewrite Hi. simpl.
    rewrite Hv, Hr. simpl. unfold PortTable.free_port_table. simpl. fold swapped.
    by destruct (32768 <=? swapped). }
  split; [done|]. intros Hne Hm. rewrite Heq.
  destruct (32768 <=? swapped) eqn:Hs; [|done]. bool_prop.
  rewrite tget_tset_ne; [done|]. intros Hidx. apply Hne.
  assert (swapped < 65536) by (unfold swapped, reverse16, set_bits, bits; wrap_lia).
  unfold PortTable.port_index, bits in Hidx. wrap_lia.
Qed.

(** Port 32769 was given out; the connection is closed and the port is still marked. *)
Lemma released_port_swapped_witness :
  let server := mkIpTuple 7 80 in
  let slc := slc_init <| reverseLookupTable := tset 3 (tuple_of_txApp (open_tuple 1 server 32769)) ∅ |>
               <| tupleValid := tset 3 true ∅ |> in
  let ports := PortTable.mkFreePortEnv (tset 1 true ∅) 9 [] [] true in
  (PortTable.freePortTable (release_port 1 3 slc ports)).[PortTable.port_index 32769] = true.
Proof.
  refine (proj2 (released_port_swapped 1 3 (mkIpTuple 7 80) 32769
    (slc_init <| reverseLookupTable :=
       tset 3 (tuple_of_txApp (open_tuple 1 (mkIpTuple 7 80) 32769)) ∅ |>
       <| tupleValid := tset 3 true ∅ |>)
    (PortTable.mkFreePortEnv (tset 1 true ∅) 9 [] [] true) _ _ _ _) _ _); done || (vm_compute; done).
Defined.
End AppInterfaces.

#[export] Existing Instances eta_rx_app_stream_if_env eta_rx_breakdown_env eta_tx_app_if_env eta_tasi_env eta_txAppTableEntry eta_tx_app_table_env eta_tash_env.

Section AppWitnesses.
Local Existing Instance tiny_config.

Lemma rx_read_advances_witness :
  let t := tset 2 (mkRxSarEntry 100 50 2 100 0 false) ∅ in
  RxSar.rx_table (RxSar.rx_sar_table
    (RxSar.mkRxSarEnv t [] [rxSarAppd_wr 2 (wrap WINDOW_BITS (50 + 8))] [])).1
  = tset 2 (mkRxSarEntry 100 58 2 100 0 false) t.
Proof.
  pose proof (rx_read_advances (mkRxAppStreamIfEnv 0 0 [mkAppReadRequest 2 8] []) 2 8 []
    (tset 2 (mkRxSarEntry 100 50 2 100 0 false) ∅) eq_refl eq_refl eq_refl) as H.
  simpl in H. exact (proj2 (proj2 (proj2 (proj2 (H ltac:(lia)))))).
Defined.

Lemma rx_breakdown_wrong_half_witness :
  let cmd := mkMmCmd 130072 2000 in
  exists cmd2,
  (calls rxAppMemAccessBreakdown 2 (mkRxBreakdownEnv false zero_init 0 [cmd])).2 =
    [W_outputMemAccess (mkMmCmd 130072 1000); W_rxAppDoubleAccess true; W_outputMemAccess cmd2] /\
  mc_saddr cmd2 = 65536.
Proof.
  destruct (rx_breakdown_wrong_half (mkMmCmd 130072 2000)
    (mkRxBreakdownEnv false zero_init 0 [mkMmCmd 130072 2000]) []) as (cmd2 & H1 & _ & H2 & _);
    [done|done|simpl; lia|simpl; lia|done|].
  exists cmd2. split; [exact H1|]. rewrite H2. reflexivity.
Defined.
End AppWitnesses.
