(* ===== verification/RxEngine.v ===== *)
(** * The TCP state machine of the receive path ([toe/rx_engine], [rxTcpFSM])

    For every segment of a known session the machine reads the connection state, the
    receive window and, if the segment acknowledges, the transmit window; one call
    then evaluates the segment: it updates the three tables, clears and sets timers,
    raises events, decides whether the payload is kept and notifies the
    application.  The handlers of the source's cases are separate definitions. *)

From S2P Require Import Prelude ToeTypes StateTable SarTables.

Section RxEngine.
Context {C : ToeConfig}.

(** ** Data ([rx_engine.hpp]) *)
Record rxEngineMetaData := mkRxMeta {
  rm_seqNumb : Z; rm_ackNumb : Z; rm_winSize : Z; rm_winScale : Z; rm_length : Z;
  rm_ack : bool; rm_rst : bool; rm_syn : bool; rm_fin : bool; rm_dataOffset : Z
}.
#[export] Instance eta_rxEngineMetaData : Eta rxEngineMetaData := fun r =>
  mkRxMeta (rm_seqNumb r) (rm_ackNumb r) (rm_winSize r) (rm_winScale r) (rm_length r)
    (rm_ack r) (rm_rst r) (rm_syn r) (rm_fin r) (rm_dataOffset r).
#[export] Instance zero_init_rxMeta : ZeroInit rxEngineMetaData :=
  mkRxMeta 0 0 0 0 0 false false false false 0.

Record rxFsmMetaData := mkRxFsmMeta {
  fm_sessionID : Z; fm_srcIpAddress : Z; fm_dstIpPort : Z; fm_meta : rxEngineMetaData;
  fm_srcIpPort : Z
}.
#[export] Instance zero_init_rxFsmMeta : ZeroInit rxFsmMetaData := mkRxFsmMeta 0 0 0 zero_init 0.

Inductive rx_fsm_write :=
| W_rxEng2stateTable_upd_req (q : stateQuery)
| W_rxEng2rxSar_upd_req (q : rxSarRecvd)
| W_rxEng2txSar_upd_req (q : rxTxSarQuery)
| W_rxEng2timer_clearRetransmitTimer (u : rxRetransmitTimerUpdate)
| W_rxEng2timer_clearProbeTimer (id : Z)
| W_rxEng2timer_setCloseTimer (id : Z)
| W_openConStatusOut (s : openStatus)
| W_rxEng2eventEng_setEvent (ev : event)
| W_dropDataFifoOut (b : bool)
| W_rxBufferWriteCmd (cmd : mmCmd)
| W_rxEng2rxApp_notification (n : appNotification).

(** The statics, the streams, and the fill level of the receive buffer that stands in
    for the memory when it is bypassed. *)
Record rx_fsm_env := mkRxFsmEnv {
  fsm_loading : bool;             (* fsm_state == LOAD *)
  fsm_meta : rxFsmMetaData;
  fsm_txSarRequest : bool;
  fsmMetaDataFifo : stream rxFsmMetaData;
  stateTable2rxEng_upd_rsp : stream sessionState;
  rxSar2rxEng_upd_rsp : stream rxSarEntry;
  txSar2rxEng_upd_rsp : stream rxTxSarReply;
  rxbuffer_data_count : Z;
  rxbuffer_max_data_count : Z
}.
#[export] Instance eta_rx_fsm_env : Eta rx_fsm_env := fun e =>
  mkRxFsmEnv (fsm_loading e) (fsm_meta e) (fsm_txSarRequest e) (fsmMetaDataFifo e)
    (stateTable2rxEng_upd_rsp e) (rxSar2rxEng_upd_rsp e) (txSar2rxEng_upd_rsp e)
    (rxbuffer_data_count e) (rxbuffer_max_data_count e).

Section Handlers.
Variable fm : rxFsmMetaData.
(** [rxbuffer_max_data_count - rxbuffer_data_count]. *)
Variable buffer_room : Z.

Let id := fm_sessionID fm.
Let meta := fm_meta fm.
Let seqNumb := rm_seqNumb meta.
Let ackNumb := rm_ackNumb meta.
Let len := rm_length meta.

(** Shorthands for writes of the current session. *)
Definition state_write (s : sessionState) : rx_fsm_write :=
  W_rxEng2stateTable_upd_req (stateQuery_wr id s).
Definition send (ty : eventType) : rx_fsm_write := W_rxEng2eventEng_setEvent (event2 ty id).
Definition send_rst (seq : Z) : rx_fsm_write :=
  W_rxEng2eventEng_setEvent (rstEvent id (wrap 32 seq)).
Definition notify (length : Z) : rx_fsm_write :=
  W_rxEng2rxApp_notification
    (appNotification_data id (wrap 16 length) (fm_srcIpAddress fm) (fm_dstIpPort fm)).
Definition notify_close : rx_fsm_write :=
  W_rxEng2rxApp_notification (appNotification_close id (fm_srcIpAddress fm) (fm_dstIpPort fm) true).
Definition clear_retransmit (txSar : rxTxSarReply) : rx_fsm_write :=
  W_rxEng2timer_clearRetransmitTimer (mkRxRetransmitTimerUpdate id (ackNumb =? rtr_nextByte txSar)).
Definition write_payload : rx_fsm_write :=
  W_rxBufferWriteCmd (mmCmd_new (buffer_addr id (bits (WINDOW_BITS - 1) 0 seqNumb)) len).

(** *** [case 1]: ACK *)

(** Slow start, congestion avoidance, and the count of duplicate acknowledgements. *)
Definition rx_congestion (txSar : rxTxSarReply) : rxTxSarReply * list rx_fsm_write :=
  if (ackNumb =? rtr_prevAck txSar) && negb (rtr_prevAck txSar =? rtr_nextByte txSar)
  then (if len =? 0 then txSar <| rtr_count := wrap 2 (rtr_count txSar + 1) |> else txSar, [])
  else
    let txSar :=
      if rtr_cong_window txSar <=? rtr_slowstart_threshold txSar - MSS
      then txSar <| rtr_cong_window := wrap WINDOW_BITS (rtr_cong_window txSar + MSS) |>
      else if rtr_cong_window txSar <=? CONGESTION_WINDOW_MAX
      then txSar <| rtr_cong_window := wrap WINDOW_BITS (rtr_cong_window txSar + 365) |>
      else txSar in
    (txSar <| rtr_count := 0 |> <| rtr_fastRetransmitted := false |>,
     [W_rxEng2timer_clearProbeTimer id]).

(** Does the acknowledgement lie between the last one and the next byte to send? *)
Definition ack_acceptable (txSar : rxTxSarReply) : bool :=
  let prev := rtr_prevAck txSar in
  let next := rtr_nextByte txSar in
  ((prev <=? ackNumb) && (ackNumb <=? next))
  || (((prev <=? ackNumb) || (ackNumb <=? next)) && (next <? prev)).

Definition rx_tx_sar (txSar : rxTxSarReply) : list rx_fsm_write :=
  when (ack_acceptable txSar)
    [W_rxEng2txSar_upd_req
       (rxTxSarQuery_wr id ackNumb (rm_winSize meta) (rtr_cong_window txSar) (rtr_count txSar)
          ((rtr_count txSar =? 3) || rtr_fastRetransmitted txSar))].

Definition ooo_free_space (rxSar : rxSarEntry) : Z :=
  wrap WINDOW_BITS (rxe_appd rxSar - bits (WINDOW_BITS - 1) 0 (rxe_head rxSar) - 1).

Definition sar_write (recvd head offset : Z) (gap : bool) : rx_fsm_write :=
  W_rxEng2rxSar_upd_req (rxSarRecvd_wr id recvd head offset gap).

(** With the buffer in memory, payload is stored out of order; one gap is kept. *)
Definition rx_store_ooo (rxSar : rxSarEntry) : list rx_fsm_write :=
  let free_space := ooo_free_space rxSar in
  let recvd := rxe_recvd rxSar in
  let head := rxe_head rxSar in
  let offset := rxe_offset rxSar in
  let gap := rxe_gap rxSar in
  let seg_end := wrap 32 (seqNumb + len) in
  if negb gap && (seqNumb =? recvd) && (len <? free_space)
  then [sar_write seg_end seg_end offset gap; write_payload; notify len; W_dropDataFifoOut false]
  else if negb gap && (recvd <? seqNumb)
            && (bits (WINDOW_BITS - 1) 0 (seqNumb + len - head) <? free_space)
  then [sar_write recvd seg_end seqNumb true; notify 0; write_payload; W_dropDataFifoOut false]
  else if gap && (seqNumb =? head) && (len <? free_space)
  then [sar_write recvd seg_end offset gap; write_payload; notify 0; W_dropDataFifoOut false]
  else if gap && (seqNumb =? recvd)
  then
    if seqNumb + len =? offset
    then [sar_write head head offset false; write_payload;
          notify (bits (WINDOW_BITS - 1) 0 (head - seqNumb)); W_dropDataFifoOut false]
    else if seqNumb + len <? offset
    then [sar_write seg_end head offset gap; write_payload; notify len; W_dropDataFifoOut false]
    else []
  else [W_dropDataFifoOut true].

(** With the memory bypassed only the next segment is stored. *)
Definition rx_store_bypass (rxSar : rxSarEntry) : list rx_fsm_write :=
  let seg_end := wrap 32 (seqNumb + len) in
  if (seqNumb =? rxe_recvd rxSar) && (375 <? buffer_room)
  then [sar_write seg_end seg_end (rxe_offset rxSar) (rxe_gap rxSar); notify len;
        W_dropDataFifoOut false]
  else [W_dropDataFifoOut true].

Definition rx_store (rxSar : rxSarEntry) : list rx_fsm_write :=
  when (negb (len =? 0)) (if RX_DDR_BYPASS then rx_store_bypass rxSar else rx_store_ooo rxSar).

Definition rx_in_order (rxSar : rxSarEntry) : bool :=
  if RX_DDR_BYPASS then (seqNumb =? rxe_recvd rxSar) && (375 <? buffer_room)
  else negb (rxe_gap rxSar) && (seqNumb =? rxe_recvd rxSar) && (len <? ooo_free_space rxSar).

(** Fast retransmit, or an acknowledgement for the payload. *)
Definition rx_ack_event (rxSar : rxSarEntry) (txSar : rxTxSarReply) : list rx_fsm_write :=
  if FAST_RETRANSMIT && (rtr_count txSar =? 3) && negb (rtr_fastRetransmitted txSar)
  then [send RT]
  else when (negb (len =? 0)) [send (if rx_in_order rxSar then ACK else ACK_NODELAY)].

(** The state after the acknowledgement, which also releases the lock. *)
Definition rx_ack_state (tcpState : sessionState) (txSar : rxTxSarReply) : list rx_fsm_write :=
  if ackNumb =? rtr_nextByte txSar then
    match tcpState with
    | SYN_RECEIVED => [state_write ESTABLISHED]
    | CLOSING => [state_write TIME_WAIT; W_rxEng2timer_setCloseTimer id]
    | LAST_ACK => [state_write CLOSED]
    | _ => [state_write tcpState]
    end
  else [state_write tcpState].

Definition ack_states (s : sessionState) : bool :=
  is_state s ESTABLISHED || is_state s SYN_RECEIVED || is_state s FIN_WAIT_1
  || is_state s CLOSING || is_state s LAST_ACK.

Definition rx_ack (tcpState : sessionState) (rxSar : rxSarEntry) (txSar : rxTxSarReply)
  : list rx_fsm_write :=
  clear_retransmit txSar ::
  if ack_states tcpState then
    let '(txSar', w) := rx_congestion txSar in
    w ++ rx_tx_sar txSar' ++ rx_store rxSar ++ rx_ack_event rxSar txSar'
      ++ rx_ack_state tcpState txSar'
  else
    send_rst (seqNumb + len) :: when (negb (len =? 0)) [W_dropDataFifoOut true]
      ++ [state_write tcpState].

(** *** [case 2]: SYN.  [txSar] has not been read; its congestion window is whatever
    the local variable holds. *)
Definition rx_win_shift : Z := if rm_winScale meta =? 0 then 0 else WINDOW_SCALE_BITS.

Definition rx_syn (junk_txSar : rxTxSarReply) (tcpState : sessionState) (rxSar : rxSarEntry)
  : list rx_fsm_write :=
  let next := wrap 32 (seqNumb + 1) in
  if is_state tcpState CLOSED || is_state tcpState SYN_SENT then
    [W_rxEng2rxSar_upd_req (rxSarRecvd_init id next next 0 false rx_win_shift);
     W_rxEng2txSar_upd_req (rxTxSarQuery_init id 0 (rm_winSize meta)
       (rtr_cong_window junk_txSar) 0 false (rm_winScale meta));
     send SYN_ACK;
     state_write SYN_RECEIVED]
  else if is_state tcpState SYN_RECEIVED then
    if seqNumb + 1 =? rxe_recvd rxSar
    then [W_rxEng2eventEng_setEvent (event3 SYN_ACK id 1); state_write tcpState]
    else [send_rst (seqNumb + 1); state_write CLOSED]
  else [send ACK_NODELAY; state_write tcpState].

(** *** [case 3]: SYN and ACK *)
Definition rx_syn_ack (tcpState : sessionState) (txSar : rxTxSarReply) : list rx_fsm_write :=
  let next := wrap 32 (seqNumb + 1) in
  clear_retransmit txSar ::
  if is_state tcpState SYN_SENT && (ackNumb =? rtr_nextByte txSar) then
    [W_rxEng2rxSar_upd_req (rxSarRecvd_init id next next 0 false rx_win_shift);
     W_rxEng2txSar_upd_req (rxTxSarQuery_init id ackNumb (rm_winSize meta)
       (rtr_cong_window txSar) 0 false (rm_winScale meta));
     send ACK_NODELAY;
     state_write ESTABLISHED;
     W_openConStatusOut (mkOpenStatus id true (fm_srcIpAddress fm) (fm_srcIpPort fm))]
  else if is_state tcpState SYN_SENT then
    [send_rst (seqNumb + len + 1); state_write CLOSED]
  else [send ACK_NODELAY; state_write tcpState].

(** *** [case 5]: FIN and ACK *)
Definition fin_states (s : sessionState) : bool :=
  is_state s ESTABLISHED || is_state s FIN_WAIT_1 || is_state s FIN_WAIT_2.

Definition rx_fin (tcpState : sessionState) (rxSar : rxSarEntry) (txSar : rxTxSarReply)
  : list rx_fsm_write :=
  let next := wrap 32 (seqNumb + len + 1) in
  clear_retransmit txSar ::
  if fin_states tcpState && (rxe_recvd rxSar =? seqNumb) then
    [W_rxEng2txSar_upd_req
       (rxTxSarQuery_wr id ackNumb (rm_winSize meta) (rtr_cong_window txSar) (rtr_count txSar)
          (rtr_fastRetransmitted txSar));
     sar_write next next (rxe_offset rxSar) (rxe_gap rxSar);
     W_rxEng2timer_clearProbeTimer id]
    ++ (if negb (len =? 0) then
          when (negb RX_DDR_BYPASS) [write_payload]
          ++ [W_rxEng2rxApp_notification
                (mkAppNotification id len (fm_srcIpAddress fm) (fm_dstIpPort fm) true);
              W_dropDataFifoOut false]
        else when (is_state tcpState ESTABLISHED) [notify_close])
    ++ (if is_state tcpState ESTABLISHED then [send FIN; state_write LAST_ACK]
        else (if ackNumb =? rtr_nextByte txSar
              then [state_write TIME_WAIT; W_rxEng2timer_setCloseTimer id]
              else [state_write CLOSING]) ++ [send ACK])
  else
    [send ACK; state_write tcpState] ++ when (negb (len =? 0)) [W_dropDataFifoOut true].

(** *** [default]: RST, and anything else.  The transmit window is read without
    blocking; without an acknowledgement in the segment there is none. *)
Definition rx_other (tcpState : sessionState) (rxSar : rxSarEntry) (txSar : rxTxSarReply)
  : list rx_fsm_write :=
  let stop := W_rxEng2timer_clearRetransmitTimer (mkRxRetransmitTimerUpdate id true) in
  if rm_rst meta then
    if is_state tcpState SYN_SENT then
      if ackNumb =? rtr_nextByte txSar
      then [W_openConStatusOut (mkOpenStatus id false (fm_srcIpAddress fm) (fm_srcIpPort fm));
            state_write CLOSED; stop]
      else [state_write tcpState]
    else
      if seqNumb =? rxe_recvd rxSar
      then [notify_close; state_write CLOSED; stop]
      else [state_write tcpState]
  else [state_write tcpState].
End Handlers.

(** ** The machine *)

(** The flags of a segment, as [control_bits] tells them apart. *)
Inductive segment_kind := K_ACK | K_SYN | K_SYN_ACK | K_FIN_ACK | K_OTHER.
#[export] Instance segment_kind_eq_dec : EqDecision segment_kind.
Proof. solve_decision. Defined.
Definition kind (m : rxEngineMetaData) : segment_kind :=
  match rm_ack m, rm_syn m, rm_fin m, rm_rst m with
  | true, false, false, false => K_ACK
  | false, true, false, false => K_SYN
  | true, true, false, false => K_SYN_ACK
  | true, false, true, false => K_FIN_ACK
  | _, _, _, _ => K_OTHER
  end.

(** The evaluation of one segment. *)
Definition rx_segment (fm : rxFsmMetaData) (room : Z) (junk_txSar : rxTxSarReply)
    (tcpState : sessionState) (rxSar : rxSarEntry) (txSar : rxTxSarReply) : list rx_fsm_write :=
  match kind (fm_meta fm) with
  | K_ACK => rx_ack fm room tcpState rxSar txSar
  | K_SYN => rx_syn fm junk_txSar tcpState rxSar
  | K_SYN_ACK => rx_syn_ack fm tcpState txSar
  | K_FIN_ACK => rx_fin fm tcpState rxSar txSar
  | K_OTHER => rx_other fm tcpState rxSar txSar
  end.

Section Machine.
(** The content of the local [txSar] when it is not read. *)
Variable junk_txSar : rxTxSarReply.

(** The transmit window is read by the cases that need it; in the default case with a
    non-blocking read. *)
Definition reads_txSar (m : rxEngineMetaData) : bool :=
  match kind m with K_SYN => false | _ => true end.

Definition rxTcpFSM (e : rx_fsm_env) : rx_fsm_env * list rx_fsm_write :=
  if fsm_loading e then
    match fsmMetaDataFifo e with
    | fm :: rest =>
        let id := fm_sessionID fm in
        let ack := rm_ack (fm_meta fm) in
        (e <| fsmMetaDataFifo := rest |> <| fsm_meta := fm |>
           <| fsm_txSarRequest := fsm_txSarRequest e || ack |> <| fsm_loading := false |>,
         [W_rxEng2stateTable_upd_req (stateQuery_rd id); W_rxEng2rxSar_upd_req (rxSarRecvd_rd id)]
         ++ when ack [W_rxEng2txSar_upd_req (rxTxSarQuery_rd id)])
    | [] => (e, [])
    end
  else
    match stateTable2rxEng_upd_rsp e, rxSar2rxEng_upd_rsp e with
    | tcpState :: srest, rxSar :: rrest =>
        let ready := negb (fsm_txSarRequest e)
                     || match txSar2rxEng_upd_rsp e with [] => false | _ => true end in
        if ready then
          let m := fm_meta (fsm_meta e) in
          let '(txSar, trest) :=
            match txSar2rxEng_upd_rsp e with
            | txSar :: trest => if reads_txSar m then (txSar, trest) else (junk_txSar, txSar :: trest)
            | [] => (junk_txSar, [])
            end in
          (e <| fsm_loading := true |> <| fsm_txSarRequest := false |>
             <| stateTable2rxEng_upd_rsp := srest |> <| rxSar2rxEng_upd_rsp := rrest |>
             <| txSar2rxEng_upd_rsp := trest |>,
           rx_segment (fsm_meta e) (rxbuffer_max_data_count e - rxbuffer_data_count e)
             junk_txSar tcpState rxSar txSar)
        else (e, [])
    | _, _ => (e, [])
    end.
End Machine.

(** ** What a segment writes, stream by stream *)
Definition rx_query (x : rx_fsm_write) : option stateQuery :=
  match x with W_rxEng2stateTable_upd_req q => Some q | _ => None end.
Definition rx_drop (x : rx_fsm_write) : option bool :=
  match x with W_dropDataFifoOut b => Some b | _ => None end.
Definition rx_event (x : rx_fsm_write) : option event :=
  match x with W_rxEng2eventEng_setEvent ev => Some ev | _ => None end.
Definition rx_close_timer (x : rx_fsm_write) : option Z :=
  match x with W_rxEng2timer_setCloseTimer id => Some id | _ => None end.
Definition rx_tx_update (x : rx_fsm_write) : option rxTxSarQuery :=
  match x with W_rxEng2txSar_upd_req q => Some q | _ => None end.

(** Every handler is a list of guarded writes; [handlers] opens them and decides the
    guards the goal depends on. *)
Ltac handlers :=
  unfold rx_segment, rx_ack, rx_syn, rx_syn_ack, rx_fin, rx_other, rx_congestion, rx_tx_sar,
    rx_store, rx_store_ooo, rx_store_bypass, rx_ack_event, rx_ack_state, clear_retransmit,
    state_write, send, send_rst, notify, notify_close, write_payload, sar_write, when in *.

(** Writes that concern the payload and the windows, not the connection state. *)
Definition data_write (x : rx_fsm_write) : Prop :=
  match x with
  | W_rxEng2stateTable_upd_req _ | W_rxEng2timer_setCloseTimer _ | W_openConStatusOut _ => False
  | _ => True
  end.

Lemma omap_data_writes {A} (f : rx_fsm_write -> option A) w :
  Forall data_write w -> (forall x, data_write x -> f x = None) -> omap f w = [].
Proof.
  intros Hw Hf. induction Hw as [|x w Hx _ IH]; [done|]. simpl. rewrite (Hf x Hx). exact IH.
Qed.

(** An acknowledgement of an open connection: everything but its last writes concerns
    the data. *)
Lemma rx_ack_open fm room s rxSar txSar :
  ack_states s = true ->
  exists mid, rx_ack fm room s rxSar txSar = mid ++ rx_ack_state fm s txSar /\ Forall data_write mid.
Proof.
  intros Hs. unfold rx_ack. rewrite Hs. destruct (rx_congestion fm txSar) as [txSar' w] eqn:Hc.
  exists (clear_retransmit fm txSar :: w ++ rx_tx_sar fm txSar' ++ rx_store fm room rxSar
          ++ rx_ack_event fm room rxSar txSar').
  assert (rtr_nextByte txSar' = rtr_nextByte txSar /\ Forall data_write w) as [Hn Hw].
  { unfold rx_congestion in Hc. repeat case_match; simplify_eq; simpl;
      (split; [done|repeat constructor]). }
  split.
  - simpl. rewrite <- !app_assoc. unfold rx_ack_state. by rewrite Hn.
  - constructor; [done|]. rewrite !Forall_app. split_and!; [done|..]; handlers;
      repeat case_match; repeat constructor.
Qed.

(** The state after a segment. *)
Definition rx_next_state (fm : rxFsmMetaData) (s : sessionState) (rxSar : rxSarEntry)
    (txSar : rxTxSarReply) : sessionState :=
  let m := fm_meta fm in
  let acked := rm_ackNumb m =? rtr_nextByte txSar in
  match kind m with
  | K_ACK =>
      if acked then
        match s with
        | SYN_RECEIVED => ESTABLISHED
        | CLOSING => TIME_WAIT
        | LAST_ACK => CLOSED
        | _ => s
        end
      else s
  | K_SYN =>
      match s with
      | CLOSED | SYN_SENT => SYN_RECEIVED
      | SYN_RECEIVED => if rm_seqNumb m + 1 =? rxe_recvd rxSar then SYN_RECEIVED else CLOSED
      | _ => s
      end
  | K_SYN_ACK =>
      match s with SYN_SENT => if acked then ESTABLISHED else CLOSED | _ => s end
  | K_FIN_ACK =>
      if rxe_recvd rxSar =? rm_seqNumb m then
        match s with
        | ESTABLISHED => LAST_ACK
        | FIN_WAIT_1 | FIN_WAIT_2 => if acked then TIME_WAIT else CLOSING
        | _ => s
        end
      else s
  | K_OTHER =>
      if rm_rst m then
        match s with
        | SYN_SENT => if acked then CLOSED else s
        | _ => if rm_seqNumb m =? rxe_recvd rxSar then CLOSED else s
        end
      else s
  end.

Lemma rx_segment_queries fm room junk s rxSar txSar :
  omap rx_query (rx_segment fm room junk s rxSar txSar) =
    [stateQuery_wr (fm_sessionID fm) (rx_next_state fm s rxSar txSar)].
Proof.
  unfold rx_segment, rx_next_state. destruct (kind (fm_meta fm)) eqn:Hk.
  - destruct (ack_states s) eqn:Hs.
    + destruct (rx_ack_open fm room s rxSar txSar Hs) as (mid & -> & Hmid).
      rewrite omap_app, (omap_data_writes _ _ Hmid) by (by intros []). simpl.
      unfold rx_ack_state. destruct (_ =? _); [|done]. by destruct s.
    + handlers. rewrite Hs. destruct s; try discriminate Hs; simpl; repeat case_match; done.
  - handlers. destruct s; simpl; try done. by case_match.
  - handlers. destruct s; simpl; try done. by case_match.
  - handlers. destruct s; simpl; rewrite ?andb_false_r; repeat (case_match; simpl; try done).
  - handlers. destruct s; simpl; repeat (case_match; simpl; try done).
Qed.

(** The close timer is set on entering TIME-WAIT. *)
Lemma rx_segment_close fm room junk s rxSar txSar :
  omap rx_close_timer (rx_segment fm room junk s rxSar txSar) =
    when (is_state (rx_next_state fm s rxSar txSar) TIME_WAIT && negb (is_state s TIME_WAIT))
      [fm_sessionID fm].
Proof.
  unfold rx_segment, rx_next_state. destruct (kind (fm_meta fm)) eqn:Hk.
  - destruct (ack_states s) eqn:Hs.
    + destruct (rx_ack_open fm room s rxSar txSar Hs) as (mid & -> & Hmid).
      rewrite omap_app, (omap_data_writes _ _ Hmid) by (by intros []). simpl.
      unfold rx_ack_state. destruct (_ =? _); by destruct s.
    + handlers. rewrite Hs. destruct s; try discriminate Hs; simpl; repeat case_match; done.
  - handlers. destruct s; simpl; try done. by case_match.
  - handlers. destruct s; simpl; try done. by case_match.
  - handlers. destruct s; simpl; rewrite ?andb_false_r; repeat (case_match; simpl; try done).
  - handlers. destruct s; simpl; repeat (case_match; simpl; try done).
Qed.

(** ** Properties of the state machine *)

(** The session whose entry the machine has locked. *)
Definition rx_holds (e : rx_fsm_env) : option Z :=
  if fsm_loading e then None else Some (fm_sessionID (fsm_meta e)).

#[export] Instance rxTcpFSM_lock_client junk : LockClient (rxTcpFSM junk) rx_query rx_holds.
Proof.
  intros e. unfold rxTcpFSM, rx_holds. destruct (fsm_loading e) eqn:Hl.
  - destruct (fsmMetaDataFifo e) as [|fm rest]; [by simpl; rewrite ?Hl|].
    simpl. by destruct (rm_ack (fm_meta fm)).
  - destruct (stateTable2rxEng_upd_rsp e); [by simpl; rewrite ?Hl|].
    destruct (rxSar2rxEng_upd_rsp e); [by simpl; rewrite ?Hl|].
    destruct (negb _ || _); [|by simpl; rewrite ?Hl].
    match goal with |- context [match txSar2rxEng_upd_rsp e with [] => (junk, []) | _ => _ end] =>
      destruct (match txSar2rxEng_upd_rsp e with [] => _ | _ => _ end) as [txSar trest] end.
    simpl. rewrite rx_segment_queries. simpl. by rewrite Z.eqb_refl.
Qed.

Inductive rx_fsm_arrival :=
| A_segment (fm : rxFsmMetaData) | A_state (s : sessionState) | A_rxSar (r : rxSarEntry)
| A_txSar (r : rxTxSarReply) | A_fill (n : Z).

Definition rx_fsm_arrive (a : rx_fsm_arrival) (e : rx_fsm_env) : rx_fsm_env :=
  match a with
  | A_segment x => e <| fsmMetaDataFifo := fsmMetaDataFifo e ++ [x] |>
  | A_state x => e <| stateTable2rxEng_upd_rsp := stateTable2rxEng_upd_rsp e ++ [x] |>
  | A_rxSar x => e <| rxSar2rxEng_upd_rsp := rxSar2rxEng_upd_rsp e ++ [x] |>
  | A_txSar x => e <| txSar2rxEng_upd_rsp := txSar2rxEng_upd_rsp e ++ [x] |>
  | A_fill n => e <| rxbuffer_data_count := n |>
  end.

Definition rx_fsm_init : rx_fsm_env := mkRxFsmEnv true zero_init false [] [] [] [] 0 0.

(** C17: the RX engine always releases the state table.  In every run its queries are
    well bracketed: the read that locks the entry of a segment's session is followed
    by exactly one write of that session before anything else is asked, whatever the
    flags of the segment and the states and windows it is told. *)
Theorem rx_fsm_releases_lock junk w e :
  steps (rxTcpFSM junk) rx_fsm_arrive rx_fsm_init w e ->
  locked None (omap rx_query w) = Some (rx_holds e).
Proof. intros Hs. refine (lock_client_run _ _ _ _ _ _ _ Hs _). by intros []. Qed.

(** The moves of a connection that a received segment may cause (RFC 793, figure 6,
    with LISTEN merged into CLOSED and CLOSE-WAIT passed through). *)
Inductive tcp_move : sessionState -> sessionState -> Prop :=
| move_stay s : tcp_move s s
| move_passive_open : tcp_move CLOSED SYN_RECEIVED
| move_simultaneous_open : tcp_move SYN_SENT SYN_RECEIVED
| move_active_open : tcp_move SYN_SENT ESTABLISHED
| move_accepted : tcp_move SYN_RECEIVED ESTABLISHED
| move_peer_closes : tcp_move ESTABLISHED LAST_ACK
| move_both_close_1 : tcp_move FIN_WAIT_1 CLOSING
| move_both_close_2 : tcp_move FIN_WAIT_2 CLOSING
| move_closed_1 : tcp_move FIN_WAIT_1 TIME_WAIT
| move_closed_2 : tcp_move FIN_WAIT_2 TIME_WAIT
| move_closing : tcp_move CLOSING TIME_WAIT
| move_reset s : tcp_move s CLOSED.

(** C6: the connection state follows the TCP state diagram.  A segment writes the
    state exactly once.  The move is one of the diagram; a connection becomes
    ESTABLISHED only by a segment that acknowledges everything sent; it returns to
    CLOSED only by a reset, by the acknowledgement of its last FIN, or by a SYN that
    does not fit the one being answered; and the close timer is set exactly when the
    connection enters TIME-WAIT. *)
Theorem rx_state_moves fm room junk s rxSar txSar :
  let m := fm_meta fm in
  let w := rx_segment fm room junk s rxSar txSar in
  exists s',
    omap rx_query w = [stateQuery_wr (fm_sessionID fm) s'] /\ tcp_move s s' /\
    (s' = ESTABLISHED -> s <> ESTABLISHED ->
       rm_ack m = true /\ rm_rst m = false /\ rm_ackNumb m = rtr_nextByte txSar) /\
    (s' = CLOSED -> s <> CLOSED ->
       rm_rst m = true \/ (s = LAST_ACK /\ rm_ackNumb m = rtr_nextByte txSar) \/
       rm_syn m = true /\ (s = SYN_RECEIVED \/ s = SYN_SENT)) /\
    (fm_sessionID fm ∈ omap rx_close_timer w <-> s' = TIME_WAIT /\ s <> TIME_WAIT).
Proof.
  intros m w. exists (rx_next_state fm s rxSar txSar).
  split; [apply rx_segment_queries|].
  assert (kind m = K_ACK -> rm_ack m = true /\ rm_rst m = false) as Hack
    by (unfold kind; repeat case_match; done).
  assert (kind m = K_SYN_ACK -> rm_ack m = true /\ rm_rst m = false /\ rm_syn m = true) as Hsa
    by (unfold kind; repeat case_match; done).
  assert (kind m = K_SYN -> rm_syn m = true) as Hsyn by (unfold kind; repeat case_match; done).
  split; [|split; [|split]].
  - unfold rx_next_state. repeat case_match; simplify_eq; constructor.
  - unfold rx_next_state. fold m. repeat case_match; simplify_eq; try done; intros _ _;
      bool_prop; naive_solver.
  - unfold rx_next_state. fold m. repeat case_match; simplify_eq; try done; intros _ _;
      bool_prop; naive_solver.
  - unfold w. rewrite rx_segment_close, elem_of_when, list_elem_of_singleton.
    unfold is_state. rewrite andb_true_iff, negb_true_iff, bool_decide_eq_true,
      bool_decide_eq_false. tauto.
Qed.

(** The test of an acknowledgement is the circular one.  The three comparisons of
    32-bit numbers accept exactly the acknowledgements whose distance from the last
    acknowledged byte, around the ring of sequence numbers, is at most that of the
    next byte to send. *)
Theorem ack_acceptable_circular fm txSar :
  let ack := rm_ackNumb (fm_meta fm) in
  in_width 32 ack -> in_width 32 (rtr_prevAck txSar) -> in_width 32 (rtr_nextByte txSar) ->
  ack_acceptable fm txSar =
    (seq_diff ack (rtr_prevAck txSar) <=? seq_diff (rtr_nextByte txSar) (rtr_prevAck txSar)).
Proof.
  intros ack Ha Hp Hn. unfold ack_acceptable, seq_diff. fold ack.
  generalize dependent (rtr_prevAck txSar). generalize dependent (rtr_nextByte txSar).
  generalize dependent ack. intros a Ha n Hn p Hp.
  assert (wrap 32 (a - p) = if p <=? a then a - p else a - p + 2 ^ 32) as ->
    by (case_match; wrap_lia).
  assert (wrap 32 (n - p) = if p <=? n then n - p else n - p + 2 ^ 32) as ->
    by (case_match; wrap_lia).
  unfold in_width in *. repeat case_match; lia.
Qed.

(** The congestion window grows without wrapping around.  An acknowledgement that
    is not a duplicate raises it by one segment in slow start and by 365 bytes after
    it, up to the maximum, and never past the width of the field; a duplicate leaves
    it alone and is counted modulo 4 if it carries no data. *)
Theorem rx_congestion_window fm txSar :
  config_ok C ->
  in_width WINDOW_BITS (rtr_cong_window txSar) ->
  in_width WINDOW_BITS (rtr_slowstart_threshold txSar) ->
  let m := fm_meta fm in
  let cwnd := rtr_cong_window txSar in
  let '(txSar', w) := rx_congestion fm txSar in
  in_width WINDOW_BITS (rtr_cong_window txSar') /\
  if (rm_ackNumb m =? rtr_prevAck txSar) && negb (rtr_prevAck txSar =? rtr_nextByte txSar)
  then
    rtr_cong_window txSar' = cwnd /\ w = [] /\
    rtr_count txSar' = if rm_length m =? 0 then (rtr_count txSar + 1) `mod` 4 else rtr_count txSar
  else
    rtr_cong_window txSar' =
      cwnd + (if cwnd <=? rtr_slowstart_threshold txSar - MSS then MSS
              else if cwnd <=? CONGESTION_WINDOW_MAX then 365 else 0) /\
    rtr_count txSar' = 0 /\ rtr_fastRetransmitted txSar' = false /\
    w = [W_rxEng2timer_clearProbeTimer (fm_sessionID fm)].
Proof.
  intros Hcfg Hc Hs. simpl. pose proof (mss_range C Hcfg).
  unfold rx_congestion. destruct (_ && _).
  - destruct (_ =? 0); simpl; done.
  - unfold CONGESTION_WINDOW_MAX, BUFFER_SIZE, in_width in *.
    assert (2 ^ WINDOW_BITS = 262144) as Hw by done. rewrite Hw in *.
    destruct (rtr_cong_window txSar <=? rtr_slowstart_threshold txSar - MSS) eqn:H1;
      [|destruct (rtr_cong_window txSar <=? 262144 - 2048) eqn:H2]; simpl; bool_prop;
      rewrite ?wrap_small by (unfold in_width; rewrite Hw; lia); split_and!; done || lia.
Qed.

(** A duplicate acknowledgement and the entry of the transmit window it leaves. *)
Definition duplicate_round (fm : rxFsmMetaData) (room : Z) (rxSar : rxSarEntry)
    (entry : txSarEntry) : txSarEntry * list event :=
  let '(txSar, _) := rx_congestion fm (TxSar.rx_sar_of_tx entry) in
  (fold_left (fun entry q => TxSar.rxEng_update q entry) (omap rx_tx_update (rx_tx_sar fm txSar)) entry,
   omap rx_event (rx_ack_event fm room rxSar txSar)).

Definition duplicate_rounds fm room rxSar := calls (duplicate_round fm room rxSar).

Lemma duplicate_round_eq fm room rxSar entry :
  FAST_RETRANSMIT = true -> rm_length (fm_meta fm) = 0 ->
  rm_ackNumb (fm_meta fm) = txe_ackd entry -> txe_ackd entry <> txe_not_ackd entry ->
  let count := wrap 2 (txe_count entry + 1) in
  let entry' := entry <| txe_recv_window := rm_winSize (fm_meta fm) |> <| txe_count := count |>
    <| txe_fastRetransmitted := (count =? 3) || txe_fastRetransmitted entry |> in
  duplicate_round fm room rxSar entry =
    (entry', when ((count =? 3) && negb (txe_fastRetransmitted entry)) [event2 RT (fm_sessionID fm)]).
Proof.
  intros Hf Hl Ha Hne. simpl. unfold duplicate_round, rx_congestion, TxSar.rx_sar_of_tx. simpl.
  rewrite Ha, Z.eqb_refl, Hl. replace (txe_ackd entry =? txe_not_ackd entry) with false by lia. simpl.
  unfold rx_tx_sar, ack_acceptable, rx_ack_event. simpl. rewrite Ha, Z.leb_refl, Hf, Hl. simpl.
  assert ((txe_ackd entry <=? txe_not_ackd entry) || (txe_not_ackd entry <? txe_ackd entry) = true)
    as -> by lia.
  simpl. f_equal. by destruct (_ && negb _).
Qed.

(** The third duplicate acknowledgement, and only it, triggers a fast retransmit.
    However many acknowledgements repeat the last one without data while bytes are
    outstanding, the transmit window table counting them, exactly one retransmission
    event is raised, at the third. *)
Theorem fast_retransmit_once fm room rxSar entry n :
  FAST_RETRANSMIT = true -> rm_length (fm_meta fm) = 0 ->
  rm_ackNumb (fm_meta fm) = txe_ackd entry -> txe_ackd entry <> txe_not_ackd entry ->
  txe_count entry = 0 -> txe_fastRetransmitted entry = false ->
  (duplicate_rounds fm room rxSar n entry).2 =
    when (3 <=? Z.of_nat n) [event2 RT (fm_sessionID fm)].
Proof.
  intros Hf Hl Ha Hne Hc Hfr. unfold duplicate_rounds.
  assert (let '(e', w) := calls (duplicate_round fm room rxSar) n entry in
    txe_ackd e' = txe_ackd entry /\ txe_not_ackd e' = txe_not_ackd entry /\
    txe_count e' = Z.of_nat n `mod` 4 /\ txe_fastRetransmitted e' = (3 <=? Z.of_nat n) /\
    w = when (3 <=? Z.of_nat n) [event2 RT (fm_sessionID fm)]) as H.
  { induction n as [|n IH]; [by split_and!|].
    replace (S n) with (n + 1)%nat by lia. rewrite calls_add.
    destruct (calls _ n entry) as [e1 w1]. destruct IH as (H1 & H2 & H3 & H4 & ->).
    simpl calls. cbn [fst snd]. rewrite duplicate_round_eq by congruence. simpl.
    rewrite H3, H4. assert (wrap 2 (Z.of_nat n `mod` 4 + 1) = Z.of_nat (n + 1) `mod` 4) as -> by wrap_lia.
    split_and!; try done.
    - destruct (3 <=? Z.of_nat n) eqn:Hn; [rewrite orb_true_r; lia|].
      rewrite orb_false_r. Z.div_mod_to_equations. lia.
    - rewrite app_nil_r. destruct (3 <=? Z.of_nat n) eqn:Hn; simpl.
      + rewrite andb_false_r. simpl. by replace (3 <=? Z.of_nat (n + 1)) with true by lia.
      + rewrite andb_true_r. f_equal. Z.div_mod_to_equations. lia. }
  destruct (calls _ n entry). apply H.
Qed.

(** A segment that starts at the gap and reaches into the data received after it. *)
Definition overlaps_gap (fm : rxFsmMetaData) (rxSar : rxSarEntry) : bool :=
  let m := fm_meta fm in
  negb RX_DDR_BYPASS && rxe_gap rxSar && (rm_seqNumb m =? rxe_recvd rxSar)
  && negb ((rm_seqNumb m =? rxe_head rxSar) && (rm_length m <? ooo_free_space rxSar))
  && (rxe_offset rxSar <? rm_seqNumb m + rm_length m).

(** The package dropper is told what to do with a payload once, except in two
    cases.  A segment with the flags ACK or FIN-ACK writes exactly one token if it
    has a payload and none otherwise, unless, acknowledging on an open connection, it
    starts at the gap and overlaps the data after it: then no token is written and
    the payload is neither stored nor dropped.  A SYN, a reset and every other
    combination of flags never write a token, even if the segment has a payload. *)
Theorem rx_drop_tokens fm room junk s rxSar txSar :
  let m := fm_meta fm in
  let tokens := omap rx_drop (rx_segment fm room junk s rxSar txSar) in
  length tokens =
    match kind m with
    | K_ACK => if rm_length m =? 0 then 0%nat
               else if ack_states s && overlaps_gap fm rxSar then 0%nat else 1%nat
    | K_FIN_ACK => if rm_length m =? 0 then 0%nat else 1%nat
    | _ => 0%nat
    end.
Proof.
  intros m tokens. subst tokens. unfold rx_segment. fold m. destruct (kind m) eqn:Hk.
  - unfold rx_ack. simpl. destruct (ack_states s) eqn:Hs.
    + assert (omap rx_drop (rx_congestion fm txSar).2 = []) as Hc
        by (handlers; repeat (case_match; simpl; try done)).
      destruct (rx_congestion fm txSar) as [txSar' w]. simpl in Hc.
      assert (omap rx_drop (rx_tx_sar fm txSar') = []) as Ht by (handlers; by case_match).
      assert (omap rx_drop (rx_ack_event fm room rxSar txSar') = []) as He
        by (handlers; repeat (case_match; simpl; try done)).
      assert (omap rx_drop (rx_ack_state fm s txSar') = []) as Ha
        by (handlers; repeat (case_match; simpl; try done)).
      rewrite !omap_app, Hc, Ht, He, Ha, !app_nil_r. simpl. clear Hc Ht He Ha.
      unfold rx_store, overlaps_gap. fold m. destruct (rm_length m =? 0); [done|]. simpl.
      destruct RX_DDR_BYPASS; simpl; handlers; [by case_match|]. fold m.
      repeat (case_match; simpl; try lia); bool_prop; lia.
    + handlers. fold m. destruct (rm_length m =? 0); done.
  - handlers. by repeat (case_match; simpl; try done).
  - handlers. by repeat (case_match; simpl; try done).
  - handlers. fold m. destruct (fin_states s && _); simpl.
    + destruct (rm_length m =? 0); simpl; repeat (case_match; simpl; try done).
    + by destruct (rm_length m =? 0).
  - handlers. by repeat (case_match; simpl; try done).
Qed.

(** A FIN is accepted without two of the checks made for other segments.  On an
    open connection an in-order FIN stores its payload whatever the free space of the
    buffer, overwriting bytes the application has not read, and passes its
    acknowledgement on to the transmit window whatever its value. *)
Theorem rx_fin_unchecked fm s rxSar txSar :
  RX_DDR_BYPASS = false -> fin_states s = true ->
  rxe_recvd rxSar = rm_seqNumb (fm_meta fm) -> rm_length (fm_meta fm) <> 0 ->
  write_payload fm ∈ rx_fin fm s rxSar txSar /\
  map rtq_ackd (omap rx_tx_update (rx_fin fm s rxSar txSar)) = [rm_ackNumb (fm_meta fm)].
Proof.
  intros Hd Hs Hr Hl. unfold rx_fin. rewrite Hd, Hs, Hr, Z.eqb_refl.
  replace (rm_length (fm_meta fm) =? 0) with false by lia. simpl. split.
  - set_solver.
  - handlers. repeat (case_match; simpl; try done).
Qed.
End RxEngine.

#[export] Existing Instances segment_kind_eq_dec eta_rxEngineMetaData zero_init_rxMeta zero_init_rxFsmMeta eta_rx_fsm_env.

Section RxWitnesses.

(** Session 7 receives a segment of 100 bytes at its next byte, acknowledging 500. *)
Definition demo_meta (length : Z) : rxFsmMetaData :=
  mkRxFsmMeta 7 1 80 (mkRxMeta 1000 500 64 0 length true false false false 5) 1234.

Lemma rx_fsm_releases_lock_witness :
  let C := sim_config false in
  let e := exec (rxTcpFSM (mkRxTxSarReply 0 0 0 0 0 false)) rx_fsm_arrive
    [Some (A_segment (demo_meta 100)); None; Some (A_state ESTABLISHED);
     Some (A_rxSar (mkRxSarEntry 1000 0 0 1000 0 false));
     Some (A_txSar (mkRxTxSarReply 400 500 4096 65536 0 false)); None] rx_fsm_init in
  omap rx_query e.2 = [stateQuery_rd 7; stateQuery_wr 7 ESTABLISHED] /\
  locked None (omap rx_query e.2) = Some None.
Proof.
  intros C e. split; [reflexivity|].
  apply (rx_fsm_releases_lock (C := C) (mkRxTxSarReply 0 0 0 0 0 false) e.2 e.1).
  apply exec_steps.
Defined.

Lemma ack_acceptable_circular_witness :
  let txSar := mkRxTxSarReply (2 ^ 32 - 100) 600 4096 65536 0 false in
  ack_acceptable (demo_meta 0) txSar = true /\
  ack_acceptable (demo_meta 0) txSar = (600 <=? 700).
Proof.
  split; [reflexivity|].
  refine (ack_acceptable_circular (demo_meta 0) (mkRxTxSarReply (2 ^ 32 - 100) 600 4096 65536 0 false)
    _ _ _); unfold in_width; simpl; lia.
Defined.

Lemma rx_congestion_window_witness :
  let C := sim_config false in
  let txSar := mkRxTxSarReply 400 500 4096 65536 0 false in
  rtr_cong_window (rx_congestion (demo_meta 0) txSar).1 = 8192.
Proof.
  intros C txSar.
  assert (in_width WINDOW_BITS 4096 /\ in_width WINDOW_BITS 65536) as [H1 H2] by (by vm_compute).
  pose proof (rx_congestion_window (C := C) (demo_meta 0) txSar (sim_config_ok false) H1 H2) as H.
  cbv zeta in H. destruct (rx_congestion (demo_meta 0) txSar) as [txSar' w].
  destruct H as [_ H]. vm_compute in H. exact (proj1 H).
Defined.

Lemma fast_retransmit_once_witness :
  let C := sim_config false in
  let entry := mkTxSarEntry 500 900 64 0 4096 65536 900 0 false false false in
  (duplicate_rounds (demo_meta 0) 0 zero_init 5 entry).2 = [event2 RT 7].
Proof.
  refine (fast_retransmit_once (C := sim_config false) (demo_meta 0) 0 zero_init
    (mkTxSarEntry 500 900 64 0 4096 65536 900 0 false false false) 5 _ _ _ _ _ _); simpl; done || lia.
Defined.

(** The application has read up to byte 1000 - 2^18 + 50: there is room for 49 bytes. *)
Lemma rx_fin_unchecked_witness :
  let C := sim_config false in
  let fm := demo_meta 100 in
  let rxSar := mkRxSarEntry 1000 1050 0 1000 0 false in
  ooo_free_space rxSar = 49 /\
  write_payload fm ∈ rx_fin fm ESTABLISHED rxSar (mkRxTxSarReply 400 450 4096 65536 0 false) /\
  map rtq_ackd (omap rx_tx_update
    (rx_fin fm ESTABLISHED rxSar (mkRxTxSarReply 400 450 4096 65536 0 false))) = [500].
Proof.
  split; [reflexivity|].
  exact (rx_fin_unchecked (C := sim_config false) (demo_meta 100) ESTABLISHED
    (mkRxSarEntry 1000 1050 0 1000 0 false) (mkRxTxSarReply 400 450 4096 65536 0 false)
    eq_refl eq_refl eq_refl ltac:(done)).
Defined.
End RxWitnesses.
