(* ===== verification/RxReceive.v ===== *)
(** * Reassembly of the received stream

    What the handling of payloads in [rxTcpFSM] amounts to.  The receive window entry
    of a session, its region of the buffer memory and the notifications sent to the
    application are put together ([recv]); a segment acts on them through the writes
    of the state machine, the application by moving its read pointer.  Positions in
    the stream are the sequence numbers themselves, which holds as long as they have
    not wrapped around; what the machine does beyond that is stated separately. *)

From S2P Require Import Prelude ToeTypes StateTable SarTables RxEngine.

Section RxReceive.
Context {C : ToeConfig}.
Variable id : Z.

(** ** The memory region of a session *)

(** The buffer memory, as the position in the stream of the byte an address holds. *)
Definition memory := gmap Z Z.

(** The [i]-th byte of a write at [saddr]: a write that reaches the end of a session's
    region goes on at its beginning. *)
Definition byte_addr (saddr i : Z) : Z := set_bits (WINDOW_BITS - 1) 0 (saddr + i) saddr.

Definition write_buffer (cmd : mmCmd) (pos : Z) (mem : memory) : memory :=
  fold_left (fun mem i => <[byte_addr (mc_saddr cmd) i := pos + i]> mem)
    (seqZ 0 (mc_bbt cmd)) mem.

Lemma byte_addr_buffer i p k : byte_addr (wrap 32 (buffer_addr i p)) k = buffer_addr i (p + k).
Proof.
  rewrite wrap_small by apply buffer_addr_width.
  rewrite !buffer_addr_eq. unfold byte_addr, set_bits, bits, wrap, WINDOW_BITS, WINDOW_SCALE_BITS.
  simpl. pow2. Z.div_mod_to_equations. lia.
Qed.

(** ** The state of reception *)
Record recv := mkRecv {
  rc_sar : table rxSarEntry;
  rc_mem : memory;
  rc_notified : Z;        (* bytes announced to the application, since the start *)
  rc_app : Z              (* the position up to which the application has read *)
}.
#[export] Instance eta_recv : Eta recv := fun s =>
  mkRecv (rc_sar s) (rc_mem s) (rc_notified s) (rc_app s).

Definition rc_entry (s : recv) : rxSarEntry := (rc_sar s).[id].

(** The effect of a write of the state machine, for a segment at [pos]. *)
Definition apply_write (pos : Z) (s : recv) (x : rx_fsm_write) : recv :=
  match x with
  | W_rxEng2rxSar_upd_req q => s <| rc_sar := RxSar.rxEng_update q (rc_sar s) |>
  | W_rxBufferWriteCmd cmd => s <| rc_mem := write_buffer cmd pos (rc_mem s) |>
  | W_rxEng2rxApp_notification n => s <| rc_notified := rc_notified s + an_length n |>
  | _ => s
  end.

Definition apply_writes (pos : Z) (s : recv) (w : list rx_fsm_write) : recv :=
  fold_left (apply_write pos) w s.

(** A segment is evaluated by the state machine; the application asks for [n] bytes. *)
Inductive recv_op :=
| Segment (fm : rxFsmMetaData) (tcpState : sessionState) (txSar : rxTxSarReply)
| Read (n : Z).

Definition recv_step (s : recv) (op : recv_op) : recv :=
  match op with
  | Segment fm tcpState txSar =>
      apply_writes (rm_seqNumb (fm_meta fm)) s
        (rx_segment fm 0 txSar tcpState (rc_entry s) txSar)
  | Read n =>
      s <| rc_app := rc_app s + n |>
        <| rc_sar := RxSar.rxApp_update
             (rxSarAppd_wr id (wrap WINDOW_BITS (rxe_appd (rc_entry s) + n))) (rc_sar s) |>
  end.

(** The start: the SYN with sequence number [start - 1] has set up the entry. *)
Definition recv_init (start win_shift : Z) : recv :=
  mkRecv (RxSar.rxEng_update (rxSarRecvd_init id start start 0 false win_shift) ∅) ∅ 0 start.

(** What is asked of the peer and of the application: segments with the ACK flag on an
    open connection, whose sequence numbers have not wrapped around and which do not
    reach a whole buffer beyond the data received; reads of announced bytes. *)
Definition op_ok (start : Z) (s : recv) (op : recv_op) : Prop :=
  match op with
  | Segment fm tcpState _ =>
      let m := fm_meta fm in
      kind m = K_ACK /\ ack_states tcpState = true /\ fm_sessionID fm = id /\
      0 <= rm_seqNumb m /\ in_width 16 (rm_length m) /\ rm_seqNumb m + rm_length m < 2 ^ 32 /\
      rm_seqNumb m + rm_length m < rxe_head (rc_entry s) + BUFFER_SIZE
  | Read n => 0 <= n /\ rc_app s + n <= start + rc_notified s
  end.

#[export] Instance op_ok_dec start s op : Decision (op_ok start s op).
Proof. destruct op; unfold op_ok; apply _. Defined.

Inductive reception (start win_shift : Z) : recv -> Prop :=
| reception_start : reception start win_shift (recv_init start win_shift)
| reception_step s op :
    reception start win_shift s -> op_ok start s op -> reception start win_shift (recv_step s op).

(** The positions whose bytes the receiver answers for. *)
Definition held (s : recv) (p : Z) : Prop :=
  let e := rc_entry s in
  rc_app s <= p < rxe_recvd e \/ (rxe_gap e = true /\ rxe_offset e <= p < rxe_head e).

(** ** The invariant *)
Record entry_ok (s : recv) : Prop := {
  ok_appd : rxe_appd (rc_entry s) = wrap WINDOW_BITS (rc_app s);
  ok_order : rc_app s <= rxe_recvd (rc_entry s) <= rxe_head (rc_entry s);
  ok_room : rxe_head (rc_entry s) < rc_app s + BUFFER_SIZE;
  ok_width : rxe_head (rc_entry s) < 2 ^ 32;
  ok_no_gap : rxe_gap (rc_entry s) = false -> rxe_head (rc_entry s) = rxe_recvd (rc_entry s);
  ok_gap : rxe_gap (rc_entry s) = true ->
    rxe_recvd (rc_entry s) < rxe_offset (rc_entry s) < rxe_head (rc_entry s)
}.

Definition memory_ok (s : recv) : Prop :=
  forall p, held s p -> rc_mem s !! buffer_addr id p = Some p.

Definition notified_ok (start : Z) (s : recv) : Prop :=
  0 <= rc_notified s <= rxe_recvd (rc_entry s) - start /\
  wrap 16 (rc_notified s) = wrap 16 (rxe_recvd (rc_entry s) - start).

Record recv_inv (start : Z) (s : recv) : Prop := {
  inv_start : 0 <= start <= rc_app s;
  inv_entry : entry_ok s;
  inv_memory : memory_ok s;
  inv_notified : notified_ok start s
}.

(** ** The memory after a write *)
Lemma fold_insert_other (f : Z -> Z) pos k n (mem : memory) a :
  (forall i, k <= i < k + n -> f i <> a) ->
  fold_left (fun mem i => <[f i := pos + i]> mem) (seqZ k n) mem !! a = mem !! a.
Proof.
  remember (Z.to_nat n) as l eqn:Hl. revert k n mem Hl.
  induction l as [|l IH]; intros k n mem Hl Hf.
  - by rewrite seqZ_nil by lia.
  - rewrite seqZ_cons by lia. simpl. rewrite IH by (try lia; intros; apply Hf; lia).
    apply lookup_insert_ne, Hf. lia.
Qed.

Lemma fold_insert_at (f : Z -> Z) pos k n (mem : memory) i :
  k <= i < k + n -> (forall j, k <= j < k + n -> f j = f i -> j = i) ->
  fold_left (fun mem i => <[f i := pos + i]> mem) (seqZ k n) mem !! f i = Some (pos + i).
Proof.
  remember (Z.to_nat n) as l eqn:Hl. revert k n mem Hl.
  induction l as [|l IH]; intros k n mem Hl Hi Hf; [lia|].
  rewrite seqZ_cons by lia. simpl. destruct (decide (i = k)) as [->|Hne].
  - rewrite fold_insert_other.
    + apply lookup_insert_eq.
    + intros j Hj He. apply Hf in He; lia.
  - apply IH; [lia|lia|]. intros j Hj. apply Hf. lia.
Qed.

Lemma wrap_window_inj p q :
  wrap WINDOW_BITS p = wrap WINDOW_BITS q -> q - BUFFER_SIZE < p < q + BUFFER_SIZE -> p = q.
Proof.
  unfold BUFFER_SIZE, WINDOW_BITS, WINDOW_SCALE_BITS, wrap. simpl. intros. pow2.
  Z.div_mod_to_equations. lia.
Qed.

(** The payload of a segment is stored at its positions, and nothing else within a
    buffer's length is touched. *)
Lemma write_payload_memory seq len mem p :
  in_width 16 len -> seq + len - BUFFER_SIZE <= p < seq + BUFFER_SIZE ->
  write_buffer (mmCmd_new (buffer_addr id (bits (WINDOW_BITS - 1) 0 seq)) len) seq mem
      !! buffer_addr id p =
    if decide (seq <= p < seq + len) then Some p else mem !! buffer_addr id p.
Proof.
  intros Hlen Hp. unfold write_buffer, mmCmd_new. simpl.
  rewrite (wrap_small 16), bits_0 by done. replace (WINDOW_BITS - 1 + 1) with WINDOW_BITS by done.
  rewrite buffer_addr_wrap. set (f := byte_addr _).
  assert (forall i, f i = buffer_addr id (seq + i)) as Hf by (intros; apply byte_addr_buffer).
  assert (65536 <= BUFFER_SIZE) by done. unfold in_width in Hlen. pow2.
  case_decide as Hin.
  - replace (buffer_addr id p) with (f (p - seq)) by (rewrite Hf; f_equal; lia).
    rewrite fold_insert_at; [f_equal; lia|lia|].
    intros j Hj. rewrite !Hf. intros He%buffer_addr_inj%wrap_window_inj; lia.
  - apply fold_insert_other. intros i Hi. rewrite Hf.
    intros He%buffer_addr_inj%wrap_window_inj; lia.
Qed.

(** ** What a segment does *)

(** The segments that are stored, and the entry and the notification they lead to. *)
Inductive accept (s : recv) (seq len : Z) : Z -> Z -> Z -> bool -> Z -> Prop :=
| accept_next :
    rxe_gap (rc_entry s) = false -> seq = rxe_recvd (rc_entry s) ->
    accept s seq len (seq + len) (seq + len) (rxe_offset (rc_entry s)) false len
| accept_ahead :
    rxe_gap (rc_entry s) = false -> rxe_recvd (rc_entry s) < seq ->
    accept s seq len (rxe_recvd (rc_entry s)) (seq + len) seq true 0
| accept_at_head :
    rxe_gap (rc_entry s) = true -> seq = rxe_head (rc_entry s) ->
    accept s seq len (rxe_recvd (rc_entry s)) (seq + len) (rxe_offset (rc_entry s)) true 0
| accept_fill :
    rxe_gap (rc_entry s) = true -> seq = rxe_recvd (rc_entry s) ->
    seq + len = rxe_offset (rc_entry s) ->
    accept s seq len (rxe_head (rc_entry s)) (rxe_head (rc_entry s)) (rxe_offset (rc_entry s)) false
      (wrap 16 (rxe_head (rc_entry s) - seq))
| accept_partial :
    rxe_gap (rc_entry s) = true -> seq = rxe_recvd (rc_entry s) ->
    seq + len < rxe_offset (rc_entry s) ->
    accept s seq len (seq + len) (rxe_head (rc_entry s)) (rxe_offset (rc_entry s)) true len.

Definition stored (s : recv) (fm : rxFsmMetaData) (recvd head offset : Z) (gap : bool) (n : Z) : recv :=
  mkRecv
    (RxSar.rxEng_update (rxSarRecvd_wr id recvd head offset gap) (rc_sar s))
    (write_buffer (mmCmd_new (buffer_addr id (bits (WINDOW_BITS - 1) 0 (rm_seqNumb (fm_meta fm))))
       (rm_length (fm_meta fm))) (rm_seqNumb (fm_meta fm)) (rc_mem s))
    (rc_notified s + n) (rc_app s).

Lemma stored_entry s fm recvd head offset gap n :
  rc_entry (stored s fm recvd head offset gap n) =
    rc_entry s <| rxe_recvd := recvd |> <| rxe_head := head |> <| rxe_offset := offset |>
      <| rxe_gap := gap |>.
Proof. unfold rc_entry, stored, RxSar.rxEng_update. simpl. by rewrite tget_tset_eq. Qed.

(** The writes of an acknowledgement that do not concern the payload. *)
Definition silent (x : rx_fsm_write) : Prop := forall pos s, apply_write pos s x = s.

Lemma apply_writes_app pos s w1 w2 :
  apply_writes pos s (w1 ++ w2) = apply_writes pos (apply_writes pos s w1) w2.
Proof. apply fold_left_app. Qed.

Lemma apply_writes_silent pos s w : Forall silent w -> apply_writes pos s w = s.
Proof. induction 1 as [|x w Hx _ IH]; [done|]. unfold apply_writes in *. simpl. by rewrite Hx. Qed.

Lemma segment_store fm tcpState s txSar :
  kind (fm_meta fm) = K_ACK -> ack_states tcpState = true ->
  recv_step s (Segment fm tcpState txSar) =
    apply_writes (rm_seqNumb (fm_meta fm)) s (rx_store fm 0 (rc_entry s)).
Proof.
  intros Hk Hs. unfold recv_step, rx_segment. rewrite Hk. unfold rx_ack. rewrite Hs.
  destruct (rx_congestion fm txSar) as [txSar' w] eqn:Hc.
  assert (Forall silent w) as Hw.
  { unfold rx_congestion in Hc. repeat case_match; simplify_eq; repeat constructor. }
  assert (Forall silent (rx_tx_sar fm txSar')) as Ht.
  { unfold rx_tx_sar, when. case_match; repeat constructor. }
  assert (Forall silent (rx_ack_event fm 0 (rc_entry s) txSar')) as He.
  { unfold rx_ack_event, when. repeat case_match; repeat constructor. }
  assert (Forall silent (rx_ack_state fm tcpState txSar')) as Ha.
  { unfold rx_ack_state, state_write. repeat case_match; repeat constructor. }
  change (?x :: ?l) with ([x] ++ l). rewrite !apply_writes_app.
  rewrite (apply_writes_silent _ _ _ Ha), (apply_writes_silent _ _ _ He).
  rewrite (apply_writes_silent _ s [_]) by (repeat constructor).
  by rewrite (apply_writes_silent _ _ _ Hw), (apply_writes_silent _ _ _ Ht).
Qed.

Lemma free_space_eq s :
  entry_ok s ->
  ooo_free_space (rc_entry s) = rc_app s + BUFFER_SIZE - 1 - rxe_head (rc_entry s).
Proof.
  intros [Ha Ho Hr _ _ _]. unfold ooo_free_space. rewrite Ha, bits_0.
  replace (WINDOW_BITS - 1 + 1) with WINDOW_BITS by done.
  revert Ho Hr. unfold BUFFER_SIZE, WINDOW_BITS, WINDOW_SCALE_BITS, wrap. simpl.
  intros. pow2. Z.div_mod_to_equations. lia.
Qed.

(** A stored segment lies in the free part of the buffer. *)
Definition accepted (s : recv) (fm : rxFsmMetaData) (s' : recv) : Prop :=
  exists recvd head offset gap n,
    accept s (rm_seqNumb (fm_meta fm)) (rm_length (fm_meta fm)) recvd head offset gap n /\
    rm_seqNumb (fm_meta fm) + rm_length (fm_meta fm) <= head < rc_app s + BUFFER_SIZE /\
    s' = stored s fm recvd head offset gap n.

(** Which segments are stored. *)
Definition acceptable (s : recv) (seq len : Z) : bool :=
  let e := rc_entry s in
  let fits := seq + len <? rc_app s + BUFFER_SIZE - 1 in
  negb (len =? 0) &&
  if rxe_gap e
  then ((seq =? rxe_head e) && fits) || ((seq =? rxe_recvd e) && (seq + len <=? rxe_offset e))
  else (rxe_recvd e <=? seq) && fits.

Lemma acceptable_pos s seq len : acceptable s seq len = true -> in_width 16 len -> 0 < len.
Proof. unfold acceptable, in_width. intros H Hl. bool_prop. lia. Qed.

Lemma segment_cases start s fm tcpState txSar :
  RX_DDR_BYPASS = false -> 0 <= rc_app s -> entry_ok s -> op_ok start s (Segment fm tcpState txSar) ->
  let s' := recv_step s (Segment fm tcpState txSar) in
  if acceptable s (rm_seqNumb (fm_meta fm)) (rm_length (fm_meta fm))
  then accepted s fm s' else s' = s.
Proof.
  intros Hd HA Hok (Hk & Hs & Hid & Hseq & Hlen & Hwidth & Hreach) s'. unfold s'. clear s'.
  rewrite segment_store by done. unfold rx_store, acceptable, accepted. rewrite Hd.
  set (seq := rm_seqNumb (fm_meta fm)) in *. set (len := rm_length (fm_meta fm)) in *.
  destruct (len =? 0) eqn:Hz; [done|]. simpl. bool_prop.
  unfold rx_store_ooo. fold seq len. rewrite (free_space_eq s Hok). set (e := rc_entry s) in *.
  pose proof (ok_order s Hok) as Ho. pose proof (ok_room s Hok) as Hr. fold e in Ho, Hr.
  pose proof (ok_no_gap s Hok) as Hng. pose proof (ok_gap s Hok) as Hg. fold e in Hng, Hg.
  assert (wrap 32 (seq + len) = seq + len) as Hend by (apply wrap_small; unfold in_width in *; lia).
  assert (wrap 16 len = len) as Hwl by by apply wrap_small.
  assert (0 < len) as Hpos by (unfold in_width in Hlen; lia).
  rewrite Hend. unfold notify, write_payload, sar_write, state_write. rewrite Hid. fold seq len.
  rewrite Hwl. unfold stored. fold seq len. change (rxe_gap (rc_entry s)) with (rxe_gap e).
  destruct (rxe_gap e) eqn:Hgap; simpl.
  - specialize (Hg eq_refl). replace (len <? rc_app s + BUFFER_SIZE - 1 - rxe_head e)
      with (rxe_head e + len <? rc_app s + BUFFER_SIZE - 1) by lia.
    destruct (seq =? rxe_head e) eqn:Hh; simpl; bool_prop.
    + rewrite Hh. replace (rxe_head e =? rxe_recvd e) with false by lia. rewrite orb_false_r.
      destruct (_ <? _) eqn:Hf; [|done]. bool_prop.
      exists (rxe_recvd e), (rxe_head e + len), (rxe_offset e), true, 0.
      split; [by apply accept_at_head|]. split; [lia|done].
    + destruct (seq =? rxe_recvd e) eqn:Hq; simpl; bool_prop; [|done].
      destruct (seq + len =? rxe_offset e) eqn:Ho1; bool_prop.
      * replace (seq + len <=? rxe_offset e) with true by lia.
        exists (rxe_head e), (rxe_head e), (rxe_offset e), false, (wrap 16 (rxe_head e - seq)).
        split; [by apply accept_fill|]. split; [lia|].
        by rewrite (bits_0 _ (rxe_head e - seq)), wrap_narrow
          by (unfold WINDOW_BITS, WINDOW_SCALE_BITS; lia).
      * destruct (seq + len <? rxe_offset e) eqn:Ho2; bool_prop.
        -- replace (seq + len <=? rxe_offset e) with true by lia.
           exists (seq + len), (rxe_head e), (rxe_offset e), true, len.
           split; [by apply accept_partial|]. split; [lia|done].
        -- by replace (seq + len <=? rxe_offset e) with false by lia.
  - specialize (Hng eq_refl). destruct (seq =? rxe_recvd e) eqn:Hq; simpl; bool_prop.
    + replace (rxe_recvd e <=? seq) with true by lia. replace (rxe_recvd e <? seq) with false by lia.
      replace (len <? rc_app s + BUFFER_SIZE - 1 - rxe_head e)
        with (seq + len <? rc_app s + BUFFER_SIZE - 1) by lia. simpl.
      destruct (_ <? _) eqn:Hf; [|done]. bool_prop.
      exists (seq + len), (seq + len), (rxe_offset e), false, len.
      split; [by apply accept_next|]. split; [lia|done].
    + destruct (rxe_recvd e <? seq) eqn:Hlt; bool_prop; simpl.
      * replace (rxe_recvd e <=? seq) with true by lia.
        assert (bits (WINDOW_BITS - 1) 0 (seq + len - rxe_head e) = seq + len - rxe_head e) as ->.
        { rewrite bits_0. apply wrap_small. unfold in_width.
          replace (WINDOW_BITS - 1 + 1) with WINDOW_BITS by done. fold BUFFER_SIZE. lia. }
        replace (seq + len - rxe_head e <? _) with (seq + len <? rc_app s + BUFFER_SIZE - 1) by lia.
        simpl. destruct (_ <? _) eqn:Hf; [|done]. bool_prop.
        exists (rxe_recvd e), (seq + len), seq, true, 0.
        split; [by apply accept_ahead|]. split; [lia|done].
      * by replace (rxe_recvd e <=? seq) with false by lia.
Qed.

(** ** The invariant is kept *)
Section Accepted.
Variables (s s' : recv) (fm : rxFsmMetaData).
Hypothesis s_ok : entry_ok s.
Hypothesis s_accepts : accepted s fm s'.
Hypothesis length_ok : in_width 16 (rm_length (fm_meta fm)).
Hypothesis length_pos : 0 < rm_length (fm_meta fm).
Hypothesis end_ok : rm_seqNumb (fm_meta fm) + rm_length (fm_meta fm) < 2 ^ 32.
Let seq := rm_seqNumb (fm_meta fm).
Let len := rm_length (fm_meta fm).

Lemma accepted_app : rc_app s' = rc_app s.
Proof. by destruct s_accepts as (? & ? & ? & ? & ? & _ & _ & ->). Qed.

Lemma accepted_entry : entry_ok s'.
Proof.
  destruct s_accepts as (recvd & head & offset & gap & n & Ha & Hh & ->).
  destruct s_ok as [H1 H2 H3 H4 H5 H6].
  split; rewrite stored_entry; simpl; try done; destruct Ha; simpl in *; intros;
    try discriminate; try specialize (H5 ltac:(done)); try specialize (H6 ltac:(done)); lia.
Qed.

(** The receiver answers for what it answered for before, and for the payload. *)
Lemma accepted_held p : held s' p <-> held s p \/ seq <= p < seq + len.
Proof.
  destruct s_accepts as (recvd & head & offset & gap & n & Ha & Hh & ->).
  destruct s_ok as [H1 H2 H3 H4 H5 H6]. unfold held. rewrite stored_entry. simpl.
  fold seq len in Ha, Hh.
  destruct Ha; try specialize (H5 ltac:(done)); try specialize (H6 ltac:(done));
    intuition (try discriminate; try lia).
Qed.

Lemma held_range p : entry_ok s -> held s p -> rc_app s <= p < rxe_head (rc_entry s).
Proof.
  intros [H1 H2 H3 H4 H5 H6] [H|[Hg H]]; [|specialize (H6 Hg)]; lia.
Qed.

Lemma accepted_start : rc_app s <= seq /\ seq + len < rc_app s + BUFFER_SIZE.
Proof.
  destruct s_accepts as (recvd & head & offset & gap & n & Ha & Hh & _). fold seq len in Ha, Hh.
  destruct s_ok as [H1 H2 H3 H4 H5 H6].
  destruct Ha; try specialize (H5 ltac:(done)); try specialize (H6 ltac:(done)); lia.
Qed.

Lemma accepted_memory : memory_ok s -> memory_ok s'.
Proof.
  intros Hm p. rewrite accepted_held. intros Hp.
  destruct accepted_start as [Hs1 Hs2].
  assert (rc_app s <= p < rc_app s + BUFFER_SIZE) as Hr.
  { destruct Hp as [Hp|Hp]; [|lia]. pose proof (held_range p s_ok Hp).
    pose proof (ok_room s s_ok). lia. }
  assert (rc_mem s' = write_buffer (mmCmd_new (buffer_addr id (bits (WINDOW_BITS - 1) 0 seq)) len)
    seq (rc_mem s)) as ->.
  { by destruct s_accepts as (? & ? & ? & ? & ? & _ & _ & ->). }
  rewrite write_payload_memory by (done || lia). case_decide; [done|].
  apply Hm. tauto.
Qed.

Lemma accepted_notified start : notified_ok start s -> notified_ok start s'.
Proof.
  destruct s_accepts as (recvd & head & offset & gap & n & Ha & Hh & ->). intros [Hn1 Hn2].
  destruct s_ok as [H1 H2 H3 H4 H5 H6]. unfold notified_ok. rewrite stored_entry. simpl.
  fold seq len in Ha. fold len in length_ok, length_pos. revert Hn1 Hn2.
  destruct Ha; try specialize (H5 ltac:(done)); try specialize (H6 ltac:(done)); simpl; intros;
    wrap_lia.
Qed.

Lemma accepted_inv start : recv_inv start s -> recv_inv start s'.
Proof.
  intros [H1 H2 H3 H4]. split; rewrite ?accepted_app;
    auto using accepted_entry, accepted_memory, accepted_notified.
Qed.
End Accepted.

Lemma read_entry s n :
  rc_entry (recv_step s (Read n)) =
    rc_entry s <| rxe_appd := wrap WINDOW_BITS (rxe_appd (rc_entry s) + n) |>.
Proof. unfold rc_entry, recv_step, RxSar.rxApp_update. simpl. by rewrite tget_tset_eq. Qed.

Lemma read_inv start s n :
  op_ok start s (Read n) -> recv_inv start s -> recv_inv start (recv_step s (Read n)).
Proof.
  intros [Hn Hr] [Hs [H1 H2 H3 H4 H5 H6] Hm [N1 N2]]. split.
  - simpl. lia.
  - split; rewrite read_entry; simpl; try done; try lia. by rewrite H1, wrap_add_l.
  - intros p Hp. apply Hm. revert Hp. unfold held. rewrite read_entry. simpl. intuition lia.
  - unfold notified_ok. by rewrite read_entry.
Qed.

Lemma reception_inv start win_shift s :
  RX_DDR_BYPASS = false -> 0 <= start < 2 ^ 32 ->
  reception start win_shift s -> recv_inv start s.
Proof.
  intros Hd Hstart. induction 1 as [|s [fm tcpState txSar|n] _ IH Hop].
  - assert (rc_entry (recv_init start win_shift) =
      mkRxSarEntry start (wrap WINDOW_BITS start) win_shift start 0 false) as He.
    { unfold rc_entry, recv_init, RxSar.rxEng_update. simpl. by rewrite tget_tset_eq. }
    split; [simpl; lia|split; rewrite He; simpl; done || (try lia)|..].
    + assert (0 < BUFFER_SIZE) by done. lia.
    + intros p Hp. exfalso. revert Hp. unfold held. rewrite He. simpl. intuition (lia || discriminate).
    + unfold notified_ok. rewrite He. simpl. by rewrite Z.sub_diag.
  - pose proof (segment_cases start s fm tcpState txSar Hd
      ltac:(destruct IH; lia) ltac:(by destruct IH) Hop) as Hc. cbv zeta in Hc.
    destruct (acceptable _ _ _) eqn:Hacc; [|by rewrite Hc].
    destruct Hop as (_ & _ & _ & _ & Hlen & Hw & _).
    apply (accepted_inv s _ fm); try done; [by destruct IH|].
    by apply (acceptable_pos s (rm_seqNumb (fm_meta fm))).
  - by apply read_inv.
Qed.

(** ** Properties of reassembly *)


(** The set of positions held, as [recvd], [head], [offset] and [gap] describe it. *)
Definition represents (s : recv) (P : Z -> Prop) : Prop :=
  (forall p, held s p <-> P p) /\
  (forall p, rc_app s <= p < rxe_recvd (rc_entry s) -> P p) /\ ~ P (rxe_recvd (rc_entry s)) /\
  (forall p, P p -> rc_mem s !! buffer_addr id p = Some p).

(** C5: the four pointers implement a set of bytes.  A segment that [acceptable] admits
    adds exactly its positions to the set of bytes held and stores its payload there; any
    other segment changes nothing.  In both cases [recvd] is the first byte missing, so
    that the acknowledgement sent is that of the set.  The next byte missing is always
    admitted if there is room and the segment does not overlap data after the gap. *)
Theorem rx_segment_refines_set start win_shift s fm tcpState txSar :
  RX_DDR_BYPASS = false -> 0 <= start < 2 ^ 32 -> reception start win_shift s ->
  op_ok start s (Segment fm tcpState txSar) ->
  let s' := recv_step s (Segment fm tcpState txSar) in
  let seq := rm_seqNumb (fm_meta fm) in
  let len := rm_length (fm_meta fm) in
  represents s' (fun p => held s p \/ (acceptable s seq len = true /\ seq <= p < seq + len)) /\
  (acceptable s seq len = false -> s' = s) /\
  (len <> 0 -> seq = rxe_recvd (rc_entry s) -> seq + len < rc_app s + BUFFER_SIZE - 1 ->
   (rxe_gap (rc_entry s) = true -> seq + len <= rxe_offset (rc_entry s)) ->
   acceptable s seq len = true /\ rxe_recvd (rc_entry s) < rxe_recvd (rc_entry s')).
Proof.
  intros Hd Hs Hr Hop s' seq len.
  pose proof (reception_inv start win_shift s Hd Hs Hr) as Hi.
  pose proof (reception_inv _ _ _ Hd Hs (reception_step _ _ _ _ Hr Hop)) as Hi'. fold s' in Hi'.
  pose proof (segment_cases start s fm tcpState txSar Hd
    ltac:(destruct Hi; lia) ltac:(by destruct Hi) Hop) as Hc. cbv zeta in Hc.
  fold s' seq len in Hc.
  assert (forall p, held s' p <-> held s p \/ (acceptable s seq len = true /\ seq <= p < seq + len)) as Hh.
  { intros p. destruct (acceptable s seq len) eqn:Ha.
    - apply acceptable_pos in Ha; [|apply Hop].
      rewrite (accepted_held s s' fm (inv_entry _ _ Hi) Hc Ha). fold seq len. tauto.
    - rewrite Hc. intuition discriminate. }
  split; [|split].
  - destruct Hi' as [_ [_ _ _ _ H5 H6] Hm _]. split; [done|]. split_and!.
    + intros p Hp. apply Hh. by left.
    + rewrite <- Hh. intros [Hp|[Hg Hp]]; [lia|specialize (H6 Hg); lia].
    + intros p Hp. by apply Hm, Hh.
  - by intros Hf; rewrite Hf in Hc.
  - intros Hl Hq Hroom Hover. destruct Hi as [_ [_ H2 _ _ H5 H6] _ _].
    assert (acceptable s seq len = true) as Ha.
    { unfold acceptable. destruct (rxe_gap (rc_entry s)); [specialize (Hover eq_refl)|];
        rewrite ?andb_true_iff, ?orb_true_iff, negb_true_iff; lia. }
    split; [done|]. rewrite Ha in Hc. destruct Hop as (_ & _ & _ & _ & Hlen & _).
    destruct Hc as (recvd & head & offset & gap & n & Hacc & _ & ->). rewrite stored_entry. simpl.
    fold seq len in Hacc, Hlen. unfold in_width in Hlen.
    destruct Hacc; try specialize (H6 ltac:(done)); lia.
Qed.

(** ** Where the pointers leave the set *)

(** Filling a gap may announce too few bytes.  The length of a notification has 16
    bits, the data behind a gap up to 18: if the bytes from the filled gap to [head] are
    65536 or more, the application is told of fewer bytes than have become available,
    and none of the later notifications makes up for it. *)
Theorem gap_fill_truncated start win_shift s fm tcpState txSar :
  let e := rc_entry s in
  let seq := rm_seqNumb (fm_meta fm) in
  let s' := recv_step s (Segment fm tcpState txSar) in
  RX_DDR_BYPASS = false -> 0 <= start < 2 ^ 32 -> reception start win_shift s ->
  op_ok start s (Segment fm tcpState txSar) ->
  rxe_gap e = true -> seq = rxe_recvd e -> seq + rm_length (fm_meta fm) = rxe_offset e ->
  rxe_recvd (rc_entry s') = rxe_head e /\
  rc_notified s' = rc_notified s + wrap 16 (rxe_head e - rxe_recvd e) /\
  (2 ^ 16 <= rxe_head e - rxe_recvd e ->
     rc_notified s' + 2 ^ 16 <= rxe_recvd (rc_entry s') - start).
Proof.
  intros e seq s' Hd Hs Hr Hop Hg Hq Ho.
  pose proof (reception_inv start win_shift s Hd Hs Hr) as Hi.
  pose proof (segment_cases start s fm tcpState txSar Hd
    ltac:(destruct Hi; lia) ltac:(by destruct Hi) Hop) as Hc. cbv zeta in Hc. fold s' seq in Hc.
  destruct Hi as [_ [_ H2 _ _ _ H6] _ [N1 _]]. fold e in H2, H6, N1. specialize (H6 Hg).
  assert (acceptable s seq (rm_length (fm_meta fm)) = true) as Ha.
  { unfold acceptable. fold e. rewrite Hg, andb_true_iff, negb_true_iff, orb_true_iff, !andb_true_iff. lia. }
  rewrite Ha in Hc. destruct Hc as (recvd & head & offset & gap & n & Hacc & _ & ->).
  rewrite stored_entry. simpl. fold seq in Hacc. unfold e in *.
  destruct Hacc; try congruence; try lia. rewrite Hq. split_and!; try done.
  intros. wrap_lia.
Qed.

(** A connection whose sequence numbers have wrapped around: everything up to [recvd]
    has been received and read. *)
Definition all_read (e : rxSarEntry) : Prop :=
  rxe_gap e = false /\ rxe_head e = rxe_recvd e /\ rxe_appd e = wrap WINDOW_BITS (rxe_recvd e).

(** After the sequence numbers have wrapped around, an old segment opens a gap.  The
    numbers are compared as integers: a repeated segment from before the wrap, of bytes
    received and read long ago, counts as ahead of [recvd]; it is stored, and [head] and
    [offset] move to it.  From then on the segments in order are taken for parts of
    that gap and stored without regard to the free space of the buffer. *)
Theorem old_segment_opens_gap fm next e :
  let seq := rm_seqNumb (fm_meta fm) in
  let len := rm_length (fm_meta fm) in
  let e' := e <| rxe_head := wrap 32 (seq + len) |> <| rxe_offset := seq |> <| rxe_gap := true |> in
  all_read e -> in_width 16 len -> 0 < len -> 0 <= rxe_recvd e < seq -> seq < 2 ^ 32 ->
  seq_diff (rxe_recvd e) seq < BUFFER_SIZE -> len + 1 < seq_diff (rxe_recvd e) seq ->
  sar_write fm (rxe_recvd e) (rxe_head e') (rxe_offset e') true ∈ rx_store_ooo fm e /\
  write_payload fm ∈ rx_store_ooo fm e /\
  (rm_seqNumb (fm_meta next) = rxe_recvd e ->
   rm_seqNumb (fm_meta next) + rm_length (fm_meta next) < seq ->
   rxe_recvd e <> rxe_head e' ->
   write_payload next ∈ rx_store_ooo next e').
Proof.
  intros seq len e' (Hg & Hh & Ha) Hlen Hl1 Hrecvd Hseq Hold1 Hold2.
  assert (bits (WINDOW_BITS - 1) 0 (seq + len - rxe_head e) <? ooo_free_space e = true) as Hroom.
  { unfold ooo_free_space. rewrite Hh, Ha, !bits_0.
    replace (WINDOW_BITS - 1 + 1) with WINDOW_BITS by done.
    revert Hlen Hold1 Hold2. unfold seq_diff, BUFFER_SIZE, WINDOW_BITS, WINDOW_SCALE_BITS. simpl.
    change (16 + 2) with 18. intros. wrap_lia. }
  assert (rx_store_ooo fm e = [sar_write fm (rxe_recvd e) (wrap 32 (seq + len)) seq true;
    notify fm 0; write_payload fm; W_dropDataFifoOut false]) as ->.
  { unfold rx_store_ooo. fold seq len. rewrite Hg.
    replace (seq =? rxe_recvd e) with false by lia. replace (rxe_recvd e <? seq) with true by lia.
    simpl. by rewrite Hroom. }
  split; [set_solver|]. split; [set_solver|].
  intros Hn1 Hn2 Hn3. unfold rx_store_ooo. unfold e' in *. simpl in *. rewrite Hn1, Z.eqb_refl in *.
  replace (rxe_recvd e =? wrap 32 (seq + len)) with false by lia.
  replace (rxe_recvd e + rm_length (fm_meta next) =? seq) with false by lia.
  replace (rxe_recvd e + rm_length (fm_meta next) <? seq) with true by lia. set_solver.
Qed.
End RxReceive.

#[export] Existing Instances eta_recv op_ok_dec.

Section ReceiveWitnesses.
Local Instance demo_config : ToeConfig := sim_config false.

Definition demo_segment (seq len : Z) : rxFsmMetaData :=
  mkRxFsmMeta 7 1 80 (mkRxMeta seq 500 64 0 len true false false false 5) 1234.
Definition demo_tx : rxTxSarReply := mkRxTxSarReply 400 500 4096 65536 0 false.
Definition demo_op (seq len : Z) : recv_op := Segment (demo_segment seq len) ESTABLISHED demo_tx.
Definition demo_run (ops : list recv_op) : recv := fold_left (recv_step 7) ops (recv_init 7 1000 2).

(** A run without the memory, which decides neither what is acceptable nor the pointers. *)
Definition not_memory (x : rx_fsm_write) : bool :=
  match x with W_rxBufferWriteCmd _ => false | _ => true end.

Definition quick_step (s : recv) (op : recv_op) : recv :=
  match op with
  | Segment fm tcpState txSar =>
      apply_writes (rm_seqNumb (fm_meta fm)) s
        (List.filter not_memory
           (rx_segment fm 0 txSar tcpState (rc_entry 7 s) txSar))
  | Read n => recv_step 7 s (Read n)
  end.

Definition erase (s : recv) : recv := s <| rc_mem := ∅ |>.

Lemma erase_writes pos w s t :
  erase s = erase t ->
  erase (apply_writes pos s w) =
    erase (apply_writes pos t (List.filter not_memory w)).
Proof.
  revert s t. induction w as [|x w IH]; intros s t He; [done|].
  unfold apply_writes in *. simpl.
  destruct s, t, x; unfold erase in He; simpl in *; simplify_eq; by apply IH.
Qed.

Lemma erase_step s t op : erase s = erase t -> erase (recv_step 7 s op) = erase (quick_step t op).
Proof.
  intros He. assert (rc_sar s = rc_sar t) as Hs by (destruct s, t; unfold erase in He; by simplify_eq).
  destruct op as [fm tcpState txSar|n]; simpl; unfold rc_entry; rewrite Hs.
  - by apply erase_writes.
  - destruct s, t. unfold erase in *. simpl in *. by simplify_eq.
Qed.

Lemma erase_run ops s : erase (fold_left (recv_step 7) ops s) = erase (fold_left quick_step ops s).
Proof.
  assert (forall s t, erase s = erase t ->
    erase (fold_left (recv_step 7) ops s) = erase (fold_left quick_step ops t)) as H.
  { induction ops as [|op ops IH]; intros s1 t1 He; [done|]. by apply IH, erase_step. }
  by apply H.
Qed.

Lemma op_ok_erase s t op : erase s = erase t -> op_ok 7 1000 s op -> op_ok 7 1000 t op.
Proof.
  intros He. assert (rc_sar s = rc_sar t /\ rc_notified s = rc_notified t /\ rc_app s = rc_app t)
    as (H1 & H2 & H3) by (destruct s, t; unfold erase in He; by simplify_eq).
  destruct op; unfold op_ok, rc_entry; by rewrite ?H1, ?H2, ?H3.
Qed.

Fixpoint ops_ok (ops : list recv_op) (s : recv) : bool :=
  match ops with
  | [] => true
  | op :: ops => bool_decide (op_ok 7 1000 s op) && ops_ok ops (quick_step s op)
  end.

Lemma demo_reception ops : ops_ok ops (recv_init 7 1000 2) = true -> reception 7 1000 2 (demo_run ops).
Proof.
  unfold demo_run. pose proof (reception_start 7 1000 2) as Hr. revert Hr.
  assert (forall s t, erase s = erase t -> reception 7 1000 2 s -> ops_ok ops t = true ->
    reception 7 1000 2 (fold_left (recv_step 7) ops s)) as H; [|by apply H].
  induction ops as [|op ops IH]; intros s t He Hs Hok; [done|]. simpl in *. bool_prop.
  apply (IH _ (quick_step t op)); [by apply erase_step| |done].
  apply reception_step; [done|]. by apply (op_ok_erase t).
Qed.

(** The operation that follows a run. *)
Lemma demo_op_ok ops op :
  op_ok 7 1000 (fold_left quick_step ops (recv_init 7 1000 2)) op -> op_ok 7 1000 (demo_run ops) op.
Proof. apply op_ok_erase. unfold demo_run. by rewrite erase_run. Qed.

Lemma demo_pointers ops :
  rc_entry 7 (demo_run ops) = rc_entry 7 (fold_left quick_step ops (recv_init 7 1000 2)) /\
  rc_notified (demo_run ops) = rc_notified (fold_left quick_step ops (recv_init 7 1000 2)) /\
  rc_app (demo_run ops) = rc_app (fold_left quick_step ops (recv_init 7 1000 2)).
Proof.
  pose proof (erase_run ops (recv_init 7 1000 2)) as He. unfold demo_run, rc_entry.
  destruct (fold_left (recv_step 7) ops _), (fold_left quick_step ops _). unfold erase in He.
  simpl in *. by simplify_eq.
Qed.

(** A segment ahead of the next byte, then the bytes between, then a read. *)
Definition demo_ops : list recv_op := [demo_op 1005 5; demo_op 1000 5; Read 3].


Lemma rx_segment_refines_set_witness :
  let s := demo_run [demo_op 1005 5] in
  let s' := recv_step 7 s (demo_op 1000 5) in
  acceptable 7 s 1000 5 = true /\ rxe_recvd (rc_entry 7 s) < rxe_recvd (rc_entry 7 s').
Proof.
  refine (proj2 (proj2 (rx_segment_refines_set 7 1000 2 (demo_run [demo_op 1005 5])
    (demo_segment 1000 5) ESTABLISHED demo_tx eq_refl _ _ _)) _ _ _ _).
  - lia.
  - apply demo_reception. by vm_compute.
  - apply demo_op_ok, (bool_decide_unpack _). by vm_compute.
  - done.
  - by vm_compute.
  - by vm_compute.
  - intros _. by vm_compute.
Defined.

(** 71000 bytes become available, 5464 are announced. *)
Definition demo_gap : list recv_op := [demo_op 2000 35000; demo_op 37000 35000].

Lemma demo_gap_entry :
  rc_entry 7 (demo_run demo_gap) = mkRxSarEntry 1000 1000 2 72000 2000 true.
Proof. destruct (demo_pointers demo_gap) as (-> & _ & _). by vm_compute. Qed.

Lemma demo_gap_notified : rc_notified (demo_run demo_gap) = 0.
Proof. destruct (demo_pointers demo_gap) as (_ & -> & _). by vm_compute. Qed.

Lemma demo_gap_reception : reception 7 1000 2 (demo_run demo_gap).
Proof. apply demo_reception. by vm_compute. Qed.

Lemma demo_gap_op_ok : op_ok 7 1000 (demo_run demo_gap) (demo_op 1000 1000).
Proof. apply demo_op_ok, (bool_decide_unpack _). by vm_compute. Qed.

Lemma gap_fill_truncated_witness :
  let s' := recv_step 7 (demo_run demo_gap) (demo_op 1000 1000) in
  rxe_recvd (rc_entry 7 s') - 1000 = 71000 /\ rc_notified s' = 5464.
Proof.
  generalize demo_gap_entry demo_gap_notified demo_gap_reception demo_gap_op_ok.
  generalize (demo_run demo_gap). intros s He Hn Hd Hop.
  pose proof (gap_fill_truncated 7 1000 2 s (demo_segment 1000 1000) ESTABLISHED
    demo_tx eq_refl ltac:(lia) Hd Hop) as H. cbv zeta in *. rewrite He, Hn in H.
  destruct (H eq_refl eq_refl eq_refl) as (Hr & Hs & _). unfold demo_op.
  rewrite Hr, Hs. by split.
Defined.

(** Byte 100 of the second round is next; bytes -200 to -101 are sent again. *)
Lemma old_segment_opens_gap_witness :
  let e := mkRxSarEntry 100 100 2 100 0 false in
  write_payload (demo_segment (2 ^ 32 - 200) 100) ∈ rx_store_ooo (demo_segment (2 ^ 32 - 200) 100) e.
Proof.
  refine (proj1 (proj2 (old_segment_opens_gap (demo_segment (2 ^ 32 - 200) 100) (demo_segment 100 4)
    (mkRxSarEntry 100 100 2 100 0 false) _ _ _ _ _ _ _))); by vm_compute.
Defined.
End ReceiveWitnesses.
