(* ===== verification/RxPipeline.v ===== *)
(** * The stages around the TCP state machine of the receive path ([toe/rx_engine])

    [parse_optional_header_fields] looks for the window scale among the options of a
    SYN and [merge_header_meta] adds it to the metadata; [rxMetadataHandler] turns
    away segments for closed ports and looks up the session; [rxPackageDropper] lets
    the payload through for which both it and the state machine say so;
    [rxAppNotificationDelayer] holds a notification back until the payload is in
    memory, and [rxEventMerger] merges the events of the two machines. *)

From S2P Require Import Prelude Streams Words ToeTypes StateTable RxEngine.

Section RxPipeline.

(** ** [parse_optional_header_fields] *)
Record parse_env := mkParseEnv {
  po_parsing : bool;             (* state == PARSE *)
  po_dataOffset : Z;
  po_fields : Z;
  dataOffsetIn : stream Z;
  optionalHeaderFieldsIn : stream Z
}.
#[export] Instance eta_parse_env : Eta parse_env := fun e =>
  mkParseEnv (po_parsing e) (po_dataOffset e) (po_fields e) (dataOffsetIn e)
    (optionalHeaderFieldsIn e).

Definition parse_init : parse_env := mkParseEnv false 0 0 [] [].

Definition parse_optional_header_fields (e : parse_env) : parse_env * list Z :=
  if po_parsing e then
    let fields := po_fields e in
    let optionKind := bits 7 0 fields in
    let optionLength := if optionKind =? 1 then 1 else bits 15 8 fields in
    let '(parsing, w) :=
      if optionKind =? 0 then (false, [0])
      else if optionKind =? 1 then (true, [])
      else if optionKind =? 3 then (false, [bits 19 16 fields])
      else if po_dataOffset e =? optionLength then (false, [0])
      else (true, []) in
    (e <| po_parsing := parsing |>
       <| po_dataOffset := wrap 4 (po_dataOffset e - optionLength) |>
       <| po_fields := Z.shiftr (wrap 320 fields) (optionLength * 8) |>, w)
  else
    match dataOffsetIn e, optionalHeaderFieldsIn e with
    | offset :: offsets, fields :: fieldss =>
        (mkParseEnv true (wrap 4 offset) (wrap 320 fields) offsets fieldss, [])
    | _, _ => (e, [])
    end.

(** ** [merge_header_meta] *)
Record merge_env := mkMergeEnv {
  mm_waiting : bool;             (* state == 1 *)
  mm_meta : rxEngineMetaData;
  rxEng_winScaleFifo : stream Z;
  rxEng_headerMetaFifo : stream rxEngineMetaData
}.
#[export] Instance eta_merge_env : Eta merge_env := fun e =>
  mkMergeEnv (mm_waiting e) (mm_meta e) (rxEng_winScaleFifo e) (rxEng_headerMetaFifo e).

Definition merge_header_meta (e : merge_env) : merge_env * list rxEngineMetaData :=
  if mm_waiting e then
    match rxEng_winScaleFifo e with
    | winScale :: rest =>
        let meta := mm_meta e <| rm_winScale := winScale |> in
        (e <| rxEng_winScaleFifo := rest |> <| mm_meta := meta |> <| mm_waiting := false |>, [meta])
    | [] => (e, [])
    end
  else
    match rxEng_headerMetaFifo e with
    | meta :: rest =>
        let e := e <| rxEng_headerMetaFifo := rest |> in
        if rm_syn meta && (5 <? rm_dataOffset meta)
        then (e <| mm_meta := meta |> <| mm_waiting := true |>, [])
        else let meta := meta <| rm_winScale := 0 |> in
             (e <| mm_meta := meta |>, [meta])
    | [] => (e, [])
    end.

(** ** [rxMetadataHandler] *)
Inductive mh_write :=
| W_rxEng2sLookup_req (q : sessionLookupQuery)
| W_mh_setEvent (ev : extendedEvent)
| W_mh_dropDataFifoOut (b : bool)
| W_fsmMetaDataFifo (m : rxFsmMetaData).

Record mh_env := mkMhEnv {
  mh_lookup : bool;              (* mh_state == LOOKUP *)
  mh_meta : rxEngineMetaData;
  mh_srcIpAddress : Z;
  mh_dstIpPort : Z;
  mh_srcIpPort : Z;
  mh_metaDataFifoIn : stream rxEngineMetaData;
  mh_sLookup2rxEng_rsp : stream sessionLookupReply;
  mh_portTable2rxEng_rsp : stream bool;
  mh_tupleBufferIn : stream fourTuple
}.
#[export] Instance eta_mh_env : Eta mh_env := fun e =>
  mkMhEnv (mh_lookup e) (mh_meta e) (mh_srcIpAddress e) (mh_dstIpPort e) (mh_srcIpPort e)
    (mh_metaDataFifoIn e) (mh_sLookup2rxEng_rsp e) (mh_portTable2rxEng_rsp e) (mh_tupleBufferIn e).

Definition mh_init : mh_env := mkMhEnv false zero_init 0 0 0 [] [] [] [].

Definition switchedTuple (t : fourTuple) : fourTuple :=
  mkFourTuple (ft_dstIp t) (ft_srcIp t) (ft_dstPort t) (ft_srcPort t).

(** The reset for a segment to a closed port. *)
Definition closed_port_reset (meta : rxEngineMetaData) (tuple : fourTuple) : extendedEvent :=
  mkExtendedEvent
    (rstEvent_noSession
       (wrap 32 (rm_seqNumb meta + rm_length meta
                 + (if rm_syn meta || rm_fin meta then 1 else 0))))
    (switchedTuple tuple).

Definition rxMetadataHandler (e : mh_env) : mh_env * list mh_write :=
  if mh_lookup e then
    match mh_sLookup2rxEng_rsp e with
    | lup :: rest =>
        let meta := mh_meta e in
        (e <| mh_sLookup2rxEng_rsp := rest |> <| mh_lookup := false |>,
         when (slr_hit lup)
           [W_fsmMetaDataFifo (mkRxFsmMeta (slr_sessionID lup) (mh_srcIpAddress e)
              (mh_dstIpPort e) meta (mh_srcIpPort e))]
         ++ when (nonzero (rm_length meta)) [W_mh_dropDataFifoOut (negb (slr_hit lup))])
    | [] => (e, [])
    end
  else
    match mh_metaDataFifoIn e, mh_portTable2rxEng_rsp e, mh_tupleBufferIn e with
    | meta :: metas, portIsOpen :: ports, tuple :: tuples =>
        let e := e <| mh_metaDataFifoIn := metas |> <| mh_portTable2rxEng_rsp := ports |>
                   <| mh_tupleBufferIn := tuples |> <| mh_meta := meta |>
                   <| mh_srcIpAddress := reverse32 (ft_srcIp tuple) |>
                   <| mh_dstIpPort := reverse16 (ft_dstPort tuple) |>
                   <| mh_srcIpPort := reverse16 (ft_srcPort tuple) |> in
        if portIsOpen then
          (e <| mh_lookup := true |>,
           [W_rxEng2sLookup_req
              (mkSessionLookupQuery tuple (rm_syn meta && negb (rm_rst meta) && negb (rm_fin meta)))])
        else
          (e, when (negb (rm_rst meta)) [W_mh_setEvent (closed_port_reset meta tuple)]
              ++ when (nonzero (rm_length meta)) [W_mh_dropDataFifoOut true])
    | _, _, _ => (e, [])
    end.

(** ** [rxPackageDropper] *)
Inductive tpfStateType := READ_DROP1 | READ_DROP2 | FWD | DROP.

Record dropper_env := mkDropperEnv {
  tpf_state : tpfStateType;
  dropFifoIn1 : stream bool;
  dropFifoIn2 : stream bool;
  pd_dataIn : stream net_axis
}.
#[export] Instance eta_dropper_env : Eta dropper_env := fun e =>
  mkDropperEnv (tpf_state e) (dropFifoIn1 e) (dropFifoIn2 e) (pd_dataIn e).

Definition dropper_init : dropper_env := mkDropperEnv READ_DROP1 [] [] [].

Definition rxPackageDropper (e : dropper_env) : dropper_env * list net_axis :=
  match tpf_state e with
  | READ_DROP1 =>
      match dropFifoIn1 e with
      | drop :: rest =>
          (e <| dropFifoIn1 := rest |> <| tpf_state := if (drop : bool) then DROP else READ_DROP2 |>, [])
      | [] => (e, [])
      end
  | READ_DROP2 =>
      match dropFifoIn2 e with
      | drop :: rest =>
          (e <| dropFifoIn2 := rest |> <| tpf_state := if (drop : bool) then DROP else FWD |>, [])
      | [] => (e, [])
      end
  | FWD =>
      match pd_dataIn e with
      | currWord :: rest =>
          (e <| pd_dataIn := rest |> <| tpf_state := if last currWord then READ_DROP1 else FWD |>,
           [currWord])
      | [] => (e, [])
      end
  | DROP =>
      match pd_dataIn e with
      | currWord :: rest =>
          (e <| pd_dataIn := rest |> <| tpf_state := if last currWord then READ_DROP1 else DROP |>, [])
      | [] => (e, [])
      end
  end.

(** ** Only packets with two passes get through *)
Inductive dropper_arrival := A_drop1 (b : bool) | A_drop2 (b : bool) | A_payload (w : net_axis).
Definition dropper_arrive (a : dropper_arrival) (e : dropper_env) : dropper_env :=
  match a with
  | A_drop1 b => e <| dropFifoIn1 := dropFifoIn1 e ++ [b] |>
  | A_drop2 b => e <| dropFifoIn2 := dropFifoIn2 e ++ [b] |>
  | A_payload w => e <| pd_dataIn := pd_dataIn e ++ [w] |>
  end.

#[export, refine] Instance dropper_kahn : KahnProcess rxPackageDropper dropper_arrive := {
  kahn_work e := (length (dropFifoIn1 e) + length (dropFifoIn2 e) + length (pd_dataIn e))%nat;
  kahn_progress := _;
  kahn_diamond := _
}.
Proof.
  - intros [[] [|d1 ds1] [|d2 ds2] [|w ws]]; unfold rxPackageDropper; simpl;
      (by left) || (right; lia).
  - intros [b|b|w'] [[] [|d1 ds1] [|d2 ds2] [|w ws]]; unfold rxPackageDropper; simpl;
      (by left) || (by right).
Defined.

(** The verdict on a packet: turned away by the metadata handler, or passed on to the
    state machine, which drops it or not. *)
Definition verdict : Type := option bool.
Definition verdict1 (v : verdict) : bool := match v with None => true | Some _ => false end.
Definition passes (v : verdict) : bool := match v with Some false => true | _ => false end.

Definition kept (l : list (verdict * list net_axis)) : list net_axis :=
  concat (map snd (List.filter (fun p => passes p.1) l)).

Lemma dropper_forward ds1 ds2 ws rest :
  framed ws ->
  drained rxPackageDropper dropper_arrive (mkDropperEnv FWD ds1 ds2 (ws ++ rest))
  = ws ++ drained rxPackageDropper dropper_arrive (mkDropperEnv READ_DROP1 ds1 ds2 rest).
Proof.
  induction 1 as [w Hl|w ws Hl _ IH]; simpl; erewrite drained_call by reflexivity; simpl;
    rewrite Hl; [done|]. by rewrite IH.
Qed.

Lemma dropper_drop ds1 ds2 ws rest :
  framed ws ->
  drained rxPackageDropper dropper_arrive (mkDropperEnv DROP ds1 ds2 (ws ++ rest))
  = drained rxPackageDropper dropper_arrive (mkDropperEnv READ_DROP1 ds1 ds2 rest).
Proof.
  induction 1 as [w Hl|w ws Hl _ IH]; simpl; erewrite drained_call by reflexivity; simpl;
    rewrite Hl; [done|]. exact IH.
Qed.

Lemma dropper_filters l ds1 ds2 rest :
  Forall (fun p => framed p.2) l ->
  drained rxPackageDropper dropper_arrive
    (mkDropperEnv READ_DROP1 (map (fun p => verdict1 p.1) l ++ ds1) (omap fst l ++ ds2)
       (concat (map snd l) ++ rest))
  = kept l ++ drained rxPackageDropper dropper_arrive (mkDropperEnv READ_DROP1 ds1 ds2 rest).
Proof.
  induction 1 as [|[v ws] l Hw _ IH]; [done|]. simpl in Hw.
  assert (omap fst ((v, ws) :: l) = option_list v ++ omap fst l) as ->.
  { change (omap fst ((v, ws) :: l)) with
      (match v with Some y => y :: omap fst l | None => omap fst l end). by destruct v. }
  change (concat (map snd ((v, ws) :: l))) with (ws ++ concat (map snd l)).
  change (map (fun p => verdict1 p.1) ((v, ws) :: l))
    with (verdict1 v :: map (fun p => verdict1 p.1) l).
  rewrite <- !app_assoc, <- app_comm_cons. erewrite drained_call by reflexivity.
  destruct v as [[]|]; unfold verdict1; simpl.
  - erewrite drained_call by reflexivity. simpl. rewrite dropper_drop by done. exact IH.
  - erewrite drained_call by reflexivity. simpl. rewrite dropper_forward by done.
    unfold kept. simpl. rewrite <- app_assoc. f_equal. exact IH.
  - rewrite dropper_drop by done. exact IH.
Qed.

Definition drop1_in (s : list (option dropper_arrival)) : list bool :=
  omap (fun a => match a with A_drop1 b => Some b | _ => None end) (arrivals s).
Definition drop2_in (s : list (option dropper_arrival)) : list bool :=
  omap (fun a => match a with A_drop2 b => Some b | _ => None end) (arrivals s).
Definition payload_in (s : list (option dropper_arrival)) : list net_axis :=
  omap (fun a => match a with A_payload w => Some w | _ => None end) (arrivals s).

(** Exactly the payloads that the metadata handler passes and the state machine
    accepts reach the buffer.  When the first stream carries a token for each packet
    and the second one for each packet that the first passes, the output is the
    concatenation of the packets with two passes, whole and in order, on every
    schedule of the three streams; and before everything has arrived it is a prefix
    of that. *)
Theorem rxPackageDropper_filters s l :
  Forall (fun p => framed p.2) l ->
  drop1_in s = map (fun p => verdict1 p.1) l ->
  drop2_in s = omap fst l ->
  payload_in s = concat (map snd l) ->
  output rxPackageDropper dropper_arrive s dropper_init = kept l /\
  (exec rxPackageDropper dropper_arrive s dropper_init).2 `prefix_of` kept l.
Proof.
  intros Hf H1 H2 H3.
  assert (drained rxPackageDropper dropper_arrive (arrive_all dropper_arrive (arrivals s) dropper_init)
          = kept l) as Hd.
  { replace (arrive_all dropper_arrive (arrivals s) dropper_init)
      with (mkDropperEnv READ_DROP1 (map (fun p => verdict1 p.1) l ++ []) (omap fst l ++ [])
              (concat (map snd l) ++ [])).
    - rewrite dropper_filters, (drained_stuck _ _ (mkDropperEnv READ_DROP1 [] [] [])) by done.
      by rewrite app_nil_r.
    - rewrite !app_nil_r, <- H1, <- H2, <- H3.
      set (e := arrive_all dropper_arrive (arrivals s) dropper_init).
      transitivity (mkDropperEnv (tpf_state e) (dropFifoIn1 e) (dropFifoIn2 e) (pd_dataIn e));
        [|by destruct e].
      unfold e. f_equal; symmetry.
      + by apply (arrive_all_other _ tpf_state); intros [].
      + change (drop1_in s) with (dropFifoIn1 dropper_init ++ drop1_in s).
        apply arrive_all_stream; intros [] ?; simpl; by rewrite ?app_nil_r.
      + change (drop2_in s) with (dropFifoIn2 dropper_init ++ drop2_in s).
        apply arrive_all_stream; intros [] ?; simpl; by rewrite ?app_nil_r.
      + change (payload_in s) with (pd_dataIn dropper_init ++ payload_in s).
        apply arrive_all_stream; intros [] ?; simpl; by rewrite ?app_nil_r. }
  rewrite <- Hd. split; [apply output_drained|apply kahn_prefix].
Qed.

(** ** The decision of the metadata handler *)
Inductive mh_arrival :=
| A_meta (m : rxEngineMetaData) | A_lookup (r : sessionLookupReply) | A_port (b : bool)
| A_tuple (t : fourTuple).
Definition mh_arrive (a : mh_arrival) (e : mh_env) : mh_env :=
  match a with
  | A_meta m => e <| mh_metaDataFifoIn := mh_metaDataFifoIn e ++ [m] |>
  | A_lookup r => e <| mh_sLookup2rxEng_rsp := mh_sLookup2rxEng_rsp e ++ [r] |>
  | A_port b => e <| mh_portTable2rxEng_rsp := mh_portTable2rxEng_rsp e ++ [b] |>
  | A_tuple t => e <| mh_tupleBufferIn := mh_tupleBufferIn e ++ [t] |>
  end.

#[export, refine] Instance mh_kahn : KahnProcess rxMetadataHandler mh_arrive := {
  kahn_work e := (length (mh_metaDataFifoIn e) + length (mh_sLookup2rxEng_rsp e))%nat;
  kahn_progress := _;
  kahn_diamond := _
}.
Proof.
  - intros [[] m ip dp sp [|m1 ms] [|r rs] [|[] ps] [|t ts]]; unfold rxMetadataHandler; simpl;
      (by left) || (right; lia).
  - intros [m'|r'|b'|t'] [[] m ip dp sp [|m1 ms] [|r rs] [|[] ps] [|t ts]];
      unfold rxMetadataHandler; simpl; (by left) || (by right).
Defined.

(** A segment, and the answers of the port table and of the session lookup, which is
    asked only when the port is open. *)
Record segment := mkSegment {
  sg_meta : rxEngineMetaData; sg_tuple : fourTuple; sg_lookup : option sessionLookupReply
}.
Definition port_open (g : segment) : bool := match sg_lookup g with Some _ => true | None => false end.

Definition fsm_meta_of (g : segment) (id : Z) : rxFsmMetaData :=
  mkRxFsmMeta id (reverse32 (ft_srcIp (sg_tuple g))) (reverse16 (ft_dstPort (sg_tuple g)))
    (sg_meta g) (reverse16 (ft_srcPort (sg_tuple g))).

(** What becomes of a segment: a reset, or a lookup and a pass to the state machine. *)
Definition mh_spec (g : segment) : list mh_write :=
  let meta := sg_meta g in
  match sg_lookup g with
  | None =>
      when (negb (rm_rst meta)) [W_mh_setEvent (closed_port_reset meta (sg_tuple g))]
      ++ when (nonzero (rm_length meta)) [W_mh_dropDataFifoOut true]
  | Some lup =>
      W_rxEng2sLookup_req (mkSessionLookupQuery (sg_tuple g)
        (rm_syn meta && negb (rm_rst meta) && negb (rm_fin meta)))
      :: when (slr_hit lup) [W_fsmMetaDataFifo (fsm_meta_of g (slr_sessionID lup))]
      ++ when (nonzero (rm_length meta)) [W_mh_dropDataFifoOut (negb (slr_hit lup))]
  end.

Definition mh_metas_in (s : list (option mh_arrival)) : list rxEngineMetaData :=
  omap (fun a => match a with A_meta m => Some m | _ => None end) (arrivals s).
Definition mh_replies_in (s : list (option mh_arrival)) : list sessionLookupReply :=
  omap (fun a => match a with A_lookup r => Some r | _ => None end) (arrivals s).
Definition mh_ports_in (s : list (option mh_arrival)) : list bool :=
  omap (fun a => match a with A_port b => Some b | _ => None end) (arrivals s).
Definition mh_tuples_in (s : list (option mh_arrival)) : list fourTuple :=
  omap (fun a => match a with A_tuple t => Some t | _ => None end) (arrivals s).

Definition drop_tokens (w : list mh_write) : list bool :=
  omap (fun x => match x with W_mh_dropDataFifoOut b => Some b | _ => None end) w.

Definition segment_dropped (g : segment) : bool :=
  match sg_lookup g with Some lup => negb (slr_hit lup) | None => true end.

(** The three kinds of calls. *)
Lemma mh_call_closed meta m ip dp sp metas replies ports tuples tuple :
  rxMetadataHandler (mkMhEnv false m ip dp sp (meta :: metas) replies (false :: ports) (tuple :: tuples))
  = (mkMhEnv false meta (reverse32 (ft_srcIp tuple)) (reverse16 (ft_dstPort tuple))
       (reverse16 (ft_srcPort tuple)) metas replies ports tuples,
     when (negb (rm_rst meta)) [W_mh_setEvent (closed_port_reset meta tuple)]
              ++ when (nonzero (rm_length meta)) [W_mh_dropDataFifoOut true]).
Proof. reflexivity. Qed.
Lemma mh_call_open meta m ip dp sp metas replies ports tuples tuple :
  rxMetadataHandler (mkMhEnv false m ip dp sp (meta :: metas) replies (true :: ports) (tuple :: tuples))
  = (mkMhEnv true meta (reverse32 (ft_srcIp tuple)) (reverse16 (ft_dstPort tuple))
       (reverse16 (ft_srcPort tuple)) metas replies ports tuples,
     [W_rxEng2sLookup_req
              (mkSessionLookupQuery tuple (rm_syn meta && negb (rm_rst meta) && negb (rm_fin meta)))]).
Proof. reflexivity. Qed.
Lemma mh_call_reply meta ip dp sp metas r replies ports tuples :
  rxMetadataHandler (mkMhEnv true meta ip dp sp metas (r::replies) ports tuples)
  = (mkMhEnv false meta ip dp sp metas replies ports tuples,
         when (slr_hit r)
           [W_fsmMetaDataFifo (mkRxFsmMeta (slr_sessionID r) ip dp meta sp)]
         ++ when (nonzero (rm_length meta)) [W_mh_dropDataFifoOut (negb (slr_hit r))]).
Proof. reflexivity. Qed.

(** One segment: a call, or two when the lookup is asked. *)
Lemma mh_segment g m ip dp sp metas replies ports tuples :
  exists m' ip' dp' sp',
  drained rxMetadataHandler mh_arrive
    (mkMhEnv false m ip dp sp (sg_meta g :: metas) (option_list (sg_lookup g) ++ replies)
       (port_open g :: ports) (sg_tuple g :: tuples))
  = mh_spec g ++ drained rxMetadataHandler mh_arrive
      (mkMhEnv false m' ip' dp' sp' metas replies ports tuples).
Proof.
  destruct g as [meta tuple [r|]]; cbn [sg_meta sg_tuple sg_lookup port_open option_list app].
  - exists meta, (reverse32 (ft_srcIp tuple)), (reverse16 (ft_dstPort tuple)),
      (reverse16 (ft_srcPort tuple)).
    erewrite drained_call by apply mh_call_open. erewrite drained_call by apply mh_call_reply.
    by rewrite app_assoc.
  - exists meta, (reverse32 (ft_srcIp tuple)), (reverse16 (ft_dstPort tuple)),
      (reverse16 (ft_srcPort tuple)).
    by erewrite drained_call by apply mh_call_closed.
Qed.

Lemma mh_decides segs m ip dp sp :
  drained rxMetadataHandler mh_arrive
    (mkMhEnv false m ip dp sp (map sg_meta segs) (omap sg_lookup segs) (map port_open segs)
       (map sg_tuple segs))
  = flat_map mh_spec segs.
Proof.
  revert m ip dp sp. induction segs as [|g segs IH]; intros m ip dp sp.
  - by apply drained_stuck.
  - change (omap sg_lookup (g :: segs))
      with (match sg_lookup g with Some y => y :: omap sg_lookup segs | None => omap sg_lookup segs end).
    replace (match sg_lookup g with Some y => _ | None => _ end)
      with (option_list (sg_lookup g) ++ omap sg_lookup segs) by (by destruct (sg_lookup g)).
    cbn [map flat_map]. edestruct mh_segment as (m' & ip' & dp' & sp' & ->). by rewrite IH.
Qed.

Lemma drop_tokens_spec segs :
  drop_tokens (flat_map mh_spec segs)
  = map segment_dropped (List.filter (fun g => nonzero (rm_length (sg_meta g))) segs).
Proof.
  induction segs as [|[meta tuple lup] segs IH]; [done|]. simpl. unfold drop_tokens in *.
  rewrite omap_app, IH. unfold mh_spec. simpl.
  destruct lup as [r|]; [destruct (slr_hit r) eqn:Hh|destruct (rm_rst meta)];
    destruct (nonzero (rm_length meta)); unfold segment_dropped; simpl; by rewrite ?Hh.
Qed.

(** C24: every segment gets one decision, in order.  On whatever schedule the
    metadata, the answers of the port table, the tuples and the answers of the
    session lookup arrive, the metadata handler writes, segment by segment, either a
    reset for a closed port, unless the segment is itself a reset, or the lookup and,
    on a hit, the metadata for the state machine; and it writes one token for each
    segment with payload, to drop it exactly when the port is closed or the lookup
    has missed.  The reset acknowledges the sequence number behind the segment. *)
Theorem rxMetadataHandler_decides s segs :
  mh_metas_in s = map sg_meta segs ->
  mh_replies_in s = omap sg_lookup segs ->
  mh_ports_in s = map port_open segs ->
  mh_tuples_in s = map sg_tuple segs ->
  let w := output rxMetadataHandler mh_arrive s mh_init in
  w = flat_map mh_spec segs /\
  drop_tokens w
    = map segment_dropped (List.filter (fun g => nonzero (rm_length (sg_meta g))) segs) /\
  forall g, g ∈ segs -> hasSessionID (xev_event (closed_port_reset (sg_meta g) (sg_tuple g))) = false /\
    getAckNumb (xev_event (closed_port_reset (sg_meta g) (sg_tuple g)))
    = wrap 32 (rm_seqNumb (sg_meta g) + rm_length (sg_meta g)
               + (if rm_syn (sg_meta g) || rm_fin (sg_meta g) then 1 else 0)).
Proof.
  intros H1 H2 H3 H4 w. assert (w = flat_map mh_spec segs) as ->.
  { unfold w. rewrite output_drained, <- (mh_decides segs zero_init 0 0 0), <- H1, <- H2, <- H3, <- H4.
    f_equal. set (e := arrive_all mh_arrive (arrivals s) mh_init).
    transitivity (mkMhEnv (mh_lookup e) (mh_meta e) (mh_srcIpAddress e) (mh_dstIpPort e)
      (mh_srcIpPort e) (mh_metaDataFifoIn e) (mh_sLookup2rxEng_rsp e) (mh_portTable2rxEng_rsp e)
      (mh_tupleBufferIn e)); [by destruct e|].
    unfold e. f_equal.
    - by apply (arrive_all_other _ mh_lookup); intros [].
    - by apply (arrive_all_other _ mh_meta); intros [].
    - by apply (arrive_all_other _ mh_srcIpAddress); intros [].
    - by apply (arrive_all_other _ mh_dstIpPort); intros [].
    - by apply (arrive_all_other _ mh_srcIpPort); intros [].
    - change (mh_metas_in s) with (mh_metaDataFifoIn mh_init ++ mh_metas_in s).
      apply arrive_all_stream; intros [] ?; simpl; by rewrite ?app_nil_r.
    - change (mh_replies_in s) with (mh_sLookup2rxEng_rsp mh_init ++ mh_replies_in s).
      apply arrive_all_stream; intros [] ?; simpl; by rewrite ?app_nil_r.
    - change (mh_ports_in s) with (mh_portTable2rxEng_rsp mh_init ++ mh_ports_in s).
      apply arrive_all_stream; intros [] ?; simpl; by rewrite ?app_nil_r.
    - change (mh_tuples_in s) with (mh_tupleBufferIn mh_init ++ mh_tuples_in s).
      apply arrive_all_stream; intros [] ?; simpl; by rewrite ?app_nil_r. }
  split; [done|]. split; [apply drop_tokens_spec|]. intros g _. split; [done|].
  apply (rstEvent_getAckNumb 0). by apply wrap_range.
Qed.

(** ** [rxAppNotificationDelayer] *)
Record delayer_env := mkDelayerEnv {
  rand_notificationBuffer : stream appNotification;
  rxAppNotificationDoubleAccessFlag : bool;
  rand_fifoCount : Z;
  rxAppNotificationStatus1 : mmStatus;
  rxAppNotification : appNotification;
  rxWriteStatusIn : stream mmStatus;
  internalNotificationFifoIn : stream appNotification;
  nd_doubleAccess : stream bool
}.
#[export] Instance eta_delayer_env : Eta delayer_env := fun e =>
  mkDelayerEnv (rand_notificationBuffer e) (rxAppNotificationDoubleAccessFlag e)
    (rand_fifoCount e) (rxAppNotificationStatus1 e) (rxAppNotification e) (rxWriteStatusIn e)
    (internalNotificationFifoIn e) (nd_doubleAccess e).

Definition delayer_init : delayer_env := mkDelayerEnv [] false 0 zero_init zero_init [] [] [].

Definition close_only (n : appNotification) : bool := an_closed n && (an_length n =? 0).

Definition take_notification (e : delayer_env) : delayer_env * list appNotification :=
  match internalNotificationFifoIn e with
  | n :: rest =>
      if rand_fifoCount e <? 31 then
        let e := e <| internalNotificationFifoIn := rest |> <| rxAppNotification := n |> in
        if close_only n then (e, [n])
        else (e <| rand_notificationBuffer := rand_notificationBuffer e ++ [n] |>
                <| rand_fifoCount := wrap 5 (rand_fifoCount e + 1) |>, [])
      else (e, [])
  | [] => (e, [])
  end.

Definition rxAppNotificationDelayer (e : delayer_env) : delayer_env * list appNotification :=
  if rxAppNotificationDoubleAccessFlag e then
    match rxWriteStatusIn e with
    | status2 :: rest =>
        (e <| rxWriteStatusIn := rest |> <| rand_fifoCount := wrap 5 (rand_fifoCount e - 1) |>
           <| rxAppNotificationDoubleAccessFlag := false |>,
         when (ms_okay (rxAppNotificationStatus1 e) && ms_okay status2
               && nonzero (an_length (rxAppNotification e))) [rxAppNotification e])
    | [] => (e, [])
    end
  else
    match rxWriteStatusIn e, rand_notificationBuffer e, nd_doubleAccess e with
    | status1 :: statuses, n :: ns, double :: doubles =>
        let e := e <| rxWriteStatusIn := statuses |> <| rxAppNotificationStatus1 := status1 |>
                   <| rand_notificationBuffer := ns |> <| rxAppNotification := n |>
                   <| nd_doubleAccess := doubles |>
                   <| rxAppNotificationDoubleAccessFlag := double |> in
        if double then (e, [])
        else (e <| rand_fifoCount := wrap 5 (rand_fifoCount e - 1) |>,
              when (ms_okay status1 && nonzero (an_length n)) [n])
    | _, _, _ => take_notification e
    end.

Inductive delayer_arrival := A_status (st : mmStatus) | A_notification (n : appNotification) | A_double (b : bool).
Definition delayer_arrive (a : delayer_arrival) (e : delayer_env) : delayer_env :=
  match a with
  | A_status st => e <| rxWriteStatusIn := rxWriteStatusIn e ++ [st] |>
  | A_notification n => e <| internalNotificationFifoIn := internalNotificationFifoIn e ++ [n] |>
  | A_double b => e <| nd_doubleAccess := nd_doubleAccess e ++ [b] |>
  end.

(** Notifications that wait for their payload, of those in a list. *)
Definition with_data (l : list appNotification) : list appNotification :=
  List.filter (fun n => negb (close_only n)) l.

Definition statuses_in (l : list delayer_arrival) : list mmStatus :=
  omap (fun a => match a with A_status st => Some st | _ => None end) l.
Definition notifications_in (l : list delayer_arrival) : list appNotification :=
  omap (fun a => match a with A_notification n => Some n | _ => None end) l.

(** What the delayer holds: the notification that waits for the second status, and the
    buffered ones. *)
Definition held (e : delayer_env) : list appNotification :=
  when (rxAppNotificationDoubleAccessFlag e) [rxAppNotification e] ++ rand_notificationBuffer e.

Definition delayer_ok (l : list delayer_arrival) (w : list appNotification) (e : delayer_env) : Prop :=
  (* The counter is the number of notifications held, and fits. *)
  rand_fifoCount e = Z.of_nat (length (held e)) /\ rand_fifoCount e <= 31 /\
  Forall (fun n => close_only n = false) (held e) /\
  (* When all writes succeed, the notifications with data leave in their order. *)
  (Forall (fun st => ms_okay st = true) (statuses_in l) ->
   Forall (fun n => close_only n = true \/ an_length n <> 0) (notifications_in l) ->
   Forall (fun st => ms_okay st = true) (rxWriteStatusIn e) /\
   (rxAppNotificationDoubleAccessFlag e = true -> ms_okay (rxAppNotificationStatus1 e) = true) /\
   Forall (fun n => close_only n = true \/ an_length n <> 0)
     (held e ++ internalNotificationFifoIn e) /\
   with_data w ++ held e ++ with_data (internalNotificationFifoIn e)
   = with_data (notifications_in l)) /\
  (* One write at least has been acknowledged for every notification with data. *)
  (length (with_data w) + length (rxWriteStatusIn e)
   + (if rxAppNotificationDoubleAccessFlag e then 1 else 0) <= length (statuses_in l))%nat.

Lemma with_data_app l1 l2 : with_data (l1 ++ l2) = with_data l1 ++ with_data l2.
Proof. apply List.filter_app. Qed.

Lemma delayer_arrive_ok l w a e : delayer_ok l w e -> delayer_ok (l ++ [a]) w (delayer_arrive a e).
Proof.
  intros (H1 & H2 & H3 & H4 & H5). unfold delayer_ok, statuses_in, notifications_in in *.
  rewrite !omap_app, length_app.
  destruct a as [st|n|b]; simpl; rewrite ?app_nil_r; change (held _) with (held e).
  - rewrite length_app. simpl. split_and!; [done|done|done| |lia].
    intros [Hs Hst]%Forall_app Hn. destruct (H4 Hs Hn) as (H6 & H7 & H8 & H9).
    split_and!; [by apply Forall_app|done..].
  - split_and!; [done|done|done| |simpl in *; lia].
    intros Hs [Hn Hnn]%Forall_app. destruct (H4 Hs Hn) as (H6 & H7 & H8 & H9).
    split_and!; [done|done|rewrite app_assoc; by apply Forall_app|].
    rewrite !with_data_app, <- H9. by rewrite <- !app_assoc.
  - split_and!; [done|done|done|done|simpl in *; lia].
Qed.

(** Taking a notification in. *)
Lemma take_notification_ok l w e :
  rxAppNotificationDoubleAccessFlag e = false -> delayer_ok l w e ->
  delayer_ok l (w ++ (take_notification e).2) (take_notification e).1.
Proof.
  destruct e as [buf fl cnt st1 cur stats [|n ins] dbls]; intros Hfl Hok; simpl in Hfl; subst;
    unfold take_notification; simpl; [by rewrite app_nil_r|].
  destruct (cnt <? 31) eqn:Hc; [|by rewrite app_nil_r]. apply Z.ltb_lt in Hc.
  destruct Hok as (H1 & H2 & H3 & H4 & H5). unfold held in *. simpl in *.
  assert (0 <= cnt) by lia.
  destruct (close_only n) eqn:Hn; unfold delayer_ok, held; simpl.
  - rewrite with_data_app, length_app. simpl. rewrite Hn. simpl. split_and!; [done|done|done| |lia].
    intros Hs Hns. destruct (H4 Hs Hns) as (H6 & H7 & H8 & H9). split_and!; [done|done| |].
    + apply Forall_app in H8 as [? H8]. inversion H8; subst. by apply Forall_app.
    + by rewrite app_nil_r, <- H9.
  - rewrite !app_nil_r, length_app. rewrite wrap_small by (unfold in_width; pow2; lia). simpl.
    split_and!; [lia|lia|apply Forall_app; split; [done|by repeat constructor]| |done].
    intros Hs Hns. destruct (H4 Hs Hns) as (H6 & H7 & H8 & H9).
    split_and!; [done|done|by rewrite <- app_assoc|].
    rewrite <- H9. by rewrite <- !app_assoc.
Qed.

Lemma with_data_when b n :
  close_only n = false -> with_data (when b [n]) = when b [n].
Proof. intros Hn. destruct b; [|done]. simpl. by rewrite Hn. Qed.

Lemma delayer_call_ok l w e :
  delayer_ok l w e ->
  delayer_ok l (w ++ (rxAppNotificationDelayer e).2) (rxAppNotificationDelayer e).1.
Proof.
  intros Hok. unfold rxAppNotificationDelayer.
  destruct (rxAppNotificationDoubleAccessFlag e) eqn:Hfl.
  - destruct e as [buf fl cnt st1 cur [|st2 stats] ins dbls]; simpl in *; subst;
      [by rewrite app_nil_r|].
    destruct Hok as (H1 & H2 & H3 & H4 & H5). unfold delayer_ok, held in *. simpl in *.
    inversion H3 as [|? ? Hcl H3']; subst.
    rewrite with_data_app, length_app, with_data_when by done.
    rewrite wrap_small by (unfold in_width; pow2; lia).
    split_and!; [lia|lia|done| |destruct (_ && _); simpl; lia].
    intros Hs Hns. destruct (H4 Hs Hns) as (H6 & H7 & H8 & H9).
    inversion H6; subst. inversion H8 as [|? ? [?|Hlen] H8']; subst; [congruence|].
    split_and!; [done|done|done|]. rewrite H7, <- H9 by done.
    replace (ms_okay st2) with true by done. unfold nonzero.
    rewrite (proj2 (Z.eqb_neq _ _) Hlen). simpl. by rewrite <- app_assoc.
  - destruct (rxWriteStatusIn e) as [|st1 stats] eqn:Hst; [by apply take_notification_ok|].
    destruct (rand_notificationBuffer e) as [|n buf] eqn:Hbuf; [by apply take_notification_ok|].
    destruct (nd_doubleAccess e) as [|b dbls] eqn:Hd; [by apply take_notification_ok|].
    destruct e as [buf0 fl cnt st0 cur stats0 ins dbls0]; simpl in *; subst.
    destruct Hok as (H1 & H2 & H3 & H4 & H5). unfold delayer_ok, held in *. simpl in *.
    destruct b; simpl.
    + rewrite app_nil_r. split_and!; [done|done|done| |lia]. intros Hs Hns.
      destruct (H4 Hs Hns) as (H6 & H7 & H8 & H9). by inversion H6; subst.
    + inversion H3 as [|? ? Hcl H3']; subst.
      rewrite with_data_app, length_app, with_data_when by done.
      rewrite wrap_small by (unfold in_width; pow2; lia).
      split_and!; [lia|lia|done| |destruct (_ && _); simpl; lia].
      intros Hs Hns. destruct (H4 Hs Hns) as (H6 & H7 & H8 & H9).
      inversion H6; subst. inversion H8 as [|? ? [?|Hlen] H8']; subst; [congruence|].
      split_and!; [done|done|done|]. rewrite <- H9.
      replace (ms_okay st1) with true by done. unfold nonzero.
      rewrite (proj2 (Z.eqb_neq _ _) Hlen). simpl. by rewrite <- app_assoc.
Qed.

Lemma delayer_schedule s :
  delayer_ok (arrivals s) (exec rxAppNotificationDelayer delayer_arrive s delayer_init).2
    (exec rxAppNotificationDelayer delayer_arrive s delayer_init).1.
Proof.
  apply exec_invariant; [apply delayer_call_ok|intros; by apply delayer_arrive_ok|].
  by split_and!.
Qed.

(** The application hears of payload when it is in memory, and in order.  On every
    schedule the delayer holds at most 31 notifications and its five-bit counter is
    their number; it has passed on no more notifications of payload than writes have
    been acknowledged; and when all writes succeed, the notifications of payload it
    has passed on, holds and has yet to take are, in this order, those that came. *)
Theorem notification_delayer_in_order s :
  let '(e, w) := exec rxAppNotificationDelayer delayer_arrive s delayer_init in
  rand_fifoCount e = Z.of_nat (length (held e)) /\ (length (held e) <= 31)%nat /\
  (length (with_data w) <= length (statuses_in (arrivals s)))%nat /\
  (Forall (fun st => ms_okay st = true) (statuses_in (arrivals s)) ->
   Forall (fun n => close_only n = true \/ an_length n <> 0) (notifications_in (arrivals s)) ->
   with_data w ++ held e ++ with_data (internalNotificationFifoIn e)
   = with_data (notifications_in (arrivals s))).
Proof.
  pose proof (delayer_schedule s) as (H1 & H2 & H3 & H4 & H5).
  destruct (exec rxAppNotificationDelayer delayer_arrive s delayer_init) as [e w]. simpl in *.
  split_and!; [done|lia|lia|]. intros Hs Hn. by destruct (H4 Hs Hn) as (_ & _ & _ & ?).
Qed.

(** The notice that the peer has closed does not wait for the payload before it: with
    the write of the payload not yet acknowledged, the close leaves first. *)
Theorem close_notification_overtakes n c st :
  close_only n = false -> an_length n <> 0 -> close_only c = true -> ms_okay st = true ->
  (exec rxAppNotificationDelayer delayer_arrive
     [Some (A_notification n); Some (A_double false); Some (A_notification c); None; None;
      Some (A_status st); None] delayer_init).2 = [c; n].
Proof.
  intros Hn Hl Hc Hs. simpl. unfold rxAppNotificationDelayer, take_notification. simpl.
  rewrite Hn. simpl. rewrite Hc. simpl. rewrite Hs. unfold nonzero.
  by rewrite (proj2 (Z.eqb_neq _ _) Hl).
Qed.

(** ** What the option parser finds *)
Inductive parse_arrival := A_dataOffset (n : Z) | A_fields (z : Z).
Definition parse_arrive (a : parse_arrival) (e : parse_env) : parse_env :=
  match a with
  | A_dataOffset n => e <| dataOffsetIn := dataOffsetIn e ++ [n] |>
  | A_fields z => e <| optionalHeaderFieldsIn := optionalHeaderFieldsIn e ++ [z] |>
  end.

(** The calls left for the fields at hand: a shift makes them shorter. *)
Definition fields_work (z : Z) : nat := if z =? 0 then 1 else 2 + Z.to_nat (Z.log2 z).

Lemma fields_work_le z : 0 <= z < 2 ^ 320 -> (fields_work z <= 321)%nat.
Proof.
  intros Hz. unfold fields_work. destruct (z =? 0) eqn:H0; [lia|].
  assert (Z.log2 z < 320) by (apply Z.log2_lt_pow2; lia). lia.
Qed.

Lemma fields_work_shift z n :
  0 < z -> 0 < n -> (fields_work (Z.shiftr z (n * 8)) < fields_work z)%nat.
Proof.
  intros Hz Hn. unfold fields_work. rewrite (proj2 (Z.eqb_neq z 0)) by lia.
  destruct (Z.shiftr z (n * 8) =? 0) eqn:H0; [lia|]. apply Z.eqb_neq in H0.
  rewrite Z.log2_shiftr by lia. pose proof (Z.log2_nonneg z).
  assert (n * 8 <= Z.log2 z); [|lia].
  destruct (Z_lt_le_dec (Z.log2 z) (n * 8)) as [Hlt|]; [|done].
  exfalso. apply H0. by apply Z.shiftr_eq_0; [lia|].
Qed.

(** An environment whose statics hold values of their width; every call leaves one. *)
Definition parse_normal (e : parse_env) : bool :=
  (wrap 4 (po_dataOffset e) =? po_dataOffset e) && (wrap 320 (po_fields e) =? po_fields e).

Definition parse_work (e : parse_env) : nat :=
  (323 * length (dataOffsetIn e)
   + if po_parsing e then fields_work (wrap 320 (po_fields e)) + (if parse_normal e then 0 else 1)
     else 0)%nat.

Lemma shifted_width z n : 0 <= n -> in_width 320 (Z.shiftr (wrap 320 z) n).
Proof.
  intros Hn. pose proof (wrap_range 320 z ltac:(lia)) as Hr. unfold in_width in *.
  rewrite Z.shiftr_div_pow2 by done. split; [apply Z.div_pos; lia|].
  apply Z.le_lt_trans with (wrap 320 z); [|lia].
  apply Z.div_le_upper_bound; [lia|]. assert (0 < 2 ^ n) by lia. nia.
Qed.

Lemma parse_call_normal off fields n p offs fieldss :
  0 <= n -> parse_normal (mkParseEnv p (wrap 4 off) (Z.shiftr (wrap 320 fields) n) offs fieldss) = true.
Proof.
  intros Hn. unfold parse_normal. simpl. rewrite wrap_wrap, (wrap_small 320) by (by apply shifted_width).
  by rewrite !Z.eqb_refl.
Qed.

(** A step over an option of positive length. *)
Lemma parse_step_work off fields len p offs fieldss off0 :
  0 < len -> bits 7 0 fields <> 0 ->
  (parse_work (mkParseEnv p (wrap 4 off) (Z.shiftr (wrap 320 fields) (len * 8)) offs fieldss)
   < parse_work (mkParseEnv true off0 fields offs fieldss))%nat.
Proof.
  intros Hlen Hk. unfold parse_work at 1. rewrite parse_call_normal by lia.
  unfold parse_work. simpl. rewrite (wrap_small 320 (Z.shiftr _ _)) by (apply shifted_width; lia).
  pose proof (wrap_range 320 fields ltac:(lia)) as Hr. unfold in_width in Hr.
  assert (0 < wrap 320 fields).
  { destruct (decide (wrap 320 fields = 0)) as [H0|]; [|lia]. destruct Hk.
    rewrite bits_0. change (7 + 1) with 8. rewrite <- (wrap_narrow 8 320), H0 by lia. done. }
  pose proof (fields_work_shift (wrap 320 fields) len ltac:(lia) Hlen). destruct p; lia.
Qed.

Lemma parse_stop_work off fields n offs fieldss off0 :
  (parse_work (mkParseEnv false off n offs fieldss)
   < parse_work (mkParseEnv true off0 fields offs fieldss))%nat.
Proof.
  unfold parse_work. simpl. assert (1 <= fields_work (wrap 320 fields))%nat; [|lia].
  unfold fields_work. destruct (_ =? 0); lia.
Qed.

Lemma parse_progress e :
  parse_optional_header_fields e = (e, []) \/
  (parse_work (parse_optional_header_fields e).1 < parse_work e)%nat.
Proof.
  destruct e as [[] off fields offs fieldss]; unfold parse_optional_header_fields; simpl.
  - assert (0 <= bits 15 8 fields) as Hl by (unfold bits; apply Z.mod_pos_bound; lia).
    destruct (bits 7 0 fields =? 0) eqn:H0; [right; apply parse_stop_work|].
    apply Z.eqb_neq in H0.
    destruct (bits 7 0 fields =? 1); [right; by apply parse_step_work|].
    destruct (bits 7 0 fields =? 3); [right; apply parse_stop_work|].
    destruct (off =? bits 15 8 fields); [right; apply parse_stop_work|].
    destruct (decide (0 < bits 15 8 fields)); [right; by apply parse_step_work|].
    replace (bits 15 8 fields) with 0 by lia. rewrite Z.shiftr_0_r, Z.sub_0_r.
    destruct (parse_normal (mkParseEnv true off fields offs fieldss)) eqn:Hn.
    + left. unfold parse_normal in Hn. simpl in Hn. bool_prop. by do 2 f_equal.
    + right. unfold parse_work. simpl. rewrite Hn, wrap_wrap.
      unfold parse_normal. simpl. rewrite !wrap_wrap, !Z.eqb_refl. simpl. lia.
  - destruct offs as [|o offs], fieldss as [|f fieldss]; (by left) || right.
    unfold parse_work. simpl. unfold parse_normal. simpl. rewrite !wrap_wrap, !Z.eqb_refl. simpl.
    pose proof (fields_work_le (wrap 320 f) (wrap_range 320 f ltac:(lia))). lia.
Qed.

Lemma parse_diamond a e :
  parse_optional_header_fields e = (e, []) \/
  parse_optional_header_fields (parse_arrive a e)
  = (parse_arrive a (parse_optional_header_fields e).1, (parse_optional_header_fields e).2).
Proof.
  destruct e as [p off fields offs fieldss]. unfold parse_optional_header_fields. simpl.
  destruct p.
  - right. destruct a; simpl; repeat case_match_in_goal; by simplify_eq.
  - destruct offs, fieldss; (by left) || right; by destruct a.
Qed.

#[export] Instance parse_kahn : KahnProcess parse_optional_header_fields parse_arrive := {
  kahn_work := parse_work;
  kahn_progress := parse_progress;
  kahn_diamond := parse_diamond
}.

(** The options of a header as RFC 793 encodes them: a padding byte, or a kind, the
    length of the whole option and its value. *)
Inductive tcp_option := NOP | OPT (kind : Z) (value : list Z).

Definition option_length (o : tcp_option) : Z :=
  match o with NOP => 1 | OPT _ v => 2 + Z.of_nat (length v) end.

Definition encode_option (o : tcp_option) : list Z :=
  match o with NOP => [1] | OPT kind v => kind :: option_length o :: v end.

(** An option other than the end of the list, padding and the window scale. *)
Definition option_ok (o : tcp_option) : Prop :=
  match o with
  | NOP => True
  | OPT kind v => in_width 8 kind /\ kind <> 0 /\ kind <> 1 /\ kind <> 3 /\ bytes v
  end.

(** Does the parser get past the options, counting down from [offset]? *)
Fixpoint gets_past (offset : Z) (opts : list tcp_option) : bool :=
  match opts with
  | [] => true
  | o :: opts =>
      match o with OPT _ _ => negb (offset =? option_length o) | NOP => true end
      && gets_past (wrap 4 (offset - option_length o)) opts
  end.

Lemma encode_option_bytes o : option_ok o -> option_length o < 256 -> bytes (encode_option o).
Proof.
  destruct o as [|kind v]; simpl; intros Ho Hl.
  - repeat constructor; done.
  - destruct Ho as (Hk & _ & _ & _ & Hv). repeat constructor; [apply Hk..|lia| |done].
    change (2 ^ 8) with 256. lia.
Qed.

Lemma encode_option_length o : Z.of_nat (length (encode_option o)) = option_length o.
Proof. destruct o; simpl; lia. Qed.

Lemma fields_width l : bytes l -> (length l <= 40)%nat -> in_width 320 (le_val l).
Proof.
  intros Hb Hl. pose proof (le_val_range _ Hb) as Hr. unfold in_width in *.
  assert (2 ^ (8 * Z.of_nat (length l)) <= 2 ^ 320) by (apply Z.pow_le_mono_r; lia). lia.
Qed.

(** The fields after a number of bytes. *)
Lemma fields_after l1 l2 :
  bytes (l1 ++ l2) -> (length (l1 ++ l2) <= 40)%nat ->
  Z.shiftr (wrap 320 (le_val (l1 ++ l2))) (Z.of_nat (length l1) * 8) = le_val l2.
Proof.
  intros Hb Hl. rewrite wrap_small by (by apply fields_width).
  rewrite Z.shiftr_div_pow2, Z.mul_comm, le_val_drop by (rewrite ?length_app; auto; lia).
  by rewrite drop_app_length.
Qed.

Lemma first_lane hi lo b l :
  bytes (b :: l) -> hi = 7 -> lo = 0 -> bits hi lo (le_val (b :: l)) = b.
Proof.
  intros Hb -> ->. rewrite (bits_le_val 7 0 0 1) by (simpl; auto; lia).
  unfold le_val. simpl. lia.
Qed.

Lemma second_lane b c l : bytes (b :: c :: l) -> bits 15 8 (le_val (b :: c :: l)) = c.
Proof.
  intros Hb. rewrite (bits_le_val 15 8 1 1) by (simpl; auto; lia).
  unfold le_val. simpl. lia.
Qed.

Lemma third_lane_low b c d l : bytes (b :: c :: d :: l) -> bits 19 16 (le_val (b :: c :: d :: l)) = wrap 4 d.
Proof.
  intros Hb. unfold bits. change 16 with (8 * Z.of_nat 2) at 1.
  rewrite le_val_drop by (simpl; auto; lia). rewrite skipn_cons, skipn_cons, skipn_O, le_val_cons.
  change (2 ^ (19 - 16 + 1)) with (2 ^ 4). fold (wrap 4 (d + 256 * le_val l)).
  replace (256 * le_val l) with ((16 * le_val l) * 2 ^ 4) by (change (2 ^ 4) with 16; lia).
  apply wrap_add_mul.
Qed.

(** The parser on one option that is not the one it looks for. *)
Lemma parse_option o offset l offs fieldss :
  option_ok o -> bytes (encode_option o ++ l) -> (length (encode_option o ++ l) <= 40)%nat ->
  parse_optional_header_fields (mkParseEnv true offset (le_val (encode_option o ++ l)) offs fieldss)
  = let past := match o with OPT _ _ => negb (offset =? option_length o) | NOP => true end in
    (mkParseEnv past (wrap 4 (offset - option_length o)) (le_val l) offs fieldss,
     when (negb past) [0]).
Proof.
  intros Ho Hb Hl. pose proof (fields_after (encode_option o) l Hb Hl) as Hs.
  rewrite encode_option_length in Hs. unfold parse_optional_header_fields. simpl po_parsing.
  cbn [po_fields po_dataOffset]. destruct o as [|kind v].
  - simpl app in *. rewrite first_lane by done. simpl. f_equal. f_equal. exact Hs.
  - simpl app in *. rewrite first_lane, second_lane by done.
    destruct Ho as (Hk & H0 & H1 & H3 & _).
    rewrite (proj2 (Z.eqb_neq kind 0)), (proj2 (Z.eqb_neq kind 1)), (proj2 (Z.eqb_neq kind 3)) by done.
    cbn [option_length] in *. destruct (offset =? _); simpl; do 2 f_equal; exact Hs.
Qed.

(** The parser on the window scale. *)
Lemma parse_window_scale offset c d l fieldss :
  bytes (3 :: c :: d :: l) ->
  drained parse_optional_header_fields parse_arrive
    (mkParseEnv true offset (le_val (3 :: c :: d :: l)) [] fieldss) = [wrap 4 d].
Proof.
  intros Hb. rewrite drained_unfold. unfold parse_optional_header_fields at 1 3. cbn [po_parsing po_fields].
  rewrite (first_lane 7 0 3) by done. rewrite third_lane_low by done.
  cbn [Z.eqb Pos.eqb]. cbv beta iota zeta. simpl snd. by rewrite drained_stuck.
Qed.

Definition offsets_in (s : list (option parse_arrival)) : list Z :=
  omap (fun a => match a with A_dataOffset n => Some n | _ => None end) (arrivals s).
Definition fields_in (s : list (option parse_arrival)) : list Z :=
  omap (fun a => match a with A_fields z => Some z | _ => None end) (arrivals s).

Lemma parse_arrivals s :
  arrive_all parse_arrive (arrivals s) parse_init
  = mkParseEnv false 0 0 (offsets_in s) (fields_in s).
Proof.
  set (e := arrive_all parse_arrive (arrivals s) parse_init).
  transitivity (mkParseEnv (po_parsing e) (po_dataOffset e) (po_fields e) (dataOffsetIn e)
    (optionalHeaderFieldsIn e)); [by destruct e|].
  unfold e. f_equal.
  - by apply (arrive_all_other _ po_parsing); intros [].
  - by apply (arrive_all_other _ po_dataOffset); intros [].
  - by apply (arrive_all_other _ po_fields); intros [].
  - change (offsets_in s) with (dataOffsetIn parse_init ++ offsets_in s).
    apply arrive_all_stream; intros [] ?; simpl; by rewrite ?app_nil_r.
  - change (fields_in s) with (optionalHeaderFieldsIn parse_init ++ fields_in s).
    apply arrive_all_stream; intros [] ?; simpl; by rewrite ?app_nil_r.
Qed.

(** What the window scale parser finds.  Among options in front of it, the window
    scale is found unless the count of the parser, which starts with the length of
    the options in words and is decreased by bytes, meets the length of one of them;
    then the parser reports no scale, whatever follows. *)
Theorem option_parser_finds s offset opts shift rest :
  let fields := concat (map encode_option opts) ++ 3 :: 3 :: shift :: rest in
  Forall option_ok opts -> bytes fields -> (length fields <= 40)%nat -> in_width 4 offset ->
  offsets_in s = [offset] -> fields_in s = [le_val fields] ->
  output parse_optional_header_fields parse_arrive s parse_init
  = [if gets_past offset opts then wrap 4 shift else 0].
Proof.
  intros fields Hok Hb Hlen Hoff Ho Hf. rewrite output_drained.
  rewrite parse_arrivals. rewrite Ho, Hf.
  erewrite drained_call by reflexivity. simpl app.
  rewrite (wrap_small 4) by done. rewrite (wrap_small 320) by (by apply fields_width).
  unfold fields in *. clear fields Hoff Ho Hf. revert offset.
  induction Hok as [|o opts Ho _ IH]; intros offset;
    cbn [map concat app gets_past] in Hb, Hlen |- *.
  - by apply parse_window_scale.
  - rewrite <- app_assoc in *.
    erewrite drained_call by (by apply parse_option). cbv zeta.
    destruct o as [|kind v].
    + simpl. apply IH; [by inversion Hb|simpl in Hlen; lia].
    + destruct (offset =? option_length (OPT kind v)) eqn:He.
      * cbn [negb andb when]. by rewrite drained_stuck.
      * cbn [negb andb when app]. apply IH.
        -- by apply Forall_app in Hb as [_ Hb].
        -- rewrite length_app in Hlen. lia.
Qed.

(** C36: an option of length 0 stops the receive path.  When the options of a SYN start
    with an option whose length byte is 0, the parser never reports a window scale,
    for this SYN or any other, whatever arrives later and however often it is
    called; the metadata of the SYN is then never passed on. *)
Theorem option_parser_hangs s offset offs kind rest fieldss :
  offsets_in s = offset :: offs -> fields_in s = le_val (kind :: 0 :: rest) :: fieldss ->
  in_width 4 offset -> offset <> 0 -> kind <> 0 -> kind <> 1 -> kind <> 3 ->
  bytes (kind :: 0 :: rest) -> (length rest <= 38)%nat ->
  (exec parse_optional_header_fields parse_arrive s parse_init).2 = [].
Proof.
  intros Ho Hf Hw Hnz H0 H1 H3 Hb Hl.
  assert (drained parse_optional_header_fields parse_arrive
            (arrive_all parse_arrive (arrivals s) parse_init) = []) as Hd.
  { rewrite parse_arrivals, Ho, Hf.
    assert (in_width 320 (le_val (kind :: 0 :: rest))) as Hfw by (apply fields_width; [done|simpl; lia]).
    pose proof (first_lane 7 0 _ _ Hb eq_refl eq_refl) as Hk.
    pose proof (second_lane _ _ _ Hb) as Hz.
    generalize dependent (le_val (kind :: 0 :: rest)). intros f _ Hfw Hk Hz.
    erewrite drained_call by reflexivity. rewrite (wrap_small 4), (wrap_small 320) by done.
    simpl app. apply drained_stuck. unfold parse_optional_header_fields.
    cbn [po_parsing po_fields po_dataOffset]. rewrite Hk, Hz.
    rewrite (proj2 (Z.eqb_neq kind 0)), (proj2 (Z.eqb_neq kind 1)), (proj2 (Z.eqb_neq kind 3)) by done.
    rewrite (proj2 (Z.eqb_neq offset 0)), (wrap_small 320), Z.sub_0_r by done.
    rewrite Z.shiftr_0_r, (wrap_small 4) by done. reflexivity. }
  pose proof (kahn_prefix _ parse_arrive s parse_init) as Hp. rewrite Hd in Hp.
  by apply prefix_nil_inv in Hp.
Qed.

(** ** [rxEventMerger]: the events of the metadata handler go first *)
Record event_merger_env := mkEventMergerEnv { rm_in1 : stream extendedEvent; rm_in2 : stream event }.

Definition rxEventMerger (e : event_merger_env) : event_merger_env * list extendedEvent :=
  match rm_in1 e with
  | ev :: rest => (mkEventMergerEnv rest (rm_in2 e), [ev])
  | [] => match rm_in2 e with
          | ev :: rest => (mkEventMergerEnv [] rest, [extend_event ev])
          | [] => (e, [])
          end
  end.
End RxPipeline.

#[export] Existing Instances eta_parse_env eta_merge_env eta_mh_env eta_dropper_env dropper_kahn mh_kahn
  eta_delayer_env parse_kahn.

Section RxPipelineWitnesses.

Definition demo_word (b : Z) (l : bool) : net_axis := mkWord [b] [true] l.

(** A packet of two words that passes twice, one that the metadata handler turns away
    and one that the state machine drops; the tokens come late. *)
Definition demo_packets3 : list (verdict * list net_axis) :=
  [(Some false, [demo_word 1 false; demo_word 2 true]); (None, [demo_word 3 true]);
   (Some true, [demo_word 4 true])].

Definition demo_drop_schedule : list (option dropper_arrival) :=
  [Some (A_payload (demo_word 1 false)); None; Some (A_drop1 false); None;
   Some (A_payload (demo_word 2 true)); Some (A_drop2 false); None; None; Some (A_drop1 true);
   Some (A_payload (demo_word 3 true)); Some (A_drop1 false); Some (A_drop2 true);
   Some (A_payload (demo_word 4 true)); None].

Lemma rxPackageDropper_filters_witness :
  output rxPackageDropper dropper_arrive demo_drop_schedule dropper_init
  = [demo_word 1 false; demo_word 2 true].
Proof.
  apply (rxPackageDropper_filters demo_drop_schedule demo_packets3); try (by vm_compute).
  repeat (constructor; simpl; repeat constructor).
Defined.

Definition demo_tuple : fourTuple := mkFourTuple 16843018 16908554 20480 36895.

(** A SYN with payload to a closed port and a segment of a known session. *)
Definition demo_segments : list segment :=
  [mkSegment (mkRxMeta 1000 0 0 0 5 false false true false 5) demo_tuple None;
   mkSegment (mkRxMeta 2000 0 0 0 7 true false false false 5) demo_tuple
     (Some (mkSessionLookupReply 4 true))].

Definition demo_mh_schedule : list (option mh_arrival) :=
  [Some (A_port false); Some (A_port true); None]
  ++ map (fun g => Some (A_meta (sg_meta g))) demo_segments
  ++ map (fun g => Some (A_tuple (sg_tuple g))) demo_segments
  ++ [None; Some (A_lookup (mkSessionLookupReply 4 true)); None].

Lemma rxMetadataHandler_decides_witness :
  drop_tokens (output rxMetadataHandler mh_arrive demo_mh_schedule mh_init) = [true; false].
Proof.
  pose proof (rxMetadataHandler_decides demo_mh_schedule demo_segments
    ltac:(by vm_compute) ltac:(by vm_compute) ltac:(by vm_compute) ltac:(by vm_compute))
    as (_ & Hd & _).
  rewrite Hd. by vm_compute.
Defined.

Definition demo_notification (len : Z) : appNotification := mkAppNotification 4 len 0 0 false.

(** Two notifications of payload, one acknowledged write. *)
Lemma notification_delayer_in_order_witness :
  let s := [Some (A_notification (demo_notification 5)); Some (A_notification (demo_notification 6));
            Some (A_double false); None; None; Some (A_status (mkMmStatus 0 false false false true)); None] in
  let '(e, w) := exec rxAppNotificationDelayer delayer_arrive s delayer_init in
  with_data w ++ held e ++ with_data (internalNotificationFifoIn e)
  = with_data (notifications_in (arrivals s)).
Proof.
  intros s. pose proof (notification_delayer_in_order s) as H.
  destruct (exec rxAppNotificationDelayer delayer_arrive s delayer_init) as [e w].
  apply H.
  - change (statuses_in (arrivals s)) with [mkMmStatus 0 false false false true].
    by repeat constructor.
  - change (notifications_in (arrivals s)) with [demo_notification 5; demo_notification 6].
    constructor; [by right|]. constructor; [by right|constructor].
Defined.

Lemma close_notification_overtakes_witness :
  (exec rxAppNotificationDelayer delayer_arrive
     [Some (A_notification (demo_notification 5)); Some (A_double false);
      Some (A_notification (appNotification_close 4 0 0 true)); None; None;
      Some (A_status (mkMmStatus 0 false false false true)); None] delayer_init).2
  = [appNotification_close 4 0 0 true; demo_notification 5].
Proof. by apply close_notification_overtakes. Defined.

(** The twenty bytes of options that Linux sends with a SYN: maximum segment size,
    selective acknowledgement, timestamps, padding, window scale. *)
Definition linux_options : list tcp_option :=
  [OPT 2 [5; 180]; OPT 4 []; OPT 8 [1; 2; 3; 4; 0; 0; 0; 0]; NOP].

Definition option_schedule (words : Z) (opts : list tcp_option) (shift : Z) : list (option parse_arrival) :=
  [Some (A_dataOffset words); None;
   Some (A_fields (le_val (concat (map encode_option opts) ++ [3; 3; shift])))].

(** The scale is found; with four words of options that begin with the maximum
    segment size, whose length is four bytes, it is not. *)
Lemma option_parser_finds_witness :
  output parse_optional_header_fields parse_arrive (option_schedule 5 linux_options 7) parse_init = [7] /\
  output parse_optional_header_fields parse_arrive
    (option_schedule 4 [OPT 2 [5; 180]; NOP] 7) parse_init = [0].
Proof.
  split.
  - refine (option_parser_finds (option_schedule 5 linux_options 7) 5 linux_options 7 [] _ _ _ _ _ _);
      try done; repeat constructor; done.
  - refine (option_parser_finds (option_schedule 4 [OPT 2 [5; 180]; NOP] 7) 4
      [OPT 2 [5; 180]; NOP] 7 [] _ _ _ _ _ _); try done; repeat constructor; done.
Defined.

Lemma option_parser_hangs_witness :
  (exec parse_optional_header_fields parse_arrive
     ([Some (A_dataOffset 1); Some (A_fields (le_val [2; 0; 0; 0]))] ++ repeat None 50) parse_init).2 = [].
Proof.
  refine (option_parser_hangs _ 1 [] 2 [0; 0] [] _ _ _ _ _ _ _ _ _); try done; try (by vm_compute).
  - repeat constructor; done.
  - simpl. lia.
Defined.
End RxPipelineWitnesses.
