(* ===== verification/Datapath.v ===== *)
(** * Payload on its way to and from the buffers in memory

    ([toe/rx_engine], [toe/tx_app_stream_if], [toe/tx_engine])

    A session's region of a buffer is a ring.  [rxEngMemWrite] and [tasi_pkg_pusher]
    split a write that crosses the end of the region into two commands and two
    packets, realigning the second; [read_data_stitching] joins the two packets that
    a split read returns.  [read_data_arbiter] chooses between the memory and the
    bypass, [remove_pseudo_header] and [insert_checksum] finish a segment. *)

From S2P Require Import Prelude Streams Words Shifters ToeTypes.

Section Datapath.
Context {WW : WordWidth}.

(** [ConstLog2(DATA_WIDTH/8)] ([toe_config.hpp.in]). *)
Definition DATA_KEEP_BITS : Z := Z.log2 (Z.of_nat lanes).

(** ** Splitting a write at the end of the region

    The two processes share their text, up to the announcement of a split write by
    [doubleAccess] and the word that fills up the residue. *)
Inductive split_state := SP_IDLE | SP_IDLE_REG | SP_CUT_FIRST | SP_ALIGN_SECOND | SP_FWD_ALIGNED | SP_RESIDUE.

Record split_env := mkSplitEnv {
  sp_state : split_state;
  sp_cmd : mmCmd;
  sp_remainingLength : Z;
  sp_lengthFirstPkg : Z;
  sp_offset : Z;
  sp_prevWord : net_axis;
  sp_cmdIn : stream mmCmd;
  sp_dataIn : stream net_axis
}.
#[export] Instance eta_split_env : Eta split_env := fun e =>
  mkSplitEnv (sp_state e) (sp_cmd e) (sp_remainingLength e) (sp_lengthFirstPkg e) (sp_offset e)
    (sp_prevWord e) (sp_cmdIn e) (sp_dataIn e).

Definition split_init : split_env := mkSplitEnv SP_IDLE (mkMmCmd 0 0) 0 0 0 no_word [] [].

Inductive split_write :=
| W_cmdOut (cmd : mmCmd)
| W_dataOut (w : net_axis)
| W_doubleAccess (b : bool).

Inductive split_arrival := A_cmdIn (cmd : mmCmd) | A_dataIn (w : net_axis).
Definition split_arrive (a : split_arrival) (e : split_env) : split_env :=
  match a with
  | A_cmdIn cmd => e <| sp_cmdIn := sp_cmdIn e ++ [cmd] |>
  | A_dataIn w => e <| sp_dataIn := sp_dataIn e ++ [w] |>
  end.

Definition crosses_end (cmd : mmCmd) : bool :=
  BUFFER_SIZE <? bits (WINDOW_BITS - 1) 0 (mc_saddr cmd) + mc_bbt cmd.

(** The command of the second part. *)
Definition second_cmd (cmd : mmCmd) (lengthFirstPkg : Z) : mmCmd :=
  mkMmCmd (set_bits (WINDOW_BITS - 1) 0 0 (mc_saddr cmd)) (wrap 23 (mc_bbt cmd - lengthFirstPkg)).

Section Split.
Variable announce : bool.
Variable emptyWord : net_axis.

Definition split_packet (e : split_env) : split_env * list split_write :=
  let cmd := sp_cmd e in
  let offset := Z.to_nat (sp_offset e) in
  match sp_state e with
  | SP_IDLE =>
      match sp_cmdIn e with
      | cmd :: rest => (e <| sp_cmdIn := rest |> <| sp_cmd := cmd |> <| sp_state := SP_IDLE_REG |>, [])
      | [] => (e, [])
      end
  | SP_IDLE_REG =>
      if crosses_end cmd then
        let first := wrap WINDOW_BITS (BUFFER_SIZE - mc_saddr cmd) in
        (e <| sp_lengthFirstPkg := first |> <| sp_remainingLength := first |>
           <| sp_offset := wrap 8 (bits (DATA_KEEP_BITS - 1) 0 first) |>
           <| sp_state := SP_CUT_FIRST |>,
         when announce [W_doubleAccess true] ++ [W_cmdOut (mmCmd_new (mc_saddr cmd) first)])
      else (e <| sp_state := SP_FWD_ALIGNED |>,
            when announce [W_doubleAccess false] ++ [W_cmdOut cmd])
  | SP_CUT_FIRST =>
      match sp_dataIn e with
      | [] => (e, [])
      | prevWord :: rest =>
          let e := e <| sp_dataIn := rest |> <| sp_prevWord := prevWord |> in
          let remaining := sp_remainingLength e in
          if Z.of_nat lanes <? remaining then
            (e <| sp_remainingLength := wrap WINDOW_BITS (remaining - Z.of_nat lanes) |>,
             [W_dataOut prevWord])
          else
            let cmd := second_cmd cmd (sp_lengthFirstPkg e) in
            if remaining =? Z.of_nat lanes then
              (e <| sp_cmd := cmd |> <| sp_state := SP_FWD_ALIGNED |>,
               [W_cmdOut cmd; W_dataOut (mkWord (data prevWord) (keep prevWord) true)])
            else
              (e <| sp_cmd := cmd |>
                 <| sp_state := if last prevWord then SP_RESIDUE else SP_ALIGN_SECOND |>,
               [W_cmdOut cmd;
                W_dataOut (mkWord (data prevWord) (to_lanes lanes (lenToKeep remaining)) true)])
      end
  | SP_FWD_ALIGNED =>
      match sp_dataIn e with
      | [] => (e, [])
      | currWord :: rest =>
          (e <| sp_dataIn := rest |>
             <| sp_state := if last currWord then SP_IDLE else SP_FWD_ALIGNED |>,
           [W_dataOut currWord])
      end
  | SP_ALIGN_SECOND =>
      match sp_dataIn e with
      | [] => (e, [])
      | currWord :: rest =>
          let send_last := negb (default false (keep currWord !! offset)) in
          let sendWord := alignWords offset (sp_prevWord e) currWord send_last in
          (e <| sp_dataIn := rest |> <| sp_prevWord := currWord |>
             <| sp_state := if last currWord then if send_last then SP_IDLE else SP_RESIDUE
                            else SP_ALIGN_SECOND |>,
           [W_dataOut sendWord])
      end
  | SP_RESIDUE =>
      (e <| sp_state := SP_IDLE |>,
       [W_dataOut (alignWords offset (sp_prevWord e) emptyWord true)])
  end.

Definition split_work (e : split_env) : nat :=
  4 * length (sp_cmdIn e) + 3 * length (sp_dataIn e)
  + match sp_state e with SP_IDLE => 0 | SP_IDLE_REG => 2 | SP_RESIDUE => 1 | _ => 1 end.

#[export, refine] Instance split_kahn : KahnProcess split_packet split_arrive := {
  kahn_work := split_work;
  kahn_progress := _;
  kahn_diamond := _
}.
Proof.
  - intros [[] cmd rem first off prev [|c cs] [|w ws]]; unfold split_packet, split_work; simpl;
      try (by left); right; repeat case_match_in_goal; simpl in *; simplify_eq; simpl; lia.
  - intros [c'|w'] [[] cmd rem first off prev [|c cs] [|w ws]]; unfold split_packet; simpl;
      try (by left); right; repeat case_match; done.
Defined.
End Split.

(** [rxEngMemWrite]: the residue is filled up with unused lanes. *)
Definition rxEngMemWrite : split_env -> split_env * list split_write := split_packet true no_word.

(** [tasi_pkg_pusher]: it is filled up from a local word that is never assigned,
    [emptyWord]. *)
Definition tasi_pkg_pusher (emptyWord : net_axis) : split_env -> split_env * list split_write :=
  split_packet false emptyWord.

(** ** Joining the parts of a split read *)
Inductive stitch_state := ST_IDLE | ST_FIRST_PART | ST_STITCH | ST_ATTACH_ALIGNED | ST_RESIDUE.

Record stitch_env := mkStitchEnv {
  st_state : stitch_state;
  st_prevWord : net_axis;
  st_pkgNeedsMerge : bool;
  st_offset : Z;
  memAccessBreakdown2readPkgStitcher : stream bool;
  st_readDataIn : stream net_axis
}.
#[export] Instance eta_stitch_env : Eta stitch_env := fun e =>
  mkStitchEnv (st_state e) (st_prevWord e) (st_pkgNeedsMerge e) (st_offset e)
    (memAccessBreakdown2readPkgStitcher e) (st_readDataIn e).

Definition stitch_init : stitch_env := mkStitchEnv ST_IDLE no_word false 0 [] [].

(** A word of the first part, in [IDLE] and in [FIRST_PART]. *)
Definition stitch_first (e : stitch_env) (currWord : net_axis) : stitch_env * list net_axis :=
  let e := e <| st_offset := keepToLen (mask_of (keep currWord)) |> <| st_prevWord := currWord |> in
  if last currWord then
    if st_pkgNeedsMerge e then
      let currWord := mkWord (data currWord) (keep currWord) false in
      let e := e <| st_prevWord := currWord |> in
      if negb (default false (keep currWord !! (lanes - 1)%nat))
      then (e <| st_state := ST_STITCH |>, [])
      else (e <| st_state := ST_ATTACH_ALIGNED |>, [currWord])
    else (e <| st_state := ST_IDLE |>, [currWord])
  else (e <| st_state := ST_FIRST_PART |>, [currWord]).

Definition read_data_stitching (e : stitch_env) : stitch_env * list net_axis :=
  let prevWord := st_prevWord e in
  let offset := Z.to_nat (st_offset e) in
  let up := (lanes - offset)%nat in
  match st_state e with
  | ST_IDLE =>
      match memAccessBreakdown2readPkgStitcher e, st_readDataIn e with
      | needsMerge :: flags, currWord :: rest =>
          stitch_first (e <| memAccessBreakdown2readPkgStitcher := flags |>
            <| st_readDataIn := rest |> <| st_pkgNeedsMerge := needsMerge |>) currWord
      | _, _ => (e, [])
      end
  | ST_FIRST_PART =>
      match st_readDataIn e with
      | currWord :: rest => stitch_first (e <| st_readDataIn := rest |>) currWord
      | [] => (e, [])
      end
  | ST_ATTACH_ALIGNED =>
      match st_readDataIn e with
      | currWord :: rest =>
          (e <| st_readDataIn := rest |>
             <| st_state := if last currWord then ST_IDLE else ST_ATTACH_ALIGNED |>, [currWord])
      | [] => (e, [])
      end
  | ST_STITCH =>
      match st_readDataIn e with
      | currWord :: rest =>
          let sendWord :=
            mkWord (take offset (data prevWord) ++ take up (data currWord))
              (take offset (keep prevWord) ++ take up (keep currWord))
              (negb (default false (keep currWord !! up))) in
          (e <| st_readDataIn := rest |>
             <| st_prevWord := mkWord (drop up (data currWord) ++ drop offset (data prevWord))
                  (drop up (keep currWord) ++ drop offset (keep prevWord)) (last prevWord) |>
             <| st_state := if last currWord then if last sendWord then ST_IDLE else ST_RESIDUE
                            else ST_STITCH |>,
           [sendWord])
      | [] => (e, [])
      end
  | ST_RESIDUE =>
      (e <| st_state := ST_IDLE |>,
       [mkWord (take offset (data prevWord) ++ replicate up 0)
          (take offset (keep prevWord) ++ replicate up false) true])
  end.

Inductive stitch_arrival := A_needsMerge (b : bool) | A_readData (w : net_axis).
Definition stitch_arrive (a : stitch_arrival) (e : stitch_env) : stitch_env :=
  match a with
  | A_needsMerge b =>
      e <| memAccessBreakdown2readPkgStitcher := memAccessBreakdown2readPkgStitcher e ++ [b] |>
  | A_readData w => e <| st_readDataIn := st_readDataIn e ++ [w] |>
  end.

#[export, refine] Instance stitch_kahn : KahnProcess read_data_stitching stitch_arrive := {
  kahn_work e := (2 * length (st_readDataIn e)
                  + match st_state e with ST_RESIDUE => 1 | _ => 0 end)%nat;
  kahn_progress := _;
  kahn_diamond := _
}.
Proof.
  - intros [[] prev m off [|b bs] [|w ws]]; unfold read_data_stitching, stitch_first; simpl;
      try (by left); right; repeat case_match_in_goal; simpl in *; simplify_eq; simpl; lia.
  - intros [b'|w'] [[] prev m off [|b bs] [|w ws]]; unfold read_data_stitching, stitch_first; simpl;
      try (by left); right; repeat case_match_in_goal; simpl in *; simplify_eq; done.
Defined.

(** The streams a split write goes to. *)
Definition cmds_out (w : list split_write) : list mmCmd :=
  omap (fun x => match x with W_cmdOut cmd => Some cmd | _ => None end) w.
Definition data_out (w : list split_write) : list net_axis :=
  omap (fun x => match x with W_dataOut wd => Some wd | _ => None end) w.
Definition access_flags (w : list split_write) : list bool :=
  omap (fun x => match x with W_doubleAccess b => Some b | _ => None end) w.

Lemma data_out_words ws : data_out (map W_dataOut ws) = ws.
Proof. by apply omap_map_Some. Qed.
Lemma cmds_out_words ws : cmds_out (map W_dataOut ws) = [].
Proof. by apply omap_map_None. Qed.
Lemma access_flags_words ws : access_flags (map W_dataOut ws) = [].
Proof. by apply omap_map_None. Qed.
Lemma data_out_app w1 w2 : data_out (w1 ++ w2) = data_out w1 ++ data_out w2.
Proof. apply omap_app. Qed.
Lemma cmds_out_app w1 w2 : cmds_out (w1 ++ w2) = cmds_out w1 ++ cmds_out w2.
Proof. apply omap_app. Qed.
Lemma access_flags_app w1 w2 : access_flags (w1 ++ w2) = access_flags w1 ++ access_flags w2.
Proof. apply omap_app. Qed.
Hint Rewrite data_out_words cmds_out_words access_flags_words data_out_app cmds_out_app
  access_flags_app : split.

(** ** What a request is split into *)
Definition region_offset (cmd : mmCmd) : Z := bits (WINDOW_BITS - 1) 0 (mc_saddr cmd).

Definition split_spec (cmd : mmCmd) (bs : list Z) : list (mmCmd * list Z) :=
  if crosses_end cmd then
    let first := BUFFER_SIZE - region_offset cmd in
    [(mkMmCmd (mc_saddr cmd) first, take (Z.to_nat first) bs);
     (mkMmCmd (mc_saddr cmd - region_offset cmd) (mc_bbt cmd - first), drop (Z.to_nat first) bs)]
  else [(cmd, bs)].

Definition request_ok (cmd : mmCmd) (bs : list Z) : Prop :=
  in_width 32 (mc_saddr cmd) /\ in_width 16 (mc_bbt cmd) /\ Z.of_nat (length bs) = mc_bbt cmd.

(** The section's words are those of a configuration: a power of two lanes, at most 64. *)
Definition width_ok : Prop := Z.of_nat lanes = 2 ^ DATA_KEEP_BITS /\ (0 < lanes <= 64)%nat.

Section SplitSpec.
Variable announce : bool.
Hypothesis Hwidth : width_ok.

Let proc := split_packet announce no_word.

Lemma split_forward cmd rem first off prev cs ws rest :
  framed ws ->
  drained proc split_arrive (mkSplitEnv SP_FWD_ALIGNED cmd rem first off prev cs (ws ++ rest))
  = map W_dataOut ws ++ drained proc split_arrive (mkSplitEnv SP_IDLE cmd rem first off prev cs rest).
Proof.
  induction 1 as [w Hl|w ws Hl _ IH]; simpl;
    erewrite drained_call by reflexivity; simpl; rewrite Hl; [done|].
  by rewrite IH.
Qed.

(** The process waits for its next command. *)
Definition split_waits (cs : list mmCmd) (rest : list net_axis) (e : split_env) : Prop :=
  sp_state e = SP_IDLE /\ sp_cmdIn e = cs /\ sp_dataIn e = rest.

Lemma split_residue cmd rem first off prev cs rest :
  (Z.to_nat off <= lanes)%nat ->
  exists e', drained proc split_arrive (mkSplitEnv SP_RESIDUE cmd rem first off prev cs rest)
    = map W_dataOut [residue (Z.to_nat off) prev] ++ drained proc split_arrive e' /\
  split_waits cs rest e'.
Proof.
  intros Ho. eexists. erewrite drained_call by reflexivity. split.
  - unfold residue, alignWords, no_word. simpl. rewrite !take_replicate, Nat.min_l by done. done.
  - done.
Qed.

(** The lane behind the first [k] tells whether any lane from [k] on is in use. *)
Lemma next_lane n k m :
  (k < n)%nat -> (m <= n)%nat ->
  negb (default false (low_lanes n m !! k)) = no_lane (drop k (low_lanes n m)).
Proof.
  intros Hk Hm. rewrite drop_low_lanes, no_lane_low. unfold low_lanes.
  destruct (decide (k < m)%nat).
  - rewrite lookup_app_l, lookup_replicate_2 by (rewrite ?length_replicate; lia).
    by rewrite (proj2 (Nat.eqb_neq _ _)) by lia.
  - rewrite lookup_app_r, lookup_replicate_2 by (rewrite ?length_replicate; lia).
    by rewrite (proj2 (Nat.eqb_eq _ _)) by lia.
Qed.

Lemma split_align cmd rem first off cs ws bs rest prev :
  packet ws bs -> (Z.to_nat off < lanes)%nat ->
  exists e',
    drained proc split_arrive (mkSplitEnv SP_ALIGN_SECOND cmd rem first off prev cs (ws ++ rest))
    = map W_dataOut (realign (Z.to_nat off) prev ws) ++ drained proc split_arrive e' /\
    split_waits cs rest e'.
Proof.
  intros Hp Ho. revert prev. induction Hp as [bs pad Hne Hl|bs ws bs' Hl Hp IH]; intros prev.
  - erewrite drained_call by reflexivity. simpl.
    rewrite next_lane by lia. unfold joined. simpl.
    destruct (no_lane _); [eexists; split; [reflexivity|done]|].
    edestruct split_residue as (e' & -> & He); [|by exists e']. lia.
  - edestruct IH as (e' & Hd & He). exists e'. split; [|done].
    erewrite drained_call by reflexivity. simpl. rewrite Hd, next_lane by lia. done.
Qed.

(** [w] sends the second command, and the bytes [bs] as two packets cut after [n]. *)
Definition cut_writes (cmd2 : mmCmd) (n : nat) (bs : list Z) (w : list split_write) : Prop :=
  cmds_out w = [cmd2] /\ access_flags w = [] /\
  exists ws1 ws2, data_out w = ws1 ++ ws2 /\ packet ws1 (take n bs) /\ packet ws2 (drop n bs).

Lemma cut_writes_now cmd2 n bs w ws :
  packet [w] (take n bs) -> packet ws (drop n bs) ->
  cut_writes cmd2 n bs ([W_cmdOut cmd2; W_dataOut w] ++ map W_dataOut ws).
Proof.
  intros H1 H2. split_and!.
  - rewrite cmds_out_app, cmds_out_words. done.
  - rewrite access_flags_app, access_flags_words. done.
  - exists [w], ws. by rewrite data_out_app, data_out_words.
Qed.

Lemma cut_writes_later cmd2 n bs0 bs w :
  length bs0 = lanes -> (lanes < n)%nat -> cut_writes cmd2 (n - lanes) bs w ->
  cut_writes cmd2 n (bs0 ++ bs) (W_dataOut (mkWord bs0 (low_lanes lanes lanes) false) :: w).
Proof.
  intros Hl Hn (Hc & Ha & ws1 & ws2 & Hd & H1 & H2). split_and!; [done..|].
  exists (mkWord bs0 (low_lanes lanes lanes) false :: ws1), ws2.
  rewrite take_app, drop_app, (take_ge bs0), (drop_ge bs0), Hl by lia.
  split_and!; [|by constructor|done]. simpl. by f_equal.
Qed.

(** The first [n] bytes of a word, and a whole word, as the last of a packet. *)
Lemma cut_word n bs pad :
  (0 < n <= length bs)%nat -> (length bs + length pad)%nat = lanes ->
  packet [mkWord (bs ++ pad) (low_lanes lanes n) true] (take n bs).
Proof.
  intros Hn Hl. pose proof (packet_last (take n bs) (drop n bs ++ pad)) as Hp.
  rewrite app_assoc, take_drop, length_app, length_take, length_drop, Nat.min_l in Hp by lia.
  apply Hp; [|lia]. destruct bs, n; simpl in *; done || lia.
Qed.

Lemma full_word bs :
  length bs = lanes -> (0 < lanes)%nat -> packet [mkWord bs (low_lanes lanes lanes) true] bs.
Proof.
  intros Hl H0. pose proof (cut_word lanes bs []) as Hp. rewrite app_nil_r, take_ge in Hp by lia.
  apply Hp; simpl; lia.
Qed.

Lemma split_cut cmd n first cs ws bs rest prev :
  packet ws bs -> (0 < n < length bs)%nat -> in_width WINDOW_BITS (Z.of_nat n) ->
  exists w e',
    drained proc split_arrive (mkSplitEnv SP_CUT_FIRST cmd (Z.of_nat n) first
      (Z.of_nat (n `mod` lanes)) prev cs (ws ++ rest))
    = w ++ drained proc split_arrive e' /\
    split_waits cs rest e' /\ cut_writes (second_cmd cmd first) n bs w.
Proof.
  intros Hp. destruct Hwidth as [_ Hl64]. revert n prev.
  assert (forall n, (0 < n < lanes)%nat -> to_lanes lanes (lenToKeep (Z.of_nat n)) = low_lanes lanes n) as Hkeep.
  { intros n Hn. rewrite lenToKeep_ones by lia. by apply to_lanes_mask; lia. }
  induction Hp as [bs pad Hne Hl|bs ws bs' Hl Hp IH]; intros n prev Hn Hwn; simpl.
  - erewrite drained_call.
    2: { unfold proc, split_packet. simpl. rewrite (proj2 (Z.ltb_ge _ _)) by lia.
         rewrite (proj2 (Z.eqb_neq _ _)) by lia. rewrite Hkeep by lia. reflexivity. }
    rewrite Nat.mod_small by lia. simpl.
    edestruct (split_residue (second_cmd cmd first)) as (e' & -> & He); [rewrite Nat2Z.id; lia|].
    eexists ([_; _] ++ map W_dataOut [_]), e'. split; [reflexivity|].
    split; [done|]. rewrite Nat2Z.id. apply cut_writes_now; [|by apply residue_packet; lia].
    apply cut_word; lia.
  - destruct (decide (lanes < n)%nat) as [Hlt|Hge].
    + destruct (IH (n - lanes)%nat (mkWord bs (low_lanes lanes lanes) false)) as (w & e' & Hd & He & Hcut);
        [rewrite length_app in Hn; lia|unfold in_width in *; lia|].
      eexists _, e'. erewrite drained_call.
      2: { unfold proc, split_packet. simpl. rewrite (proj2 (Z.ltb_lt _ _)) by lia.
           rewrite wrap_small, <- Nat2Z.inj_sub by (unfold in_width in *; lia). reflexivity. }
      replace (n `mod` lanes)%nat with ((n - lanes) `mod` lanes)%nat.
      * fold (app ws rest). rewrite Hd. split; [by rewrite app_assoc|]. split; [done|].
        by apply cut_writes_later.
      * replace n with ((n - lanes) + 1 * lanes)%nat at 2 by lia. symmetry. apply Nat.Div0.mod_add.
    + destruct (decide (n = lanes)) as [->|Hne].
      * eexists _, _. erewrite drained_call.
        2: { unfold proc, split_packet. simpl. rewrite (proj2 (Z.ltb_ge _ _)) by lia.
             rewrite Z.eqb_refl. reflexivity. }
        fold (app ws rest). rewrite split_forward by (by eapply packet_framed).
        split; [by rewrite app_assoc|]. split; [done|]. apply cut_writes_now.
        -- rewrite take_app_length' by done. apply full_word; [done|lia].
        -- by rewrite drop_app_length' by done.
      * erewrite drained_call.
        2: { unfold proc, split_packet. simpl. rewrite (proj2 (Z.ltb_ge _ _)) by lia.
             rewrite (proj2 (Z.eqb_neq _ _)) by lia. rewrite Hkeep by lia. reflexivity. }
        rewrite Nat.mod_small by lia. fold (app ws rest).
        edestruct (split_align (second_cmd cmd first)) as (e' & -> & He); [done|rewrite Nat2Z.id; lia|].
        eexists _, e'. split; [rewrite app_assoc; reflexivity|]. split; [done|].
        rewrite Nat2Z.id. apply cut_writes_now.
        -- rewrite take_app_le by lia. rewrite <- (app_nil_r bs) at 1.
           apply cut_word; simpl; lia.
        -- apply realign_packet; [lia|done|done].
Qed.

(** What the process writes for the requests [reqs]. *)
Definition split_result (reqs : list (mmCmd * list Z)) (w : list split_write) : Prop :=
  let parts := flat_map (fun r => split_spec r.1 r.2) reqs in
  cmds_out w = map fst parts /\ packets (data_out w) (map snd parts) /\
  access_flags w = (if announce then map (fun r => crosses_end r.1) reqs else []).

Lemma split_result_app reqs1 reqs2 w1 w2 :
  split_result reqs1 w1 -> split_result reqs2 w2 -> split_result (reqs1 ++ reqs2) (w1 ++ w2).
Proof.
  intros (H1 & H2 & H3) (H4 & H5 & H6). unfold split_result.
  rewrite cmds_out_app, data_out_app, access_flags_app, flat_map_app, !map_app.
  rewrite H1, H3, H4, H6. split_and!; [done| |by destruct announce].
  clear H1 H3 H4 H6. induction H2 as [|ws bs ws' bss Hw _ IH]; [done|].
  rewrite <- app_assoc. simpl. by constructor.
Qed.

Lemma packets_single ws bs : packet ws bs -> packets ws [bs].
Proof. intros H. rewrite <- (app_nil_r ws). constructor; [done|constructor]. Qed.

(** The arithmetic of a command that crosses the end of its region. *)
Lemma crossing_first cmd bs :
  request_ok cmd bs -> crosses_end cmd = true ->
  let first := wrap WINDOW_BITS (BUFFER_SIZE - mc_saddr cmd) in
  first = BUFFER_SIZE - region_offset cmd /\ in_width WINDOW_BITS first /\
  (0 < Z.to_nat first < length bs)%nat /\
  mmCmd_new (mc_saddr cmd) first = mkMmCmd (mc_saddr cmd) first /\
  second_cmd cmd first = mkMmCmd (mc_saddr cmd - region_offset cmd) (mc_bbt cmd - first).
Proof.
  intros (Ha & Hb & Hl) Hc first. unfold crosses_end in Hc. apply Z.ltb_lt in Hc.
  fold (region_offset cmd) in Hc.
  assert (in_width WINDOW_BITS (region_offset cmd)) as Hr.
  { unfold region_offset. rewrite bits_0. by apply wrap_range. }
  assert (exists q, mc_saddr cmd = q * 2 ^ WINDOW_BITS + region_offset cmd) as [q Hq].
  { exists (mc_saddr cmd / 2 ^ WINDOW_BITS). unfold region_offset. rewrite bits_0.
    unfold wrap. change (2 ^ (WINDOW_BITS - 1 + 1)) with (2 ^ WINDOW_BITS).
    rewrite Z.mul_comm. by apply Z.div_mod. }
  unfold BUFFER_SIZE in *. change (2 ^ WINDOW_BITS) with 262144 in *.
  unfold in_width in *. change (2 ^ WINDOW_BITS) with 262144 in *. pow2.
  assert (0 < region_offset cmd) as H0 by lia.
  assert (first = 262144 - region_offset cmd) as Hf.
  { unfold first. rewrite Hq. replace (262144 - _) with (262144 - region_offset cmd + (- q) * 2 ^ WINDOW_BITS)
      by (change (2 ^ WINDOW_BITS) with 262144; lia).
    rewrite wrap_add_mul. apply wrap_small. unfold in_width. change (2 ^ WINDOW_BITS) with 262144. lia. }
  split_and!; [done|lia|lia|lia|lia| |].
  - unfold mmCmd_new. rewrite !wrap_small by (unfold in_width; pow2; lia). done.
  - unfold second_cmd, set_bits. fold (region_offset cmd). rewrite Z.pow_0_r.
    rewrite (wrap_small 23) by (unfold in_width; pow2; lia).
    change (wrap _ 0) with 0. f_equal. lia.
Qed.

Lemma split_request e cmd ws bs cs rest :
  split_waits (cmd :: cs) (ws ++ rest) e -> packet ws bs -> request_ok cmd bs ->
  exists w e', drained proc split_arrive e = w ++ drained proc split_arrive e' /\
    split_waits cs rest e' /\ split_result [(cmd, bs)] w.
Proof.
  destruct e as [st c rem first off prev cmds ws0]. intros (Hs & Hc & Hd) Hp Hreq.
  simpl in *. subst. pose proof (packet_framed _ _ Hp) as Hf. destruct Hwidth as [Hpow Hl64].
  erewrite drained_call by reflexivity. simpl.
  destruct (crosses_end cmd) eqn:Hcr.
  - pose proof (crossing_first cmd bs Hreq Hcr) as (Hfst & Hw & Hn & Hc1 & Hc2). cbv zeta in *.
    erewrite drained_call by (unfold proc, split_packet; simpl; rewrite Hcr; reflexivity).
    set (f := wrap WINDOW_BITS (BUFFER_SIZE - mc_saddr cmd)) in *.
    assert (wrap 8 (bits (DATA_KEEP_BITS - 1) 0 f) = Z.of_nat (Z.to_nat f `mod` lanes)%nat) as ->.
    { rewrite bits_0, Z.sub_add. unfold wrap at 2. rewrite <- Hpow, Nat2Z.inj_mod, Z2Nat.id by (destruct Hw; lia).
      apply wrap_small. unfold in_width. change (2 ^ 8) with 256.
      pose proof (Z.mod_pos_bound f (Z.of_nat lanes)). lia. }
    destruct (split_cut cmd (Z.to_nat f) f cs ws bs rest prev) as (w & e' & Hd & He & Hcd & Had & Hdd);
      [done|done|rewrite Z2Nat.id by (destruct Hw; lia); done|].
    rewrite Z2Nat.id in Hd by (destruct Hw; lia). rewrite Hd.
    eexists _, e'. split; [by rewrite app_assoc|]. split; [done|].
    destruct Hdd as (ws1 & ws2 & Hdd & Hp1 & Hp2). unfold split_result. simpl.
    rewrite !cmds_out_app, !data_out_app, !access_flags_app, Hcd, Had, Hdd.
    unfold split_spec. rewrite Hcr, <- Hfst. fold f. simpl. rewrite Hc1, Hc2.
    split_and!; [by destruct announce| |by destruct announce].
    replace (data_out (when announce _)) with (@nil net_axis) by (by destruct announce). simpl.
    constructor; [done|]. by apply packets_single.
  - erewrite drained_call by (unfold proc, split_packet; simpl; rewrite Hcr; reflexivity).
    rewrite split_forward by done. eexists _, _. split; [by rewrite app_assoc|]. split; [done|].
    unfold split_result. simpl.
    rewrite !cmds_out_app, !data_out_app, !access_flags_app, cmds_out_words, data_out_words,
      access_flags_words. unfold split_spec. rewrite Hcr. simpl.
    replace (data_out (when announce _)) with (@nil net_axis) by (by destruct announce). simpl.
    split_and!; [by destruct announce|by apply packets_single|by destruct announce].
Qed.

Lemma split_requests reqs e ws :
  split_waits (map fst reqs) ws e -> packets ws (map snd reqs) ->
  Forall (fun r => request_ok r.1 r.2) reqs ->
  split_result reqs (drained proc split_arrive e).
Proof.
  revert e ws. induction reqs as [|[cmd bs] reqs IH]; intros e ws He Hp Hok.
  - inversion Hp; subst. destruct e as [st c rem first off prev cmds ws0].
    destruct He as (Hs & Hc & Hd). simpl in *. subst. rewrite drained_stuck by done.
    split_and!; [done|constructor|by destruct announce].
  - inversion Hp as [|ws1 ? ws2 ? Hp1 Hp2]; subst. inversion Hok; subst. simpl in *.
    destruct (split_request e cmd ws1 bs (map fst reqs) ws2) as (w & e' & -> & He' & Hw); [done..|].
    apply (split_result_app [(cmd, bs)] reqs); [done|]. by eapply IH.
Qed.

Lemma split_arrivals l e :
  split_waits (sp_cmdIn e) (sp_dataIn e) e ->
  split_waits (sp_cmdIn e ++ omap (fun a => match a with A_cmdIn c => Some c | _ => None end) l)
    (sp_dataIn e ++ omap (fun a => match a with A_dataIn w => Some w | _ => None end) l)
    (arrive_all split_arrive l e).
Proof.
  intros [Hs _]. split; [by rewrite (arrive_all_other _ sp_state) by (by intros [])|].
  split; apply arrive_all_stream; intros [] ?; simpl; by rewrite ?app_nil_r.
Qed.
End SplitSpec.

Definition cmds_in (s : list (option split_arrival)) : list mmCmd :=
  omap (fun a => match a with A_cmdIn c => Some c | _ => None end) (arrivals s).
Definition words_in (s : list (option split_arrival)) : list net_axis :=
  omap (fun a => match a with A_dataIn w => Some w | _ => None end) (arrivals s).

(** The commands and the payloads of [reqs] arrive on the schedule [s]. *)
Definition requests_arrive (s : list (option split_arrival)) (reqs : list (mmCmd * list Z)) : Prop :=
  cmds_in s = map fst reqs /\ packets (words_in s) (map snd reqs) /\
  Forall (fun r => request_ok r.1 r.2) reqs.

Lemma split_output announce s reqs :
  width_ok -> requests_arrive s reqs ->
  split_result announce reqs (output (split_packet announce no_word) split_arrive s split_init).
Proof.
  intros Hw (Hc & Hp & Hok). rewrite output_drained. eapply split_requests; [done| |done..].
  rewrite <- Hc. by apply split_arrivals.
Qed.

(** The parts of a request stay inside its region and keep the bytes and their order. *)
Lemma split_spec_in_region cmd bs :
  request_ok cmd bs ->
  Forall (fun r => region_offset r.1 + mc_bbt r.1 <= BUFFER_SIZE /\
            mc_saddr r.1 - region_offset r.1 = mc_saddr cmd - region_offset cmd /\
            Z.of_nat (length r.2) = mc_bbt r.1) (split_spec cmd bs) /\
  concat (map snd (split_spec cmd bs)) = bs.
Proof.
  intros Hreq. unfold split_spec. destruct (crosses_end cmd) eqn:Hcr.
  - pose proof (crossing_first cmd bs Hreq Hcr) as (Hfst & _ & Hn & _). cbv zeta in *.
    destruct Hreq as (Ha & Hb & Hl). rewrite Hfst in Hn. simpl.
    rewrite app_nil_r, take_drop. split; [|done].
    assert (region_offset (mkMmCmd (mc_saddr cmd - region_offset cmd)
      (mc_bbt cmd - (BUFFER_SIZE - region_offset cmd))) = 0) as H0.
    { unfold region_offset. simpl. rewrite !bits_0. change (WINDOW_BITS - 1 + 1) with WINDOW_BITS.
      rewrite wrap_sub_r, Z.sub_diag. done. }
    unfold in_width in *. change (2 ^ 16) with 65536 in *.
    repeat constructor; simpl; rewrite ?H0, ?length_take, ?length_drop; simpl;
      change (region_offset (mkMmCmd (mc_saddr cmd) _)) with (region_offset cmd);
      unfold BUFFER_SIZE in *; change (2 ^ WINDOW_BITS) with 262144 in *; lia.
  - destruct Hreq as (Ha & Hb & Hl). simpl. rewrite app_nil_r. split; [|done].
    constructor; [|done]. simpl. apply Z.ltb_ge in Hcr. fold (region_offset cmd) in Hcr. auto.
Qed.

(** C23: writes to a receive buffer stay inside the region of their session.  For any
    sequence of write commands and packets, arriving on any schedule,
    [rxEngMemWrite] issues for each command one command and one packet, or two of
    each when the region ends in between; no command reaches over the end of the
    region, none leaves it, each packet has as many bytes as its command, the
    packets together carry the bytes of the original in order, and the flags tell
    for which commands two acknowledgements of the memory will come. *)
Theorem rxEngMemWrite_splits s reqs :
  width_ok -> requests_arrive s reqs ->
  let w := output rxEngMemWrite split_arrive s split_init in
  let parts := flat_map (fun r => split_spec r.1 r.2) reqs in
  cmds_out w = map fst parts /\ packets (data_out w) (map snd parts) /\
  access_flags w = map (fun r => crosses_end r.1) reqs /\
  Forall (fun cmd => region_offset cmd + mc_bbt cmd <= BUFFER_SIZE) (cmds_out w) /\
  concat (map snd parts) = concat (map snd reqs).
Proof.
  intros Hw Hreq w parts.
  destruct (split_output true s reqs Hw Hreq) as (Hc & Hp & Ha).
  change (output _ split_arrive s split_init) with w in Hc, Hp, Ha. fold parts in Hc, Hp.
  split_and!; [done|done|done| |].
  - rewrite Hc. unfold parts. destruct Hreq as (_ & _ & Hok). clear -Hok.
    apply Forall_map. induction Hok as [|r reqs Hr _ IH]; simpl; [done|].
    apply Forall_app. split; [|done].
    exact (List.Forall_impl _ (fun r2 Hr2 => proj1 Hr2) (proj1 (split_spec_in_region _ _ Hr))).
  - unfold parts. destruct Hreq as (_ & _ & Hok). clear -Hok.
    induction Hok as [|r reqs Hr _ IH]; simpl; [done|].
    rewrite map_app, concat_app, IH. f_equal. by apply split_spec_in_region.
Qed.

(** ** The parts of a split read are joined *)
Section Stitching.
Hypothesis Hwidth : width_ok.

Let proc := read_data_stitching.

Definition stitch_waits (flags : list bool) (rest : list net_axis) (e : stitch_env) : Prop :=
  st_state e = ST_IDLE /\ memAccessBreakdown2readPkgStitcher e = flags /\ st_readDataIn e = rest.

Lemma stitch_attach prev m off flags ws rest :
  framed ws ->
  drained proc stitch_arrive (mkStitchEnv ST_ATTACH_ALIGNED prev m off flags (ws ++ rest))
  = ws ++ drained proc stitch_arrive (mkStitchEnv ST_IDLE prev m off flags rest).
Proof.
  induction 1 as [w Hl|w ws Hl _ IH]; simpl;
    erewrite drained_call by reflexivity; simpl; rewrite Hl; [done|].
  by rewrite IH.
Qed.

(** The stitching state realigns: the lower lanes of [prevWord] are the upper lanes of
    the word a realignment would remember. *)
Lemma stitch_realign prev m off flags ws bs rest P :
  packet ws bs -> (0 < Z.to_nat off < lanes)%nat ->
  let k := (lanes - Z.to_nat off)%nat in
  take (Z.to_nat off) (data prev) = drop k (data P) ->
  take (Z.to_nat off) (keep prev) = drop k (keep P) ->
  exists e',
    drained proc stitch_arrive (mkStitchEnv ST_STITCH prev m off flags (ws ++ rest))
    = realign k P ws ++ drained proc stitch_arrive e' /\ stitch_waits flags rest e'.
Proof.
  intros Hp Ho k. revert prev P.
  assert (forall A (l x : list A), length l = lanes -> take (Z.to_nat off) (drop k l ++ x) = drop k l) as Hup.
  { intros A l x Hl. apply take_app_length'. rewrite length_drop. unfold k. lia. }
  induction Hp as [bs pad Hne Hl|bs ws bs' Hl Hp IH]; intros prev P Hd Hk.
  - erewrite drained_call by reflexivity. simpl. fold k.
    rewrite next_lane by (unfold k; lia). unfold joined. simpl. rewrite <- Hd, <- Hk.
    destruct (no_lane _) eqn:Hn; [eexists; split; [reflexivity|done]|].
    erewrite drained_call by reflexivity. simpl. fold k.
    rewrite !Hup; [by eexists| |by rewrite length_app].
    unfold low_lanes. rewrite length_app, !length_replicate. lia.
  - erewrite drained_call by reflexivity. simpl. fold k.
    rewrite next_lane by (unfold k; lia). unfold joined. simpl. rewrite <- Hd, <- Hk.
    edestruct (IH (mkWord (drop k bs ++ drop (Z.to_nat off) (data prev))
      (drop k (low_lanes lanes lanes) ++ drop (Z.to_nat off) (keep prev)) (last prev))
      (mkWord bs (low_lanes lanes lanes) false)) as (e' & Hd' & He').
    + simpl. by apply Hup.
    + simpl. apply Hup. unfold low_lanes. rewrite length_app, !length_replicate. lia.
    + exists e'. split; [|done]. simpl. f_equal. exact Hd'.
Qed.

Lemma keepToLen_low k :
  (0 < k <= lanes)%nat -> keepToLen (mask_of (low_lanes lanes k)) = Z.of_nat k.
Proof.
  intros Hk. destruct Hwidth as [_ Hl]. rewrite mask_of_low_lanes. apply keepToLen_ones. lia.
Qed.

Lemma stitch_single prev off flags ws bs rest :
  packet ws bs ->
  exists e', drained proc stitch_arrive (mkStitchEnv ST_FIRST_PART prev false off flags (ws ++ rest))
    = ws ++ drained proc stitch_arrive e' /\ stitch_waits flags rest e'.
Proof.
  intros Hp%packet_framed. revert prev off. induction Hp as [w Hl|w ws Hl _ IH]; intros prev off.
  - eexists. erewrite drained_call by (unfold proc, read_data_stitching, stitch_first; simpl;
      rewrite Hl; reflexivity). split; [reflexivity|done].
  - edestruct IH as (e' & Hd & He'). exists e'. split; [|done].
    erewrite drained_call by (unfold proc, read_data_stitching, stitch_first; simpl;
      rewrite Hl; reflexivity). simpl. f_equal. exact Hd.
Qed.

Lemma stitch_merge prev off flags ws1 bs1 ws2 bs2 rest :
  packet ws1 bs1 -> packet ws2 bs2 ->
  exists out e',
    drained proc stitch_arrive (mkStitchEnv ST_FIRST_PART prev true off flags (ws1 ++ ws2 ++ rest))
    = out ++ drained proc stitch_arrive e' /\ stitch_waits flags rest e' /\ packet out (bs1 ++ bs2).
Proof.
  intros Hp1 Hp2. revert prev off. pose proof Hwidth as [_ Hl64].
  induction Hp1 as [bs pad Hne Hl|bs ws bs' Hl Hp IH]; intros prev off.
  - assert (0 < length bs)%nat as H0 by (destruct bs; simpl; [done|lia]).
    destruct (decide (length bs = lanes)) as [Hf|Hf].
    + assert (pad = []) as -> by (apply length_zero_iff_nil; lia). rewrite app_nil_r, Hf.
      erewrite drained_call.
      2: { unfold proc, read_data_stitching, stitch_first. simpl.
           rewrite next_lane, drop_low_lanes, no_lane_low by lia.
           rewrite (proj2 (Nat.eqb_neq _ _)) by lia. reflexivity. }
      simpl. rewrite stitch_attach by (by eapply packet_framed).
      eexists (_ :: ws2), _. split; [reflexivity|]. split; [done|]. by constructor.
    + erewrite drained_call.
      2: { unfold proc, read_data_stitching, stitch_first. simpl.
           rewrite next_lane, drop_low_lanes, no_lane_low by lia.
           rewrite (proj2 (Nat.eqb_eq _ _)) by lia.
           rewrite keepToLen_low by lia. reflexivity. }
      simpl. set (k := (lanes - length bs)%nat).
      destruct (stitch_realign (mkWord (bs ++ pad) (low_lanes lanes (length bs)) false) true
        (Z.of_nat (length bs)) flags ws2 bs2 rest
        (mkWord (replicate k 0 ++ bs) (low_lanes lanes lanes) false)) as (e' & Hd & He').
      * done.
      * rewrite Nat2Z.id. lia.
      * rewrite Nat2Z.id. fold k. simpl. rewrite take_app_length, drop_app_length'; [done|].
        by rewrite length_replicate.
      * rewrite Nat2Z.id. fold k. simpl. rewrite take_low_lanes, drop_low_lanes by lia. unfold k.
        do 2 f_equal; lia.
      * rewrite Nat2Z.id in Hd. fold k in Hd. eexists _, e'. split; [exact Hd|]. split; [done|].
        replace (bs ++ bs2) with (drop k ((replicate k 0 ++ bs) ++ bs2)).
        -- apply realign_packet; [unfold k; lia|done|].
           rewrite length_app, length_replicate. unfold k. lia.
        -- rewrite <- app_assoc, drop_app_length'; [done|]. by rewrite length_replicate.
  - edestruct IH as (out & e' & Hd & He' & Ho).
    exists (mkWord bs (low_lanes lanes lanes) false :: out), e'.
    split_and!; [|apply He'..|rewrite <- app_assoc; by constructor].
    erewrite drained_call by reflexivity. simpl. f_equal. exact Hd.
Qed.

Lemma stitch_begin prev m off b flags ws :
  ws <> [] ->
  drained proc stitch_arrive (mkStitchEnv ST_IDLE prev m off (b :: flags) ws)
  = drained proc stitch_arrive (mkStitchEnv ST_FIRST_PART prev b off flags ws).
Proof.
  intros Hws. destruct ws as [|w ws]; [done|].
  rewrite drained_unfold, (drained_unfold _ _ (mkStitchEnv ST_FIRST_PART _ _ _ _ _)). done.
Qed.

Lemma packet_words ws bs : packet ws bs -> ws <> [].
Proof. by destruct 1. Qed.

Lemma stitch_requests reqs e ws :
  stitch_waits (map (fun r => crosses_end r.1) reqs) ws e ->
  packets ws (map snd (flat_map (fun r => split_spec r.1 r.2) reqs)) ->
  packets (drained proc stitch_arrive e) (map snd reqs).
Proof.
  revert e ws. induction reqs as [|[cmd bs] reqs IH]; intros [st prev m off flags ws0] ws (Hs & Hf & Hd) Hp;
    simpl in *; subst.
  - inversion Hp; subst. rewrite drained_stuck by done. constructor.
  - unfold split_spec in Hp. destruct (crosses_end cmd); simpl in Hp.
    + inversion Hp as [|ws1 bs1 ws' bss1 Hp1 Hp' Heq1]; subst.
      inversion Hp' as [|ws2 bs2 ws'' bss2 Hp2 Hp'' Heq2]; subst.
      rewrite stitch_begin by (pose proof (packet_words _ _ Hp1); by destruct ws1).
      edestruct (stitch_merge prev off (map (fun r => crosses_end r.1) reqs) ws1) as (out & e' & -> & He' & Ho);
        [done..|]. rewrite take_drop in Ho. constructor; [done|]. by eapply IH.
    + inversion Hp as [|ws1 bs1 ws' bss1 Hp1 Hp' Heq1]; subst.
      rewrite stitch_begin by (pose proof (packet_words _ _ Hp1); by destruct ws1).
      edestruct (stitch_single prev off (map (fun r => crosses_end r.1) reqs) ws1) as (e' & -> & He'); [done|].
      constructor; [done|]. by eapply IH.
Qed.

Lemma stitch_arrivals l e :
  stitch_waits (memAccessBreakdown2readPkgStitcher e) (st_readDataIn e) e ->
  stitch_waits
    (memAccessBreakdown2readPkgStitcher e
     ++ omap (fun a => match a with A_needsMerge b => Some b | _ => None end) l)
    (st_readDataIn e ++ omap (fun a => match a with A_readData w => Some w | _ => None end) l)
    (arrive_all stitch_arrive l e).
Proof.
  intros [Hs _]. split; [by rewrite (arrive_all_other _ st_state) by (by intros [])|].
  split; apply arrive_all_stream; intros [] ?; simpl; by rewrite ?app_nil_r.
Qed.
End Stitching.

Definition merge_flags (s : list (option stitch_arrival)) : list bool :=
  omap (fun a => match a with A_needsMerge b => Some b | _ => None end) (arrivals s).
Definition read_words (s : list (option stitch_arrival)) : list net_axis :=
  omap (fun a => match a with A_readData w => Some w | _ => None end) (arrivals s).

End Datapath.

#[export] Existing Instances eta_split_env split_kahn eta_stitch_env stitch_kahn.

Section DatapathWitnesses.
Local Existing Instance width4.

(** Five bytes written three bytes before the end of a region, and two at its start. *)
Definition demo_requests : list (mmCmd * list Z) :=
  [(mkMmCmd (buffer_addr 3 262141) 5, [1; 2; 3; 4; 5]); (mkMmCmd (buffer_addr 3 0) 1, [6])].

Definition demo_split_schedule : list (option split_arrival) :=
  map (fun r => Some (A_cmdIn r.1)) demo_requests ++ [None]
  ++ map (fun w => Some (A_dataIn w)) demo_words.

Lemma width4_ok : width_ok.
Proof. split; [done|]. unfold lanes, width4. lia. Qed.

Lemma demo_requests_arrive : requests_arrive demo_split_schedule demo_requests.
Proof.
  split; [by vm_compute|]. split; [exact demo_packets|].
  repeat constructor; done.
Qed.

Lemma rxEngMemWrite_splits_witness :
  let w := output rxEngMemWrite split_arrive demo_split_schedule split_init in
  access_flags w = [true; false] /\
  Forall (fun cmd => region_offset cmd + mc_bbt cmd <= BUFFER_SIZE) (cmds_out w).
Proof.
  pose proof (rxEngMemWrite_splits demo_split_schedule demo_requests width4_ok demo_requests_arrive)
    as (_ & _ & Hf & Hr & _).
  split; [exact Hf|exact Hr].
Defined.

Definition read_back (flags : list bool) (ws : list net_axis) : list (option stitch_arrival) :=
  map (fun b => Some (A_needsMerge b)) flags ++ map (fun w => Some (A_readData w)) ws.

Lemma read_back_words flags ws : read_words (read_back flags ws) = ws.
Proof.
  unfold read_words, arrivals, read_back. rewrite !omap_app.
  rewrite <- (app_nil_l ws) at 2. f_equal; [by induction flags|].
  induction ws as [|w ws IH]; [done|]. simpl in *. by f_equal.
Qed.

Definition demo_stitch_schedule : list (option stitch_arrival) :=
  read_back [true; false]
    (data_out (output (tasi_pkg_pusher no_word) split_arrive demo_split_schedule split_init)).

(** The residue word of [tasi_pkg_pusher] is filled up with a word that is never
    assigned: were its lanes marked, a second part of five bytes would seem to have
    eight. *)
Theorem pkg_pusher_residue_undefined :
  let emptyWord := mkWord [0; 0; 0; 0] [true; true; true; true] false in
  let s := [Some (A_cmdIn (mkMmCmd (buffer_addr 3 262141) 8));
            Some (A_dataIn (mkWord [1; 2; 3; 4] [true; true; true; true] false));
            Some (A_dataIn (mkWord [5; 6; 7; 8] [true; true; true; true] true))] in
  let w := output (tasi_pkg_pusher emptyWord) split_arrive s split_init in
  map mc_bbt (cmds_out w) = [3; 5] /\
  map (fun wd => keepToLen (mask_of (keep wd))) (data_out w) = [3; 4; 4].
Proof. split; by vm_compute. Qed.
End DatapathWitnesses.
