(* ===== verification/RxDatapath.v ===== *)
(** * From an IP packet to TCP metadata and payload ([toe/rx_engine], [ipv4/ipv4.hpp])

    The stages in front of the state machine: [toe_process_ipv4] reads the IP header
    and [drop_optional_ip_header] removes it, [lshiftWordByOctet] makes room for the
    pseudo header that [constructPseudoHeader] and [prependPseudoHeader] put there,
    the checksum is computed, [processPseudoHeader] reads the TCP header, and
    [rshiftWordByOctet] and [drop_optional_header_fields] remove it. *)

From S2P Require Import Prelude Streams Words Shifters ToeTypes Checksum Headers RxEngine.

Section RxDatapath.
Context {WW : WordWidth}.

(** The contents of local variables that the code leaves unassigned. *)
Variable garbage : list Z.
Variable winScale0 : Z.

(** ** [toe_process_ipv4] *)
Record pseudoMeta := mkPseudoMeta { pm_their_address : Z; pm_our_address : Z; pm_length : Z }.

Inductive process_ipv4_write :=
| W_process2dropLength (n : Z)
| W_ipMeta (m : pseudoMeta)
| W_ipData (w : net_axis).

Record process_ipv4_env := mkProcessIpv4Env {
  pi_header : packetHeader; pi_headerWordsDropped : Z; pi_metaWritten : bool;
  pi_dataIn : stream net_axis
}.
#[export] Instance eta_process_ipv4_env : Eta process_ipv4_env := fun e =>
  mkProcessIpv4Env (pi_header e) (pi_headerWordsDropped e) (pi_metaWritten e) (pi_dataIn e).

Definition process_ipv4_init (h : Z) : process_ipv4_env :=
  mkProcessIpv4Env (mkPacketHeader false 0 (Ipv4.init h)) 0 false [].

Definition toe_process_ipv4 (e : process_ipv4_env) : process_ipv4_env * list process_ipv4_write :=
  match pi_dataIn e with
  | [] => (e, [])
  | currWord :: rest =>
      let header := parseWord IPV4_HEADER_SIZE (data currWord) (pi_header e) in
      let h := ph_header header in
      let ready := ph_ready header in
      let w :=
        when ready
          (W_ipData currWord ::
           when (negb (pi_metaWritten e))
             [W_process2dropLength (wrap 4 (Ipv4.getHeaderLength h - pi_headerWordsDropped e));
              W_ipMeta (mkPseudoMeta (Ipv4.getSrcAddr h) (Ipv4.getDstAddr h)
                (wrap 16 (Ipv4.getLength h - Ipv4.getHeaderLength h * 4)))]) in
      (if last currWord
       then mkProcessIpv4Env (clear header) 0 false rest
       else mkProcessIpv4Env header (wrap 4 (pi_headerWordsDropped e + WIDTH / 32))
              (pi_metaWritten e || ready) rest,
       w)
  end.

(** ** [drop_optional_ip_header] *)
Inductive doh_stateType := DOH_META | DOH_DROP | DOH_BODY | DOH_SHIFT | DOH_LAST | DOH_SHIFT_FIVE | DOH_LAST_FIVE.

Record doh_env := mkDohEnv {
  doh_state : doh_stateType; doh_length : Z; doh_prevWord : net_axis;
  process2dropLengthFifo : stream Z; process2dropFifo : stream net_axis
}.
#[export] Instance eta_doh_env : Eta doh_env := fun e =>
  mkDohEnv (doh_state e) (doh_length e) (doh_prevWord e) (process2dropLengthFifo e)
    (process2dropFifo e).

Definition doh_init : doh_env := mkDohEnv DOH_META 0 no_word [] [].

(** A word of the shifted packet, [n] lanes down. *)
Definition doh_shift (n : nat) (residue_state : doh_stateType) (e : doh_env) : doh_env * list net_axis :=
  match process2dropFifo e with
  | [] => (e, [])
  | currWord :: rest =>
      let sendWord := alignWords n (doh_prevWord e) currWord
                        (negb (default false (keep currWord !! n))) in
      (e <| process2dropFifo := rest |> <| doh_prevWord := currWord |>
         <| doh_state := if last sendWord then DOH_META
                         else if last currWord then residue_state else doh_state e |>,
       [sendWord])
  end.

Definition doh_last (n : nat) (e : doh_env) : doh_env * list net_axis :=
  (e <| doh_state := DOH_META |>,
   [mkWord (drop n (data (doh_prevWord e)) ++ replicate n 0)
      (drop n (keep (doh_prevWord e)) ++ replicate n false) true]).

Definition drop_optional_ip_header (e : doh_env) : doh_env * list net_axis :=
  match doh_state e with
  | DOH_META =>
      match process2dropLengthFifo e, process2dropFifo e with
      | length :: lengths, w :: ws =>
          let e := e <| process2dropLengthFifo := lengths |> <| doh_length := length |> in
          if (WIDTH =? 64) || (WIDTH =? 128) then
            if 1 <? length then (e <| doh_state := DOH_DROP |>, [])
            else (e <| process2dropFifo := ws |> <| doh_prevWord := w |> <| doh_state := DOH_SHIFT |>, [])
          else if ((WIDTH =? 256) || (WIDTH =? 512)) && (length =? 5) then
            (e <| process2dropFifo := ws |> <| doh_prevWord := w |>
               <| doh_state := if last w then DOH_LAST_FIVE else DOH_SHIFT_FIVE |>, [])
          else (e, [])
      | _, _ => (e, [])
      end
  | DOH_DROP =>
      match process2dropFifo e with
      | [] => (e, [])
      | w :: ws =>
          let length := wrap 4 (doh_length e - 2) in
          (e <| process2dropFifo := ws |> <| doh_prevWord := w |> <| doh_length := length |>
             <| doh_state := if length =? 1 then DOH_SHIFT
                             else if length =? 0 then DOH_BODY else DOH_DROP |>, [])
      end
  | DOH_BODY =>
      match process2dropFifo e with
      | [] => (e, [])
      | w :: ws => (e <| process2dropFifo := ws |>
                      <| doh_state := if last w then DOH_META else DOH_BODY |>, [w])
      end
  | DOH_SHIFT => doh_shift 4 DOH_LAST e
  | DOH_SHIFT_FIVE => doh_shift 20 DOH_LAST_FIVE e
  | DOH_LAST => doh_last 4 e
  | DOH_LAST_FIVE => doh_last 20 e
  end.

(** ** [constructPseudoHeader] *)
Record construct_env := mkConstructEnv {
  cp_sending : bool;             (* state == HEADER *)
  cp_header : packetHeader; ipMetaIn : stream pseudoMeta
}.
#[export] Instance eta_construct_env : Eta construct_env := fun e =>
  mkConstructEnv (cp_sending e) (cp_header e) (ipMetaIn e).

Definition construct_init (h : Z) : construct_env :=
  mkConstructEnv false (mkPacketHeader false 0 (TcpPseudo.init h)) [].

Definition constructPseudoHeader (e : construct_env) : construct_env * list net_axis :=
  if cp_sending e then
    let '(header, sendData, remainingLength) := consumeWord TCP_PSEUDO_HEADER_SIZE garbage (cp_header e) in
    let sendWord := mkWord sendData (replicate lanes true) (remainingLength =? 0) in
    (e <| cp_header := header |> <| cp_sending := negb (last sendWord) |>, [sendWord])
  else
    match ipMetaIn e with
    | [] => (e, [])
    | meta :: rest =>
        let header := clear (cp_header e) in
        (mkConstructEnv true
           (header <| ph_header := TcpPseudo.setLength (pm_length meta)
              (TcpPseudo.setDstAddr (pm_our_address meta)
                 (TcpPseudo.setSrcAddr (pm_their_address meta) (ph_header header))) |>) rest, [])
    end.

(** ** [prependPseudoHeader] *)
Record prepend_env := mkPrependEnv {
  pp_payload : bool;             (* state == PAYLOAD *)
  pp_prevWord : net_axis; pp_firstPayload : bool;
  headerIn : stream net_axis; packetIn : stream net_axis
}.
#[export] Instance eta_prepend_env : Eta prepend_env := fun e =>
  mkPrependEnv (pp_payload e) (pp_prevWord e) (pp_firstPayload e) (headerIn e) (packetIn e).

Definition prepend_init : prepend_env := mkPrependEnv false no_word true [] [].

Definition prependPseudoHeader (e : prepend_env) : prepend_env * list net_axis :=
  if pp_payload e then
    match packetIn e with
    | [] => (e, [])
    | currWord :: rest =>
        let n := if pp_firstPayload e
                 then if WIDTH =? 64 then 4%nat else if 64 <? WIDTH then 12%nat else 0%nat
                 else 0%nat in
        let sendWord := mkWord (take n (data (pp_prevWord e)) ++ drop n (data currWord))
                          (keep currWord) (last currWord) in
        (e <| packetIn := rest |> <| pp_firstPayload := false |>
           <| pp_payload := negb (last currWord) |>, [sendWord])
    end
  else
    match headerIn e with
    | [] => (e, [])
    | prevWord :: rest =>
        let e := e <| headerIn := rest |> in
        if last prevWord
        then (e <| pp_prevWord := mkWord (data prevWord) (keep prevWord) false |>
                <| pp_firstPayload := true |> <| pp_payload := true |>, [])
        else (e <| pp_prevWord := prevWord |>, [prevWord])
    end.

(** ** [processPseudoHeader] *)
Record optionalFieldsMeta := mkOptionalFieldsMeta { of_dataOffset : Z; of_syn : bool }.

Inductive pseudo_header_write :=
| W_pph_dataOut (w : net_axis)
| W_headerMeta (m : rxEngineMetaData)
| W_rxEng2portTable_req (port : Z)
| W_tupleBuffer (t : fourTuple)
| W_optionalFieldsMeta (m : optionalFieldsMeta).

Record pph_env := mkPphEnv {
  pph_header : packetHeader; pph_firstWord : bool; pph_pkgValid : bool; pph_metaWritten : bool;
  pph_dataIn : stream net_axis; validFifoIn : stream bool
}.
#[export] Instance eta_pph_env : Eta pph_env := fun e =>
  mkPphEnv (pph_header e) (pph_firstWord e) (pph_pkgValid e) (pph_metaWritten e) (pph_dataIn e)
    (validFifoIn e).

Definition pph_init (h : Z) (pkgValid : bool) : pph_env :=
  mkPphEnv (mkPacketHeader false 0 (TcpFull.init h)) true pkgValid false [] [].

(** [header.getLength() - header.getDataOffset()*4], before it is stored in 16 bits. *)
Definition payload_length (h : Z) : Z := TcpFull.getLength h - TcpFull.getDataOffset h * 4.

Definition header_meta (h : Z) : rxEngineMetaData :=
  mkRxMeta (TcpFull.getSeqNumb h) (TcpFull.getAckNumb h) (TcpFull.getWindowSize h) winScale0
    (wrap 16 (payload_length h)) (TcpFull.getAckFlag h) (TcpFull.getRstFlag h)
    (TcpFull.getSynFlag h) (TcpFull.getFinFlag h) (TcpFull.getDataOffset h).

(** The writes for a header that is complete, in a packet that is valid. *)
Definition header_writes (h : Z) : list pseudo_header_write :=
  [W_headerMeta (header_meta h);
   W_rxEng2portTable_req (TcpFull.getDstPort h);
   W_tupleBuffer (mkFourTuple (TcpFull.getSrcAddr h) (TcpFull.getDstAddr h)
                    (TcpFull.getSrcPort h) (TcpFull.getDstPort h))]
  ++ when (nonzero (wrap 16 (payload_length h)) || (5 <? TcpFull.getDataOffset h))
       [W_optionalFieldsMeta
          (mkOptionalFieldsMeta (wrap 4 (TcpFull.getDataOffset h - 5)) (TcpFull.getSynFlag h))].

(** A word of the packet, with the verdict on the checksum. *)
Definition pph_word (pkgValid : bool) (valids : stream bool) (word : net_axis)
    (rest : stream net_axis) (e : pph_env) : pph_env * list pseudo_header_write :=
  let header := parseWord TCP_FULL_PSEUDO_HEADER_SIZE (data word) (pph_header e) in
  let h := ph_header header in
  let ready := ph_ready header in
  let metaWritten := pph_metaWritten e in
  (mkPphEnv (if last word then clear header else header) (last word) pkgValid
     (negb (last word) && (metaWritten || ready)) rest valids,
   when (metaWritten && pkgValid && (WIDTH <=? TCP_FULL_PSEUDO_HEADER_SIZE)) [W_pph_dataOut word]
   ++ when (ready && (pkgValid && (TCP_FULL_PSEUDO_HEADER_SIZE <? WIDTH)
                      && (nonzero (payload_length h) || (5 <? TcpFull.getDataOffset h))))
        [W_pph_dataOut word]
   ++ when (ready && negb metaWritten && pkgValid) (header_writes h)).

Definition processPseudoHeader (e : pph_env) : pph_env * list pseudo_header_write :=
  match pph_dataIn e with
  | [] => (e, [])
  | word :: rest =>
      if pph_firstWord e then
        match validFifoIn e with
        | [] => (e, [])
        | pkgValid :: valids => pph_word pkgValid valids word rest e
        end
      else pph_word (pph_pkgValid e) (validFifoIn e) word rest e
  end.

(** ** [drop_optional_header_fields] *)
Inductive dof_stateType := DOF_META | DOF_BODY | DOF_RESIDUE.  (* 0, 1, 2 *)

Inductive dof_write :=
| W_dataOffsetOut (n : Z)
| W_optionalHeaderFieldsOut (h : Z)
| W_dof_dataOut (w : net_axis).

Record dof_env := mkDofEnv {
  dof_state : dof_stateType; dof_dataOffset : Z; dof_prevWord : net_axis;
  dof_optionalHeader : packetHeader; dof_parseHeader : bool; dof_headerWritten : bool;
  dof_metaIn : stream optionalFieldsMeta; dof_dataIn : stream net_axis
}.
#[export] Instance eta_dof_env : Eta dof_env := fun e =>
  mkDofEnv (dof_state e) (dof_dataOffset e) (dof_prevWord e) (dof_optionalHeader e)
    (dof_parseHeader e) (dof_headerWritten e) (dof_metaIn e) (dof_dataIn e).

Definition dof_init (h : Z) : dof_env :=
  mkDofEnv DOF_META 0 no_word (mkPacketHeader false 0 h) false false [] [].

(** [keep[dataOffset*4]]. *)
Definition keeps_lane (w : net_axis) (dataOffset : Z) : bool :=
  default false (keep w !! Z.to_nat (dataOffset * 4)).

Definition drop_optional_header_fields (e : dof_env) : dof_env * list dof_write :=
  match dof_state e with
  | DOF_META =>
      match dof_metaIn e, dof_dataIn e with
      | meta :: metas, currWord :: rest =>
          let dataOffset := of_dataOffset meta in
          let header := parseWord TCP_OPTIONAL_HEADER_SIZE (data currWord) (clear (dof_optionalHeader e)) in
          let parse := negb (dataOffset =? 0) && of_syn meta in
          (mkDofEnv
             (if last currWord
              then if negb (dataOffset =? 0) && (dataOffset * 4 <? WIDTH / 8) && keeps_lane currWord dataOffset
                   then DOF_RESIDUE else DOF_META
              else DOF_BODY)
             dataOffset currWord header parse false metas rest,
           when (dataOffset =? 0) [W_dof_dataOut currWord]
           ++ when parse (W_dataOffsetOut dataOffset ::
                when (ph_ready header || last currWord) [W_optionalHeaderFieldsOut (ph_header header)]))
      | _, _ => (e, [])
      end
  | DOF_BODY =>
      match dof_dataIn e with
      | [] => (e, [])
      | currWord :: rest =>
          let dataOffset := dof_dataOffset e in
          let header := parseWord TCP_OPTIONAL_HEADER_SIZE (data currWord) (dof_optionalHeader e) in
          let write := (ph_ready header || last currWord) && dof_parseHeader e && negb (dof_headerWritten e) in
          let n := Z.to_nat (dataOffset * 4) in
          let '(dataOffset, w) :=
            if WIDTH / 32 <=? dataOffset then (wrap 4 (dataOffset - WIDTH / 32), [])
            else if dataOffset =? 0 then (dataOffset, [W_dof_dataOut currWord])
            else (dataOffset,
                  [W_dof_dataOut (mkWord (drop n (data (dof_prevWord e)) ++ take n (data currWord))
                     (drop n (keep (dof_prevWord e)) ++ take n (keep currWord))
                     (negb (keeps_lane currWord dataOffset)))]) in
          (mkDofEnv
             (if last currWord
              then if keeps_lane currWord dataOffset && negb (dataOffset =? 0) then DOF_RESIDUE else DOF_META
              else DOF_BODY)
             dataOffset currWord header (dof_parseHeader e) (write || dof_headerWritten e)
             (dof_metaIn e) rest,
           when write [W_optionalHeaderFieldsOut (ph_header header)] ++ w)
      end
  | DOF_RESIDUE =>
      let n := Z.to_nat (dof_dataOffset e * 4) in
      (e <| dof_state := DOF_META |>,
       [W_dof_dataOut (mkWord (drop n (data (dof_prevWord e)) ++ replicate n 0)
          (drop n (keep (dof_prevWord e)) ++ replicate n false) true)])
  end.
End RxDatapath.

#[export] Existing Instances eta_process_ipv4_env eta_doh_env eta_construct_env eta_prepend_env
  eta_pph_env eta_dof_env.
