(* ===== verification/RxFrontend.v ===== *)
(** * The front end of the receive path, from IP packet to metadata and payload

    The stages of RxDatapath.v, each as a deterministic process with a lemma on what
    it makes of one packet, for words of 512 bits; and their composition: whatever
    the interleaving, an IP packet with a correct checksum gives the metadata in its
    TCP header and a packet with the bytes behind it. *)

From S2P Require Import Prelude Streams Words Shifters ToeTypes Checksum Headers RxEngine RxDatapath.

Section RxFrontend.
Context {WW : WordWidth}.
Variable garbage : list Z.
Variable winScale0 : Z.

(** ** The stages as deterministic processes *)
Definition process_ipv4_arrive (w : net_axis) (e : process_ipv4_env) : process_ipv4_env :=
  e <| pi_dataIn := pi_dataIn e ++ [w] |>.

#[export, refine] Instance process_ipv4_kahn : KahnProcess toe_process_ipv4 process_ipv4_arrive := {
  kahn_work e := length (pi_dataIn e); kahn_progress := _; kahn_diamond := _
}.
Proof.
  - intros [h n m [|w ws]]; [by left|right]. unfold toe_process_ipv4. simpl. destruct (last w); simpl; lia.
  - intros a [h n m [|w ws]]; [by left|right]. unfold toe_process_ipv4. simpl. by destruct (last w).
Defined.

Inductive doh_arrival := A_dropLength (n : Z) | A_ipData (w : net_axis).
Definition doh_arrive (a : doh_arrival) (e : doh_env) : doh_env :=
  match a with
  | A_dropLength n => e <| process2dropLengthFifo := process2dropLengthFifo e ++ [n] |>
  | A_ipData w => e <| process2dropFifo := process2dropFifo e ++ [w] |>
  end.

(** The states that write a residue are worth a call. *)
Definition doh_pending (s : doh_stateType) : nat := match s with DOH_LAST | DOH_LAST_FIVE => 1%nat | _ => 0%nat end.

#[export, refine] Instance doh_kahn : KahnProcess drop_optional_ip_header doh_arrive := {
  kahn_work e := (2 * length (process2dropLengthFifo e) + 2 * length (process2dropFifo e)
                  + doh_pending (doh_state e))%nat;
  kahn_progress := _; kahn_diamond := _
}.
Proof.
  - intros [[] n p [|l ls] [|w ws]]; unfold drop_optional_ip_header, doh_shift, doh_last; simpl;
      try (by left); repeat case_match_in_goal; try (by left); right; simpl; lia.
  - intros [n'|w'] [[] n p [|l ls] [|w ws]]; unfold drop_optional_ip_header, doh_shift, doh_last; simpl;
      try (by left); repeat case_match_in_goal; (by left) || (by right).
Defined.

Definition construct_arrive (m : pseudoMeta) (e : construct_env) : construct_env :=
  e <| ipMetaIn := ipMetaIn e ++ [m] |>.

Inductive prepend_arrival := A_header (w : net_axis) | A_packet (w : net_axis).
Definition prepend_arrive (a : prepend_arrival) (e : prepend_env) : prepend_env :=
  match a with
  | A_header w => e <| headerIn := headerIn e ++ [w] |>
  | A_packet w => e <| packetIn := packetIn e ++ [w] |>
  end.

#[export, refine] Instance prepend_kahn : KahnProcess prependPseudoHeader prepend_arrive := {
  kahn_work e := (length (headerIn e) + length (packetIn e))%nat; kahn_progress := _; kahn_diamond := _
}.
Proof.
  - intros [[] p f [|h hs] [|w ws]]; unfold prependPseudoHeader; simpl; try (by left);
      repeat case_match_in_goal; right; simpl; lia.
  - intros [h'|w'] [[] p f [|h hs] [|w ws]]; unfold prependPseudoHeader; simpl; try (by left);
      repeat case_match_in_goal; by right.
Defined.

Inductive pph_arrival := A_segment (w : net_axis) | A_valid (b : bool).
Definition pph_arrive (a : pph_arrival) (e : pph_env) : pph_env :=
  match a with
  | A_segment w => e <| pph_dataIn := pph_dataIn e ++ [w] |>
  | A_valid b => e <| validFifoIn := validFifoIn e ++ [b] |>
  end.

#[export, refine] Instance pph_kahn : KahnProcess (processPseudoHeader winScale0) pph_arrive := {
  kahn_work e := length (pph_dataIn e); kahn_progress := _; kahn_diamond := _
}.
Proof.
  - intros [h [] v m [|w ws] [|b bs]]; unfold processPseudoHeader, pph_word; simpl;
      try (by left); right; simpl; lia.
  - intros [w'|b'] [h [] v m [|w ws] [|b bs]]; unfold processPseudoHeader, pph_word; simpl;
      (by left) || (by right).
Defined.

Inductive dof_arrival := A_fieldsMeta (m : optionalFieldsMeta) | A_shifted (w : net_axis).
Definition dof_arrive (a : dof_arrival) (e : dof_env) : dof_env :=
  match a with
  | A_fieldsMeta m => e <| dof_metaIn := dof_metaIn e ++ [m] |>
  | A_shifted w => e <| dof_dataIn := dof_dataIn e ++ [w] |>
  end.

Definition dof_pending (s : dof_stateType) : nat := match s with DOF_RESIDUE => 1%nat | _ => 0%nat end.

#[export, refine] Instance dof_kahn : KahnProcess drop_optional_header_fields dof_arrive := {
  kahn_work e := (2 * length (dof_metaIn e) + 2 * length (dof_dataIn e)
                  + dof_pending (dof_state e))%nat;
  kahn_progress := _; kahn_diamond := _
}.
Proof.
  - intros [[] n p h ph hw [|m ms] [|w ws]]; unfold drop_optional_header_fields; simpl;
      try (by left); repeat case_match_in_goal; right; simpl; lia.
  - intros [m'|w'] [[] n p h ph hw [|m ms] [|w ws]]; unfold drop_optional_header_fields; simpl;
      try (by left); repeat case_match_in_goal; by right.
Defined.
(** ** The words of a packet *)
Definition packet_word (w : net_axis) : Prop :=
  exists m, (m <= lanes)%nat /\ keep w = low_lanes lanes m /\ (last w = false -> m = lanes).

Lemma packet_word_all ws bs : packet ws bs -> Forall packet_word ws.
Proof.
  induction 1 as [bs pad Hne Hl|bs ws rest Hl Hp IH]; constructor; try done.
  - exists (length bs). simpl. split_and!; [lia|done|done].
  - by exists lanes.
Qed.

(** Testing one lane or all of them from there on is the same. *)
Lemma packet_word_lane k w : packet_word w -> default false (keep w !! k) = negb (no_lane (drop k (keep w))).
Proof.
  intros (m & Hm & -> & _). rewrite drop_low_lanes, no_lane_low. unfold low_lanes.
  destruct (decide (k < m)%nat).
  - rewrite lookup_app_l by (rewrite length_replicate; lia). rewrite lookup_replicate_2 by done. simpl.
    rewrite (proj2 (Nat.eqb_neq _ _)) by lia. done.
  - rewrite lookup_app_r by (rewrite length_replicate; lia). rewrite length_replicate.
    rewrite (proj2 (Nat.eqb_eq _ _)) by lia.
    destruct (decide (k - m < lanes - m)%nat); [by rewrite lookup_replicate_2|].
    by rewrite lookup_ge_None_2 by (rewrite length_replicate; lia).
Qed.

Lemma packet_word_full k w : packet_word w -> (k < lanes)%nat -> last w = false -> no_lane (drop k (keep w)) = false.
Proof.
  intros (m & Hm & -> & Hf) Hk Hl. rewrite drop_low_lanes, no_lane_low. rewrite Hf by done.
  apply Nat.eqb_neq. lia.
Qed.

(** The first word of a packet holds its first bytes. *)
Lemma packet_first ws bs :
  packet ws bs -> exists w ws', ws = w :: ws' /\ exists n pad, data w = take n bs ++ pad /\
    length (data w) = lanes /\ (n = lanes \/ n = length bs)%nat /\ (n <= length bs)%nat.
Proof.
  intros Hp. destruct Hp as [bs pad Hne Hl|bs ws rest Hl Hp].
  - exists (mkWord (bs ++ pad) (low_lanes lanes (length bs)) true), []. split; [done|].
    exists (length bs), pad. rewrite take_ge by done. simpl.
    split_and!; [done|by rewrite length_app|by right|done].
  - exists (mkWord bs (low_lanes lanes lanes) false), ws. split; [done|].
    exists (length bs), []. rewrite take_app_length. simpl. rewrite app_nil_r, length_app.
    split_and!; [done|done|by left|lia].
Qed.

Hypothesis lanes64 : lanes = 64%nat.

Lemma WIDTH_512 : WIDTH = 512.
Proof. unfold WIDTH. by rewrite lanes64. Qed.

(** A header shorter than a word is complete with the first word, and its fields are
    those of the first bytes of the packet. *)
Lemma parse_first HEADER_SIZE ws bs h :
  0 < HEADER_SIZE <= 512 -> packet ws bs ->
  exists w ws', ws = w :: ws' /\
    parseWord HEADER_SIZE (data w) (mkPacketHeader false 0 h)
    = mkPacketHeader true 1 (set_bits (HEADER_SIZE - 1) 0 (le_val (data w)) h) /\
    forall k, (k <= length bs)%nat -> (k <= lanes)%nat -> exists pad, data w = take k bs ++ pad.
Proof.
  intros Hs Hp. destruct (packet_first ws bs Hp) as (w & ws' & -> & n & pad & Hd & Hl & Hn & Hle).
  exists w, ws'. split; [done|]. split.
  - unfold parseWord. simpl. rewrite WIDTH_512.
    rewrite (proj2 (Z.ltb_ge _ _)) by lia. done.
  - intros k Hk Hkl. exists (take (n - k) (drop k bs) ++ pad). rewrite Hd, app_assoc. f_equal.
    rewrite <- (take_drop k (take n bs)), take_take, skipn_firstn_comm. by rewrite Nat.min_l by lia.
Qed.
(** ** [toe_process_ipv4] *)
Definition ip_words (w : list process_ipv4_write) : list net_axis :=
  omap (fun x => match x with W_ipData w => Some w | _ => None end) w.
Definition ip_lengths (w : list process_ipv4_write) : list Z :=
  omap (fun x => match x with W_process2dropLength n => Some n | _ => None end) w.
Definition ip_metas (w : list process_ipv4_write) : list pseudoMeta :=
  omap (fun x => match x with W_ipMeta m => Some m | _ => None end) w.

Lemma process_ipv4_rest ws rest h i n :
  framed ws ->
  drained toe_process_ipv4 process_ipv4_arrive
    (mkProcessIpv4Env (mkPacketHeader true i h) n true (ws ++ rest))
  = map W_ipData ws ++ drained toe_process_ipv4 process_ipv4_arrive
      (mkProcessIpv4Env (mkPacketHeader false 0 h) 0 false rest).
Proof.
  intros Hf. revert n. induction Hf as [w Hl|w ws Hl _ IH]; intros n; simpl;
    erewrite drained_call by reflexivity; cbn; rewrite Hl; [done|]. by rewrite IH.
Qed.

(** The metadata for the pseudo header, from the bytes of an IP packet. *)
Definition pseudo_meta_of (d : list Z) : pseudoMeta :=
  mkPseudoMeta (le_val (field 12 4 d)) (le_val (field 16 4 d))
    (wrap 16 (be_val (field 2 2 d) - bits 3 0 (byte_at 0 d) * 4)).

Lemma process_ipv4_packet ws d rest h :
  packet ws d -> bytes d -> (20 <= length d)%nat ->
  exists w h', drained toe_process_ipv4 process_ipv4_arrive
      (mkProcessIpv4Env (mkPacketHeader false 0 h) 0 false (ws ++ rest))
    = w ++ drained toe_process_ipv4 process_ipv4_arrive
        (mkProcessIpv4Env (mkPacketHeader false 0 h') 0 false rest) /\
    ip_words w = ws /\ ip_lengths w = [wrap 4 (bits 3 0 (byte_at 0 d))] /\
    ip_metas w = [pseudo_meta_of d].
Proof.
  intros Hp Hb Hl. destruct (parse_first IPV4_HEADER_SIZE ws d h ltac:(done) Hp)
    as (w & ws' & -> & Hparse & Hw).
  destruct (Hw 20%nat Hl ltac:(lia)) as [pad Hd].
  set (h' := set_bits (IPV4_HEADER_SIZE - 1) 0 (le_val (data w)) h) in *.
  assert (bytes (take 20 d)) as Hb20 by by apply Forall_take.
  assert (length (take 20 d) = 20%nat) as Hl20 by (rewrite length_take; lia).
  assert (forall m n, (m + n <= 20)%nat -> field m n (take 20 d) = field m n d) as Hfield.
  { intros m n Hmn. unfold field. rewrite skipn_firstn_comm, take_take. f_equal. lia. }
  assert (forall hi lo m n, (m + n <= 20)%nat -> lo = 8 * Z.of_nat m -> hi = lo + 8 * Z.of_nat n - 1 ->
    lo <= hi -> bits hi lo h' = le_val (field m n d)) as Hbits.
  { intros hi lo m n Hmn Hlo Hhi Hle. unfold h', IPV4_HEADER_SIZE.
    rewrite set_bits_header by lia. rewrite Hd, (bits_field _ _ m n) by (done || lia). by rewrite Hfield. }
  assert (Ipv4.getHeaderLength h' = bits 3 0 (byte_at 0 d)) as Hhl.
  { unfold Ipv4.getHeaderLength, h', IPV4_HEADER_SIZE. rewrite set_bits_header by lia.
    rewrite Hd, (bits_in_lane _ _ 0 3 0) by (done || lia). unfold byte_at. by rewrite lookup_take_lt by lia. }
  assert (mkPseudoMeta (Ipv4.getSrcAddr h') (Ipv4.getDstAddr h')
    (wrap 16 (Ipv4.getLength h' - Ipv4.getHeaderLength h' * 4)) = pseudo_meta_of d) as Hmeta.
  { unfold pseudo_meta_of. rewrite Hhl. unfold Ipv4.getSrcAddr, Ipv4.getDstAddr, Ipv4.getLength.
    rewrite (Hbits 127 96 12%nat 4%nat), (Hbits 159 128 16%nat 4%nat), (Hbits 31 16 2%nat 2%nat) by lia.
    rewrite reverse16_be; [done|by apply field_bytes|apply field_length; lia]. }
  assert (toe_process_ipv4 (mkProcessIpv4Env (mkPacketHeader false 0 h) 0 false (w :: ws' ++ rest))
    = ((if last w then mkProcessIpv4Env (mkPacketHeader false 0 h') 0 false (ws' ++ rest)
        else mkProcessIpv4Env (mkPacketHeader true 1 h') (wrap 4 (0 + WIDTH / 32)) true (ws' ++ rest)),
       [W_ipData w; W_process2dropLength (wrap 4 (bits 3 0 (byte_at 0 d))); W_ipMeta (pseudo_meta_of d)])) as Hcall.
  { rewrite <- Hmeta, <- Hhl. unfold toe_process_ipv4. cbn [pi_dataIn pi_header].
    rewrite Hparse. cbn. by rewrite Z.sub_0_r. }
  cbn [app]. erewrite drained_call by exact Hcall.
  pose proof (packet_framed _ _ Hp) as Hf. inversion Hf as [? Hlast|? ? Hlast Hf']; subst; rewrite Hlast.
  - eexists _, h'. split; [reflexivity|]. done.
  - rewrite process_ipv4_rest by done.
    eexists ([_; _; _] ++ map W_ipData ws'), h'. split; [by rewrite <- app_assoc|].
    unfold ip_words, ip_lengths, ip_metas. rewrite !omap_app.
    rewrite (omap_map_Some _ W_ipData), !(omap_map_None _ W_ipData) by done. done.
Qed.
(** ** [drop_optional_ip_header] *)
Lemma doh_call_shift prev w ls n rest :
  packet_word w ->
  drop_optional_ip_header (mkDohEnv DOH_SHIFT_FIVE n prev ls (w :: rest))
  = (mkDohEnv (if no_lane (drop 20 (keep w)) then DOH_META
               else if last w then DOH_LAST_FIVE else DOH_SHIFT_FIVE) n w ls rest,
     [joined 20 prev w]).
Proof.
  intros Hw. unfold drop_optional_ip_header, doh_shift, alignWords, joined. cbn.
  rewrite (packet_word_lane 20 w Hw), negb_involutive. done.
Qed.

Lemma doh_call_last prev ls n rest :
  drop_optional_ip_header (mkDohEnv DOH_LAST_FIVE n prev ls rest)
  = (mkDohEnv DOH_META n prev ls rest, [residue 20 prev]).
Proof. reflexivity. Qed.

Lemma doh_realign ws prev ls n rest :
  framed ws -> Forall packet_word ws ->
  exists p', drain drop_optional_ip_header doh_arrive (mkDohEnv DOH_SHIFT_FIVE n prev ls (ws ++ rest))
    = let e := mkDohEnv DOH_META n p' ls rest in
      ((drain drop_optional_ip_header doh_arrive e).1,
       realign 20 prev ws ++ drained drop_optional_ip_header doh_arrive e).
Proof.
  intros Hf. revert prev. induction Hf as [w Hl|w ws Hl _ IH]; intros prev [Hw Hws]%Forall_cons_1.
  - exists w. cbn [app]. erewrite drain_step by by apply doh_call_shift.
    cbn [realign]. rewrite Hl. destruct (no_lane (drop 20 (keep w))); [done|].
    erewrite drained_call, drain_call by apply doh_call_last. done.
  - destruct (IH w Hws) as [p' Hd]. exists p'. cbn [app realign]. rewrite Hl.
    erewrite drain_step by by apply doh_call_shift.
    rewrite (packet_word_full 20), Hl by (done || lia). unfold drained at 1. by rewrite Hd.
Qed.

Lemma doh_packet_env ws d n0 p0 ls rest :
  packet ws d -> (20 < length d)%nat ->
  exists ws' n p, let e := mkDohEnv DOH_META n p ls rest in
    drained drop_optional_ip_header doh_arrive (mkDohEnv DOH_META n0 p0 (5 :: ls) (ws ++ rest))
    = ws' ++ drained drop_optional_ip_header doh_arrive e /\
    (drain drop_optional_ip_header doh_arrive (mkDohEnv DOH_META n0 p0 (5 :: ls) (ws ++ rest))).1
    = (drain drop_optional_ip_header doh_arrive e).1 /\
    packet ws' (drop 20 d).
Proof.
  intros Hp Hl.
  assert (forall w ws, drop_optional_ip_header (mkDohEnv DOH_META n0 p0 (5 :: ls) (w :: ws))
    = (mkDohEnv (if last w then DOH_LAST_FIVE else DOH_SHIFT_FIVE) 5 w ls ws, [])) as Hcall.
  { intros w ws'. unfold drop_optional_ip_header. cbn. rewrite WIDTH_512. done. }
  pose proof (packet_word_all _ _ Hp) as Hws. destruct Hp as [bs pad Hne Hlen|bs ws bs' Hlen Hp].
  - eexists [_], 5, _. cbn [app]. erewrite drained_call, drain_call by apply Hcall.
    cbn [last]. erewrite drained_call, drain_call by apply doh_call_last. split_and!; [done|done|].
    apply residue_packet; lia.
  - apply Forall_cons_1 in Hws as [_ Hws]. cbn [app].
    erewrite drained_call, drain_call by apply Hcall. cbn [last].
    destruct (doh_realign ws (mkWord bs (low_lanes lanes lanes) false) ls 5 rest (packet_framed _ _ Hp) Hws)
      as [p' Hd].
    eexists _, 5, p'. unfold drained at 1. rewrite Hd. split_and!; [done|done|].
    apply realign_packet; [lia|done|done].
Qed.

Lemma doh_packet ws d n0 p0 ls rest :
  packet ws d -> (20 < length d)%nat ->
  exists ws' n p, drained drop_optional_ip_header doh_arrive (mkDohEnv DOH_META n0 p0 (5 :: ls) (ws ++ rest))
    = ws' ++ drained drop_optional_ip_header doh_arrive (mkDohEnv DOH_META n p ls rest) /\
    packet ws' (drop 20 d).
Proof.
  intros Hp Hl. destruct (doh_packet_env ws d n0 p0 ls rest Hp Hl) as (w & n & p & H1 & _ & H2). by exists w, n, p.
Qed.

(** ** [constructPseudoHeader] *)
Definition pseudo_word (h : Z) : net_axis :=
  mkWord (le_bytes 12 (bits 95 0 h) ++ drop 12 garbage) (replicate lanes true) true.

Lemma construct_last r i h rest :
  0 <= i -> exists w j, constructPseudoHeader garbage (mkConstructEnv true (mkPacketHeader r i h) rest)
  = (mkConstructEnv false (mkPacketHeader r j h) rest, [w]) /\ (i = 0 -> w = pseudo_word h).
Proof.
  intros Hi. unfold constructPseudoHeader, consumeWord. cbn [cp_sending cp_header ph_idx].
  rewrite WIDTH_512, (proj2 (Z.leb_gt _ _)) by (unfold TCP_PSEUDO_HEADER_SIZE; lia).
  destruct (_ <? _) eqn:Hc; cbn.
  - eexists _, _. split; [done|]. by intros ->.
  - eexists _, _. split; [done|]. intros ->. done.
Qed.

#[export, refine] Instance construct_kahn : KahnProcess (constructPseudoHeader garbage) construct_arrive := {
  kahn_work e := (2 * length (ipMetaIn e)
                  + (if cp_sending e then if (ph_idx (cp_header e) <? 0)%Z then 2 else 1 else 0))%nat;
  kahn_progress := _; kahn_diamond := _
}.
Proof.
  - intros [[] [r i h] metas].
    + right. destruct (Z.ltb_spec i 0) as [Hi|Hi].
      * cbn [cp_sending cp_header ph_idx ipMetaIn]. rewrite (proj2 (Z.ltb_lt i 0) Hi).
        unfold constructPseudoHeader, consumeWord. cbn [cp_sending cp_header ph_idx].
        rewrite WIDTH_512, (proj2 (Z.leb_le _ _)) by (unfold TCP_PSEUDO_HEADER_SIZE; lia).
        pose proof (wrap_range 16 (i + 1) ltac:(lia)) as Hw. unfold in_width in Hw.
        cbn. rewrite (proj2 (Z.ltb_ge _ _)) by lia. destruct (negb _); lia.
      * destruct (construct_last r i h metas Hi) as (w & j & -> & _). cbn.
        rewrite (proj2 (Z.ltb_ge _ _)) by lia. lia.
    + destruct metas; [by left|right]. cbn. lia.
  - intros a [[] [r i h] [|m metas]]; unfold constructPseudoHeader; cbn;
      try (by left); right; try done; by destruct (consumeWord _ _ _) as [[h' d'] n'].
Defined.

(** The fields of the pseudo header that are never assigned after the constructor. *)
Definition pseudo_static (h : Z) : Prop := bits 79 64 h = 1536.

Definition pseudo_bytes (m : pseudoMeta) : list Z :=
  le_bytes 4 (pm_their_address m) ++ le_bytes 4 (pm_our_address m) ++ [0; 6]
  ++ [pm_length m / 256; pm_length m `mod` 256].
Definition pseudo_fields (m : pseudoMeta) (h : Z) : Z :=
  TcpPseudo.setLength (pm_length m)
    (TcpPseudo.setDstAddr (pm_our_address m) (TcpPseudo.setSrcAddr (pm_their_address m) h)).

Lemma pseudo_fields_static m h : pseudo_static h -> pseudo_static (pseudo_fields m h).
Proof.
  intros H. unfold pseudo_static, pseudo_fields, TcpPseudo.setLength, TcpPseudo.setDstAddr, TcpPseudo.setSrcAddr.
  by read_range.
Qed.

Lemma pseudo_init_static h : pseudo_static (TcpPseudo.init h).
Proof.
  unfold pseudo_static, TcpPseudo.init. rewrite (bits_split 71) by lia. by read_range.
Qed.

Definition pseudo_meta_ok (m : pseudoMeta) : Prop :=
  in_width 32 (pm_their_address m) /\ in_width 32 (pm_our_address m) /\ in_width 16 (pm_length m).

Lemma pseudo_bytes_bytes m : pseudo_meta_ok m -> bytes (pseudo_bytes m).
Proof.
  intros (H1 & H2 & H3). unfold pseudo_bytes. repeat (apply Forall_app; split); try apply le_bytes_bytes.
  - by repeat constructor.
  - by apply bytes_be16.
Qed.

Lemma pseudo_fields_bytes m h :
  pseudo_static h -> pseudo_meta_ok m -> le_bytes 12 (bits 95 0 (pseudo_fields m h)) = pseudo_bytes m.
Proof.
  intros Hs Hm. pose proof Hm as (H1 & H2 & H3).
  assert (bits 95 0 (pseudo_fields m h)
    = pm_their_address m + 2 ^ 32 * (pm_our_address m + 2 ^ 32 * (1536 + 2 ^ 16 * reverse16 (pm_length m)))) as Hb.
  { rewrite (bits_split 31), (bits_split 63 95), (bits_split 79 95) by lia. cbn [Z.add Z.sub Z.opp Pos.add Pos.succ].
    rewrite (pseudo_fields_static m h Hs).
    unfold pseudo_fields, TcpPseudo.setLength, TcpPseudo.setDstAddr, TcpPseudo.setSrcAddr. read_range.
    rewrite (wrap_small 16 (pm_length m)) by done.
    rewrite !wrap_small by (done || apply reverse16_width). done. }
  apply le_val_inj; [apply le_bytes_bytes|by apply pseudo_bytes_bytes|by rewrite le_bytes_length|].
  rewrite le_val_bytes. unfold pseudo_bytes. rewrite !le_val_app, !le_val_bytes, !le_bytes_length.
  cbn [length Z.of_nat Pos.of_succ_nat Pos.succ Z.mul Pos.mul Pos.add].
  rewrite !(wrap_small 32) by done. rewrite <- reverse16_le_val by done.
  rewrite wrap_small by (by apply (bits_range 95 0)). rewrite Hb. unfold le_val. cbn. done.
Qed.

Lemma construct_packet m metas i r h :
  pseudo_static h -> pseudo_meta_ok m ->
  exists hw i' r' h', drained (constructPseudoHeader garbage) construct_arrive
      (mkConstructEnv false (mkPacketHeader r i h) (m :: metas))
    = hw :: drained (constructPseudoHeader garbage) construct_arrive
        (mkConstructEnv false (mkPacketHeader r' i' h') metas) /\
    last hw = true /\ take 12 (data hw) = pseudo_bytes m /\ pseudo_static h'.
Proof.
  intros Hs Hm. erewrite (drained_call _ _ _ (mkConstructEnv true (mkPacketHeader false 0 (pseudo_fields m h)) metas) [])
    by reflexivity.
  destruct (construct_last false 0 (pseudo_fields m h) metas ltac:(done)) as (w & j & Hc & Hw).
  rewrite (Hw eq_refl) in Hc.
  erewrite drained_call by exact Hc. eexists _, _, _, _. split; [reflexivity|].
  split_and!; [done| |by apply pseudo_fields_static].
  cbn [pseudo_word data]. rewrite pseudo_fields_bytes by done.
  rewrite take_app_le by done. by rewrite take_ge.
Qed.

(** ** [prependPseudoHeader] *)
Lemma prepend_later p w hs rest :
  prependPseudoHeader (mkPrependEnv true p false hs (w :: rest))
  = (mkPrependEnv (negb (last w)) p false hs rest, [w]).
Proof. by destruct w. Qed.

Lemma prepend_rest ws p hs rest :
  framed ws -> exists f',
  drained prependPseudoHeader prepend_arrive (mkPrependEnv true p false hs (ws ++ rest))
  = ws ++ drained prependPseudoHeader prepend_arrive (mkPrependEnv false p f' hs rest).
Proof.
  induction 1 as [w Hl|w ws Hl _ IH]; [exists false|destruct IH as [f' IH]; exists f'];
    cbn [app]; erewrite drained_call by apply prepend_later; rewrite Hl; [done|].
  cbn [negb app]. by rewrite IH.
Qed.

Lemma prepend_first p w hs rest :
  prependPseudoHeader (mkPrependEnv true p true hs (w :: rest))
  = (mkPrependEnv (negb (last w)) p false hs rest,
     [mkWord (take 12 (data p) ++ drop 12 (data w)) (keep w) (last w)]).
Proof. unfold prependPseudoHeader. cbn. rewrite WIDTH_512. reflexivity. Qed.

Lemma prepend_packet ws bs hw p f hs rest :
  packet ws bs -> (12 <= length bs)%nat -> last hw = true -> length (take 12 (data hw)) = 12%nat ->
  exists ws' p' f', drained prependPseudoHeader prepend_arrive (mkPrependEnv false p f (hw :: hs) (ws ++ rest))
    = ws' ++ drained prependPseudoHeader prepend_arrive (mkPrependEnv false p' f' hs rest) /\
    packet ws' (take 12 (data hw) ++ drop 12 bs).
Proof.
  intros Hp Hl Hlast H12.
  erewrite (drained_call _ _ _ (mkPrependEnv true (mkWord (data hw) (keep hw) false) true hs (ws ++ rest)) [])
    by (unfold prependPseudoHeader; cbn; by rewrite Hlast).
  destruct Hp as [bs pad Hne Hlen|bs ws bs' Hlen Hp].
  - cbn [app]. erewrite drained_call by apply prepend_first. cbn [data keep last negb].
    eexists [_], _, _. split; [reflexivity|].
    rewrite drop_app_le by done. rewrite app_assoc.
    replace (length bs) with (length (take 12 (data hw) ++ drop 12 bs)) at 1
      by (rewrite length_app, H12, length_drop; lia).
    apply packet_last.
    + intros H%(f_equal length). rewrite length_app, H12 in H. simpl in H. lia.
    + rewrite length_app, H12, length_drop. lia.
  - cbn [app]. erewrite drained_call by apply prepend_first. cbn [data keep last negb].
    destruct (prepend_rest ws (mkWord (data hw) (keep hw) false) hs rest (packet_framed _ _ Hp)) as [f' ->].
    eexists (_ :: ws), _, f'. split; [reflexivity|].
    rewrite drop_app_le, app_assoc by lia. constructor; [|done].
    rewrite length_app, H12, length_drop. lia.
Qed.
(** ** [processPseudoHeader] *)
Definition pph_words (w : list pseudo_header_write) : list net_axis :=
  omap (fun x => match x with W_pph_dataOut w => Some w | _ => None end) w.
Definition pph_metas (w : list pseudo_header_write) : list rxEngineMetaData :=
  omap (fun x => match x with W_headerMeta m => Some m | _ => None end) w.
Definition pph_ports (w : list pseudo_header_write) : list Z :=
  omap (fun x => match x with W_rxEng2portTable_req p => Some p | _ => None end) w.
Definition pph_tuples (w : list pseudo_header_write) : list fourTuple :=
  omap (fun x => match x with W_tupleBuffer t => Some t | _ => None end) w.
Definition pph_fields (w : list pseudo_header_write) : list optionalFieldsMeta :=
  omap (fun x => match x with W_optionalFieldsMeta m => Some m | _ => None end) w.

(** The fields of a segment [bs], the pseudo header in front. *)
Definition dataOffset_of (bs : list Z) : Z := bits 7 4 (byte_at 24 bs).
Definition payload_length_of (bs : list Z) : Z := be_val (field 10 2 bs) - dataOffset_of bs * 4.
Definition flag_of (i : Z) (bs : list Z) : bool := Z.testbit (byte_at 25 bs) i.

Definition meta_of (bs : list Z) : rxEngineMetaData :=
  mkRxMeta (be_val (field 16 4 bs)) (be_val (field 20 4 bs)) (be_val (field 26 2 bs)) winScale0
    (wrap 16 (payload_length_of bs)) (flag_of 4 bs) (flag_of 2 bs) (flag_of 1 bs) (flag_of 0 bs)
    (dataOffset_of bs).
Definition tuple_of (bs : list Z) : fourTuple :=
  mkFourTuple (le_val (field 0 4 bs)) (le_val (field 4 4 bs)) (le_val (field 12 2 bs))
    (le_val (field 14 2 bs)).
Definition fields_of (bs : list Z) : optionalFieldsMeta :=
  mkOptionalFieldsMeta (wrap 4 (dataOffset_of bs - 5)) (flag_of 1 bs).

(** There is something behind the header without options. *)
Definition has_rest (bs : list Z) : bool := nonzero (payload_length_of bs) || (5 <? dataOffset_of bs).

Section Fields.
Variables (bs pad : list Z) (h : Z).
Hypothesis (Hb : bytes bs) (Hl : (32 <= length bs)%nat).
Let h' := set_bits (TCP_FULL_PSEUDO_HEADER_SIZE - 1) 0 (le_val (bs ++ pad)) h.

Lemma header_field hi lo m n :
  (m + n <= 32)%nat -> lo = 8 * Z.of_nat m -> hi = lo + 8 * Z.of_nat n - 1 -> lo <= hi ->
  bits hi lo h' = le_val (field m n bs).
Proof.
  intros Hmn Hlo Hhi Hle. unfold h', TCP_FULL_PSEUDO_HEADER_SIZE.
  rewrite set_bits_header by lia. apply bits_field; done || lia.
Qed.

Lemma header_in_lane hi lo m hi' lo' :
  (m < 32)%nat -> 0 <= lo' -> lo' <= hi' + 1 -> hi' <= 7 -> lo = 8 * Z.of_nat m + lo' ->
  hi = 8 * Z.of_nat m + hi' ->
  bits hi lo h' = bits hi' lo' (byte_at m bs).
Proof.
  intros Hm H0 H1 H2 Hlo Hhi. unfold h', TCP_FULL_PSEUDO_HEADER_SIZE.
  rewrite set_bits_header by lia. apply bits_in_lane; done || lia.
Qed.

Lemma header_flag i j : 0 <= j <= 7 -> i = 200 + j -> nonzero (bit i h') = flag_of j bs.
Proof.
  intros Hj ->. unfold bit. rewrite (header_in_lane _ _ 25 j j) by lia. apply bits_bit. lia.
Qed.

Lemma header_dataOffset : TcpFull.getDataOffset h' = dataOffset_of bs.
Proof. unfold TcpFull.getDataOffset. by rewrite (header_in_lane _ _ 24 7 4) by lia. Qed.

Lemma header_be16 hi lo m :
  (m + 2 <= 32)%nat -> lo = 8 * Z.of_nat m -> hi = lo + 15 -> reverse16 (bits hi lo h') = be_val (field m 2 bs).
Proof.
  intros Hm Hlo Hhi. rewrite (header_field _ _ m 2) by lia.
  apply reverse16_be; [by apply field_bytes|apply field_length; lia].
Qed.

Lemma header_be32 hi lo m :
  (m + 4 <= 32)%nat -> lo = 8 * Z.of_nat m -> hi = lo + 31 -> reverse32 (bits hi lo h') = be_val (field m 4 bs).
Proof.
  intros Hm Hlo Hhi. rewrite (header_field _ _ m 4) by lia.
  apply reverse32_be; [by apply field_bytes|apply field_length; lia].
Qed.

Lemma header_payload_length : payload_length h' = payload_length_of bs.
Proof.
  unfold payload_length, payload_length_of, TcpFull.getLength.
  rewrite header_dataOffset. by rewrite (header_be16 _ _ 10) by lia.
Qed.

Lemma header_writes_of :
  header_writes winScale0 h' =
    [W_headerMeta (meta_of bs); W_rxEng2portTable_req (ft_dstPort (tuple_of bs)); W_tupleBuffer (tuple_of bs)]
    ++ when (nonzero (wrap 16 (payload_length_of bs)) || (5 <? dataOffset_of bs)) [W_optionalFieldsMeta (fields_of bs)].
Proof.
  unfold header_writes, header_meta, meta_of, tuple_of, fields_of.
  rewrite header_payload_length, header_dataOffset.
  unfold TcpFull.getSeqNumb, TcpFull.getAckNumb, TcpFull.getWindowSize, TcpFull.getAckFlag,
    TcpFull.getRstFlag, TcpFull.getSynFlag, TcpFull.getFinFlag, TcpFull.getDstPort, TcpFull.getSrcAddr,
    TcpFull.getDstAddr, TcpFull.getSrcPort.
  rewrite (header_be32 _ _ 16), (header_be32 _ _ 20), (header_be16 _ _ 26) by lia.
  rewrite (header_field 127 112 14 2), (header_field 31 0 0 4), (header_field 63 32 4 4),
    (header_field 111 96 12 2) by lia.
  by rewrite (header_flag 204 4), (header_flag 202 2), (header_flag 201 1), (header_flag 200 0) by lia.
Qed.
End Fields.

Lemma pph_rest ws h i v vs rest :
  framed ws ->
  drained (processPseudoHeader winScale0) pph_arrive
    (mkPphEnv (mkPacketHeader true i h) false v true (ws ++ rest) vs)
  = map W_pph_dataOut (when (v && (nonzero (payload_length h) || (5 <? TcpFull.getDataOffset h))) ws)
    ++ drained (processPseudoHeader winScale0) pph_arrive
        (mkPphEnv (mkPacketHeader false 0 h) true v false rest vs).
Proof.
  assert (forall w ws, processPseudoHeader winScale0
      (mkPphEnv (mkPacketHeader true i h) false v true (w :: ws) vs)
    = (mkPphEnv (if last w then mkPacketHeader false 0 h else mkPacketHeader true i h) (last w) v
         (negb (last w)) ws vs,
       map W_pph_dataOut (when (v && (nonzero (payload_length h) || (5 <? TcpFull.getDataOffset h))) [w]))) as Hcall.
  { intros w ws'. unfold processPseudoHeader, pph_word, parseWord. cbn [pph_header ph_ready ph_header
      pph_firstWord pph_dataIn pph_metaWritten pph_pkgValid validFifoIn]. rewrite WIDTH_512.
    cbn. rewrite andb_false_r, andb_true_r, app_nil_r. by destruct v, (nonzero _ || _). }
  induction 1 as [w Hl|w ws Hl _ IH]; cbn [app]; erewrite drained_call by apply Hcall; rewrite Hl; cbn [negb].
  - done.
  - rewrite IH. by destruct v, (nonzero _ || _).
Qed.
Record pph_result (v : bool) (ws : list net_axis) (bs : list Z) (w : list pseudo_header_write) : Prop := {
  pr_words : pph_words w = when (v && has_rest bs) ws;
  pr_fields : pph_fields w = when (v && has_rest bs) [fields_of bs];
  pr_metas : pph_metas w = when v [meta_of bs];
  pr_tuples : pph_tuples w = when v [tuple_of bs];
  pr_ports : pph_ports w = when v [ft_dstPort (tuple_of bs)]
}.

Lemma pph_packet ws bs h v0 v vs rest :
  packet ws bs -> bytes bs -> (32 <= length bs)%nat -> 0 <= payload_length_of bs ->
  exists w h' v', drained (processPseudoHeader winScale0) pph_arrive
      (mkPphEnv (mkPacketHeader false 0 h) true v0 false (ws ++ rest) (v :: vs))
    = w ++ drained (processPseudoHeader winScale0) pph_arrive
        (mkPphEnv (mkPacketHeader false 0 h') true v' false rest vs) /\
    pph_result v ws bs w.
Proof.
  intros Hp Hb Hl Hlen. destruct (parse_first TCP_FULL_PSEUDO_HEADER_SIZE ws bs h ltac:(done) Hp)
    as (w & ws' & -> & Hparse & Hw).
  destruct (Hw 32%nat Hl ltac:(lia)) as [pad Hd].
  set (h' := set_bits (TCP_FULL_PSEUDO_HEADER_SIZE - 1) 0 (le_val (data w)) h) in *.
  assert (exists bs', bs = take 32 bs ++ bs') as [bs' Hbs] by (eexists; symmetry; apply take_drop).
  assert (length (take 32 bs) = 32%nat) as H32 by (rewrite length_take; lia).
  assert (bytes (take 32 bs)) as Hb32 by by apply Forall_take.
  assert (forall m n, (m + n <= 32)%nat -> field m n (take 32 bs) = field m n bs) as Hf.
  { intros m n Hmn. rewrite Hbs at 2. by rewrite field_app_l by lia. }
  assert (forall m, (m < 32)%nat -> byte_at m (take 32 bs) = byte_at m bs) as Hat.
  { intros m Hm. unfold byte_at. by rewrite lookup_take_lt by lia. }
  assert (dataOffset_of (take 32 bs) = dataOffset_of bs) as Hoff by (unfold dataOffset_of; by rewrite Hat by lia).
  assert (payload_length_of (take 32 bs) = payload_length_of bs) as Hpl
    by (unfold payload_length_of; by rewrite Hoff, Hf by lia).
  assert (wrap 16 (payload_length_of bs) = payload_length_of bs) as Hwrap.
  { apply wrap_small. split; [done|]. unfold payload_length_of, dataOffset_of.
    pose proof (be_val_range (field 10 2 bs) (field_bytes _ _ _ Hb)) as Hr.
    rewrite field_length in Hr by lia. pose proof (bits_range 7 4 (byte_at 24 bs) ltac:(lia)) as Hr2.
    unfold in_width in Hr2. change (8 * Z.of_nat 2) with 16 in Hr. lia. }
  assert (header_writes winScale0 h' = [W_headerMeta (meta_of bs);
    W_rxEng2portTable_req (ft_dstPort (tuple_of bs)); W_tupleBuffer (tuple_of bs)]
    ++ when (has_rest bs) [W_optionalFieldsMeta (fields_of bs)]) as Hwrites.
  { unfold h'. rewrite Hd, (header_writes_of (take 32 bs) pad h Hb32 ltac:(lia)).
    unfold has_rest. rewrite Hpl, Hoff, Hwrap.
    unfold meta_of, tuple_of, fields_of, flag_of. by rewrite Hpl, Hoff, !Hat, !Hf by lia. }
  assert (nonzero (payload_length h') || (5 <? TcpFull.getDataOffset h') = has_rest bs) as Hrest.
  { unfold has_rest, h'. rewrite Hd, header_payload_length, header_dataOffset by (done || lia).
    by rewrite Hpl, Hoff. }
  assert (processPseudoHeader winScale0
      (mkPphEnv (mkPacketHeader false 0 h) true v0 false (w :: ws' ++ rest) (v :: vs))
    = (mkPphEnv (if last w then mkPacketHeader false 0 h' else mkPacketHeader true 1 h') (last w) v
         (negb (last w)) (ws' ++ rest) vs,
       map W_pph_dataOut (when (v && has_rest bs) [w]) ++ when v (header_writes winScale0 h'))) as Hcall.
  { unfold processPseudoHeader, pph_word. cbn [pph_header pph_firstWord pph_dataIn pph_metaWritten validFifoIn].
    rewrite Hparse. cbn [ph_ready ph_header]. rewrite Hrest, WIDTH_512. cbn.
    rewrite !andb_true_r. by destruct v, (has_rest bs). }
  cbn [app]. erewrite drained_call by exact Hcall. rewrite Hwrites.
  assert (forall us, pph_result v (w :: us) bs
    ((map W_pph_dataOut (when (v && has_rest bs) [w]) ++ when v ([W_headerMeta (meta_of bs);
        W_rxEng2portTable_req (ft_dstPort (tuple_of bs)); W_tupleBuffer (tuple_of bs)]
      ++ when (has_rest bs) [W_optionalFieldsMeta (fields_of bs)]))
     ++ map W_pph_dataOut (when (v && has_rest bs) us))) as Hres.
  { intros us. destruct v; [|done]. constructor; unfold pph_words, pph_fields, pph_metas, pph_tuples, pph_ports;
      destruct (has_rest bs); cbn [andb when map]; rewrite ?omap_app;
      first [done | rewrite (omap_map_Some _ W_pph_dataOut) by done; done
            | rewrite (omap_map_None _ W_pph_dataOut) by done; done]. }
  pose proof (packet_framed _ _ Hp) as Hfr. inversion Hfr as [? Hlast|? ? Hlast Hf']; subst; rewrite Hlast.
  - eexists _, h', v. split; [reflexivity|]. specialize (Hres []).
    replace (map W_pph_dataOut (when (v && has_rest bs) [])) with (@nil pseudo_header_write) in Hres
      by (by destruct (v && has_rest bs)). by rewrite app_nil_r in Hres.
  - cbn [negb]. rewrite pph_rest by done. rewrite Hrest. rewrite app_assoc. eexists _, h', v.
    split; [reflexivity|]. apply Hres.
Qed.
(** ** [drop_optional_header_fields] *)
Definition dof_words (w : list dof_write) : list net_axis :=
  omap (fun x => match x with W_dof_dataOut w => Some w | _ => None end) w.
Definition dof_offsets (w : list dof_write) : list Z :=
  omap (fun x => match x with W_dataOffsetOut n => Some n | _ => None end) w.
Definition dof_headers (w : list dof_write) : list Z :=
  omap (fun x => match x with W_optionalHeaderFieldsOut h => Some h | _ => None end) w.

Lemma dof_words_app w1 w2 : dof_words (w1 ++ w2) = dof_words w1 ++ dof_words w2.
Proof. apply omap_app. Qed.
Lemma dof_offsets_app w1 w2 : dof_offsets (w1 ++ w2) = dof_offsets w1 ++ dof_offsets w2.
Proof. apply omap_app. Qed.
Lemma dof_headers_app w1 w2 : dof_headers (w1 ++ w2) = dof_headers w1 ++ dof_headers w2.
Proof. apply omap_app. Qed.

(** The process in the middle of a packet, the raw header [h] already complete. *)
Definition dof_body (o : Z) (prev : net_axis) (i h : Z) (parse written : bool) ms ws : dof_env :=
  mkDofEnv DOF_BODY o prev (mkPacketHeader true i h) parse written ms ws.

Definition lanes_of (o : Z) : nat := Z.to_nat (o * 4).

Lemma dof_call_body o prev i h parse written ms w ws :
  0 <= o <= 15 -> packet_word w ->
  drop_optional_header_fields (dof_body o prev i h parse written ms (w :: ws))
  = (mkDofEnv (if last w then if negb (o =? 0) && negb (no_lane (drop (lanes_of o) (keep w)))
                              then DOF_RESIDUE else DOF_META else DOF_BODY)
       o w (mkPacketHeader true i h) parse (parse || written) ms ws,
     when (parse && negb written) [W_optionalHeaderFieldsOut h]
     ++ [W_dof_dataOut (if o =? 0 then w else joined (lanes_of o) prev w)]).
Proof.
  intros Ho Hw. unfold drop_optional_header_fields, dof_body, parseWord, keeps_lane.
  cbn [dof_state dof_dataIn dof_dataOffset dof_optionalHeader ph_ready ph_header dof_parseHeader
    dof_headerWritten dof_prevWord dof_metaIn].
  rewrite WIDTH_512. change (512 / 32) with 16. rewrite (proj2 (Z.leb_gt 16 o)) by lia.
  rewrite orb_true_l, andb_true_l. fold (lanes_of o).
  replace (parse && negb written || written) with (parse || written) by (by destruct parse, written).
  destruct (o =? 0) eqn:Hz; fold (lanes_of o); rewrite (packet_word_lane (lanes_of o) w Hw), ?Hz;
    rewrite ?negb_involutive; cbn [negb]; by rewrite ?andb_false_r, ?andb_true_r.
Qed.

Lemma dof_call_residue o prev hd parse written ms ws :
  drop_optional_header_fields (mkDofEnv DOF_RESIDUE o prev hd parse written ms ws)
  = (mkDofEnv DOF_META o prev hd parse written ms ws, [W_dof_dataOut (residue (lanes_of o) prev)]).
Proof. reflexivity. Qed.

(** The rest of a packet behind its first word. *)
Lemma dof_rest ws o prev i h parse written ms rest :
  0 <= o <= 15 -> framed ws -> Forall packet_word ws ->
  exists w p' wr', drained drop_optional_header_fields dof_arrive (dof_body o prev i h parse written ms (ws ++ rest))
    = w ++ drained drop_optional_header_fields dof_arrive
        (mkDofEnv DOF_META o p' (mkPacketHeader true i h) parse wr' ms rest) /\
    dof_words w = (if o =? 0 then ws else realign (lanes_of o) prev ws) /\
    dof_offsets w = [] /\ dof_headers w = when (parse && negb written) [h].
Proof.
  intros Ho Hf. revert prev written. induction Hf as [w Hl|w ws Hl _ IH]; intros prev written [Hw Hws]%Forall_cons_1.
  - cbn [app]. erewrite drained_call by by apply dof_call_body. rewrite Hl. cbn [realign]. rewrite Hl.
    destruct (o =? 0); cbn [negb andb]; [|destruct (no_lane (drop _ (keep w))) eqn:Hn; cbn [negb]].
    + eexists _, _, _. split; [reflexivity|]. by destruct (parse && negb written).
    + eexists _, _, _. split; [reflexivity|]. by destruct (parse && negb written).
    + erewrite drained_call by apply dof_call_residue. rewrite app_assoc.
      eexists _, _, _. split; [reflexivity|]. by destruct (parse && negb written).
  - cbn [app]. erewrite drained_call by by apply dof_call_body. rewrite Hl. cbn [realign]. rewrite Hl.
    destruct (IH w (parse || written) Hws) as (w' & p' & wr' & Hd & H1 & H2 & H3).
    fold (dof_body o w i h parse (parse || written) ms (ws ++ rest)). rewrite Hd, app_assoc.
    eexists _, p', wr'. split; [reflexivity|].
    rewrite dof_words_app, dof_offsets_app, dof_headers_app, H1, H2, H3.
    by destruct (o =? 0), parse, written.
Qed.
(** What becomes of the bytes behind the header: the options go to the parser, if the
    segment is a SYN, and the payload goes on. *)
Record dof_result (m : optionalFieldsMeta) (ws : list net_axis) (bs : list Z) (w : list dof_write) : Prop := {
  dr_words : if (lanes_of (of_dataOffset m) <? length bs)%nat
             then packet (dof_words w) (drop (lanes_of (of_dataOffset m)) bs) else dof_words w = [];
  dr_offsets : dof_offsets w = when (negb (of_dataOffset m =? 0) && of_syn m) [of_dataOffset m];
  (** The raw header is written again with the second word. *)
  dr_headers : exists h, le_bytes (lanes_of (of_dataOffset m)) h = take (lanes_of (of_dataOffset m)) bs /\
    dof_headers w = when (negb (of_dataOffset m =? 0) && of_syn m)
      (h :: when (1 <? length ws)%nat [h])
}.

Lemma raw_header_bytes n bs pad h :
  (0 < n <= 40)%nat -> bytes bs -> (n <= length bs)%nat ->
  le_bytes n (set_bits (TCP_OPTIONAL_HEADER_SIZE - 1) 0 (le_val (take n bs ++ pad)) h) = take n bs.
Proof.
  intros Hn Hb Hl. assert (length (take n bs) = n) as Hlt by (rewrite length_take; lia).
  apply le_val_inj; [apply le_bytes_bytes|by apply Forall_take|by rewrite le_bytes_length|].
  rewrite le_val_bytes. unfold TCP_OPTIONAL_HEADER_SIZE.
  transitivity (bits (8 * Z.of_nat n - 1) 0 (set_bits (320 - 1) 0 (le_val (take n bs ++ pad)) h)).
  - rewrite bits_0. f_equal. lia.
  - rewrite set_bits_header by lia. rewrite (bits_field _ _ 0 n) by (try apply Forall_take; lia || done).
    unfold field. by rewrite drop_0, take_take, Nat.min_id.
Qed.

Lemma packet_single ws bs : packet ws bs -> (length bs <= lanes)%nat -> length ws = 1%nat.
Proof.
  destruct 1 as [bs pad Hne Hl|bs ws bs' Hl Hp]; [done|]. rewrite length_app.
  apply packet_nonempty in Hp. destruct bs'; [done|]. simpl. lia.
Qed.

Definition dof_ready (m : optionalFieldsMeta) (bs : list Z) : Prop :=
  0 <= of_dataOffset m <= 10 /\ (lanes_of (of_dataOffset m) <= length bs)%nat.

Lemma dof_call_meta m ms o0 p0 hd0 pa0 wr0 w rest h :
  packet_word w -> 0 <= of_dataOffset m <= 10 ->
  parseWord TCP_OPTIONAL_HEADER_SIZE (data w) (mkPacketHeader false 0 (ph_header hd0)) = mkPacketHeader true 1 h ->
  drop_optional_header_fields (mkDofEnv DOF_META o0 p0 hd0 pa0 wr0 (m :: ms) (w :: rest))
  = (mkDofEnv (if last w then if negb (of_dataOffset m =? 0)
                                   && negb (no_lane (drop (lanes_of (of_dataOffset m)) (keep w)))
                              then DOF_RESIDUE else DOF_META else DOF_BODY)
       (of_dataOffset m) w (mkPacketHeader true 1 h) (negb (of_dataOffset m =? 0) && of_syn m) false ms rest,
     when (of_dataOffset m =? 0) [W_dof_dataOut w]
     ++ when (negb (of_dataOffset m =? 0) && of_syn m)
          [W_dataOffsetOut (of_dataOffset m); W_optionalHeaderFieldsOut h]).
Proof.
  intros Hw Ho Hparse. unfold drop_optional_header_fields, keeps_lane.
  cbn [dof_state dof_dataIn dof_metaIn dof_optionalHeader].
  destruct hd0 as [r0 i0 h0]. unfold clear.
  cbn -[parseWord] in Hparse |- *. rewrite Hparse. cbn [ph_ready ph_header orb when].
  fold (lanes_of (of_dataOffset m)). rewrite (packet_word_lane _ w Hw), WIDTH_512. change (512 / 8) with 64.
  rewrite (proj2 (Z.ltb_lt (of_dataOffset m * 4) 64)) by lia. by rewrite andb_true_r.
Qed.

(** The writes for a packet of one word, and for a longer one, are those of the result. *)
Lemma dof_result_single m bs pad h h1 :
  bs <> [] -> (length bs + length pad)%nat = lanes -> dof_ready m bs ->
  le_bytes (lanes_of (of_dataOffset m)) h1 = take (lanes_of (of_dataOffset m)) bs ->
  (of_dataOffset m <> 0 -> h1 = h) ->
  let w := mkWord (bs ++ pad) (low_lanes lanes (length bs)) true in let o := of_dataOffset m in
  dof_result m [w] bs
    ((when (o =? 0) [W_dof_dataOut w]
      ++ when (negb (o =? 0) && of_syn m) [W_dataOffsetOut o; W_optionalHeaderFieldsOut h])
     ++ when (negb (o =? 0) && (lanes_of o <? length bs)%nat) [W_dof_dataOut (residue (lanes_of o) w)]).
Proof.
  intros Hne Hlen [Ho Hl] Hh1 Hh w o. fold o in Ho, Hl, Hh1, Hh.
  assert (0 < length bs)%nat by (destruct bs; simpl; [done|lia]).
  constructor; fold o; rewrite ?dof_words_app, ?dof_offsets_app, ?dof_headers_app.
  - destruct (Z.eqb_spec o 0) as [Hz|Hz]; cbn [negb andb when].
    + rewrite Hz in *. change (lanes_of 0) with 0%nat. rewrite (proj2 (Nat.ltb_lt _ _)) by done.
      by apply packet_last.
    + destruct (of_syn m), (Nat.ltb_spec (lanes_of o) (length bs)); try done;
        apply residue_packet; unfold lanes_of in *; lia.
  - by destruct (o =? 0), (of_syn m), (_ <? _)%nat.
  - exists h1. split; [done|]. destruct (Z.eqb_spec o 0) as [Hz|Hz]; [done|]. rewrite Hh by done.
    by destruct (of_syn m), (_ <? _)%nat.
Qed.

Lemma dof_result_more m b0 ws bs h h1 w' :
  length b0 = lanes -> packet ws bs -> dof_ready m (b0 ++ bs) ->
  le_bytes (lanes_of (of_dataOffset m)) h1 = take (lanes_of (of_dataOffset m)) (b0 ++ bs) ->
  (of_dataOffset m <> 0 -> h1 = h) ->
  let w := mkWord b0 (low_lanes lanes lanes) false in let o := of_dataOffset m in
  dof_words w' = (if o =? 0 then ws else realign (lanes_of o) w ws) -> dof_offsets w' = [] ->
  dof_headers w' = when (negb (o =? 0) && of_syn m) [h] ->
  dof_result m (w :: ws) (b0 ++ bs)
    ((when (o =? 0) [W_dof_dataOut w]
      ++ when (negb (o =? 0) && of_syn m) [W_dataOffsetOut o; W_optionalHeaderFieldsOut h]) ++ w').
Proof.
  intros Hlen Hp [Ho Hl] Hh1 Hh w o Hw1 Hw2 Hw3. fold o in Ho, Hl, Hh1, Hh.
  assert (0 < length bs)%nat by (apply packet_nonempty in Hp; destruct bs; simpl; [done|lia]).
  constructor; fold o; rewrite ?dof_words_app, ?dof_offsets_app, ?dof_headers_app, ?Hw1, ?Hw2, ?Hw3.
  - rewrite (proj2 (Nat.ltb_lt _ _)) by (rewrite length_app; unfold lanes_of in *; lia).
    destruct (Z.eqb_spec o 0) as [Hz|Hz]; cbn [negb andb when].
    + rewrite Hz. by constructor.
    + destruct (of_syn m); apply realign_packet; try done; unfold lanes_of; lia.
  - by destruct (o =? 0), (of_syn m).
  - exists h1. split; [done|]. destruct (Z.eqb_spec o 0) as [Hz|Hz]; [done|]. rewrite Hh by done.
    destruct ws as [|? ?]; [inversion Hp|]. by destruct (of_syn m).
Qed.

Lemma dof_packet ws bs m o0 p0 hd0 pa0 wr0 ms rest :
  packet ws bs -> bytes bs -> dof_ready m bs ->
  exists w o p hd pa wr, drained drop_optional_header_fields dof_arrive
      (mkDofEnv DOF_META o0 p0 hd0 pa0 wr0 (m :: ms) (ws ++ rest))
    = w ++ drained drop_optional_header_fields dof_arrive (mkDofEnv DOF_META o p hd pa wr ms rest) /\
    dof_result m ws bs w.
Proof.
  intros Hp Hb Hr. pose proof Hr as [Ho Hl].
  pose proof (packet_word_all _ _ Hp) as Hws. pose proof (packet_framed _ _ Hp) as Hfr.
  destruct (parse_first TCP_OPTIONAL_HEADER_SIZE ws bs (ph_header hd0) ltac:(done) Hp)
    as (w & ws' & -> & Hparse & Hw).
  apply Forall_cons_1 in Hws as [Hw1 Hws].
  set (o := of_dataOffset m) in *. set (h := set_bits _ 0 (le_val (data w)) _) in *.
  assert (exists h1, le_bytes (lanes_of o) h1 = take (lanes_of o) bs /\ (o <> 0 -> h1 = h)) as (h1 & Hh1 & Hh).
  { destruct (decide (o = 0)) as [->|Hz]; [by exists 0|]. exists h. split; [|done]. unfold h.
    destruct (Hw (lanes_of o)) as [pad ->]; [done|unfold lanes_of; lia|].
    apply raw_header_bytes; [unfold lanes_of; lia|done|done]. }
  cbn [app]. erewrite drained_call by (apply dof_call_meta; done).
  inversion Hp as [bs1 pad Hne Hlen|b0 ws1 bs1 Hlen Hp2]; subst; cbn [last keep].
  - pose proof (dof_result_single m bs pad h h1 Hne Hlen Hr Hh1 Hh) as Hres. cbv zeta in Hres. fold o in Hres |- *.
    rewrite drop_low_lanes, no_lane_low.
    replace (length bs - lanes_of o =? 0)%nat with (negb (lanes_of o <? length bs)%nat) by lia.
    rewrite negb_involutive. destruct (negb (o =? 0) && (lanes_of o <? length bs)%nat) eqn:Hc.
    + erewrite drained_call by apply dof_call_residue. rewrite app_assoc.
      eexists _, _, _, _, _, _. split; [reflexivity|exact Hres].
    + eexists _, _, _, _, _, _. split; [rewrite <- (app_nil_r (when _ _ ++ _)); reflexivity|exact Hres].
  - inversion Hfr as [|? ? _ Hf']; subst; [by inversion Hp2|].
    destruct (dof_rest ws' o (mkWord b0 (low_lanes lanes lanes) false) 1 h (negb (o =? 0) && of_syn m) false ms rest
      ltac:(lia) Hf' Hws) as (w' & p' & wr' & Hd & H1 & H2 & H3).
    unfold dof_body in Hd. fold o. rewrite Hd, app_assoc. rewrite andb_true_r in H3.
    eexists _, o, p', _, _, wr'. split; [reflexivity|]. by eapply dof_result_more.
Qed.
End RxFrontend.

#[export] Existing Instances process_ipv4_kahn doh_kahn prepend_kahn pph_kahn dof_kahn.
