(* ===== verification/RxPath.v ===== *)
(** * The receive path: what an IP packet becomes

    The stages of the front end connected as in [rx_engine] ([toe/rx_engine]): every
    stage runs on a schedule of its own, and reads what the stages before it write. *)

From S2P Require Import Prelude Streams Words Shifters ToeTypes Checksum Headers RxEngine RxDatapath.
From S2P Require Import RxFrontend.

Section RxPath.
Context {WW : WordWidth}.
Hypothesis lanes64 : lanes = 64%nat.
Variable garbage : list Z.
Variable winScale0 : Z.
(** The contents of the header objects before the first assignment. *)
Variable header0 : Z.

#[local] Hint Extern 0 (KahnProcess (constructPseudoHeader _) construct_arrive) =>
  exact (construct_kahn _ lanes64) : typeclass_instances.

(** ** A stage on a sequence of packets *)
Lemma process_ipv4_packets ws D h :
  packets ws D -> Forall (fun d => bytes d /\ (20 <= length d)%nat) D ->
  let w := drained toe_process_ipv4 process_ipv4_arrive (mkProcessIpv4Env (mkPacketHeader false 0 h) 0 false ws) in
  ip_words w = ws /\ ip_lengths w = map (fun d => wrap 4 (bits 3 0 (byte_at 0 d))) D /\
  ip_metas w = map pseudo_meta_of D.
Proof.
  intros Hp. revert h. induction Hp as [|ws d ws' D Hw Hp IH]; intros h HD.
  - by rewrite drained_stuck.
  - apply Forall_cons_1 in HD as [[Hb Hl] HD].
    destruct (process_ipv4_packet lanes64 ws d ws' h Hw Hb Hl) as (w & h' & -> & H1 & H2 & H3).
    destruct (IH h' HD) as (I1 & I2 & I3). cbv zeta in *. unfold ip_words, ip_lengths, ip_metas in *.
    rewrite !omap_app, H1, H2, H3, I1, I2, I3. done.
Qed.

Lemma doh_packets ws D n p :
  packets ws D -> Forall (fun d => (20 < length d)%nat) D ->
  packets (drained drop_optional_ip_header doh_arrive (mkDohEnv DOH_META n p (replicate (length D) 5) ws))
    (map (drop 20) D).
Proof.
  intros Hp. revert n p. induction Hp as [|ws d ws' D Hw Hp IH]; intros n p HD.
  - rewrite drained_stuck by done. constructor.
  - apply Forall_cons_1 in HD as [Hl HD]. cbn [length replicate map].
    destruct (doh_packet lanes64 ws d n p (replicate (length D) 5) ws' Hw Hl) as (w & n' & p' & -> & H1).
    constructor; [done|by apply IH].
Qed.

Lemma construct_packets ms i r h :
  pseudo_static h -> Forall pseudo_meta_ok ms ->
  Forall2 (fun hw m => last hw = true /\ take 12 (data hw) = pseudo_bytes m)
    (drained (constructPseudoHeader garbage) construct_arrive (mkConstructEnv false (mkPacketHeader r i h) ms)) ms.
Proof.
  intros Hs Hm. revert i r h Hs. induction Hm as [|m ms Hm _ IH]; intros i r h Hs.
  - by rewrite drained_stuck.
  - destruct (construct_packet garbage lanes64 m ms i r h Hs Hm) as (hw & i' & r' & h' & -> & H1 & H2 & H3).
    constructor; [done|by apply IH].
Qed.

Lemma prepend_packets hws ms ws B p f :
  Forall2 (fun hw m => last hw = true /\ take 12 (data hw) = pseudo_bytes m) hws ms ->
  packets ws B -> length B = length ms -> Forall (fun b => (12 <= length b)%nat) B ->
  packets (drained prependPseudoHeader prepend_arrive (mkPrependEnv false p f hws ws))
    (zip_with (fun m b => pseudo_bytes m ++ drop 12 b) ms B).
Proof.
  intros Hh Hp. revert p f hws ms Hh. induction Hp as [|ws b ws' B Hw Hp IH]; intros p f hws ms Hh Hl HB.
  - destruct ms; [|done]. inversion Hh; subst. rewrite drained_stuck by done. constructor.
  - destruct ms as [|m ms]; [done|]. inversion Hh as [|hw ? hws' ? [H1 H2] Hh']; subst.
    apply Forall_cons_1 in HB as [Hb HB].
    destruct (prepend_packet lanes64 ws b hw p f hws' ws' Hw Hb H1) as (w & p' & f' & -> & H3).
    { by rewrite H2. }
    cbn [zip_with]. rewrite <- H2. constructor; [done|]. apply IH; [done| |done]. simpl in Hl. lia.
Qed.

(** The segments with a correct checksum, and those of them with something behind the
    header. *)
Definition with_rest (B : list (list Z)) : list (list Z) := List.filter has_rest B.

Lemma pph_packets ws (B : list (list Z)) (valid : list Z -> bool) h v0 :
  packets ws B ->
  Forall (fun b => bytes b /\ (32 <= length b)%nat /\ 0 <= payload_length_of b) B ->
  let w := drained (processPseudoHeader winScale0) pph_arrive
             (mkPphEnv (mkPacketHeader false 0 h) true v0 false ws (map valid B)) in
  let A := List.filter valid B in
  packets (pph_words w) (with_rest A) /\ pph_fields w = map fields_of (with_rest A) /\
  pph_metas w = map (meta_of winScale0) A /\ pph_tuples w = map tuple_of A /\
  pph_ports w = map (fun b => ft_dstPort (tuple_of b)) A.
Proof.
  intros Hp. revert h v0. induction Hp as [|ws b ws' B Hw Hp IH]; intros h v0 HB.
  - rewrite drained_stuck by done. split_and!; [constructor|done..].
  - apply Forall_cons_1 in HB as [(Hb & Hl & Hlen) HB]. cbn [map].
    destruct (pph_packet winScale0 lanes64 ws b h v0 (valid b) (map valid B) ws' Hw Hb Hl Hlen)
      as (w & h' & v' & -> & [R1 R2 R3 R4 R5]).
    destruct (IH h' v' HB) as (I1 & I2 & I3 & I4 & I5). cbv zeta in *.
    unfold pph_words, pph_fields, pph_metas, pph_tuples, pph_ports, with_rest in *.
    rewrite !omap_app, R1, R2, R3, R4, R5, I2, I3, I4, I5. cbn [List.filter].
    destruct (valid b); [|done]. cbn [List.filter map when andb].
    destruct (has_rest b); [|done]. split_and!; try done. by constructor.
Qed.
(** The bytes behind the header, with their metadata: the payload; and the options of
    a SYN, which go to the parser. *)
Definition payload_behind (p : optionalFieldsMeta * list Z) : list Z := drop (lanes_of (of_dataOffset p.1)) p.2.
Definition nonempty (l : list Z) : bool := (0 <? length l)%nat.
Definition syn_options (p : optionalFieldsMeta * list Z) : bool :=
  negb (of_dataOffset p.1 =? 0) && of_syn p.1.

Definition options_written (h : Z) (p : optionalFieldsMeta * list Z) : Prop :=
  le_bytes (lanes_of (of_dataOffset p.1)) h = take (lanes_of (of_dataOffset p.1)) p.2.

Lemma dof_packets ws L o p hd pa wr :
  packets ws (map snd L) -> Forall (fun x => dof_ready x.1 x.2 /\ bytes x.2) L ->
  let w := drained drop_optional_header_fields dof_arrive
             (mkDofEnv DOF_META o p hd pa wr (map fst L) ws) in
  packets (dof_words w) (List.filter nonempty (map payload_behind L)) /\
  dof_offsets w = map (fun x => of_dataOffset x.1) (List.filter syn_options L) /\
  (Forall (fun x => (length x.2 <= 64)%nat) (List.filter syn_options L) ->
   Forall2 options_written (dof_headers w) (List.filter syn_options L)).
Proof.
  remember (map snd L) as B eqn:HB. intros Hp. revert L HB o p hd pa wr.
  induction Hp as [|ws b ws' B Hw Hp IH]; intros [|[m b'] L] HB o p hd pa wr HL; try done.
  - rewrite drained_stuck by done. split_and!; constructor.
  - injection HB as <- ->. apply Forall_cons_1 in HL as [[Hr Hb] HL]. cbn [fst snd map] in *.
    destruct (dof_packet lanes64 ws b m o p hd pa wr (map fst L) ws' Hw Hb Hr)
      as (w & o' & p' & hd' & pa' & wr' & -> & [R1 R2 (h & Hh & R3)]).
    destruct (IH L eq_refl o' p' hd' pa' wr' HL) as (I1 & I2 & I3). cbv zeta in *.
    rewrite dof_words_app, dof_offsets_app, dof_headers_app, R2, R3, I2.
    cbn [List.filter].
    change (syn_options (m, b)) with (negb (of_dataOffset m =? 0) && of_syn m).
    change (nonempty (payload_behind (m, b))) with (0 <? length (drop (lanes_of (of_dataOffset m)) b))%nat.
    split_and!.
    + rewrite length_drop. destruct (Nat.ltb_spec (lanes_of (of_dataOffset m)) (length b)).
      * rewrite (proj2 (Nat.ltb_lt 0 _)) by lia. by constructor.
      * rewrite (proj2 (Nat.ltb_ge 0 _)) by lia. by rewrite R1.
    + by destruct (_ && _).
    + destruct (negb (of_dataOffset m =? 0) && of_syn m); [|exact I3].
      intros [Hl HL']%Forall_cons_1. cbn [snd] in Hl.
      rewrite (packet_single lanes64 ws b Hw) by (rewrite lanes64; lia). cbn. constructor; [done|by apply I3].
Qed.

(** ** What arrives on the streams of a stage *)
Lemma process_ipv4_arrivals l e :
  arrive_all process_ipv4_arrive l e = e <| pi_dataIn := pi_dataIn e ++ l |>.
Proof.
  revert e. induction l as [|x l IH]; intros []; unfold arrive_all in *; simpl; [by rewrite app_nil_r|].
  rewrite IH. simpl. by rewrite <- app_assoc.
Qed.

Definition doh_lengths_in (l : list doh_arrival) : list Z :=
  omap (fun a => match a with A_dropLength n => Some n | _ => None end) l.
Definition doh_words_in (l : list doh_arrival) : list net_axis :=
  omap (fun a => match a with A_ipData w => Some w | _ => None end) l.

Lemma doh_arrivals l s n p ls ws :
  arrive_all doh_arrive l (mkDohEnv s n p ls ws)
  = mkDohEnv s n p (ls ++ doh_lengths_in l) (ws ++ doh_words_in l).
Proof.
  revert ls ws. induction l as [|[x|x] l IH]; intros ls ws; unfold arrive_all in *; simpl;
    [by rewrite !app_nil_r|rewrite IH; by rewrite <- app_assoc..].
Qed.

Lemma construct_arrivals l s h ms :
  arrive_all construct_arrive l (mkConstructEnv s h ms) = mkConstructEnv s h (ms ++ l).
Proof.
  revert ms. induction l as [|x l IH]; intros ms; unfold arrive_all, construct_arrive in *; simpl;
    [by rewrite app_nil_r|rewrite IH; by rewrite <- app_assoc].
Qed.

Definition prepend_headers_in (l : list prepend_arrival) : list net_axis :=
  omap (fun a => match a with A_header w => Some w | _ => None end) l.
Definition prepend_words_in (l : list prepend_arrival) : list net_axis :=
  omap (fun a => match a with A_packet w => Some w | _ => None end) l.

Lemma prepend_arrivals l s p f hs ws :
  arrive_all prepend_arrive l (mkPrependEnv s p f hs ws)
  = mkPrependEnv s p f (hs ++ prepend_headers_in l) (ws ++ prepend_words_in l).
Proof.
  revert hs ws. induction l as [|[x|x] l IH]; intros hs ws; unfold arrive_all in *; simpl;
    [by rewrite !app_nil_r|rewrite IH; by rewrite <- app_assoc..].
Qed.

Definition pph_words_in (l : list pph_arrival) : list net_axis :=
  omap (fun a => match a with A_segment w => Some w | _ => None end) l.
Definition pph_valids_in (l : list pph_arrival) : list bool :=
  omap (fun a => match a with A_valid b => Some b | _ => None end) l.

Lemma pph_arrivals l h f v m ws vs :
  arrive_all pph_arrive l (mkPphEnv h f v m ws vs)
  = mkPphEnv h f v m (ws ++ pph_words_in l) (vs ++ pph_valids_in l).
Proof.
  revert ws vs. induction l as [|[x|x] l IH]; intros ws vs; unfold arrive_all in *; simpl;
    [by rewrite !app_nil_r|rewrite IH; by rewrite <- app_assoc..].
Qed.

Definition dof_metas_in (l : list dof_arrival) : list optionalFieldsMeta :=
  omap (fun a => match a with A_fieldsMeta m => Some m | _ => None end) l.
Definition dof_words_in (l : list dof_arrival) : list net_axis :=
  omap (fun a => match a with A_shifted w => Some w | _ => None end) l.

Lemma dof_arrivals l s o p hd pa wr ms ws :
  arrive_all dof_arrive l (mkDofEnv s o p hd pa wr ms ws)
  = mkDofEnv s o p hd pa wr (ms ++ dof_metas_in l) (ws ++ dof_words_in l).
Proof.
  revert ms ws. induction l as [|[x|x] l IH]; intros ms ws; unfold arrive_all in *; simpl;
    [by rewrite !app_nil_r|rewrite IH; by rewrite <- app_assoc..].
Qed.

(** ** The connected stages *)
Record rx_run := mkRxRun {
  r_ip : list (option net_axis); r_doh : list (option doh_arrival);
  r_shift : list (option net_axis); r_construct : list (option pseudoMeta);
  r_prepend : list (option prepend_arrival); r_sum : list (option net_axis);
  r_pph : list (option pph_arrival); r_rshift : list (option net_axis);
  r_dof : list (option dof_arrival)
}.

Definition ip_out (r : rx_run) := output toe_process_ipv4 process_ipv4_arrive (r_ip r) (process_ipv4_init header0).
Definition doh_out (r : rx_run) := output drop_optional_ip_header doh_arrive (r_doh r) doh_init.
Definition shift_out (r : rx_run) := output (lshiftWordByOctet 12) lshift_arrive (r_shift r) lshift_init.
Definition construct_out (r : rx_run) :=
  output (constructPseudoHeader garbage) construct_arrive (r_construct r) (construct_init header0).
Definition prepend_out (r : rx_run) := output prependPseudoHeader prepend_arrive (r_prepend r) prepend_init.
Definition sum_out (r : rx_run) := output two_complement_subchecksums subsum_arrive (r_sum r) subsum_init.
Definition pph_out (r : rx_run) :=
  output (processPseudoHeader winScale0) pph_arrive (r_pph r) (pph_init header0 false).
Definition rshift_out (r : rx_run) := output (rshiftWordByOctet 32) rshift_arrive (r_rshift r) (rshift_init 32).
Definition dof_out (r : rx_run) := output drop_optional_header_fields dof_arrive (r_dof r) (dof_init header0).

(** What a stage writes is what the next one reads. *)
Record linked (r : rx_run) : Prop := {
  lk_lengths : doh_lengths_in (arrivals (r_doh r)) = ip_lengths (ip_out r);
  lk_words : doh_words_in (arrivals (r_doh r)) = ip_words (ip_out r);
  lk_shift : arrivals (r_shift r) = doh_out r;
  lk_metas : arrivals (r_construct r) = ip_metas (ip_out r);
  lk_headers : prepend_headers_in (arrivals (r_prepend r)) = construct_out r;
  lk_packets : prepend_words_in (arrivals (r_prepend r)) = shift_out r;
  lk_sum : arrivals (r_sum r) = prepend_out r;
  lk_segments : pph_words_in (arrivals (r_pph r)) = words_out (sum_out r);
  lk_valids : pph_valids_in (arrivals (r_pph r)) = map toe_check_ipv4_checksum (sums_out (sum_out r));
  lk_rshift : arrivals (r_rshift r) = pph_words (pph_out r);
  lk_fields : dof_metas_in (arrivals (r_dof r)) = pph_fields (pph_out r);
  lk_behind : dof_words_in (arrivals (r_dof r)) = rshift_out r
}.
(** ** The contents of an IP packet *)
Definition tcp_offset (d : list Z) : Z := bits 7 4 (byte_at 32 d).

(** An IP packet without IP options that holds a whole TCP header. *)
Record datagram_ok (d : list Z) : Prop := {
  dg_bytes : bytes d;
  dg_header : bits 3 0 (byte_at 0 d) = 5;
  dg_length : be_val (field 2 2 d) = Z.of_nat (length d);
  dg_offset : 5 <= tcp_offset d;
  dg_segment : 20 + 4 * tcp_offset d <= Z.of_nat (length d)
}.

(** What the checksum is computed of: the pseudo header and the segment. *)
Definition checked (d : list Z) : list Z :=
  field 12 4 d ++ field 16 4 d ++ [0; 6]
  ++ [(Z.of_nat (length d) - 20) / 256; (Z.of_nat (length d) - 20) `mod` 256] ++ drop 20 d.
Definition accepted (d : list Z) : bool := rfc1071 (checked d) =? 0.

Definition datagram_payload (d : list Z) : list Z := drop (20 + Z.to_nat (4 * tcp_offset d)) d.
Definition datagram_meta (d : list Z) : rxEngineMetaData :=
  mkRxMeta (be_val (field 24 4 d)) (be_val (field 28 4 d)) (be_val (field 34 2 d)) winScale0
    (Z.of_nat (length (datagram_payload d)))
    (Z.testbit (byte_at 33 d) 4) (Z.testbit (byte_at 33 d) 2) (Z.testbit (byte_at 33 d) 1)
    (Z.testbit (byte_at 33 d) 0) (tcp_offset d).
Definition datagram_tuple (d : list Z) : fourTuple :=
  mkFourTuple (le_val (field 12 4 d)) (le_val (field 16 4 d)) (le_val (field 20 2 d)) (le_val (field 22 2 d)).

(** A SYN with options, and the options. *)
Definition datagram_syn_options (d : list Z) : bool := (5 <? tcp_offset d) && Z.testbit (byte_at 33 d) 1.
Definition datagram_options (d : list Z) : list Z := field 40 (Z.to_nat (4 * (tcp_offset d - 5))) d.

Section Datagram.
Variable d : list Z.
Hypothesis Hd : datagram_ok d.

Lemma dg_size : 40 <= Z.of_nat (length d) <= 65535.
Proof.
  destruct Hd as [Hb H0 Hl Ho Hs]. split; [lia|].
  assert (length d >= 4)%nat by lia.
  pose proof (be_val_range (field 2 2 d) (field_bytes _ _ _ Hb)) as Hr.
  rewrite field_length in Hr by lia. change (2 ^ (8 * Z.of_nat 2)) with 65536 in Hr. lia.
Qed.

Lemma dg_pseudo : pseudo_meta_of d
  = mkPseudoMeta (le_val (field 12 4 d)) (le_val (field 16 4 d)) (Z.of_nat (length d) - 20).
Proof.
  unfold pseudo_meta_of. rewrite (dg_header d Hd), (dg_length d Hd). pose proof dg_size.
  by rewrite wrap_small by (unfold in_width; pow2; lia).
Qed.

Lemma dg_pseudo_ok : pseudo_meta_ok (pseudo_meta_of d).
Proof.
  pose proof dg_size. rewrite dg_pseudo. unfold pseudo_meta_ok. cbn [pm_their_address pm_our_address pm_length].
  assert (forall m, (m + 4 <= 40)%nat -> in_width 32 (le_val (field m 4 d))) as Hw.
  { intros m Hm. pose proof (le_val_range (field m 4 d) (field_bytes _ _ _ (dg_bytes d Hd))) as Hr.
    by rewrite field_length in Hr by lia. }
  split_and!; [apply Hw; lia|apply Hw; lia|unfold in_width; pow2; lia].
Qed.

Lemma dg_checked : pseudo_bytes (pseudo_meta_of d) ++ drop 20 d = checked d.
Proof.
  pose proof dg_size. rewrite dg_pseudo. unfold pseudo_bytes, checked. cbn [pm_their_address pm_our_address pm_length].
  assert (forall m, (m + 4 <= 40)%nat -> le_bytes 4 (le_val (field m 4 d)) = field m 4 d) as Hw.
  { intros m Hm. rewrite <- (le_bytes_val (field m 4 d)) at 2 by (apply field_bytes, Hd).
    by rewrite field_length by lia. }
  rewrite !Hw by lia. by rewrite <- !app_assoc.
Qed.

Lemma checked_length : length (checked d) = (length d - 8)%nat.
Proof.
  pose proof dg_size. unfold checked. rewrite !length_app, !field_length, length_drop by lia. simpl. lia.
Qed.

Lemma checked_bytes : bytes (checked d).
Proof.
  pose proof dg_size. rewrite <- dg_checked. apply Forall_app. split.
  - apply pseudo_bytes_bytes, dg_pseudo_ok.
  - apply Forall_drop, Hd.
Qed.

(** Positions in the checked bytes and in the packet: the pseudo header is eight bytes
    shorter than the IP header. *)
Lemma checked_field m n : (12 <= m)%nat -> field m n (checked d) = field (8 + m) n d.
Proof.
  intros Hm. pose proof dg_size. unfold checked. rewrite !app_assoc.
  rewrite field_app_r; [|rewrite !length_app, !field_length by lia; simpl; lia].
  rewrite !length_app, !field_length by lia. cbn [length]. rewrite field_drop. f_equal. lia.
Qed.

Lemma checked_byte m : (12 <= m)%nat -> byte_at m (checked d) = byte_at (8 + m) d.
Proof.
  intros Hm. pose proof dg_size. unfold checked, byte_at. rewrite !app_assoc.
  rewrite lookup_app_r; [|rewrite !length_app, !field_length by lia; simpl; lia].
  rewrite !length_app, !field_length by lia. cbn [length]. rewrite lookup_drop. do 2 f_equal. lia.
Qed.

Lemma checked_addresses :
  field 0 4 (checked d) = field 12 4 d /\ field 4 4 (checked d) = field 16 4 d /\
  be_val (field 10 2 (checked d)) = Z.of_nat (length d) - 20.
Proof.
  pose proof dg_size. unfold checked.
  assert (length (field 12 4 d) = 4%nat) as H1 by (apply field_length; lia).
  assert (length (field 16 4 d) = 4%nat) as H2 by (apply field_length; lia).
  split_and!.
  - rewrite field_app_l by lia. unfold field at 1. rewrite drop_0. by rewrite take_ge by lia.
  - rewrite field_app_r, H1 by lia. rewrite field_app_l by lia. unfold field at 1. rewrite drop_0. by rewrite take_ge by lia.
  - rewrite field_app_r, H1 by lia. rewrite field_app_r, H2 by lia.
    set (n := Z.of_nat (length d) - 20). transitivity (be_val [n / 256; n `mod` 256]); [done|].
    rewrite be_val_two. pose proof (Z.div_mod n 256). lia.
Qed.

Lemma checked_offset : dataOffset_of (checked d) = tcp_offset d.
Proof. unfold dataOffset_of, tcp_offset. by rewrite checked_byte by lia. Qed.

Lemma tcp_offset_max : tcp_offset d <= 15.
Proof. pose proof (bits_range 7 4 (byte_at 32 d) ltac:(lia)) as H. unfold in_width in H. unfold tcp_offset. lia. Qed.

Lemma payload_size : Z.of_nat (length (datagram_payload d)) = Z.of_nat (length d) - 20 - 4 * tcp_offset d.
Proof. pose proof (dg_offset d Hd). pose proof (dg_segment d Hd). unfold datagram_payload. rewrite length_drop. lia. Qed.

Lemma checked_payload_length : payload_length_of (checked d) = Z.of_nat (length (datagram_payload d)).
Proof.
  unfold payload_length_of. rewrite checked_offset. destruct checked_addresses as (_ & _ & ->).
  rewrite payload_size. lia.
Qed.

Lemma checked_meta : meta_of winScale0 (checked d) = datagram_meta d.
Proof.
  pose proof dg_size. unfold meta_of, datagram_meta, flag_of. rewrite checked_payload_length, checked_offset.
  rewrite !checked_byte, !checked_field by lia. rewrite wrap_small; [done|].
  pose proof (dg_offset d Hd). unfold in_width. rewrite payload_size. pose proof (dg_segment d Hd). pow2. lia.
Qed.

Lemma checked_tuple : tuple_of (checked d) = datagram_tuple d.
Proof.
  unfold tuple_of, datagram_tuple. destruct checked_addresses as (-> & -> & _). by rewrite !checked_field by lia.
Qed.
End Datagram.
Lemma checked_has_rest d :
  datagram_ok d -> has_rest (checked d) = (40 <? Z.of_nat (length d)).
Proof.
  intros Hd. unfold has_rest, nonzero. rewrite checked_payload_length, checked_offset, payload_size by done.
  pose proof (dg_offset d Hd). pose proof (dg_segment d Hd).
  destruct (Z.eqb_spec (Z.of_nat (length d) - 20 - 4 * tcp_offset d) 0), (Z.ltb_spec 5 (tcp_offset d)),
    (Z.ltb_spec 40 (Z.of_nat (length d))); cbn; lia.
Qed.

Lemma checked_fields d :
  datagram_ok d -> fields_of (checked d) = mkOptionalFieldsMeta (tcp_offset d - 5) (Z.testbit (byte_at 33 d) 1).
Proof.
  intros Hd. unfold fields_of, flag_of. rewrite checked_offset, checked_byte by (done || lia).
  pose proof (dg_offset d Hd). pose proof (tcp_offset_max d). by rewrite wrap_small by (unfold in_width; pow2; lia).
Qed.

Lemma checked_drop d : datagram_ok d -> drop 32 (checked d) = drop 40 d.
Proof.
  intros Hd. pose proof (dg_size d Hd). unfold checked. rewrite !app_assoc.
  assert (length ((((field 12 4 d ++ field 16 4 d) ++ [0; 6])
    ++ [(Z.of_nat (length d) - 20) / 256; (Z.of_nat (length d) - 20) `mod` 256])) = 12%nat) as H12
    by (rewrite !length_app, !field_length by lia; done).
  rewrite drop_app_ge, H12, drop_drop by lia. done.
Qed.

Lemma checked_behind d :
  datagram_ok d -> has_rest (checked d) = true ->
  (32 < length (checked d))%nat /\ dof_ready (fields_of (checked d)) (drop 32 (checked d)) /\ bytes (checked d).
Proof.
  intros Hd Hrest. rewrite checked_has_rest in Hrest by done. apply Z.ltb_lt in Hrest.
  pose proof (dg_offset d Hd). pose proof (dg_segment d Hd). pose proof (tcp_offset_max d).
  split_and!; [rewrite checked_length by done; lia| |by apply checked_bytes].
  rewrite checked_fields, checked_drop by done. split; cbn [of_dataOffset]; [lia|].
  unfold lanes_of. rewrite length_drop. lia.
Qed.

Lemma header_lengths D :
  Forall datagram_ok D -> map (fun d => wrap 4 (bits 3 0 (byte_at 0 d))) D = replicate (length D) 5.
Proof.
  induction 1 as [|d D Hd _ IH]; [done|]. cbn [map length replicate]. rewrite IH.
  f_equal. by rewrite (dg_header d Hd).
Qed.

Lemma zip_checked D :
  Forall datagram_ok D ->
  zip_with (fun m b => pseudo_bytes m ++ drop 12 b) (map pseudo_meta_of D)
    (map (app (replicate 12 0)) (map (drop 20) D)) = map checked D.
Proof.
  induction 1 as [|d D Hd _ IH]; [done|]. cbn [map zip_with]. rewrite IH. f_equal.
  by rewrite (drop_app_length' (replicate 12 0)), dg_checked.
Qed.

(** ** The stages of a run *)
Section Run.
Variables (r : rx_run) (D : list (list Z)).
Hypothesis (Hin : packets (arrivals (r_ip r)) D) (HD : Forall datagram_ok D) (Hr : linked r).

Lemma run_ip :
  ip_words (ip_out r) = arrivals (r_ip r) /\ ip_lengths (ip_out r) = replicate (length D) 5 /\
  ip_metas (ip_out r) = map pseudo_meta_of D.
Proof.
  unfold ip_out. rewrite output_drained, process_ipv4_arrivals. cbn.
  destruct (process_ipv4_packets (arrivals (r_ip r)) D (Ipv4.init header0) Hin) as (H1 & H2 & H3).
  { eapply Forall_impl; [|exact HD]; intros d Hd. pose proof (dg_size d Hd). split; [apply Hd|lia]. }
  split_and!; [exact H1| |exact H3]. etransitivity; [exact H2|].
  by apply header_lengths.
Qed.

Lemma run_shift : packets (shift_out r) (map (app (replicate 12 0)) (map (drop 20) D)).
Proof.
  unfold shift_out. apply lshift_packets; [lia|lia|]. rewrite (lk_shift r Hr).
  unfold doh_out. rewrite output_drained. unfold doh_init. rewrite doh_arrivals. cbn [app].
  destruct run_ip as (H1 & H2 & _).
  rewrite (lk_lengths r Hr), (lk_words r Hr), H1, H2. apply doh_packets; [done|].
  eapply Forall_impl; [|exact HD]; intros d Hd. pose proof (dg_size d Hd). cbv beta. lia.
Qed.

Lemma run_prepend : packets (prepend_out r) (map checked D).
Proof.
  unfold prepend_out. rewrite output_drained. unfold prepend_init. rewrite prepend_arrivals. cbn [app].
  rewrite (lk_headers r Hr), (lk_packets r Hr).
  replace (map checked D) with (zip_with (fun m b => pseudo_bytes m ++ drop 12 b) (map pseudo_meta_of D)
    (map (app (replicate 12 0)) (map (drop 20) D))).
  - apply prepend_packets; [|exact run_shift|by rewrite !length_map|].
    + unfold construct_out. rewrite output_drained. unfold construct_init. rewrite construct_arrivals. cbn [app].
      rewrite (lk_metas r Hr). destruct run_ip as (_ & _ & ->).
      apply construct_packets; [by apply pseudo_init_static|].
      apply Forall_map. eapply Forall_impl; [|exact HD]; intros d Hd. by apply dg_pseudo_ok.
    + do 2 apply Forall_map. apply Forall_true. intros d. rewrite length_app, length_replicate. lia.
  - by apply zip_checked.
Qed.

Lemma run_sum :
  words_out (sum_out r) = prepend_out r /\
  map toe_check_ipv4_checksum (sums_out (sum_out r)) = map (fun b => rfc1071 b =? 0) (map checked D).
Proof.
  destruct (subsum_output 32 lanes64 ltac:(lia) (r_sum r) (map checked D)) as (H1 & _ & H3).
  - rewrite (lk_sum r Hr). exact run_prepend.
  - apply Forall_map. eapply Forall_impl; [|exact HD]; intros d Hd. by apply checked_bytes.
  - split; [|exact H3]. unfold sum_out. rewrite H1. apply (lk_sum r Hr).
Qed.

Lemma filter_map {A B} (f : A -> B) (p : B -> bool) l :
  List.filter p (map f l) = map f (List.filter (fun x => p (f x)) l).
Proof. induction l as [|x l IH]; [done|]. cbn. rewrite IH. by destruct (p (f x)). Qed.

Lemma run_pph :
  let A := List.filter accepted D in
  packets (pph_words (pph_out r)) (with_rest (map checked A)) /\
  pph_fields (pph_out r) = map fields_of (with_rest (map checked A)) /\
  pph_metas (pph_out r) = map (meta_of winScale0) (map checked A) /\
  pph_tuples (pph_out r) = map tuple_of (map checked A) /\
  pph_ports (pph_out r) = map (fun b => ft_dstPort (tuple_of b)) (map checked A).
Proof.
  unfold pph_out. rewrite output_drained. unfold pph_init. rewrite pph_arrivals. cbn [app].
  rewrite (lk_segments r Hr), (lk_valids r Hr). destruct run_sum as [-> ->].
  cbv zeta. change (List.filter accepted D) with (List.filter (fun d => (fun b => rfc1071 b =? 0) (checked d)) D).
  rewrite <- filter_map. apply pph_packets; [exact run_prepend|].
  apply Forall_map. eapply Forall_impl; [|exact HD]; intros d Hd. split_and!.
  - by apply checked_bytes.
  - pose proof (dg_size d Hd). rewrite checked_length by done. lia.
  - rewrite checked_payload_length by done. lia.
Qed.

(** The bytes behind the header, with the metadata that go to the last stage. *)
Definition behind (b : list Z) : optionalFieldsMeta * list Z := (fields_of b, drop 32 b).

Lemma run_dof :
  let L := map behind (with_rest (map checked (List.filter accepted D))) in
  packets (dof_words (dof_out r)) (List.filter nonempty (map payload_behind L)) /\
  dof_offsets (dof_out r) = map (fun x => of_dataOffset x.1) (List.filter syn_options L) /\
  (Forall (fun x => (length x.2 <= 64)%nat) (List.filter syn_options L) ->
   Forall2 options_written (dof_headers (dof_out r)) (List.filter syn_options L)).
Proof.
  cbv zeta. set (B := with_rest _). set (L := map behind B).
  destruct run_pph as (H1 & H2 & _). fold B in H1, H2.
  assert (Forall (fun b => (32 < length b)%nat /\ dof_ready (fields_of b) (drop 32 b) /\ bytes b) B) as HB.
  { apply Forall_forall. intros b Hb. apply filter_In in Hb as [Hb Hrest].
    apply in_map_iff in Hb as (d & <- & Hd). apply filter_In in Hd as [Hd _].
    by apply checked_behind; [exact (proj1 (Forall_forall _ _) HD d Hd)|]. }
  unfold dof_out. rewrite output_drained. unfold dof_init. rewrite dof_arrivals. cbn [app].
  rewrite (lk_fields r Hr), (lk_behind r Hr), H2.
  replace (map fields_of B) with (map fst L) by (unfold L; by rewrite map_map).
  apply dof_packets.
  - replace (map snd L) with (map (drop 32) B) by (unfold L; by rewrite map_map).
    unfold rshift_out. apply rshift_packets; [lia|by rewrite (lk_rshift r Hr)|].
    eapply Forall_impl; [|exact HB]; by intros b [? _].
  - apply Forall_map. eapply Forall_impl; [|exact HB]; intros b (_ & Hb1 & Hb2). split; [done|by apply Forall_drop].
Qed.
End Run.
(** ** From the checked bytes back to the packets *)
Lemma behind_payload d : datagram_ok d -> payload_behind (behind (checked d)) = datagram_payload d.
Proof.
  intros Hd. pose proof (dg_offset d Hd). unfold payload_behind, behind, datagram_payload. cbn [fst snd].
  rewrite checked_fields, checked_drop, drop_drop by done. cbn [of_dataOffset]. f_equal. unfold lanes_of. lia.
Qed.

Lemma behind_syn d : datagram_ok d -> syn_options (behind (checked d)) = datagram_syn_options d.
Proof.
  intros Hd. pose proof (dg_offset d Hd). unfold syn_options, behind, datagram_syn_options. cbn [fst].
  rewrite checked_fields by done. cbn [of_dataOffset of_syn]. f_equal. lia.
Qed.

Lemma behind_list A :
  Forall datagram_ok A ->
  let L := map behind (with_rest (map checked A)) in
  List.filter nonempty (map payload_behind L) = List.filter nonempty (map datagram_payload A) /\
  List.filter syn_options L = map (fun d => behind (checked d)) (List.filter datagram_syn_options A).
Proof.
  induction 1 as [|d A Hd _ IH]; [done|]. cbv zeta in *. destruct IH as [IH1 IH2].
  pose proof (payload_size d Hd) as Hsize. pose proof (dg_offset d Hd).
  unfold with_rest in *. cbn [map List.filter]. rewrite checked_has_rest by done.
  destruct (Z.ltb_spec 40 (Z.of_nat (length d))) as [Hl|Hl].
  - cbn [map List.filter]. rewrite behind_payload, behind_syn, IH1, IH2 by done.
    split; [done|]. by destruct (datagram_syn_options d).
  - rewrite IH1, IH2. unfold nonempty at 2. rewrite (proj2 (Nat.ltb_ge _ _)) by lia.
    unfold datagram_syn_options at 2. pose proof (dg_segment d Hd).
    rewrite (proj2 (Z.ltb_ge 5 (tcp_offset d))) by lia. done.
Qed.

Lemma behind_options d h :
  datagram_ok d -> options_written h (behind (checked d)) ->
  le_bytes (Z.to_nat (4 * (tcp_offset d - 5))) h = datagram_options d.
Proof.
  intros Hd. unfold options_written, behind, datagram_options, field. cbn [fst snd].
  rewrite checked_fields, checked_drop by done. cbn [of_dataOffset]. unfold lanes_of.
  by rewrite (Z.mul_comm 4).
Qed.

Lemma options_all S hs :
  Forall datagram_ok S -> Forall2 options_written hs (map (fun d => behind (checked d)) S) ->
  Forall2 (fun h d => le_bytes (Z.to_nat (4 * (tcp_offset d - 5))) h = datagram_options d) hs S.
Proof.
  intros HS. revert hs. induction HS as [|d S Hd _ IH]; intros hs Hh; inversion Hh; subst; constructor.
  - by apply behind_options.
  - by apply IH.
Qed.

Lemma front_end r D :
  packets (arrivals (r_ip r)) D -> Forall datagram_ok D -> linked r ->
  let A := List.filter accepted D in
  pph_metas (pph_out r) = map datagram_meta A /\
  pph_tuples (pph_out r) = map datagram_tuple A /\
  pph_ports (pph_out r) = map (fun d => ft_dstPort (datagram_tuple d)) A /\
  packets (dof_words (dof_out r)) (List.filter nonempty (map datagram_payload A)) /\
  dof_offsets (dof_out r) = map (fun d => tcp_offset d - 5) (List.filter datagram_syn_options A) /\
  (Forall (fun d => (length d <= 104)%nat) (List.filter datagram_syn_options A) ->
   Forall2 (fun h d => le_bytes (Z.to_nat (4 * (tcp_offset d - 5))) h = datagram_options d)
     (dof_headers (dof_out r)) (List.filter datagram_syn_options A)).
Proof.
  intros Hin HD Hr A. assert (Forall datagram_ok A) as HA by by apply Forall_filter.
  destruct (run_pph r D Hin HD Hr) as (_ & _ & H1 & H2 & H3).
  destruct (run_dof r D Hin HD Hr) as (H4 & H5 & H6).
  destruct (behind_list A HA) as [HL1 HL2]. fold A in H1, H2, H3, H4, H5, H6.
  rewrite HL1 in H4. rewrite HL2 in H5, H6.
  assert (forall d, In d A -> datagram_ok d) as Hok by (apply Forall_forall; done).
  assert (Forall datagram_ok (List.filter datagram_syn_options A)) as HS by by apply Forall_filter.
  rewrite H1, H2, H3, H5, !map_map. split_and!; try done.
  - apply map_ext_in. intros d Hd. by apply checked_meta, Hok.
  - apply map_ext_in. intros d Hd. by apply checked_tuple, Hok.
  - apply map_ext_in. intros d Hd. by rewrite checked_tuple by by apply Hok.
  - apply map_ext_in. intros d Hd%filter_In. unfold behind. cbn [fst]. by rewrite checked_fields by apply Hok, Hd.
  - intros Hlen. apply options_all; [done|]. apply H6, Forall_map.
    apply Forall_forall. intros d Hd. rewrite Forall_forall in Hlen, HS. specialize (Hlen d Hd).
    unfold behind. cbn [snd]. rewrite checked_drop, length_drop by by apply HS. lia.
Qed.
(** C1: the front end of the receive path.  IP packets without IP options that arrive
    on any schedule, through stages that run on any schedule: for exactly the packets
    with a correct TCP checksum, and in their order, the fields of the TCP header go to
    the metadata, the addresses and ports to the session lookup and the destination
    port to the port table; the payload behind the header and its options goes on
    as a packet of its own, if there is one; and for every SYN with options the
    number of option words and, if nothing follows in a second word, the options go
    to the parser. *)
Theorem rx_front_end r D :
  packets (arrivals (r_ip r)) D -> Forall datagram_ok D -> linked r ->
  let A := List.filter accepted D in
  pph_metas (pph_out r) = map datagram_meta A /\
  pph_tuples (pph_out r) = map datagram_tuple A /\
  pph_ports (pph_out r) = map (fun d => ft_dstPort (datagram_tuple d)) A /\
  packets (dof_words (dof_out r)) (List.filter nonempty (map datagram_payload A)) /\
  dof_offsets (dof_out r) = map (fun d => tcp_offset d - 5) (List.filter datagram_syn_options A) /\
  (Forall (fun d => (length d <= 104)%nat) (List.filter datagram_syn_options A) ->
   Forall2 (fun h d => le_bytes (Z.to_nat (4 * (tcp_offset d - 5))) h = datagram_options d)
     (dof_headers (dof_out r)) (List.filter datagram_syn_options A)).
Proof. apply front_end. Qed.

(** ** Two inputs that put the streams out of step *)

(** A SYN with options and data.  When more than 64 bytes follow the TCP header
    of a SYN with options, the number of option words is written once and the raw
    options twice: the parser takes the second copy for the options of the next SYN. *)
Theorem syn_payload_duplicates_options s m ws bs :
  dof_metas_in (arrivals s) = [m] -> dof_words_in (arrivals s) = ws -> packet ws bs -> bytes bs ->
  1 <= of_dataOffset m <= 10 -> of_syn m = true -> (64 < length bs)%nat ->
  let w := output drop_optional_header_fields dof_arrive s (dof_init header0) in
  exists h, dof_offsets w = [of_dataOffset m] /\ dof_headers w = [h; h] /\ options_written h (m, bs).
Proof.
  intros Hm Hws Hp Hb Ho Hsyn Hl w. unfold w. rewrite output_drained. unfold dof_init.
  rewrite dof_arrivals, Hm, Hws. cbn [app]. rewrite <- (app_nil_r ws).
  destruct (dof_packet lanes64 ws bs m 0 no_word (mkPacketHeader false 0 header0) false false [] [] Hp Hb)
    as (w' & o & p & hd & pa & wr & -> & [_ R2 (h & Hh & R3)]).
  { split; [lia|]. unfold lanes_of. lia. }
  rewrite drained_stuck, app_nil_r by done. exists h. rewrite R2, R3, Hsyn.
  rewrite (proj2 (Z.eqb_neq _ 0)) by lia. split_and!; [done| |done].
  inversion Hp as [? pad|b0 ws1 ? ? Hp1]; subst; [rewrite lanes64 in *; lia|].
  destruct ws1; [inversion Hp1|]. done.
Qed.

(** IP options.  At 512 bits the header length of an IP packet with options is
    consumed while its words stay: the next packet without options, whose words come
    behind them, is read from these words, 20 bytes into the packet with options. *)
Theorem ip_options_desync s n ws1 d1 ws2 :
  n <> 5 -> doh_lengths_in (arrivals s) = [n; 5] -> doh_words_in (arrivals s) = ws1 ++ ws2 ->
  packet ws1 d1 -> (20 < length d1)%nat ->
  packet (output drop_optional_ip_header doh_arrive s doh_init) (drop 20 d1) /\
  process2dropFifo (drain drop_optional_ip_header doh_arrive
    (arrive_all doh_arrive (arrivals s) doh_init)).1 = ws2.
Proof.
  intros Hn Hls Hws Hp Hl. rewrite output_drained. unfold doh_init.
  rewrite doh_arrivals, Hls, Hws. cbn [app].
  assert (drop_optional_ip_header (mkDohEnv DOH_META 0 no_word [n; 5] (ws1 ++ ws2))
    = (mkDohEnv DOH_META n no_word [5] (ws1 ++ ws2), [])) as Hcall.
  { destruct (packet_first _ _ Hp) as (w & ws & -> & _). unfold drop_optional_ip_header. cbn.
    rewrite (WIDTH_512 lanes64). cbn. by rewrite (proj2 (Z.eqb_neq n 5)) by done. }
  erewrite drained_call, drain_call by exact Hcall.
  destruct (doh_packet_env lanes64 ws1 d1 n no_word [] ws2 Hp Hl) as (w & n' & p' & -> & -> & Hw).
  rewrite drained_stuck, app_nil_r, drain_stuck by done. done.
Qed.
End RxPath.

(** ** Three packets: a segment with data in two words, a SYN with a window scale, and
    the first one with a wrong byte *)
Section RxPathWitness.
#[local] Instance width64 : WordWidth := 64%nat.

Definition demo_packet (flags offset : Z) (checksum rest : list Z) : list Z :=
  [69; 0; 0; 40 + Z.of_nat (length rest); 0; 0; 0; 0; 64; 6; 0; 0; 10; 0; 0; 1; 10; 0; 0; 2;
   18; 52; 0; 80; 1; 2; 3; 4; 5; 6; 7; 8; 16 * offset; flags; 32; 0] ++ checksum ++ [0; 0] ++ rest.

Definition demo_payload : list Z := seqZ 65 30.
Definition demo_datagrams : list (list Z) :=
  [demo_packet 16 5 [179; 103] demo_payload; demo_packet 2 6 [63; 65] [3; 3; 7; 0];
   demo_packet 16 5 [179; 103] (66 :: tail demo_payload)].

(** Every stage runs when all its input has arrived. *)
Definition run_of (garbage : list Z) (words : list net_axis) : rx_run :=
  let ip := map Some words in
  let out1 := output toe_process_ipv4 process_ipv4_arrive ip (process_ipv4_init 0) in
  let doh := map (fun n => Some (A_dropLength n)) (ip_lengths out1)
             ++ map (fun w => Some (A_ipData w)) (ip_words out1) in
  let shift := map Some (output drop_optional_ip_header doh_arrive doh doh_init) in
  let construct := map Some (ip_metas out1) in
  let hdrs := snd (calls (constructPseudoHeader garbage) 10 (mkConstructEnv false
                (mkPacketHeader false 0 (TcpPseudo.init 0)) (ip_metas out1))) in
  let prepend := map (fun w => Some (A_header w)) hdrs
                 ++ map (fun w => Some (A_packet w))
                      (output (lshiftWordByOctet 12) lshift_arrive shift lshift_init) in
  let sum := map Some (output prependPseudoHeader prepend_arrive prepend prepend_init) in
  let out2 := output two_complement_subchecksums subsum_arrive sum subsum_init in
  let pph := map (fun w => Some (A_segment w)) (words_out out2)
             ++ map (fun s => Some (A_valid (toe_check_ipv4_checksum s))) (sums_out out2) in
  let out3 := output (processPseudoHeader 0) pph_arrive pph (pph_init 0 false) in
  let rshift := map Some (pph_words out3) in
  let dof := map (fun m => Some (A_fieldsMeta m)) (pph_fields out3)
             ++ map (fun w => Some (A_shifted w))
                  (output (rshiftWordByOctet 32) rshift_arrive rshift (rshift_init 32)) in
  mkRxRun ip doh shift construct prepend sum pph rshift dof.

Definition demo_run : rx_run := run_of [] (words_of demo_datagrams).

Lemma demo_linked : linked eq_refl [] 0 0 demo_run.
Proof. constructor; [by vm_compute..]. Qed.

Lemma demo_ok : Forall datagram_ok demo_datagrams.
Proof.
  repeat (constructor; [constructor; [apply (bool_decide_eq_true_1 _); by vm_compute|by vm_compute..]|]).
  constructor.
Qed.

Lemma rx_front_end_witness :
  packets (dof_words (dof_out 0 demo_run)) [demo_payload] /\
  dof_offsets (dof_out 0 demo_run) = [1] /\
  pph_ports (pph_out 0 0 demo_run) = [20480; 20480].
Proof.
  assert (packets (arrivals (r_ip demo_run)) demo_datagrams) as Hp.
  { replace (arrivals (r_ip demo_run)) with (words_of demo_datagrams) by by vm_compute.
    apply words_of_packets; [by apply Nat.ltb_lt|]. by repeat (constructor; [done|]). }
  destruct (rx_front_end eq_refl [] 0 0 demo_run demo_datagrams Hp demo_ok demo_linked)
    as (_ & _ & H3 & H4 & H5 & _).
  split_and!.
  - exact H4.
  - etransitivity; [exact H5|by vm_compute].
  - etransitivity; [exact H3|by vm_compute].
Defined.
(** A SYN with a window scale and 70 bytes of data; a packet with an IP option in front
    of one without. *)
Lemma syn_payload_duplicates_options_witness :
  let bs := [3; 3; 7; 0] ++ seqZ 1 70 in
  let s := Some (A_fieldsMeta (mkOptionalFieldsMeta 1 true))
           :: map (fun w => Some (A_shifted w)) (words_of [bs]) in
  exists h, dof_headers (output drop_optional_header_fields dof_arrive s (dof_init 0)) = [h; h] /\
    le_bytes 4 h = [3; 3; 7; 0].
Proof.
  intros bs s.
  assert (packet (frame (length bs) bs) bs) as Hp by (apply frame_packet; [by apply Nat.ltb_lt|done|done]).
  assert (bytes bs) as Hb by (apply (bool_decide_eq_true_1 _); by vm_compute).
  assert (64 < length bs)%nat as Hl by by apply Nat.ltb_lt.
  assert (dof_metas_in (arrivals s) = [mkOptionalFieldsMeta 1 true]) as Hm by by vm_compute.
  assert (dof_words_in (arrivals s) = frame (length bs) bs) as Hws by by vm_compute.
  destruct (syn_payload_duplicates_options eq_refl 0 s (mkOptionalFieldsMeta 1 true)
    (frame (length bs) bs) bs Hm Hws Hp Hb ltac:(done) eq_refl Hl) as (h & _ & H2 & H3).
  exists h. split; [exact H2|exact H3].
Defined.

Lemma ip_options_desync_witness :
  let d1 := 70 :: seqZ 1 47 in
  let s := [Some (A_dropLength 6); Some (A_dropLength 5)]
           ++ map (fun w => Some (A_ipData w)) (words_of [d1; nth 1 demo_datagrams []]) in
  packet (output drop_optional_ip_header doh_arrive s doh_init) (seqZ 20 28).
Proof.
  intros d1 s. replace (seqZ 20 28) with (drop 20 d1) by by vm_compute.
  assert (packet (frame (length d1) d1) d1) as Hp by (apply frame_packet; [by apply Nat.ltb_lt|done|done]).
  assert (20 < length d1)%nat as Hl by by apply Nat.ltb_lt.
  destruct (ip_options_desync eq_refl s 6 (frame (length d1) d1) d1
    (words_of [nth 1 demo_datagrams []]) ltac:(done) eq_refl eq_refl Hp Hl) as [H _].
  exact H.
Defined.
End RxPathWitness.
