(* ===== verification/TxEngine.v ===== *)
(** * The transmit engine's control ([toe/tx_engine/tx_engine.cpp])

    [metaLoader] turns an event into the headers of the segments to send: it asks for
    the receive and the transmit window of the session, composes the segment, requests
    its payload and the tuple of the session, writes the transmit window back and sets
    the timers.  [txEngMemAccessBreakdown] splits reads at the end of a session's
    region of the buffer, [tupleSplitter] pairs the tuples with the segments and
    [read_data_arbiter] picks the payload from memory or from the application. *)

From S2P Require Import Prelude ToeTypes SarTables.

Section TxEngine.
Context {C : ToeConfig}.

(** ** Data ([tx_engine.hpp]) *)
Record tx_engine_meta := mkTxMeta {
  tm_seqNumb : Z; tm_ackNumb : Z; tm_window_size : Z; tm_win_shift : Z; tm_length : Z;
  tm_ack : bool; tm_rst : bool; tm_syn : bool; tm_fin : bool
}.
#[export] Instance eta_tx_engine_meta : Eta tx_engine_meta := fun r =>
  mkTxMeta (tm_seqNumb r) (tm_ackNumb r) (tm_window_size r) (tm_win_shift r) (tm_length r)
    (tm_ack r) (tm_rst r) (tm_syn r) (tm_fin r).
#[export] Instance zero_init_tx_meta : ZeroInit tx_engine_meta :=
  mkTxMeta 0 0 0 0 0 false false false false.
(** [tx_engine_meta(seqNumb, ackNumb, ack, rst, syn, fin)]. *)
Definition tx_engine_meta_flags (seqNumb ackNumb : Z) (ack rst syn fin : bool) : tx_engine_meta :=
  mkTxMeta seqNumb ackNumb 0 0 0 ack rst syn fin.

Record twoTuple := mkTwoTuple { tt_srcIp : Z; tt_dstIp : Z }.

Inductive ml_write :=
| W_txEng2rxSar_req (id : Z)
| W_txEng2txSar_upd_req (q : txTxSarQuery)
| W_txEng2timer_setRetransmitTimer (s : txRetransmitTimerSet)
| W_txEng2timer_setProbeTimer (id : Z)
| W_txEng_ipMetaFifoOut (length : Z)
| W_txEng_tcpMetaFifoOut (m : tx_engine_meta)
| W_txBufferReadCmd (cmd : mmCmd)
| W_txEng2sLookup_rev_req (id : Z)
| W_txEng_isLookUpFifoOut (b : bool)
| W_txEng_isDDRbypass (b : bool)
| W_txEng_tupleShortCutFifoOut (t : fourTuple)
| W_readCountFifo.

Record ml_env := mkMlEnv {
  ml_evaluating : bool;          (* ml_FsmState == 1 *)
  ml_sarLoaded : bool;
  ml_curEvent : extendedEvent;
  ml_randomValue : Z;
  ml_segmentCount : Z;
  ml_rxSar : rxSarReply;         (* rxSar *)
  txSarReg : txTxSarReply;
  ml_meta : tx_engine_meta;      (* meta *)
  eventEng2txEng_event : stream extendedEvent;
  rxSar2txEng_rsp : stream rxSarReply;
  txSar2txEng_upd_rsp : stream txTxSarReply
}.
#[export] Instance eta_ml_env : Eta ml_env := fun e =>
  mkMlEnv (ml_evaluating e) (ml_sarLoaded e) (ml_curEvent e) (ml_randomValue e)
    (ml_segmentCount e) (ml_rxSar e) (txSarReg e) (ml_meta e) (eventEng2txEng_event e)
    (rxSar2txEng_rsp e) (txSar2txEng_upd_rsp e).

Definition ml_init : ml_env :=
  mkMlEnv false false zero_init 0x562301af 0 zero_init zero_init zero_init [] [] [].

(** ** [metaLoader] *)

(** The requests made when the event is read. *)
Definition ml_requests (ev : event) : list ml_write :=
  let id := ev_sessionID ev in
  let both := [W_txEng2rxSar_req id; W_txEng2txSar_upd_req (txTxSarQuery_rd id)] in
  match ev_type ev with
  | RT | TX | SYN_ACK | FIN | ACK_NODELAY | ACK => both
  | RST => when (hasSessionID ev) [W_txEng2txSar_upd_req (txTxSarQuery_rd id)]
  | SYN => when (negb (ev_rt_count ev =? 0)) [W_txEng2txSar_upd_req (txTxSarQuery_rd id)]
  end.

(** The writes that announce a segment with the current session's tuple. *)
Definition announce (id : Z) (m : tx_engine_meta) : list ml_write :=
  [W_txEng_ipMetaFifoOut (tm_length m); W_txEng_tcpMetaFifoOut m; W_txEng_isLookUpFifoOut true].

(** [ml_randomValue = (ml_randomValue * 8) xor ml_randomValue]. *)
Definition next_random (r : Z) : Z := wrap 32 (Z.lxor (r * 8) r).
(** [(ml_randomValue << 6) - 1]. *)
Definition initial_seq (r : Z) : Z := wrap 32 (wrap 32 (Z.shiftl r 6) - 1).

(** A segment of an open connection: [meta] with the acknowledgement and the window. *)
Definition open_meta (rxSar : rxSarReply) (m : tx_engine_meta) : tx_engine_meta :=
  m <| tm_ackNumb := rxr_recvd rxSar |> <| tm_window_size := rxr_windowSize rxSar |>
    <| tm_ack := true |> <| tm_rst := false |> <| tm_syn := false |> <| tm_fin := false |>.

Section Cases.
Variable e : ml_env.
Let ev := xev_event (ml_curEvent e).
Let id := ev_sessionID ev.

Definition ml_tx (rxSar : rxSarReply) (txSar : txTxSarReply) : ml_env * list ml_write :=
  let m := open_meta rxSar (ml_meta e) <| tm_seqNumb := ttr_not_ackd txSar |>
             <| tm_length := ev_length ev |> in
  (e <| ml_rxSar := rxSar |> <| ml_meta := m |> <| ml_evaluating := false |>,
   when (0x7FFF <? ev_length ev) [W_txEng2timer_setProbeTimer id] ++
   [W_txEng2txSar_upd_req (txTxSarQuery_wr id (wrap 32 (ttr_not_ackd txSar + ev_length ev)))] ++
   when (negb (ev_length ev =? 0))
     (announce id m ++
      [W_txEng_isDDRbypass true; W_txEng2sLookup_rev_req id;
       W_txEng2timer_setRetransmitTimer (txRetransmitTimerSet_rt id)])).

(** The halved slow start threshold, asked for by the first timeout only. *)
Definition slowstart_threshold (currLength : Z) : Z :=
  if 4 * MSS <? currLength then currLength / 2 else wrap WINDOW_BITS (2 * MSS).

Definition ml_rt (rxSar : rxSarReply) (txSar : txTxSarReply) : ml_env * list ml_write :=
  let currLength := ttr_usedLength txSar in
  let full := MSS <? currLength in
  let m := open_meta rxSar (ml_meta e) <| tm_seqNumb := ttr_ackd txSar |>
             <| tm_length := wrap 16 (if full then MSS else currLength) |> in
  let txSar' :=
    if full then txSar <| ttr_ackd := wrap 32 (ttr_ackd txSar + MSS) |>
                       <| ttr_usedLength := wrap WINDOW_BITS (ttr_usedLength txSar - MSS) |>
    else txSar in
  (e <| ml_rxSar := rxSar |> <| ml_meta := m |> <| ml_sarLoaded := true |> <| txSarReg := txSar' |>
     <| ml_evaluating := if full then negb (ml_segmentCount e =? 3) else ttr_finSent txSar |>
     <| ml_segmentCount := if full then wrap 2 (ml_segmentCount e + 1) else ml_segmentCount e |>
     <| ml_curEvent := if negb full && ttr_finSent txSar
                       then ml_curEvent e <| xev_event := ev <| ev_type := FIN |> |>
                       else ml_curEvent e |>,
   when (negb (ml_sarLoaded e) && (ev_rt_count ev =? 1))
     [W_txEng2txSar_upd_req (txTxSarRtQuery id (slowstart_threshold currLength))] ++
   when (negb (tm_length m =? 0))
     ([W_txBufferReadCmd (mmCmd_new (buffer_addr id (bits (WINDOW_BITS - 1) 0 (ttr_ackd txSar))) (tm_length m))] ++
      announce id m ++
      [W_txEng_isDDRbypass false; W_txEng2sLookup_rev_req id;
       W_txEng2timer_setRetransmitTimer (txRetransmitTimerSet_rt id)])).

Definition ml_ack (rxSar : rxSarReply) (txSar : txTxSarReply) : ml_env * list ml_write :=
  let m := open_meta rxSar (ml_meta e) <| tm_seqNumb := ttr_not_ackd txSar |> <| tm_length := 0 |> in
  (e <| ml_rxSar := rxSar |> <| ml_meta := m |> <| ml_evaluating := false |>,
   announce id m ++ [W_txEng2sLookup_rev_req id]).

(** A first SYN or SYN-ACK draws a sequence number and initialises the transmit window;
    a repeated one reuses the number. *)
Definition first_syn (seq : Z) : list ml_write :=
  [W_txEng2txSar_upd_req (txTxSarQuery_init id (wrap 32 (seq + 1)))].

Definition ml_syn (txSar : option txTxSarReply) : ml_env * list ml_write :=
  let seq := match txSar with Some txSar => ttr_ackd txSar | None => initial_seq (ml_randomValue e) end in
  let m := mkTxMeta seq 0 0xFFFF WINDOW_SCALE_BITS 8 false false true false in
  (e <| ml_meta := m |> <| ml_evaluating := false |>
     <| ml_randomValue := match txSar with
                          | Some _ => ml_randomValue e
                          | None => next_random (ml_randomValue e)
                          end |>,
   (match txSar with Some _ => [] | None => first_syn seq end) ++
   announce id m ++
   [W_txEng2sLookup_rev_req id;
    W_txEng2timer_setRetransmitTimer (mkTxRetransmitTimerSet id SYN)]).

Definition ml_syn_ack (rxSar : rxSarReply) (txSar : txTxSarReply) : ml_env * list ml_write :=
  let again := negb (ev_rt_count ev =? 0) in
  let seq := if again then ttr_ackd txSar else initial_seq (ml_randomValue e) in
  let m := mkTxMeta seq (rxr_recvd rxSar) 0xFFFF (rxr_win_shift rxSar)
             (if rxr_win_shift rxSar =? 0 then 4 else 8) true false true false in
  (e <| ml_rxSar := rxSar |> <| ml_meta := m |> <| ml_evaluating := false |>
     <| ml_randomValue := if again then ml_randomValue e else next_random (ml_randomValue e) |>,
   when (negb again) (first_syn seq) ++
   announce id m ++
   [W_txEng2sLookup_rev_req id;
    W_txEng2timer_setRetransmitTimer (mkTxRetransmitTimerSet id SYN_ACK)]).

Definition ml_fin (rxSar : rxSarReply) (txSar : txTxSarReply) : ml_env * list ml_write :=
  let again := negb (ev_rt_count ev =? 0) in
  let seq := if again then wrap 32 (ttr_not_ackd txSar - 1) else ttr_not_ackd txSar in
  let m := open_meta rxSar (ml_meta e) <| tm_seqNumb := seq |> <| tm_length := 0 |>
             <| tm_fin := true |> in
  (e <| ml_rxSar := rxSar |> <| ml_meta := m |> <| ml_evaluating := false |>,
   when (negb again)
     [W_txEng2txSar_upd_req (txTxSarQuery_fin id (wrap 32 (ttr_not_ackd txSar + 1)) true true)] ++
   announce id m ++
   [W_txEng2sLookup_rev_req id;
    W_txEng2timer_setRetransmitTimer (txRetransmitTimerSet_rt id)]).

Definition ml_rst (txSar : option txTxSarReply) : ml_env * list ml_write :=
  (e <| ml_evaluating := false |>,
   match txSar with
   | None =>
       [W_txEng_ipMetaFifoOut 0;
        W_txEng_tcpMetaFifoOut (tx_engine_meta_flags 0 (getAckNumb ev) true true false false);
        W_txEng_isLookUpFifoOut false; W_txEng_tupleShortCutFifoOut (xev_tuple (ml_curEvent e))]
   | Some txSar =>
       [W_txEng_ipMetaFifoOut 0; W_txEng_isLookUpFifoOut true; W_txEng2sLookup_rev_req id;
        W_txEng_tcpMetaFifoOut
          (tx_engine_meta_flags (ttr_not_ackd txSar) (getAckNumb ev) true true false false)]
   end).
End Cases.

(** Both replies are there: they are read, and the case evaluates them. *)
Definition with_both (k : ml_env -> rxSarReply -> txTxSarReply -> ml_env * list ml_write)
    (e : ml_env) : ml_env * list ml_write :=
  match rxSar2txEng_rsp e, txSar2txEng_upd_rsp e with
  | rxSar :: rrest, txSar :: trest =>
      k (e <| rxSar2txEng_rsp := rrest |> <| txSar2txEng_upd_rsp := trest |>) rxSar txSar
  | _, _ => (e, [])
  end.

(** The windows have been loaded by an earlier segment of the same event. *)
Definition loaded_or_both (k : ml_env -> rxSarReply -> txTxSarReply -> ml_env * list ml_write)
    (e : ml_env) : ml_env * list ml_write :=
  if ml_sarLoaded e then k e (ml_rxSar e) (txSarReg e) else with_both k e.

(** The transmit window is needed if [needed]. *)
Definition with_tx (needed : bool) (k : ml_env -> option txTxSarReply -> ml_env * list ml_write)
    (e : ml_env) : ml_env * list ml_write :=
  if needed then
    match txSar2txEng_upd_rsp e with
    | txSar :: trest => k (e <| txSar2txEng_upd_rsp := trest |>) (Some txSar)
    | [] => (e, [])
    end
  else k e None.

Definition metaLoader (e : ml_env) : ml_env * list ml_write :=
  if ml_evaluating e then
    let ev := xev_event (ml_curEvent e) in
    match ev_type ev with
    | TX => with_both ml_tx e
    | RT => loaded_or_both ml_rt e
    | ACK | ACK_NODELAY => with_both ml_ack e
    | SYN => with_tx (negb (ev_rt_count ev =? 0)) ml_syn e
    | SYN_ACK => with_both ml_syn_ack e
    | FIN => loaded_or_both ml_fin e
    | RST => with_tx (hasSessionID ev) ml_rst e
    end
  else
    match eventEng2txEng_event e with
    | xev :: rest =>
        (e <| eventEng2txEng_event := rest |> <| ml_curEvent := xev |> <| ml_sarLoaded := false |>
           <| ml_evaluating := true |> <| ml_randomValue := wrap 32 (ml_randomValue e + 1) |>
           <| ml_segmentCount := 0 |>,
         W_readCountFifo :: ml_requests (xev_event xev))
    | [] => (e <| ml_segmentCount := 0 |>, [])
    end.

(** ** [txEngMemAccessBreakdown] *)
Inductive tx_breakdown_write :=
| W_outputMemAccess (cmd : mmCmd)
| W_memAccessBreakdown2txPkgStitcher (b : bool).

Record tx_breakdown_env := mkTxBreakdownEnv {
  txEngBreakdownState : bool; tb_cmd : mmCmd; lengthFirstAccess : Z; inputMemAccess : stream mmCmd
}.
#[export] Instance eta_tx_breakdown_env : Eta tx_breakdown_env := fun e =>
  mkTxBreakdownEnv (txEngBreakdownState e) (tb_cmd e) (lengthFirstAccess e) (inputMemAccess e).

Definition txEngMemAccessBreakdown (e : tx_breakdown_env) : tx_breakdown_env * list tx_breakdown_write :=
  if txEngBreakdownState e then
    (e <| txEngBreakdownState := false |>,
     [W_outputMemAccess (mmCmd_new 0 (mc_bbt (tb_cmd e) - lengthFirstAccess e))])
  else
    match inputMemAccess e with
    | cmd :: rest =>
        let e := e <| inputMemAccess := rest |> <| tb_cmd := cmd |> in
        if BUFFER_SIZE <? bits (WINDOW_BITS - 1) 0 (mc_saddr cmd) + mc_bbt cmd then
          let len := wrap WINDOW_BITS (BUFFER_SIZE - mc_saddr cmd) in
          (e <| lengthFirstAccess := len |> <| txEngBreakdownState := true |>,
           [W_memAccessBreakdown2txPkgStitcher true; W_outputMemAccess (mmCmd_new (mc_saddr cmd) len)])
        else (e, [W_memAccessBreakdown2txPkgStitcher false; W_outputMemAccess cmd])
    | [] => (e, [])
    end.

(** ** [tupleSplitter] *)
Inductive ts_write :=
| W_txEng_ipTupleFifoOut (t : twoTuple)
| W_txEng_tcpTupleFifoOut (t : fourTuple).

Record ts_env := mkTsEnv {
  ts_getMeta : bool; ts_isLookUp : bool;
  sLookup2txEng_rev_rsp : stream fourTuple;
  txEng_tupleShortCutFifoIn : stream fourTuple;
  txEng_isLookUpFifoIn : stream bool
}.
#[export] Instance eta_ts_env : Eta ts_env := fun e =>
  mkTsEnv (ts_getMeta e) (ts_isLookUp e) (sLookup2txEng_rev_rsp e) (txEng_tupleShortCutFifoIn e)
    (txEng_isLookUpFifoIn e).

Definition tuple_out (t : fourTuple) : list ts_write :=
  [W_txEng_ipTupleFifoOut (mkTwoTuple (ft_srcIp t) (ft_dstIp t)); W_txEng_tcpTupleFifoOut t].

Definition tupleSplitter (e : ts_env) : ts_env * list ts_write :=
  if ts_getMeta e then
    match txEng_isLookUpFifoIn e with
    | b :: rest => (e <| txEng_isLookUpFifoIn := rest |> <| ts_isLookUp := b |> <| ts_getMeta := false |>, [])
    | [] => (e, [])
    end
  else if ts_isLookUp e then
    match sLookup2txEng_rev_rsp e with
    | t :: rest => (e <| sLookup2txEng_rev_rsp := rest |> <| ts_getMeta := true |>, tuple_out t)
    | [] => (e, [])
    end
  else
    match txEng_tupleShortCutFifoIn e with
    | t :: rest => (e <| txEng_tupleShortCutFifoIn := rest |> <| ts_getMeta := true |>, tuple_out t)
    | [] => (e, [])
    end.

(** ** What a run writes, stream by stream *)
Definition out_length (x : ml_write) : option Z :=
  match x with W_txEng_ipMetaFifoOut l => Some l | _ => None end.
Definition out_meta (x : ml_write) : option tx_engine_meta :=
  match x with W_txEng_tcpMetaFifoOut m => Some m | _ => None end.
Definition out_lookup (x : ml_write) : option bool :=
  match x with W_txEng_isLookUpFifoOut b => Some b | _ => None end.
Definition out_rev (x : ml_write) : option Z :=
  match x with W_txEng2sLookup_rev_req id => Some id | _ => None end.
Definition out_tuple (x : ml_write) : option fourTuple :=
  match x with W_txEng_tupleShortCutFifoOut t => Some t | _ => None end.
Definition out_bypass (x : ml_write) : option bool :=
  match x with W_txEng_isDDRbypass b => Some b | _ => None end.
Definition out_cmd (x : ml_write) : option mmCmd :=
  match x with W_txBufferReadCmd c => Some c | _ => None end.
Definition out_query (x : ml_write) : option txTxSarQuery :=
  match x with W_txEng2txSar_upd_req q => Some q | _ => None end.
Definition out_read (x : ml_write) : option unit :=
  match x with W_readCountFifo => Some tt | _ => None end.

Inductive ml_arrival :=
| A_event (xev : extendedEvent) | A_rxSarRsp (r : rxSarReply) | A_txSarRsp (r : txTxSarReply).

Definition ml_arrive (a : ml_arrival) (e : ml_env) : ml_env :=
  match a with
  | A_event x => e <| eventEng2txEng_event := eventEng2txEng_event e ++ [x] |>
  | A_rxSarRsp x => e <| rxSar2txEng_rsp := rxSar2txEng_rsp e ++ [x] |>
  | A_txSarRsp x => e <| txSar2txEng_upd_rsp := txSar2txEng_upd_rsp e ++ [x] |>
  end.

(** A segment whose payload the arbiter has to fetch; the options of a SYN are not. *)
Definition has_payload (m : tx_engine_meta) : bool := negb (tm_syn m) && negb (tm_length m =? 0).

Definition count {A} (f : A -> bool) (l : list A) : nat := length (List.filter f l).

Lemma count_app {A} (f : A -> bool) l1 l2 : count f (l1 ++ l2) = (count f l1 + count f l2)%nat.
Proof. unfold count. by rewrite List.filter_app, length_app. Qed.

(** The length of a SYN is that of its options: the segment size, and the window scale
    if there is one. *)
Definition syn_length_ok (m : tx_engine_meta) : Prop :=
  tm_syn m = true -> tm_length m = if tm_win_shift m =? 0 then 4 else 8.

(** The streams of segments agree. *)
Record aligned (w : list ml_write) : Prop := {
  al_length : omap out_length w = map tm_length (omap out_meta w);
  al_lookup : length (omap out_lookup w) = length (omap out_meta w);
  al_rev : length (omap out_rev w) = count (fun b => b) (omap out_lookup w);
  al_tuple : length (omap out_tuple w) = count negb (omap out_lookup w);
  al_bypass : length (omap out_bypass w) = count has_payload (omap out_meta w);
  al_cmd : length (omap out_cmd w) = count negb (omap out_bypass w);
  al_syn : Forall syn_length_ok (omap out_meta w)
}.

Lemma aligned_app w1 w2 : aligned w1 -> aligned w2 -> aligned (w1 ++ w2).
Proof.
  intros [] []. split; rewrite !omap_app, ?map_app, ?length_app, ?count_app; try congruence.
  by apply Forall_app.
Qed.

Lemma aligned_requests ev : aligned (W_readCountFifo :: ml_requests ev).
Proof. unfold ml_requests, when. by repeat case_match. Qed.

(** The writes of a segment, up to its window updates and timers. *)
Lemma aligned_writes w :
  omap out_length w = map tm_length (omap out_meta w) ->
  (length (omap out_lookup w), length (omap out_rev w), length (omap out_tuple w),
   length (omap out_bypass w), length (omap out_cmd w)) =
  (length (omap out_meta w), count (fun b => b) (omap out_lookup w), count negb (omap out_lookup w),
   count has_payload (omap out_meta w), count negb (omap out_bypass w)) ->
  Forall syn_length_ok (omap out_meta w) ->
  aligned w.
Proof. intros H1 H2 H3. by simplify_eq. Qed.

Ltac aligned_case :=
  apply aligned_writes; unfold announce, first_syn, when;
  repeat (case_match_in_goal; simpl); simpl; try done;
  unfold count, has_payload; simpl;
  repeat match goal with H : negb _ = _ |- _ => rewrite H end;
  first [done | repeat constructor; unfold syn_length_ok; simpl;
                repeat match goal with H : _ = true |- _ => rewrite H | H : _ = false |- _ => rewrite H end; done].

Lemma aligned_tx e rxSar txSar : aligned (ml_tx e rxSar txSar).2.
Proof. unfold ml_tx. aligned_case. Qed.

Lemma aligned_rt e rxSar txSar : aligned (ml_rt e rxSar txSar).2.
Proof.
  unfold ml_rt. cbn [snd]. set (l := wrap 16 _). clearbody l. simpl. aligned_case.
Qed.

Lemma aligned_ack e rxSar txSar : aligned (ml_ack e rxSar txSar).2.
Proof. unfold ml_ack. aligned_case. Qed.

Lemma aligned_syn e txSar : aligned (ml_syn e txSar).2.
Proof. unfold ml_syn. aligned_case. Qed.

Lemma aligned_syn_ack e rxSar txSar : aligned (ml_syn_ack e rxSar txSar).2.
Proof. unfold ml_syn_ack. cbn [snd]. destruct (rxr_win_shift rxSar =? 0) eqn:Hshift; aligned_case. Qed.

Lemma aligned_fin e rxSar txSar : aligned (ml_fin e rxSar txSar).2.
Proof. unfold ml_fin. aligned_case. Qed.

Lemma aligned_rst e txSar : aligned (ml_rst e txSar).2.
Proof. unfold ml_rst. aligned_case. Qed.

Lemma aligned_with_both k e :
  (forall e r t, aligned (k e r t).2) -> aligned (with_both k e).2.
Proof. intros Hk. unfold with_both. by repeat case_match. Qed.

Lemma aligned_loaded_or_both k e :
  (forall e r t, aligned (k e r t).2) -> aligned (loaded_or_both k e).2.
Proof. intros Hk. unfold loaded_or_both. case_match; [done|]. by apply aligned_with_both. Qed.

Lemma aligned_with_tx b k e : (forall e t, aligned (k e t).2) -> aligned (with_tx b k e).2.
Proof. intros Hk. unfold with_tx. by repeat case_match. Qed.

Lemma aligned_call e : aligned (metaLoader e).2.
Proof.
  unfold metaLoader. destruct (ml_evaluating e).
  - destruct (ev_type _); auto using aligned_with_both, aligned_loaded_or_both, aligned_with_tx,
      aligned_tx, aligned_rt, aligned_ack, aligned_syn, aligned_syn_ack, aligned_fin, aligned_rst.
  - destruct (eventEng2txEng_event e); [done|]. apply aligned_requests.
Qed.

(** C18: the streams that describe the outgoing segments stay in step.  In every run each
    TCP header is accompanied by its length for the IP header and by one flag telling
    where its tuple comes from; there is one reverse lookup for every flag that asks for
    one and one tuple passed on for every other flag; there is one token for the
    payload arbiter for every segment with payload, and one read command for every token
    that takes the payload from memory; and the length of a SYN is that of its options. *)
Theorem metaLoader_segments_aligned w e :
  steps metaLoader ml_arrive ml_init w e -> aligned w.
Proof.
  intros Hs. refine (steps_trace_invariant metaLoader ml_arrive (fun w _ => aligned w)
    _ _ _ _ _ Hs _); [|done|done].
  intros w' e' Hw. apply aligned_app, aligned_call. exact Hw.
Qed.

(** ** An event served by the tables *)

(** [serve junk rx n xev (e, entry)]: the machine, idle in [e], is given the event; the
    tables answer what it asks for, from the receive window reply [rx] and the transmit
    window entry; [n] more calls evaluate the event, and its writes reach the entry. *)
Definition is_rx_req (x : ml_write) : option Z :=
  match x with W_txEng2rxSar_req id => Some id | _ => None end.

Definition deliver (junk : Z) (rx : rxSarReply) (entry : txSarEntry) (w : list ml_write)
    (e : ml_env) : ml_env :=
  e <| rxSar2txEng_rsp := map (fun _ => rx) (omap is_rx_req w) |>
    <| txSar2txEng_upd_rsp :=
         map (fun _ => TxSar.tx_sar_reply junk entry)
           (List.filter (fun q => negb (ttq_write q)) (omap out_query w)) |>.

Definition update_entry (entry : txSarEntry) (w : list ml_write) : txSarEntry :=
  fold_left (fun entry q => if ttq_write q then TxSar.txEng_update q entry else entry)
    (omap out_query w) entry.

Definition serve (junk : Z) (rx : rxSarReply) (n : nat) (xev : extendedEvent)
    (s : ml_env * txSarEntry) : (ml_env * txSarEntry) * list ml_write :=
  let '(e, entry) := s in
  let '(e1, w1) := metaLoader (e <| eventEng2txEng_event := [xev] |>) in
  let '(e2, w2) := calls metaLoader n (deliver junk rx entry w1 e1) in
  ((e2, update_entry entry w2), w2).

Definition ml_idle (e : ml_env) : Prop := ml_evaluating e = false /\ eventEng2txEng_event e = [].

Lemma ml_idle_call e : ml_idle e -> (metaLoader e).2 = [] /\ ml_idle (metaLoader e).1.
Proof. intros [H1 H2]. unfold metaLoader. by rewrite H1, H2. Qed.

Lemma ml_idle_calls n e :
  ml_idle e -> (calls metaLoader n e).2 = [] /\ ml_idle (calls metaLoader n e).1.
Proof.
  revert e. induction n as [|n IH]; intros e He; [done|]. rewrite calls_S. simpl.
  destruct (ml_idle_call e He) as [-> He']. by apply IH.
Qed.

(** The machine after reading the event, with the replies it waits for. *)
Definition loaded (e : ml_env) (xev : extendedEvent) (rrsp : list rxSarReply)
    (trsp : list txTxSarReply) : ml_env :=
  mkMlEnv true false xev (wrap 32 (ml_randomValue e + 1)) 0 (ml_rxSar e) (txSarReg e) (ml_meta e)
    [] rrsp trsp.

Lemma serve_eq junk rx n xev e entry :
  ml_idle e ->
  serve junk rx n xev (e, entry) =
    let '(e2, w2) :=
      calls metaLoader n
        (deliver junk rx entry (ml_requests (xev_event xev)) (loaded e xev [] [])) in
    ((e2, update_entry entry w2), w2).
Proof. intros [He _]. unfold serve, metaLoader at 1. simpl. by rewrite He. Qed.

(** The segments announced: sequence numbers and lengths. *)
Definition segment (m : tx_engine_meta) : Z * Z := (tm_seqNumb m, tm_length m).
Definition segments (w : list ml_write) : list (Z * Z) := map segment (omap out_meta w).

(** [tiled a n segs]: the segments cover [n] bytes from [a] without gap or overlap, in
    order, and none is empty. *)
Fixpoint tiled (a n : Z) (segs : list (Z * Z)) : Prop :=
  match segs with
  | [] => n = 0
  | (s, l) :: segs => s = a /\ 0 < l /\ tiled (wrap 32 (a + l)) (n - l) segs
  end.

(** *** Retransmission *)
Definition rt_command (id : Z) (seg : Z * Z) : mmCmd :=
  mmCmd_new (buffer_addr id (bits (WINDOW_BITS - 1) 0 seg.1)) seg.2.

(** What the calls of a retransmission leave behind. *)
Record rt_done (id a n : Z) (rx : rxSarReply) (e : ml_env) (w : list ml_write) : Prop := {
  rt_idle : ml_idle e;
  rt_tiled : tiled a n (segments w);
  rt_max : Forall (fun seg => seg.2 <= MSS) (segments w);
  rt_commands : omap out_cmd w = map (rt_command id) (segments w);
  rt_headers : Forall (fun m => tm_ack m = true /\ tm_syn m = false /\ tm_fin m = false /\
                 tm_rst m = false /\ tm_ackNumb m = rxr_recvd rx /\
                 tm_window_size m = rxr_windowSize rx) (omap out_meta w);
  rt_bypass : Forall (fun b => b = false) (omap out_bypass w)
}.

Lemma rt_done_nil id a rx e : ml_idle e -> rt_done id a 0 rx e [].
Proof. intros He. by split. Qed.

Lemma rt_done_cons id a l n rx e m w1 w2 :
  omap out_meta w1 = [m] -> segment m = (a, l) -> 0 < l <= MSS ->
  omap out_cmd w1 = [rt_command id (a, l)] -> omap out_bypass w1 = [false] ->
  tm_ack m = true /\ tm_syn m = false /\ tm_fin m = false /\ tm_rst m = false /\
    tm_ackNumb m = rxr_recvd rx /\ tm_window_size m = rxr_windowSize rx ->
  rt_done id (wrap 32 (a + l)) n rx e w2 -> rt_done id a (l + n) rx e (w1 ++ w2).
Proof.
  intros Hm Hs Hl Hc Hb Hh [H1 H2 H3 H4 H5 H6].
  assert (segments (w1 ++ w2) = (a, l) :: segments w2) as Hseg
    by (unfold segments; rewrite omap_app, Hm; simpl; by rewrite Hs).
  split; rewrite ?Hseg, ?omap_app, ?Hm, ?Hc, ?Hb; simpl; auto.
  - split_and!; [done|lia|]. by replace (l + n - l) with n by lia.
  - constructor; [simpl; lia|done].
  - by rewrite H4.
Qed.

(** The writes of one segment of a retransmission. *)
Lemma ml_rt_segment e rx t :
  let '(e1, w1) := ml_rt e rx t in
  let id := ev_sessionID (xev_event (ml_curEvent e)) in
  let l := tm_length (ml_meta e1) in
  l <> 0 ->
  omap out_meta w1 = [ml_meta e1] /\ omap out_cmd w1 = [rt_command id (ttr_ackd t, l)] /\
  omap out_bypass w1 = [false].
Proof.
  unfold ml_rt. simpl. intros Hl. replace (_ =? 0) with false by lia.
  unfold when. by destruct (_ && _).
Qed.

Lemma ml_rt_none e rx t :
  let '(e1, w1) := ml_rt e rx t in
  tm_length (ml_meta e1) = 0 -> omap out_meta w1 = [] /\ omap out_cmd w1 = [] /\ omap out_bypass w1 = [].
Proof.
  unfold ml_rt. simpl. intros Hl. rewrite Hl. unfold when. by destruct (_ && _).
Qed.

(** The last segment, if anything is left. *)
Lemma rt_last n e1 e rx t w1 k :
  (tm_length (ml_meta e1) <> 0 ->
   omap out_meta w1 = [ml_meta e1] /\
   omap out_cmd w1 = [rt_command (ev_sessionID (xev_event (ml_curEvent e)))
                        (ttr_ackd t, tm_length (ml_meta e1))] /\
   omap out_bypass w1 = [false]) ->
  (tm_length (ml_meta e1) = 0 -> omap out_meta w1 = [] /\ omap out_cmd w1 = [] /\ omap out_bypass w1 = []) ->
  tm_length (ml_meta e1) = ttr_usedLength t -> tm_seqNumb (ml_meta e1) = ttr_ackd t ->
  0 <= ttr_usedLength t <= MSS -> 0 <= k -> ml_idle e1 ->
  tm_ack (ml_meta e1) = true /\ tm_syn (ml_meta e1) = false /\ tm_fin (ml_meta e1) = false /\
    tm_rst (ml_meta e1) = false /\ tm_ackNumb (ml_meta e1) = rxr_recvd rx /\
    tm_window_size (ml_meta e1) = rxr_windowSize rx ->
  let '(e2, w2) := calls metaLoader n e1 in
  rt_done (ev_sessionID (xev_event (ml_curEvent e))) (ttr_ackd t)
    (Z.min (ttr_usedLength t) ((k + 1) * MSS)) rx e2 (w1 ++ w2).
Proof.
  intros Hseg Hnone Hlen Hq Hu Hk Hidle Hh. destruct (ml_idle_calls n e1 Hidle) as [Hw Hi].
  destruct (calls metaLoader n e1) as [e2 w2]. simpl in Hw, Hi. subst w2.
  replace (Z.min _ _) with (ttr_usedLength t + 0) by nia.
  destruct (decide (tm_length (ml_meta e1) = 0)) as [Hz|Hz].
  - destruct (Hnone Hz) as (H1 & H2 & H3). rewrite app_nil_r.
    replace (ttr_usedLength t + 0) with 0 by lia.
    split; unfold segments; rewrite ?H1, ?H2, ?H3; done.
  - destruct (Hseg Hz) as (H1 & H2 & H3).
    refine (rt_done_cons _ _ _ _ _ _ _ _ _ H1 _ _ _ H3 Hh _); [|lia| |by apply rt_done_nil].
    + unfold segment. by rewrite Hlen, Hq.
    + by rewrite H2, Hlen.
Qed.

Lemma rt_loop k n e rx t :
  config_ok C -> (k <= 3)%nat -> (k <= n)%nat ->
  ev_type (xev_event (ml_curEvent e)) = RT -> eventEng2txEng_event e = [] ->
  ml_segmentCount e = 3 - Z.of_nat k -> ttr_finSent t = false ->
  in_width WINDOW_BITS (ttr_usedLength t) ->
  let '(e1, w1) := ml_rt e rx t in
  let '(e2, w2) := calls metaLoader n e1 in
  rt_done (ev_sessionID (xev_event (ml_curEvent e))) (ttr_ackd t)
    (Z.min (ttr_usedLength t) ((Z.of_nat k + 1) * MSS)) rx e2 (w1 ++ w2).
Proof.
  intros Hcfg. pose proof (mss_range C Hcfg) as Hmss.
  assert (forall l, 0 <= l <= MSS -> wrap 16 l = l) as Hl
    by (intros; apply wrap_small; unfold in_width; pow2; lia).
  revert n e t. induction k as [|k IH]; intros n e t Hk Hn Hty Hev Hc Hf Hu;
    assert (0 <= ttr_usedLength t) by apply Hu;
    pose proof (ml_rt_segment e rx t) as Hseg; pose proof (ml_rt_none e rx t) as Hnone;
    destruct (ml_rt e rx t) as [e1 w1] eqn:He1; unfold ml_rt in He1;
    injection He1 as He1 Hw1; cbv zeta in Hseg;
    destruct (MSS <? ttr_usedLength t) eqn:Hfull; bool_prop.
  - assert (ml_idle e1) as Hidle by (subst e1; split; simpl; [by rewrite Hc|done]).
    assert (tm_length (ml_meta e1) = MSS) as Hlen by (subst e1; apply Hl; lia).
    destruct (ml_idle_calls n e1 Hidle) as [Hw Hi]. destruct (calls metaLoader n e1) as [e2 w2].
    simpl in Hw, Hi. subst w2. destruct Hseg as (H1 & H2 & H3); [lia|].
    replace (Z.min _ _) with (MSS + 0) by lia.
    refine (rt_done_cons _ _ _ _ _ _ _ _ _ H1 _ _ _ H3 _ _);
      [|lia| |by subst e1|by apply rt_done_nil].
    + unfold segment. rewrite Hlen. by subst e1.
    + by rewrite H2, Hlen.
  - apply (rt_last n e1 e rx t w1 (Z.of_nat 0)); try done; try lia;
      subst e1; simpl; (by split) || (by rewrite Hl by lia).
  - assert (tm_length (ml_meta e1) = MSS) as Hlen by (subst e1; apply Hl; lia).
    destruct Hseg as (H1 & H2 & H3); [lia|]. destruct n as [|n]; [lia|]. rewrite calls_S.
    set (t' := t <| ttr_ackd := wrap 32 (ttr_ackd t + MSS) |>
                 <| ttr_usedLength := wrap WINDOW_BITS (ttr_usedLength t - MSS) |>).
    assert (metaLoader e1 = ml_rt e1 rx t') as ->.
    { subst e1. unfold metaLoader. simpl. rewrite Hc, Hty.
      replace (3 - Z.of_nat (S k) =? 3) with false by lia. done. }
    assert (ttr_usedLength t' = ttr_usedLength t - MSS) as Hu'.
    { simpl. apply wrap_small. unfold in_width in *. lia. }
    specialize (IH n e1 t'). destruct (ml_rt e1 rx t') as [e2 w2]. cbn [fst snd].
    destruct (calls metaLoader n e2) as [e3 w3]. simpl.
    replace (Z.min _ _) with (MSS + Z.min (ttr_usedLength t') ((Z.of_nat k + 1) * MSS)) by lia.
    refine (rt_done_cons _ _ _ _ _ _ _ _ _ H1 _ _ _ H3 _ _); [|lia| |by subst e1|].
    + unfold segment. rewrite Hlen. by subst e1.
    + by rewrite H2, Hlen.
    + replace (ev_sessionID _) with (ev_sessionID (xev_event (ml_curEvent e1))) by by subst e1.
      apply IH; try lia; subst e1; simpl; try done.
      * rewrite Hc. unfold wrap. pow2. Z.div_mod_to_equations. lia.
      * change (in_width WINDOW_BITS (ttr_usedLength t')). rewrite Hu'. unfold in_width in *. lia.
  - apply (rt_last n e1 e rx t w1 (Z.of_nat (S k))); try done; try lia;
      subst e1; simpl; (by split) || (by rewrite Hl by lia).
Qed.

(** A retransmission under way does not touch the transmit window. *)
Definition rt_going (e : ml_env) : Prop :=
  ml_idle e \/
  (ml_evaluating e = true /\ ml_sarLoaded e = true /\ ev_type (xev_event (ml_curEvent e)) = RT /\
   ttr_finSent (txSarReg e) = false /\ eventEng2txEng_event e = []).

Lemma ml_rt_going e rx t :
  ev_type (xev_event (ml_curEvent e)) = RT -> ttr_finSent t = false -> eventEng2txEng_event e = [] ->
  rt_going (ml_rt e rx t).1.
Proof.
  intros Ht Hf He. unfold rt_going, ml_rt, ml_idle. simpl. rewrite Hf, andb_false_r.
  destruct (MSS <? _); simpl; [|by left].
  destruct (ml_segmentCount e =? 3); [by left|]. by right.
Qed.

Lemma rt_going_calls n e :
  rt_going e -> omap out_query (calls metaLoader n e).2 = [].
Proof.
  revert e. induction n as [|n IH]; intros e He; [done|]. rewrite calls_S. simpl. rewrite omap_app.
  destruct He as [He|(H1 & H2 & H3 & H4 & H5)].
  - destruct (ml_idle_call e He) as [-> Hi]. simpl. apply IH. by left.
  - assert (metaLoader e = ml_rt e (ml_rxSar e) (txSarReg e)) as ->
      by (unfold metaLoader, loaded_or_both; by rewrite H1, H2, H3).
    rewrite IH by by apply ml_rt_going. rewrite app_nil_r.
    unfold ml_rt. rewrite H2. simpl. unfold when. by case_match.
Qed.


(** *** Transmission *)

(** The events of the application's writes, one after the other. *)
Fixpoint transmit (junk : Z) (rx : rxSarReply) (evs : list event) (s : ml_env * txSarEntry)
    : (ml_env * txSarEntry) * list ml_write :=
  match evs with
  | [] => (s, [])
  | ev :: evs =>
      let '(s1, w1) := serve junk rx 1 (extend_event ev) s in
      let '(s2, w2) := transmit junk rx evs s1 in (s2, w1 ++ w2)
  end.

Definition total (evs : list event) : Z := fold_right (fun ev n => ev_length ev + n) 0 evs.

Lemma serve_tx junk rx ev e entry :
  ev_type ev = TX -> in_width 16 (ev_length ev) -> ml_idle e ->
  let '((e', entry'), w) := serve junk rx 1 (extend_event ev) (e, entry) in
  ml_idle e' /\
  segments w = when (negb (ev_length ev =? 0)) [(txe_not_ackd entry, ev_length ev)] /\
  entry' = entry <| txe_not_ackd := wrap 32 (txe_not_ackd entry + ev_length ev) |>.
Proof.
  intros Ht Hl He. rewrite serve_eq by done. simpl xev_event. unfold ml_requests. rewrite Ht.
  unfold deliver. simpl. unfold metaLoader, segments, update_entry, when. simpl. rewrite Ht.
  unfold with_both, ml_tx, when, announce. simpl.
  by destruct (0x7FFF <? ev_length ev), (ev_length ev =? 0).
Qed.

(** C8: what the application writes is sent as one stream.  The segments of its writes
    cover, in order and without gap or overlap, as many bytes as were written, starting
    at the next byte to send, with one segment for every write that is not empty; and
    the transmit window ends at the byte after the last. *)
Theorem tx_stream_contiguous junk rx id evs e entry :
  ml_idle e -> in_width 32 (txe_not_ackd entry) ->
  Forall (fun ev => ev_type ev = TX /\ ev_sessionID ev = id /\ in_width 16 (ev_length ev)) evs ->
  let '((e', entry'), w) := transmit junk rx evs (e, entry) in
  ml_idle e' /\ tiled (txe_not_ackd entry) (total evs) (segments w) /\
  map snd (segments w) = List.filter (fun l => negb (l =? 0)) (map ev_length evs) /\
  entry' = entry <| txe_not_ackd := wrap 32 (txe_not_ackd entry + total evs) |>.
Proof.
  intros He Hw Hevs. revert e entry He Hw.
  induction Hevs as [|ev evs (Ht & _ & Hl) _ IH]; intros e entry He Hw; cbn [transmit].
  - simpl. split_and!; try done. rewrite Z.add_0_r, wrap_small by done. by destruct entry.
  - pose proof (serve_tx junk rx ev e entry Ht Hl He) as Hs.
    destruct (serve junk rx 1 (extend_event ev) (e, entry)) as [[e1 entry1] w1].
    destruct Hs as (He1 & Hseg & Hentry).
    assert (in_width 32 (txe_not_ackd entry1)) as Hw1 by (subst entry1; by apply wrap_range).
    specialize (IH e1 entry1 He1 Hw1).
    destruct (transmit junk rx evs (e1, entry1)) as [[e2 entry2] w2].
    destruct IH as (He2 & Htile & Hlens & Hentry2). split; [done|].
    assert (segments (w1 ++ w2) = segments w1 ++ segments w2) as ->
      by (unfold segments; by rewrite omap_app, map_app).
    rewrite Hseg, map_app, Hlens. subst entry1. simpl in *. unfold in_width in Hl.
    destruct (ev_length ev =? 0) eqn:Hz; bool_prop; simpl.
    + rewrite Hz, Z.add_0_r, (wrap_small 32 (txe_not_ackd entry)) in * by done.
      rewrite Z.add_0_l. by split_and!.
    + split_and!; try done; [lia| |].
      * by replace (ev_length ev + total evs - ev_length ev) with (total evs) by lia.
      * rewrite Hentry2. simpl. rewrite wrap_add_l. by rewrite Z.add_assoc.
Qed.

(** *** Opening *)
Lemma initial_seq_aligned r : wrap 6 (initial_seq r + 1) = 0.
Proof.
  unfold initial_seq. rewrite Z.shiftl_mul_pow2 by done. unfold wrap. pow2.
  Z.div_mod_to_equations. lia.
Qed.

Lemma serve_syn_first junk rx ty id e entry :
  ty = SYN \/ ty = SYN_ACK -> ml_idle e ->
  let isn := initial_seq (wrap 32 (ml_randomValue e + 1)) in
  let '((e1, entry1), w1) := serve junk rx 1 (extend_event (event2 ty id)) (e, entry) in
  segments w1 = [(isn, tm_length (ml_meta e1))] /\
  entry1 = TxSar.txEng_update (txTxSarQuery_init id (wrap 32 (isn + 1))) entry.
Proof. intros Hty He isn. rewrite serve_eq by done. by destruct Hty as [-> | ->]. Qed.

Lemma serve_syn_again junk rx ty id rt_count e entry :
  ty = SYN \/ ty = SYN_ACK -> ml_idle e -> rt_count <> 0 ->
  let '((_, entry1), w1) := serve junk rx 1 (extend_event (event3 ty id rt_count)) (e, entry) in
  map fst (segments w1) = [txe_ackd entry] /\ entry1 = entry.
Proof.
  intros Hty He Hrt. rewrite serve_eq by done.
  assert (rt_count =? 0 = false) as Hz by lia.
  destruct Hty as [-> | ->]; unfold metaLoader, deliver, update_entry, segments, ml_requests, when;
    simpl; rewrite ?Hz; simpl; rewrite ?Hz; simpl; unfold ml_syn_ack; simpl; by rewrite ?Hz.
Qed.

(** A connection has one initial sequence number.  The first SYN or SYN-ACK draws a
    number that puts the first byte of the stream on a 64 byte boundary, and initialises
    the transmit window to it; each repetition, whenever it is sent, carries the same
    number and leaves the window as it is. *)
Theorem syn_number_reused junk rx ty id e entry :
  ty = SYN \/ ty = SYN_ACK -> ml_idle e ->
  let '((e1, entry1), w1) := serve junk rx 1 (extend_event (event2 ty id)) (e, entry) in
  exists isn,
    segments w1 = [(isn, tm_length (ml_meta e1))] /\ in_width 32 isn /\ wrap 6 (isn + 1) = 0 /\
    txe_ackd entry1 = isn /\ txe_not_ackd entry1 = wrap 32 (isn + 1) /\
    txe_app entry1 = wrap WINDOW_BITS (isn + 1) /\
    forall e' rt_count, ml_idle e' -> rt_count <> 0 ->
      let '((_, entry2), w2) := serve junk rx 1 (extend_event (event3 ty id rt_count)) (e', entry1) in
      map fst (segments w2) = [isn] /\ entry2 = entry1.
Proof.
  intros Hty He. set (isn := initial_seq (wrap 32 (ml_randomValue e + 1))).
  assert (in_width 32 isn) as Hw by by apply wrap_range.
  pose proof (serve_syn_first junk rx ty id e entry Hty He) as Hs. cbv zeta in Hs. fold isn in Hs.
  destruct (serve _ _ _ _ _) as [[e1 entry1] w1]. destruct Hs as [Hseg Hentry].
  assert (txe_ackd entry1 = isn) as Hackd.
  { subst entry1. simpl. rewrite wrap_sub_l. replace (isn + 1 - 1) with isn by lia. by apply wrap_small. }
  exists isn. split_and!; try done.
  - apply initial_seq_aligned.
  - by subst entry1.
  - subst entry1. simpl. apply wrap_narrow. unfold WINDOW_BITS, WINDOW_SCALE_BITS. lia.
  - intros e' rt_count He' Hrt.
    pose proof (serve_syn_again junk rx ty id rt_count e' entry1 Hty He' Hrt) as Hs.
    by rewrite Hackd in Hs.
Qed.

(** *** A FIN that is outstanding *)

(** A retransmission takes the FIN for a byte of data.  The FIN counts as the last of
    the outstanding bytes; when they are sent again, the data segment has one byte too
    many, read from beyond the end of the stream.  The FIN that follows repeats that
    sequence number after a timeout; after a fast retransmission, whose event carries no
    count, it takes the next number and the transmit window grows by it. *)
Theorem rt_sends_fin_as_data junk rx rt_count id entry e :
  config_ok C -> ml_idle e -> txe_finSent entry = true -> in_width 32 (txe_not_ackd entry) ->
  let outstanding := wrap WINDOW_BITS (txe_not_ackd entry - txe_ackd entry) in
  0 < outstanding <= MSS ->
  let '((e', entry'), w) := serve junk rx 2 (extend_event (event3 RT id rt_count)) (e, entry) in
  ml_idle e' /\ map tm_fin (omap out_meta w) = [false; true] /\
  segments w =
    [(txe_ackd entry, outstanding);
     (if rt_count =? 0 then txe_not_ackd entry else wrap 32 (txe_not_ackd entry - 1), 0)] /\
  txe_not_ackd entry' =
    (if rt_count =? 0 then wrap 32 (txe_not_ackd entry + 1) else txe_not_ackd entry).
Proof.
  intros Hcfg He Hf Hw outstanding Hout. pose proof (mss_range C Hcfg) as Hmss.
  assert (ttr_usedLength (TxSar.tx_sar_reply junk entry) = outstanding) as Hu
    by (simpl; apply wrap_sub_l).
  rewrite serve_eq by done.
  change (deliver _ _ _ _ _) with
    (loaded e (extend_event (event3 RT id rt_count)) [rx] [TxSar.tx_sar_reply junk entry]).
  rewrite calls_S. set (e0 := loaded e _ [rx] _).
  assert (metaLoader e0 = ml_rt (loaded e (extend_event (event3 RT id rt_count)) [] []) rx
    (TxSar.tx_sar_reply junk entry)) as -> by done. clear e0.
  unfold ml_rt. rewrite Hu. replace (MSS <? outstanding) with false by lia.
  assert (wrap 16 outstanding = outstanding) as -> by (apply wrap_small; unfold in_width; pow2; lia).
  assert (outstanding =? 0 = false) as Hnz by lia.
  cbn [fst snd negb andb calls]. cbv zeta.
  change (ttr_finSent (TxSar.tx_sar_reply junk entry)) with (txe_finSent entry). rewrite Hf.
  unfold metaLoader, ml_idle, segments, update_entry. simpl. rewrite Hnz. unfold when.
  destruct (rt_count =? 0) eqn:H0, (rt_count =? 1) eqn:H1; simpl; bool_prop; try lia; done.
Qed.

(** ** Splitting reads *)

(** A read that passes the end of the buffer goes on in the wrong session.  The read
    of a segment that reaches past the end of its session's region is split there; the
    second part is read from address 0, the beginning of the region of session 0,
    instead of the beginning of its own. *)
Theorem tx_breakdown_wrong_session id seq len e :
  let pt := wrap WINDOW_BITS seq in
  txEngBreakdownState e = false -> inputMemAccess e = [rt_command id (seq, len)] ->
  in_width 16 len -> BUFFER_SIZE < pt + len ->
  let w := (calls txEngMemAccessBreakdown 2 e).2 in
  w = [W_memAccessBreakdown2txPkgStitcher true;
       W_outputMemAccess (mkMmCmd (buffer_addr id pt) (BUFFER_SIZE - pt));
       W_outputMemAccess (mkMmCmd 0 (pt + len - BUFFER_SIZE))] /\
  (wrap 12 id <> 0 -> buffer_addr id 0 <> 0).
Proof.
  intros pt Hs Hi Hlen Hover w.
  assert (in_width WINDOW_BITS pt) as Hpt by by apply wrap_range.
  set (saddr := buffer_addr id (bits (WINDOW_BITS - 1) 0 seq)) in *.
  assert (saddr = wrap 12 id * 2 ^ WINDOW_BITS + pt) as Ha.
  { unfold saddr. rewrite bits_0, buffer_addr_eq. apply f_equal. apply wrap_wrap. }
  assert (buffer_addr id pt = saddr) as -> by (rewrite Ha, buffer_addr_eq; by unfold pt; rewrite wrap_wrap).
  assert (bits (WINDOW_BITS - 1) 0 saddr = pt) as Hb.
  { rewrite bits_0, Ha. replace (WINDOW_BITS - 1 + 1) with WINDOW_BITS by done.
    rewrite Z.add_comm, wrap_add_mul. by apply wrap_small. }
  unfold BUFFER_SIZE in *. assert (2 ^ WINDOW_BITS = 262144) as Hp by done.
  unfold in_width in *. rewrite Hp in *. change (2 ^ 16) with 65536 in *.
  assert (wrap WINDOW_BITS (262144 - saddr) = 262144 - pt) as Hfirst.
  { rewrite Ha. replace (262144 - _) with (262144 - pt + - wrap 12 id * 262144) by lia.
    rewrite <- Hp at 2. rewrite wrap_add_mul. apply wrap_small. unfold in_width. lia. }
  assert (forall l, 0 <= l < 65536 -> wrap 16 l = l) as Hw16 by (intros; by apply wrap_small).
  assert (wrap 32 saddr = saddr) as Hw32 by (apply wrap_small, buffer_addr_width).
  split.
  - destruct e as [st cmd0 first inp]. simpl in Hs, Hi. subst st inp. unfold w. simpl calls.
    unfold txEngMemAccessBreakdown, rt_command, mmCmd_new. simpl. fold saddr.
    change BUFFER_SIZE with 262144. rewrite Hw32, (Hw16 len), Hb by lia. replace (262144 <? pt + len) with true by lia.
    simpl. rewrite Hfirst, Hw32, (Hw16 (262144 - pt)), (Hw16 (len - _)) by lia.
    change (wrap 32 0) with 0. by replace (len - (262144 - pt)) with (pt + len - 262144) by lia.
  - intros Hid. rewrite buffer_addr_eq, Hp. unfold wrap in *. rewrite Zmod_0_l.
    pose proof (Z.mod_pos_bound id (2 ^ 12)). lia.
Qed.

(** ** Pairing tuples with segments *)

(** The tuples of the segments, taken from the lookups or from the events as told. *)
Fixpoint choose (flags : list bool) (looked_up given : list fourTuple) : list fourTuple :=
  match flags, looked_up, given with
  | true :: flags, t :: looked_up, _ => t :: choose flags looked_up given
  | false :: flags, _, t :: given => t :: choose flags looked_up given
  | _, _, _ => []
  end.

Definition tcp_tuple (x : ts_write) : option fourTuple :=
  match x with W_txEng_tcpTupleFifoOut t => Some t | _ => None end.
Definition ip_tuple (x : ts_write) : option twoTuple :=
  match x with W_txEng_ipTupleFifoOut t => Some t | _ => None end.

(** Every segment gets its own tuple.  If the lookups and the tuples of the events are
    there, two calls per segment hand out to the TCP header the tuples chosen by the
    flags, in the order of the segments, with the addresses of the same tuples to the IP
    header, and use up exactly one flag and one tuple for each. *)
Theorem tupleSplitter_pairs flags looked_up given e :
  ts_getMeta e = true -> txEng_isLookUpFifoIn e = flags ->
  sLookup2txEng_rev_rsp e = looked_up -> txEng_tupleShortCutFifoIn e = given ->
  length looked_up = count (fun b => b) flags -> length given = count negb flags ->
  let '(e', w) := calls tupleSplitter (2 * length flags) e in
  omap tcp_tuple w = choose flags looked_up given /\
  length (omap tcp_tuple w) = length flags /\
  omap ip_tuple w = map (fun t => mkTwoTuple (ft_srcIp t) (ft_dstIp t)) (omap tcp_tuple w) /\
  ts_getMeta e' = true /\ txEng_isLookUpFifoIn e' = [] /\
  sLookup2txEng_rev_rsp e' = [] /\ txEng_tupleShortCutFifoIn e' = [].
Proof.
  revert looked_up given e. induction flags as [|b flags IH]; intros l g e Hm Hf Hl Hg Hcl Hcg.
  - by destruct l, g.
  - replace (2 * length (b :: flags))%nat with (2 + 2 * length flags)%nat by (simpl; lia).
    rewrite calls_add. destruct e as [m i l' g' f']. simpl in Hm, Hf, Hl, Hg. subst.
    assert (exists t l1 g1, choose (b :: flags) l g = t :: choose flags l1 g1 /\
      length l1 = count (fun b => b) flags /\ length g1 = count negb flags /\
      calls tupleSplitter 2 (mkTsEnv true i l g (b :: flags)) =
        (mkTsEnv true b l1 g1 flags, tuple_out t)) as (t & l1 & g1 & -> & Hl1 & Hg1 & ->).
    { unfold count in *. destruct b; simpl in Hcl, Hcg.
      - destruct l as [|t l]; [done|]. exists t, l, g. simpl in Hcl. by split_and!; try lia.
      - destruct g as [|t g]; [done|]. exists t, l, g. simpl in Hcg.
        split_and!; try done; try lia. }
    specialize (IH l1 g1 (mkTsEnv true b l1 g1 flags) eq_refl eq_refl eq_refl eq_refl Hl1 Hg1).
    cbn [fst snd]. destruct (calls tupleSplitter (2 * length flags) _) as [e' w].
    cbn [fst snd]. destruct IH as (H1 & H2 & H3 & H4).
    rewrite !omap_app, H1, H3, H1. rewrite H1 in H2. simpl. by rewrite H2.
Qed.
End TxEngine.

#[export] Existing Instances eta_tx_engine_meta zero_init_tx_meta eta_ml_env eta_tx_breakdown_env eta_ts_env.

Section TxWitnesses.
Local Instance demo_tx_config : ToeConfig := sim_config false.

(** 10000 bytes are outstanding from 5000 on. *)
Definition demo_entry (finSent : bool) : txSarEntry :=
  mkTxSarEntry 5000 15000 64 0 14600 65535 15000 0 false finSent finSent.
Definition demo_rx : rxSarReply := mkRxSarReply 900 0 100 0.

Lemma ml_init_idle : ml_idle ml_init.
Proof. done. Qed.

Lemma metaLoader_segments_aligned_witness :
  let w := (exec metaLoader ml_arrive
    [Some (A_event (extend_event (event4 TX 7 0 100))); None; Some (A_rxSarRsp demo_rx);
     Some (A_txSarRsp (TxSar.tx_sar_reply 0 (demo_entry false))); None] ml_init).2 in
  omap out_length w = [100] /\ aligned w.
Proof.
  split; [reflexivity|]. refine (metaLoader_segments_aligned _ _ (exec_steps _ _ _ _)).
Defined.


Lemma tx_stream_contiguous_witness :
  let s := transmit 0 demo_rx [event4 TX 7 0 100; event4 TX 7 0 50] (ml_init, demo_entry false) in
  segments s.2 = [(15000, 100); (15100, 50)] /\ tiled 15000 150 (segments s.2).
Proof.
  split; [by vm_compute|].
  assert (in_width 32 (txe_not_ackd (demo_entry false))) as Hw by by vm_compute.
  assert (Forall (fun ev => ev_type ev = TX /\ ev_sessionID ev = 7 /\ in_width 16 (ev_length ev))
    [event4 TX 7 0 100; event4 TX 7 0 50]) as Hevs by (repeat constructor; by vm_compute).
  pose proof (tx_stream_contiguous 0 demo_rx 7 _ ml_init (demo_entry false) ml_init_idle Hw Hevs) as H.
  cbv zeta in *. destruct (transmit _ _ _ _) as [[e' entry'] w].
  exact (proj1 (proj2 H)).
Defined.

Lemma syn_number_reused_witness :
  let '((_, entry1), w1) :=
    serve 0 demo_rx 1 (extend_event (event2 SYN 7)) (ml_init, zero_init) in
  let '((_, _), w2) := serve 0 demo_rx 1 (extend_event (event3 SYN 7 1)) (ml_init, entry1) in
  map fst (segments w2) = [txe_ackd entry1] /\ map fst (segments w1) = [txe_ackd entry1].
Proof.
  pose proof (syn_number_reused 0 demo_rx SYN 7 ml_init zero_init (or_introl eq_refl) ml_init_idle) as H.
  destruct (serve 0 demo_rx 1 (extend_event (event2 SYN 7)) (ml_init, zero_init)) as [[e1 entry1] w1].
  destruct H as (isn & H1 & _ & _ & H2 & _ & _ & H3).
  specialize (H3 ml_init 1 ml_init_idle ltac:(lia)).
  destruct (serve 0 demo_rx 1 (extend_event (event3 SYN 7 1)) (ml_init, entry1)) as [[e2 entry2] w2].
  rewrite H1, H2. split; [exact (proj1 H3)|reflexivity].
Defined.

(** The stream ends at 15000; byte 15000 is the FIN. *)
Definition demo_fin_entry : txSarEntry :=
  mkTxSarEntry 14900 15001 64 0 14600 65535 15000 0 false true true.

Lemma rt_sends_fin_as_data_witness :
  let s := serve 0 demo_rx 2 (extend_event (event3 RT 7 1)) (ml_init, demo_fin_entry) in
  segments s.2 = [(14900, 101); (15000, 0)].
Proof.
  assert (in_width 32 (txe_not_ackd demo_fin_entry)) as Hw by by vm_compute.
  assert (0 < wrap WINDOW_BITS (txe_not_ackd demo_fin_entry - txe_ackd demo_fin_entry) <= MSS) as Ho
    by by vm_compute.
  pose proof (rt_sends_fin_as_data 0 demo_rx 1 7 demo_fin_entry ml_init (sim_config_ok false)
    ml_init_idle eq_refl Hw Ho) as H.
  cbv zeta in *. destruct (serve _ _ _ _ _) as [[e' entry'] w]. destruct H as (_ & _ & H & _).
  assert (wrap WINDOW_BITS (txe_not_ackd demo_fin_entry - txe_ackd demo_fin_entry) = 101) as Hn
    by by vm_compute.
  rewrite Hn in H. exact H.
Defined.

Lemma tx_breakdown_wrong_session_witness :
  (calls txEngMemAccessBreakdown 2
     (mkTxBreakdownEnv false zero_init 0 [rt_command 3 (262100, 100)])).2 =
    [W_memAccessBreakdown2txPkgStitcher true;
     W_outputMemAccess (mkMmCmd (buffer_addr 3 262100) 44); W_outputMemAccess (mkMmCmd 0 56)] /\
  buffer_addr 3 0 <> 0.
Proof.
  destruct (tx_breakdown_wrong_session 3 262100 100
    (mkTxBreakdownEnv false zero_init 0 [rt_command 3 (262100, 100)]) eq_refl eq_refl) as [H1 H2];
    [by vm_compute|by vm_compute|].
  split; [exact H1|]. apply H2. by vm_compute.
Defined.

Lemma tupleSplitter_pairs_witness :
  let t1 := mkFourTuple 1 2 3 4 in
  let t2 := mkFourTuple 5 6 7 8 in
  omap tcp_tuple (calls tupleSplitter 4 (mkTsEnv true false [t2] [t1] [false; true])).2 = [t1; t2].
Proof.
  pose proof (tupleSplitter_pairs [false; true] [mkFourTuple 5 6 7 8] [mkFourTuple 1 2 3 4]
    (mkTsEnv true false [mkFourTuple 5 6 7 8] [mkFourTuple 1 2 3 4] [false; true])
    eq_refl eq_refl eq_refl eq_refl eq_refl eq_refl) as H.
  simpl length in H. simpl Nat.mul in H. cbv zeta.
  destruct (calls tupleSplitter 4 _) as [e' w]. exact (proj1 H).
Defined.
End TxWitnesses.
