(* ===== verification/TxDatapath.v ===== *)
(** * From TCP metadata and payload to an IP packet ([toe/tx_engine])

    [read_data_arbiter] takes the payload of a segment from memory or from the
    application, [pseudoHeaderConstructionNew] puts the TCP header with the pseudo
    header in front, the checksum is computed and [insert_checksum] puts it in place
    when the pseudo header is gone ([remove_pseudo_header], [rshiftWordByOctet]);
    [generate_ipv4] adds the IP header. *)

From S2P Require Import Prelude Streams Words Shifters ToeTypes Headers TxEngine.

Section TxDatapath.
Context {WW : WordWidth} {C : ToeConfig}.

(** The contents of local words that the code leaves unassigned. *)
Variable garbage : list Z.

(** ** [read_data_arbiter] *)
Inductive tps_stateType := TPS_CHOOSE | TPS_MEMORY | TPS_BYPASS.  (* 0, 1, 2 *)

Record arbiter_env := mkArbiterEnv {
  tps_state : tps_stateType;
  ra_txBufferReadData : stream net_axis; ra_isDDRbypass : stream bool;
  ra_txApp2txEng_data_stream : stream net_axis
}.
#[export] Instance eta_arbiter_env : Eta arbiter_env := fun e =>
  mkArbiterEnv (tps_state e) (ra_txBufferReadData e) (ra_isDDRbypass e) (ra_txApp2txEng_data_stream e).

Definition arbiter_init : arbiter_env := mkArbiterEnv TPS_CHOOSE [] [] [].

Definition read_data_arbiter (e : arbiter_env) : arbiter_env * list net_axis :=
  match tps_state e with
  | TPS_CHOOSE =>
      match ra_isDDRbypass e with
      | [] => (e, [])
      | isBypass :: rest =>
          (e <| ra_isDDRbypass := rest |>
             <| tps_state := if (isBypass : bool) then TPS_BYPASS else TPS_MEMORY |>, [])
      end
  | TPS_MEMORY =>
      match ra_txBufferReadData e with
      | [] => (e, [])
      | currWord :: rest =>
          (e <| ra_txBufferReadData := rest |>
             <| tps_state := if last currWord then TPS_CHOOSE else TPS_MEMORY |>, [currWord])
      end
  | TPS_BYPASS =>
      match ra_txApp2txEng_data_stream e with
      | [] => (e, [])
      | currWord :: rest =>
          (e <| ra_txApp2txEng_data_stream := rest |>
             <| tps_state := if last currWord then TPS_CHOOSE else TPS_BYPASS |>, [currWord])
      end
  end.

(** ** [pseudoHeaderConstructionNew] *)
Inductive phc_stateType := PHC_META | PHC_HEADER | PHC_PARTIAL_HEADER | PHC_BODY | PHC_HEADER_MSS_OPTION.

Record phc_env := mkPhcEnv {
  phc_state : phc_stateType; phc_header : packetHeader; phc_hasBody : bool; phc_isSYN : bool;
  phc_win_shift : Z;
  tcpMetaDataFifoIn : stream tx_engine_meta; tcpTupleFifoIn : stream fourTuple;
  phc_dataIn : stream net_axis
}.
#[export] Instance eta_phc_env : Eta phc_env := fun e =>
  mkPhcEnv (phc_state e) (phc_header e) (phc_hasBody e) (phc_isSYN e) (phc_win_shift e)
    (tcpMetaDataFifoIn e) (tcpTupleFifoIn e) (phc_dataIn e).

Definition phc_init (h : Z) : phc_env :=
  mkPhcEnv PHC_META (mkPacketHeader false 0 (TcpFull.init h)) false false 0 [] [] [].

(** The assignments to the header, in their order. *)
Definition tx_dataOffset (meta : tx_engine_meta) : Z :=
  if tm_syn meta then if negb (tm_win_shift meta =? 0) then 7 else 6 else 5.

Definition set_header (meta : tx_engine_meta) (tuple : fourTuple) (h : Z) : Z :=
  let h := TcpFull.setSrcAddr (ft_srcIp tuple) h in
  let h := TcpFull.setDstAddr (ft_dstIp tuple) h in
  let h := TcpFull.setLength (tm_length meta + 20) h in
  let h := TcpFull.setSrcPort (ft_srcPort tuple) h in
  let h := TcpFull.setDstPort (ft_dstPort tuple) h in
  let h := TcpFull.setSeqNumb (tm_seqNumb meta) h in
  let h := TcpFull.setAckNumb (tm_ackNumb meta) h in
  let h := TcpFull.setDataOffset (tx_dataOffset meta) h in
  let h := TcpFull.setFinFlag (tm_fin meta) h in
  let h := TcpFull.setSynFlag (tm_syn meta) h in
  let h := TcpFull.setRstFlag (tm_rst meta) h in
  let h := TcpFull.setAckFlag (tm_ack meta) h in
  let h := TcpFull.setWindowSize (tm_window_size meta) h in
  TcpFull.setChecksum 0 h.

(** [reverse((ap_uint<16>)MSS)], by lanes. *)
Definition mss_option : list Z := [2; 4] ++ le_bytes 2 (reverse16 (wrap 16 MSS)).
Definition window_option (win_shift : Z) : list Z := [3; 3; win_shift; 0].

(** The lanes from [n] on are assigned. *)
Definition put {A} (n : nat) (v l : list A) : list A := take n l ++ v ++ drop (n + length v) l.

(** The options, put into the word of the header (512 bits); the lanes behind are not
    marked, the simulation alone clears them. *)
Definition put_options (win_shift : Z) (w : net_axis) : net_axis :=
  let w := mkWord (put 32 mss_option (data w)) (put 32 (replicate 4 true) (keep w)) (last w) in
  if negb (win_shift =? 0)
  then mkWord (put 36 (window_option win_shift) (data w)) (put 36 (replicate 4 true) (keep w)) (last w)
  else w.

Definition pseudoHeaderConstructionNew (e : phc_env) : phc_env * list net_axis :=
  match phc_state e with
  | PHC_META =>
      match tcpMetaDataFifoIn e, tcpTupleFifoIn e with
      | meta :: metas, tuple :: tuples =>
          let header := clear (phc_header e) in
          let hasBody := negb (tm_length meta =? 0) && negb (tm_syn meta) in
          (mkPhcEnv (if (256 <? WIDTH) && hasBody then PHC_PARTIAL_HEADER else PHC_HEADER)
             (header <| ph_header := set_header meta tuple (ph_header header) |>)
             hasBody (tm_syn meta) (tm_win_shift meta) metas tuples (phc_dataIn e), [])
      | _, _ => (e, [])
      end
  | PHC_HEADER =>
      let '(header, sendData, remainingLength) :=
        consumeWord TCP_FULL_PSEUDO_HEADER_SIZE garbage (phc_header e) in
      let mss := phc_isSYN e && (WIDTH <=? 256) in
      let '(state, lst) :=
        if remainingLength <? WIDTH / 8
        then if phc_hasBody e then (PHC_BODY, false)
             else if mss then (PHC_HEADER_MSS_OPTION, false) else (PHC_META, true)
        else (PHC_HEADER, false) in
      let sendWord := mkWord sendData (to_lanes lanes 4294967295) lst in
      (e <| phc_header := header |> <| phc_state := state |>,
       [if phc_isSYN e && (WIDTH =? 512) then put_options (phc_win_shift e) sendWord else sendWord])
  | PHC_PARTIAL_HEADER =>
      match phc_dataIn e with
      | [] => (e, [])
      | currWord :: rest =>
          let '(header, sendData, _) :=
            consumeWord TCP_FULL_PSEUDO_HEADER_SIZE (data currWord) (phc_header e) in
          (e <| phc_header := header |> <| phc_dataIn := rest |>
             <| phc_state := if last currWord then PHC_META else PHC_BODY |>,
           [mkWord sendData (keep currWord) (last currWord)])
      end
  | PHC_BODY =>
      match phc_dataIn e with
      | [] => (e, [])
      | currWord :: rest =>
          (e <| phc_dataIn := rest |>
             <| phc_state := if last currWord then PHC_META else PHC_BODY |>, [currWord])
      end
  | PHC_HEADER_MSS_OPTION =>
      let options := mss_option ++ (if negb (phc_win_shift e =? 0) then window_option (phc_win_shift e) else []) in
      (e <| phc_state := PHC_META |>,
       [mkWord (put 0 options garbage) (low_lanes lanes (length options)) true])
  end.

(** ** [remove_pseudo_header] *)
Record remove_env := mkRemoveEnv { rp_firstWord : bool; rp_dataIn : stream net_axis }.
#[export] Instance eta_remove_env : Eta remove_env := fun e => mkRemoveEnv (rp_firstWord e) (rp_dataIn e).
Definition remove_init : remove_env := mkRemoveEnv true [].

Definition remove_pseudo_header (e : remove_env) : remove_env * list net_axis :=
  match rp_dataIn e with
  | [] => (e, [])
  | word :: rest =>
      (mkRemoveEnv (last word) rest, when (negb (rp_firstWord e) || (64 <? WIDTH)) [word])
  end.

(** ** [insert_checksum] *)
Inductive ic_stateType := IC_SKIP | IC_INSERT | IC_REST.  (* 0, 1, 2 *)

Record insert_env := mkInsertEnv {
  ic_state : ic_stateType; ic_wordCount : Z; checksumIn : stream Z; ic_dataIn : stream net_axis
}.
#[export] Instance eta_insert_env : Eta insert_env := fun e =>
  mkInsertEnv (ic_state e) (ic_wordCount e) (checksumIn e) (ic_dataIn e).

Definition ic_first : ic_stateType := if 128 <? WIDTH then IC_INSERT else IC_SKIP.
Definition insert_init : insert_env := mkInsertEnv ic_first 0 [] [].

Definition insert_checksum (e : insert_env) : insert_env * list net_axis :=
  match ic_state e with
  | IC_SKIP =>
      match ic_dataIn e with
      | [] => (e, [])
      | word :: rest =>
          let wordCount := wrap 3 (ic_wordCount e + 1) in
          let full := wordCount =? 128 / WIDTH in
          (e <| ic_dataIn := rest |> <| ic_wordCount := if full then 0 else wordCount |>
             <| ic_state := if full then IC_INSERT else IC_SKIP |>, [word])
      end
  | IC_INSERT =>
      match checksumIn e, ic_dataIn e with
      | checksum :: checksums, word :: rest =>
          let at_lane := if 128 <? WIDTH then 16%nat else 0%nat in
          (e <| checksumIn := checksums |> <| ic_dataIn := rest |>
             <| ic_state := if last word then ic_first else IC_REST |>,
           [mkWord (put at_lane (le_bytes 2 (reverse16 checksum)) (data word)) (keep word) (last word)])
      | _, _ => (e, [])
      end
  | IC_REST =>
      match ic_dataIn e with
      | [] => (e, [])
      | word :: rest =>
          (e <| ic_dataIn := rest |> <| ic_state := if last word then ic_first else IC_REST |>, [word])
      end
  end.

(** ** [generate_ipv4] *)
Inductive gi_stateType := GI_META | GI_HEADER | GI_PARTIAL_HEADER | GI_BODY.

Record generate_env := mkGenerateEnv {
  gi_state : gi_stateType; gi_header : packetHeader;
  txEng_ipMetaDataFifoIn : stream Z; txEng_ipTupleFifoIn : stream twoTuple;
  tx_shift2ipv4Fifo : stream net_axis
}.
#[export] Instance eta_generate_env : Eta generate_env := fun e =>
  mkGenerateEnv (gi_state e) (gi_header e) (txEng_ipMetaDataFifoIn e) (txEng_ipTupleFifoIn e)
    (tx_shift2ipv4Fifo e).

Definition generate_init (h : Z) : generate_env :=
  mkGenerateEnv GI_META (mkPacketHeader false 0 (Ipv4.init h)) [] [] [].

Definition TCP_PROTOCOL : Z := 6.

Definition set_ip_header (metaLength : Z) (tuples : twoTuple) (h : Z) : Z :=
  Ipv4.setProtocol TCP_PROTOCOL
    (Ipv4.setSrcAddr (tt_srcIp tuples)
       (Ipv4.setDstAddr (tt_dstIp tuples) (Ipv4.setLength (wrap 16 (metaLength + 40)) h))).

Definition generate_ipv4 (e : generate_env) : generate_env * list net_axis :=
  match gi_state e with
  | GI_META =>
      match txEng_ipMetaDataFifoIn e, txEng_ipTupleFifoIn e with
      | metaLength :: lengths, tuples :: tupless =>
          let header := clear (gi_header e) in
          (mkGenerateEnv (if WIDTH <=? IPV4_HEADER_SIZE then GI_HEADER else GI_PARTIAL_HEADER)
             (header <| ph_header := set_ip_header metaLength tuples (ph_header header) |>)
             lengths tupless (tx_shift2ipv4Fifo e), [])
      | _, _ => (e, [])
      end
  | GI_HEADER =>
      let '(header, sendData, remainingLength) := consumeWord IPV4_HEADER_SIZE garbage (gi_header e) in
      (e <| gi_header := header |>
         <| gi_state := if remainingLength <? WIDTH / 8 then GI_PARTIAL_HEADER else GI_HEADER |>,
       [mkWord sendData (to_lanes lanes 4294967295) false])
  | GI_PARTIAL_HEADER =>
      match tx_shift2ipv4Fifo e with
      | [] => (e, [])
      | currWord :: rest =>
          let '(header, sendData, _) := consumeWord IPV4_HEADER_SIZE (data currWord) (gi_header e) in
          (e <| gi_header := header |> <| tx_shift2ipv4Fifo := rest |>
             <| gi_state := if last currWord then GI_META else GI_BODY |>,
           [mkWord sendData (keep currWord) (last currWord)])
      end
  | GI_BODY =>
      match tx_shift2ipv4Fifo e with
      | [] => (e, [])
      | currWord :: rest =>
          (e <| tx_shift2ipv4Fifo := rest |>
             <| gi_state := if last currWord then GI_META else GI_BODY |>, [currWord])
      end
  end.
End TxDatapath.

#[export] Existing Instances eta_arbiter_env eta_phc_env eta_remove_env eta_insert_env eta_generate_env.
