(* ===== verification/TxBackend.v ===== *)
(** * The back end of the transmit path, from metadata and payload to an IP packet

    The stages of TxDatapath.v, each as a deterministic process with a lemma on what
    it makes of one packet, for words of 512 bits. *)

From S2P Require Import Prelude Streams Words Shifters ToeTypes Checksum Headers TxEngine TxDatapath.
From S2P Require Import RxFrontend.

Section TxHeaders.
Context {C : ToeConfig}.

(** ** The TCP header *)
Definition tx_flags (m : tx_engine_meta) : Z :=
  b2z (tm_fin m) + 2 * b2z (tm_syn m) + 4 * b2z (tm_rst m) + 16 * b2z (tm_ack m).

(** The pseudo header and the TCP header without options, the checksum zero. *)
Definition tx_header (m : tx_engine_meta) (t : fourTuple) : list Z :=
  le_bytes 4 (ft_srcIp t) ++ le_bytes 4 (ft_dstIp t) ++ [0; 6]
  ++ le_bytes 2 (reverse16 (wrap 16 (tm_length m + 20)))
  ++ le_bytes 2 (ft_srcPort t) ++ le_bytes 2 (ft_dstPort t)
  ++ be_bytes 4 (tm_seqNumb m) ++ be_bytes 4 (tm_ackNumb m)
  ++ [16 * tx_dataOffset m; tx_flags m] ++ le_bytes 2 (reverse16 (tm_window_size m)) ++ [0; 0; 0; 0].

(** The fields that only the constructor assigns. *)
Record tx_static (h : Z) : Prop := {
  ts_protocol : bits 79 64 h = 1536; ts_ns : bits 195 192 h = 0; ts_psh : bits 203 203 h = 0;
  ts_urg : bits 207 205 h = 0; ts_pointer : bits 255 240 h = 0
}.

Record widths_ok (m : tx_engine_meta) (t : fourTuple) : Prop := {
  wo_src : in_width 32 (ft_srcIp t); wo_dst : in_width 32 (ft_dstIp t);
  wo_sport : in_width 16 (ft_srcPort t); wo_dport : in_width 16 (ft_dstPort t);
  wo_seq : in_width 32 (tm_seqNumb m); wo_ack : in_width 32 (tm_ackNumb m);
  wo_win : in_width 16 (tm_window_size m); wo_shift : in_width 4 (tm_win_shift m)
}.

Ltac unfold_setters :=
  unfold set_header, TcpFull.init, TcpFull.setSrcAddr, TcpFull.setDstAddr, TcpFull.setLength, TcpFull.setSrcPort,
    TcpFull.setDstPort, TcpFull.setSeqNumb, TcpFull.setAckNumb, TcpFull.setDataOffset,
    TcpFull.setAckFlag, TcpFull.setRstFlag, TcpFull.setSynFlag, TcpFull.setFinFlag,
    TcpFull.setWindowSize, TcpFull.setChecksum.

Lemma tx_init_static h : tx_static (TcpFull.init h).
Proof.
  constructor; unfold TcpFull.init; [rewrite (bits_split 71) by lia|rewrite (bits_split 192) by lia|..]; by read_range.
Qed.

Lemma set_header_static m t h : tx_static h -> tx_static (set_header m t h).
Proof. intros [H1 H2 H3 H4 H5]. constructor; unfold_setters; by read_range. Qed.

Lemma b2z_wrap b : wrap 1 (b2z b) = b2z b.
Proof. by destruct b. Qed.

Lemma set_header_flags m t h : tx_static h -> bits 207 200 (set_header m t h) = tx_flags m.
Proof.
  intros [H1 H2 H3 H4 H5].
  rewrite (bits_cut 200 201 1 207), (bits_cut 201 202 1 207), (bits_cut 202 203 1 207),
    (bits_cut 203 204 1 207), (bits_cut 204 205 1 207) by lia.
  unfold_setters. cbv zeta. read_range.
  change (wrap (?a - ?a + 1) ?x) with (wrap 1 x). rewrite !b2z_wrap, H3, H4. unfold tx_flags.
  by destruct (tm_fin m), (tm_syn m), (tm_rst m), (tm_ack m).
Qed.

Lemma tx_dataOffset_range m : 5 <= tx_dataOffset m <= 7.
Proof. unfold tx_dataOffset. destruct (tm_syn m); [destruct (negb (tm_win_shift m =? 0))|]; lia. Qed.

Lemma set_header_offset m t h : tx_static h -> bits 199 192 (set_header m t h) = 16 * tx_dataOffset m.
Proof.
  intros [H1 H2 H3 H4 H5]. rewrite (bits_cut 195 196 4) by lia. unfold_setters. cbv zeta. read_range. rewrite H2.
  rewrite wrap_small; [cbn; lia|]. pose proof (tx_dataOffset_range m). unfold in_width. pow2. cbn. lia.
Qed.

Lemma le_bytes_one z : in_width 8 z -> le_bytes 1 z = [z].
Proof. intros H. cbn. by rewrite Z.mod_small. Qed.

Lemma set_header_bytes m t h :
  tx_static h -> widths_ok m t -> le_bytes 32 (bits 255 0 (set_header m t h)) = tx_header m t.
Proof.
  intros Hs [W1 W2 W3 W4 W5 W6 W7 _]. pose proof Hs as [H1 H2 H3 H4 H5].
  change 32%nat with (4 + (4 + (2 + (2 + (2 + (2 + (4 + (4 + (1 + (1 + (2 + 4)))))))))))%nat.
  rewrite (le_bytes_cut 4 _ 255 32 31 0), (le_bytes_cut 4 _ 255 64 63), (le_bytes_cut 2 _ 255 80 79),
    (le_bytes_cut 2 _ 255 96 95), (le_bytes_cut 2 _ 255 112 111), (le_bytes_cut 2 _ 255 128 127),
    (le_bytes_cut 4 _ 255 160 159), (le_bytes_cut 4 _ 255 192 191), (le_bytes_cut 1 _ 255 200 199),
    (le_bytes_cut 1 _ 255 208 207), (le_bytes_cut 2 _ 255 224 223) by lia.
  rewrite (set_header_offset m t h Hs), (set_header_flags m t h Hs).
  rewrite (le_bytes_one (16 * _)) by (pose proof (tx_dataOffset_range m); unfold in_width; pow2; lia).
  rewrite (le_bytes_one (tx_flags m)) by (by unfold tx_flags; destruct (tm_fin m), (tm_syn m), (tm_rst m), (tm_ack m)).
  rewrite (bits_cut 239 240 16 255 224) by lia.
  unfold_setters. cbv zeta. read_range. rewrite H1, H5.
  unfold tx_header. rewrite <- !reverse32_bytes by done.
  by rewrite !le_bytes_wrap by lia.
Qed.
(** ** The IP header *)

(** [h0] is what the header object holds in the fields that are never assigned: type
    of service, identification and fragment, and the header checksum. *)
Definition ip_header (h0 len : Z) (t : twoTuple) : list Z :=
  [69] ++ le_bytes 1 (bits 15 8 h0) ++ le_bytes 2 (reverse16 (wrap 16 (len + 40)))
  ++ le_bytes 4 (bits 63 32 h0) ++ [64; 6] ++ le_bytes 2 (bits 95 80 h0)
  ++ le_bytes 4 (tt_srcIp t) ++ le_bytes 4 (tt_dstIp t).

Record ip_static (h0 h : Z) : Prop := {
  is_version : bits 7 0 h = 69; is_tos : bits 15 8 h = bits 15 8 h0;
  is_fragment : bits 63 32 h = bits 63 32 h0; is_ttl : bits 71 64 h = 64;
  is_checksum : bits 95 80 h = bits 95 80 h0
}.

Ltac unfold_ip :=
  unfold set_ip_header, Ipv4.init, Ipv4.setProtocol, Ipv4.setSrcAddr, Ipv4.setDstAddr, Ipv4.setLength, TCP_PROTOCOL.

Lemma ip_init_static h : ip_static h (Ipv4.init h).
Proof. constructor; unfold_ip; by read_range. Qed.

Lemma set_ip_header_static h0 len t h : ip_static h0 h -> ip_static h0 (set_ip_header len t h).
Proof. intros [H1 H2 H3 H4 H5]. constructor; unfold_ip; by read_range. Qed.

Lemma set_ip_header_bytes h0 len t h :
  ip_static h0 h -> le_bytes 20 (bits 159 0 (set_ip_header len t h)) = ip_header h0 len t.
Proof.
  intros [H1 H2 H3 H4 H5]. change 20%nat with (1 + (1 + (2 + (4 + (1 + (1 + (2 + (4 + 4))))))))%nat.
  rewrite (le_bytes_cut 1 _ 159 8 7 0), (le_bytes_cut 1 _ 159 16 15), (le_bytes_cut 2 _ 159 32 31),
    (le_bytes_cut 4 _ 159 64 63), (le_bytes_cut 1 _ 159 72 71), (le_bytes_cut 1 _ 159 80 79),
    (le_bytes_cut 2 _ 159 96 95), (le_bytes_cut 4 _ 159 128 127) by lia.
  unfold_ip. read_range. rewrite H1, H2, H3, H4, H5. unfold ip_header.
  rewrite !le_bytes_wrap by lia. by rewrite wrap_wrap.
Qed.

(** The options of a SYN. *)
Definition tx_options (m : tx_engine_meta) : list Z :=
  if tm_syn m
  then mss_option ++ (if negb (tm_win_shift m =? 0) then window_option (tm_win_shift m) else [])
  else [].

Lemma put_at {A} n (l1 l2 v : list A) :
  length l1 = n -> put n v (l1 ++ l2) = l1 ++ v ++ drop (length v) l2.
Proof.
  intros <-. unfold put. rewrite take_app_length. do 2 f_equal.
  by rewrite drop_app_ge, Nat.add_comm, Nat.add_sub by lia.
Qed.
End TxHeaders.

Section TxBackend.
Context {WW : WordWidth} {C : ToeConfig}.
Variable garbage : list Z.

(** ** The stages as deterministic processes *)
Inductive arbiter_arrival := A_fromMemory (w : net_axis) | A_isBypass (b : bool) | A_fromApp (w : net_axis).
Definition arbiter_arrive (a : arbiter_arrival) (e : arbiter_env) : arbiter_env :=
  match a with
  | A_fromMemory w => e <| ra_txBufferReadData := ra_txBufferReadData e ++ [w] |>
  | A_isBypass b => e <| ra_isDDRbypass := ra_isDDRbypass e ++ [b] |>
  | A_fromApp w => e <| ra_txApp2txEng_data_stream := ra_txApp2txEng_data_stream e ++ [w] |>
  end.

#[export, refine] Instance arbiter_kahn : KahnProcess read_data_arbiter arbiter_arrive := {
  kahn_work e := (length (ra_txBufferReadData e) + length (ra_isDDRbypass e)
                  + length (ra_txApp2txEng_data_stream e))%nat;
  kahn_progress := _; kahn_diamond := _
}.
Proof.
  - intros [[] [|m ms] [|b bs] [|a as_]]; unfold read_data_arbiter; simpl; (by left) || (right; lia).
  - intros [m'|b'|a'] [[] [|m ms] [|b bs] [|a as_]]; unfold read_data_arbiter; simpl;
      (by left) || (by right).
Defined.

Definition remove_arrive (w : net_axis) (e : remove_env) : remove_env :=
  e <| rp_dataIn := rp_dataIn e ++ [w] |>.

#[export, refine] Instance remove_kahn : KahnProcess remove_pseudo_header remove_arrive := {
  kahn_work e := length (rp_dataIn e); kahn_progress := _; kahn_diamond := _
}.
Proof.
  - intros [f [|w ws]]; [by left|right; simpl; lia].
  - intros a [f [|w ws]]; [by left|by right].
Defined.

Inductive insert_arrival := A_checksum (c : Z) | A_toInsert (w : net_axis).
Definition insert_arrive (a : insert_arrival) (e : insert_env) : insert_env :=
  match a with
  | A_checksum c => e <| checksumIn := checksumIn e ++ [c] |>
  | A_toInsert w => e <| ic_dataIn := ic_dataIn e ++ [w] |>
  end.

#[export, refine] Instance insert_kahn : KahnProcess insert_checksum insert_arrive := {
  kahn_work e := length (ic_dataIn e); kahn_progress := _; kahn_diamond := _
}.
Proof.
  - intros [[] n [|c cs] [|w ws]]; unfold insert_checksum; simpl; (by left) || (right; simpl; lia).
  - intros [c'|w'] [[] n [|c cs] [|w ws]]; unfold insert_checksum; simpl; (by left) || (by right).
Defined.

Hypothesis lanes64 : lanes = 64%nat.

(** A header shorter than a word is sent with the first word. *)
Lemma consume_once HEADER_SIZE w r i h :
  0 < HEADER_SIZE < 512 -> 0 <= i ->
  exists j w', consumeWord HEADER_SIZE w (mkPacketHeader r i h) = (mkPacketHeader r j h, w', 0) /\
    (i = 0 -> w' = le_bytes (Z.to_nat (HEADER_SIZE / 8)) (bits (HEADER_SIZE - 1) 0 h)
                   ++ drop (Z.to_nat (HEADER_SIZE / 8)) w).
Proof.
  intros Hs Hi. unfold consumeWord. cbn [ph_idx ph_header]. rewrite (WIDTH_512 lanes64).
  rewrite (proj2 (Z.leb_gt _ _)) by lia.
  destruct (Z.ltb_spec (i * 512) HEADER_SIZE).
  - eexists _, _. split; [reflexivity|]. intros ->. by rewrite Z.mod_small by lia.
  - eexists _, _. split; [reflexivity|]. lia.
Qed.

(** In the unreachable states with a negative index at most one word more is sent. *)
Lemma consume_negative HEADER_SIZE w r i h :
  0 < HEADER_SIZE < 512 -> i < 0 ->
  exists j w' n, consumeWord HEADER_SIZE w (mkPacketHeader r i h) = (mkPacketHeader r j h, w', n) /\ 0 <= j.
Proof.
  intros Hs Hi. unfold consumeWord. cbn [ph_idx ph_header]. rewrite (WIDTH_512 lanes64).
  rewrite (proj2 (Z.leb_le _ _)) by lia.
  eexists _, _, _. split; [reflexivity|]. apply (wrap_range 16). lia.
Qed.

Definition sends (i : Z) : nat := if (i <? 0)%Z then 2%nat else 1%nat.

Inductive phc_arrival := A_txMeta (m : tx_engine_meta) | A_txTuple (t : fourTuple) | A_txData (w : net_axis).
Definition phc_arrive (a : phc_arrival) (e : phc_env) : phc_env :=
  match a with
  | A_txMeta m => e <| tcpMetaDataFifoIn := tcpMetaDataFifoIn e ++ [m] |>
  | A_txTuple t => e <| tcpTupleFifoIn := tcpTupleFifoIn e ++ [t] |>
  | A_txData w => e <| phc_dataIn := phc_dataIn e ++ [w] |>
  end.

Definition phc_pending (e : phc_env) : nat :=
  match phc_state e with
  | PHC_HEADER => S (sends (ph_idx (phc_header e)))
  | PHC_HEADER_MSS_OPTION => 1%nat
  | _ => 0%nat
  end.

Lemma phc_header_call hd b s n ms ts ws :
  let e := mkPhcEnv PHC_HEADER hd b s n ms ts ws in
  exists st hd' w, pseudoHeaderConstructionNew garbage e = (mkPhcEnv st hd' b s n ms ts ws, [w]) /\
    (phc_pending (mkPhcEnv st hd' b s n ms ts ws) < phc_pending e)%nat.
Proof.
  destruct hd as [r i h]. unfold pseudoHeaderConstructionNew, phc_pending, sends.
  cbn [phc_state phc_header phc_isSYN phc_hasBody ph_idx].
  rewrite (WIDTH_512 lanes64). change (512 <=? 256) with false. rewrite andb_false_r.
  destruct (Z.ltb_spec i 0) as [Hi|Hi].
  - destruct (consume_negative TCP_FULL_PSEUDO_HEADER_SIZE garbage r i h ltac:(done) Hi) as (j & w' & k & -> & Hj).
    destruct (k <? 512 / 8), b; eexists _, _, _; (split; [reflexivity|]); cbn; try lia;
      rewrite (proj2 (Z.ltb_ge j 0)) by done; lia.
  - destruct (consume_once TCP_FULL_PSEUDO_HEADER_SIZE garbage r i h ltac:(done) Hi) as (j & w' & -> & _).
    destruct b; eexists _, _, _; (split; [reflexivity|]); cbn; lia.
Qed.

#[export, refine] Instance phc_kahn :
  KahnProcess (pseudoHeaderConstructionNew garbage) phc_arrive := {
  kahn_work e := (4 * length (tcpMetaDataFifoIn e) + length (phc_dataIn e) + phc_pending e)%nat;
  kahn_progress := _; kahn_diamond := _
}.
Proof.
  - intros [[] [r i h] b s n ms ts ws].
    + destruct ms as [|m ms], ts as [|t ts]; try (by left). right.
      unfold pseudoHeaderConstructionNew, phc_pending. cbn. destruct (_ && _); simpl; lia.
    + right. destruct (phc_header_call (mkPacketHeader r i h) b s n ms ts ws) as (st & hd' & w & -> & H). simpl in *. lia.
    + destruct ws as [|w ws]; [by left|right]. unfold pseudoHeaderConstructionNew. cbn [phc_state phc_dataIn phc_header].
      destruct (consumeWord _ _ _) as [[h' d'] n']. unfold phc_pending. cbn. destruct (last w); simpl; lia.
    + destruct ws as [|w ws]; [by left|right]. unfold phc_pending. cbn. destruct (last w); simpl; lia.
    + right. unfold phc_pending. cbn. lia.
  - intros a [[] h b s n ms ts ws].
    + destruct ms as [|m ms], ts as [|t ts]; (by left) || (right; by destruct a).
    + right. unfold pseudoHeaderConstructionNew. destruct a; cbn;
        destruct (consumeWord _ _ _) as [[h' d'] n']; repeat case_match_in_goal; done.
    + destruct ws as [|w ws]; [by left|right]. unfold pseudoHeaderConstructionNew. destruct a; cbn;
        by destruct (consumeWord _ _ _) as [[h' d'] n'].
    + destruct ws as [|w ws]; (by left) || (right; by destruct a).
    + right. by destruct a.
Defined.
Inductive generate_arrival := A_ipLength (n : Z) | A_ipTuple (t : twoTuple) | A_ipShifted (w : net_axis).
Definition generate_arrive (a : generate_arrival) (e : generate_env) : generate_env :=
  match a with
  | A_ipLength n => e <| txEng_ipMetaDataFifoIn := txEng_ipMetaDataFifoIn e ++ [n] |>
  | A_ipTuple t => e <| txEng_ipTupleFifoIn := txEng_ipTupleFifoIn e ++ [t] |>
  | A_ipShifted w => e <| tx_shift2ipv4Fifo := tx_shift2ipv4Fifo e ++ [w] |>
  end.

Definition gi_pending (e : generate_env) : nat :=
  match gi_state e with GI_HEADER => S (sends (ph_idx (gi_header e))) | _ => 0%nat end.

Lemma gi_header_call hd ns ts ws :
  let e := mkGenerateEnv GI_HEADER hd ns ts ws in
  exists st hd' w, generate_ipv4 garbage e = (mkGenerateEnv st hd' ns ts ws, [w]) /\
    (gi_pending (mkGenerateEnv st hd' ns ts ws) < gi_pending e)%nat.
Proof.
  destruct hd as [r i h]. unfold generate_ipv4, gi_pending, sends. cbn [gi_state gi_header ph_idx].
  rewrite (WIDTH_512 lanes64). destruct (Z.ltb_spec i 0) as [Hi|Hi].
  - destruct (consume_negative IPV4_HEADER_SIZE garbage r i h ltac:(done) Hi) as (j & w' & k & -> & Hj).
    destruct (k <? 512 / 8); eexists _, _, _; (split; [reflexivity|]); cbn; try lia;
      rewrite (proj2 (Z.ltb_ge j 0)) by done; lia.
  - destruct (consume_once IPV4_HEADER_SIZE garbage r i h ltac:(done) Hi) as (j & w' & -> & _).
    change (0 <? 512 / 8) with true. eexists _, _, _; (split; [reflexivity|]); cbn; lia.
Qed.

#[export, refine] Instance generate_kahn : KahnProcess (generate_ipv4 garbage) generate_arrive := {
  kahn_work e := (4 * length (txEng_ipMetaDataFifoIn e) + length (tx_shift2ipv4Fifo e) + gi_pending e)%nat;
  kahn_progress := _; kahn_diamond := _
}.
Proof.
  - intros [[] [r i h] ns ts ws].
    + destruct ns as [|n ns], ts as [|t ts]; try (by left). right.
      unfold generate_ipv4, gi_pending. cbn. destruct (_ <=? _); simpl; lia.
    + right. destruct (gi_header_call (mkPacketHeader r i h) ns ts ws) as (st & hd' & w & -> & H). simpl in *. lia.
    + destruct ws as [|w ws]; [by left|right]. unfold generate_ipv4. cbn [gi_state tx_shift2ipv4Fifo gi_header].
      destruct (consumeWord _ _ _) as [[h' d'] n']. unfold gi_pending. cbn. destruct (last w); simpl; lia.
    + destruct ws as [|w ws]; [by left|right]. unfold gi_pending. cbn. destruct (last w); simpl; lia.
  - intros a [[] h ns ts ws].
    + destruct ns as [|n ns], ts as [|t ts]; (by left) || (right; by destruct a).
    + right. unfold generate_ipv4. destruct a; cbn;
        destruct (consumeWord _ _ _) as [[h' d'] n']; repeat case_match_in_goal; done.
    + destruct ws as [|w ws]; [by left|right]. unfold generate_ipv4. destruct a; cbn;
        by destruct (consumeWord _ _ _) as [[h' d'] n'].
    + destruct ws as [|w ws]; (by left) || (right; by destruct a).
Defined.

(** ** The first lanes of a packet are replaced *)
Lemma replace_head ws n bs v w ws' :
  packet ws bs -> ws = w :: ws' -> (n <= length bs)%nat -> (n <= lanes)%nat -> length v = n ->
  packet (mkWord (v ++ drop n (data w)) (keep w) (last w) :: ws') (v ++ drop n bs).
Proof.
  intros Hp -> Hn Hl Hv. inversion Hp as [? pad Hne Hlen|b0 ? bs2 Hlen Hp2]; subst; cbn [data keep last].
  - rewrite drop_app_le, app_assoc by done.
    replace (length bs) with (length (v ++ drop (length v) bs)) by (rewrite length_app, length_drop; lia).
    constructor; [|rewrite length_app, length_drop; lia].
    intros H%(f_equal length). rewrite length_app, length_drop in H. destruct bs; [done|]. simpl in *. lia.
  - rewrite drop_app_le, app_assoc by lia. constructor; [|done]. rewrite length_app, length_drop. lia.
Qed.

(** Some lanes in the middle of the first word are replaced. *)
Lemma put_spec n v (bs : list Z) : put n v bs = (take n bs ++ v) ++ drop (n + length v) bs.
Proof. unfold put. by rewrite app_assoc. Qed.

Lemma put_word ws n bs v w ws' :
  packet ws bs -> ws = w :: ws' -> (n + length v <= length bs)%nat -> (n + length v <= lanes)%nat ->
  packet (mkWord (put n v (data w)) (keep w) (last w) :: ws') (put n v bs).
Proof.
  intros Hp Hws Hn Hl. rewrite !put_spec. destruct (packet_first ws bs Hp) as (w0 & ws0 & H0 & k & pad & Hd & _ & Hk & Hkl).
  assert (take n (data w) = take n bs) as ->.
  { rewrite Hws in H0. injection H0 as -> ->. rewrite Hd, take_app_le by (rewrite length_take; lia).
    rewrite take_take. f_equal. lia. }
  eapply replace_head; try done; rewrite ?length_app, ?length_take; lia.
Qed.

(** ** [remove_pseudo_header]: at 512 bits the words pass *)
Lemma remove_passes ws f :
  drained remove_pseudo_header remove_arrive (mkRemoveEnv f ws) = ws.
Proof.
  revert f. induction ws as [|w ws IH]; intros f; [by apply drained_stuck|].
  erewrite drained_call by reflexivity. rewrite (WIDTH_512 lanes64), orb_true_r. cbn [when app]. by rewrite IH.
Qed.

(** ** [insert_checksum] *)
Lemma insert_rest ws n cs rest :
  framed ws ->
  drained insert_checksum insert_arrive (mkInsertEnv IC_REST n cs (ws ++ rest))
  = ws ++ drained insert_checksum insert_arrive (mkInsertEnv IC_INSERT n cs rest).
Proof.
  induction 1 as [w Hl|w ws Hl _ IH]; cbn [app]; (erewrite drained_call by reflexivity); cbn; rewrite Hl.
  - unfold ic_first. by rewrite (WIDTH_512 lanes64).
  - by rewrite IH.
Qed.

Lemma insert_packet ws bs c cs n rest :
  packet ws bs -> (18 <= length bs)%nat ->
  exists ws', drained insert_checksum insert_arrive (mkInsertEnv IC_INSERT n (c :: cs) (ws ++ rest))
    = ws' ++ drained insert_checksum insert_arrive (mkInsertEnv IC_INSERT n cs rest) /\
    packet ws' (put 16 (le_bytes 2 (reverse16 c)) bs).
Proof.
  intros Hp Hl. pose proof (packet_framed _ _ Hp) as Hf.
  destruct (packet_first _ _ Hp) as (w & ws' & -> & _).
  assert (insert_checksum (mkInsertEnv IC_INSERT n (c :: cs) (w :: ws' ++ rest))
    = (mkInsertEnv (if last w then IC_INSERT else IC_REST) n cs (ws' ++ rest),
       [mkWord (put 16 (le_bytes 2 (reverse16 c)) (data w)) (keep w) (last w)])) as Hcall.
  { unfold insert_checksum, ic_first. cbn [ic_state checksumIn ic_dataIn]. by rewrite (WIDTH_512 lanes64). }
  cbn [app]. erewrite drained_call by exact Hcall.
  eexists (_ :: ws'). split; [|eapply (put_word (w :: ws')); try done; cbn; lia].
  inversion Hf as [? Hlast|? ? Hlast Hf']; subst; rewrite Hlast; [done|].
  rewrite insert_rest by done. done.
Qed.

(** ** [generate_ipv4] *)
Lemma generate_rest ws hd ns ts rest :
  framed ws ->
  drained (generate_ipv4 garbage) generate_arrive (mkGenerateEnv GI_BODY hd ns ts (ws ++ rest))
  = ws ++ drained (generate_ipv4 garbage) generate_arrive (mkGenerateEnv GI_META hd ns ts rest).
Proof.
  induction 1 as [w Hl|w ws Hl _ IH]; cbn [app]; (erewrite drained_call by reflexivity); cbn; rewrite Hl; [done|].
  by rewrite IH.
Qed.

Lemma generate_packet ws bs len t ns ts rest r i h :
  packet ws bs -> (20 <= length bs)%nat ->
  let h' := set_ip_header len t h in
  exists ws' r' i', drained (generate_ipv4 garbage) generate_arrive
      (mkGenerateEnv GI_META (mkPacketHeader r i h) (len :: ns) (t :: ts) (ws ++ rest))
    = ws' ++ drained (generate_ipv4 garbage) generate_arrive
        (mkGenerateEnv GI_META (mkPacketHeader r' i' h') ns ts rest) /\
    packet ws' (le_bytes 20 (bits 159 0 h') ++ drop 20 bs).
Proof.
  intros Hp Hl h'. pose proof (packet_framed _ _ Hp) as Hf.
  destruct (packet_first _ _ Hp) as (w & ws' & -> & _). cbn [app].
  assert (generate_ipv4 garbage (mkGenerateEnv GI_META (mkPacketHeader r i h) (len :: ns) (t :: ts) (w :: ws' ++ rest))
    = (mkGenerateEnv GI_PARTIAL_HEADER (mkPacketHeader false 0 h') ns ts (w :: ws' ++ rest), [])) as Hcall.
  { unfold generate_ipv4. cbn. by rewrite (WIDTH_512 lanes64). }
  erewrite drained_call by exact Hcall.
  destruct (consume_once IPV4_HEADER_SIZE (data w) false 0 h' ltac:(done) ltac:(done)) as (j & w' & Hc & Hw').
  assert (generate_ipv4 garbage (mkGenerateEnv GI_PARTIAL_HEADER (mkPacketHeader false 0 h') ns ts (w :: ws' ++ rest))
    = (mkGenerateEnv (if last w then GI_META else GI_BODY) (mkPacketHeader false j h') ns ts (ws' ++ rest),
       [mkWord w' (keep w) (last w)])) as Hcall2.
  { unfold generate_ipv4. cbn [gi_state gi_header tx_shift2ipv4Fifo]. by rewrite Hc. }
  erewrite drained_call by exact Hcall2. rewrite Hw' by done.
  exists (mkWord (le_bytes 20 (bits 159 0 h') ++ drop 20 (data w)) (keep w) (last w) :: ws'), false, j.
  split; [|eapply (replace_head (w :: ws')); try done; lia].
  inversion Hf as [? Hlast|? ? Hlast Hf']; subst; rewrite Hlast; [done|].
  rewrite generate_rest by done. done.
Qed.
(** ** [pseudoHeaderConstructionNew] *)
Hypothesis garbage_word : length garbage = lanes.

Lemma mss_option_length : length mss_option = 4%nat.
Proof. done. Qed.

(** The word with the header and the options of a SYN. *)
Lemma header_word_packet m hb :
  length hb = 32%nat ->
  let w := mkWord (hb ++ drop 32 garbage) (to_lanes lanes 4294967295) true in
  packet [if tm_syn m && (512 =? 512) then put_options (tm_win_shift m) w else w] (hb ++ tx_options m).
Proof.
  intros Hl w. unfold w, tx_options. change (512 =? 512) with true. rewrite andb_true_r.
  assert (to_lanes lanes 4294967295 = low_lanes lanes 32) as Hk by (by rewrite <- to_lanes_mask by lia).
  assert (forall n bs pad, length bs = n -> (0 < n)%nat -> (n + length pad)%nat = lanes ->
    packet [mkWord (bs ++ pad) (low_lanes lanes n) true] bs) as Hpk.
  { intros n bs pad <- H0 Hlen. apply packet_last; [destruct bs; [simpl in H0; lia|done]|done]. }
  assert (put 32 (replicate 4 true) (low_lanes lanes 32) = low_lanes lanes 36) as Hk1 by by rewrite lanes64.
  assert (put 36 (replicate 4 true) (low_lanes lanes 36) = low_lanes lanes 40) as Hk2 by by rewrite lanes64.
  destruct (tm_syn m).
  - unfold put_options. cbn [data keep last]. rewrite Hk, Hk1, put_at by done.
    rewrite mss_option_length, drop_drop. destruct (negb (tm_win_shift m =? 0)).
    + rewrite Hk2, (app_assoc hb), put_at, drop_drop, <- app_assoc by (rewrite length_app, Hl; done).
      rewrite (app_assoc (mss_option)), (app_assoc hb). apply Hpk; [rewrite !length_app, Hl; done|lia|].
      rewrite length_drop, garbage_word, lanes64. done.
    + rewrite app_nil_r, app_assoc. apply Hpk; [rewrite length_app, Hl; done|lia|].
      rewrite length_drop, garbage_word, lanes64. done.
  - rewrite Hk, app_nil_r. apply Hpk; [done|lia|]. rewrite length_drop, garbage_word, lanes64. done.
Qed.

Lemma phc_call_meta m t r i h b s n ms ts ws :
  pseudoHeaderConstructionNew garbage (mkPhcEnv PHC_META (mkPacketHeader r i h) b s n (m :: ms) (t :: ts) ws)
  = (mkPhcEnv (if has_payload m then PHC_PARTIAL_HEADER else PHC_HEADER)
       (mkPacketHeader false 0 (set_header m t h)) (has_payload m) (tm_syn m) (tm_win_shift m) ms ts ws, []).
Proof.
  unfold pseudoHeaderConstructionNew. cbn [phc_state tcpMetaDataFifoIn tcpTupleFifoIn phc_header phc_dataIn].
  rewrite (WIDTH_512 lanes64). unfold has_payload. by rewrite (andb_comm (negb (tm_length m =? 0))).
Qed.

Lemma phc_header_packet m t r i h b s n ms ts ws :
  has_payload m = false -> tx_static h -> widths_ok m t ->
  exists w r' i', let h' := set_header m t h in
  drained (pseudoHeaderConstructionNew garbage) phc_arrive
    (mkPhcEnv PHC_META (mkPacketHeader r i h) b s n (m :: ms) (t :: ts) ws)
  = w :: drained (pseudoHeaderConstructionNew garbage) phc_arrive
      (mkPhcEnv PHC_META (mkPacketHeader r' i' h') false (tm_syn m) (tm_win_shift m) ms ts ws) /\
  packet [w] (tx_header m t ++ tx_options m).
Proof.
  intros Hp Hs Hw. cbv zeta. erewrite drained_call by apply phc_call_meta. rewrite Hp. cbn [app].
  destruct (consume_once TCP_FULL_PSEUDO_HEADER_SIZE garbage false 0 (set_header m t h) ltac:(done) ltac:(done))
    as (j & w' & Hc & Hw'). specialize (Hw' eq_refl).
  change (Z.to_nat (TCP_FULL_PSEUDO_HEADER_SIZE / 8)) with 32%nat in Hw'.
  change (TCP_FULL_PSEUDO_HEADER_SIZE - 1) with 255 in Hw'.
  rewrite (set_header_bytes m t h Hs Hw) in Hw'. subst w'.
  erewrite drained_call.
  2: { unfold pseudoHeaderConstructionNew. cbn [phc_state phc_header phc_isSYN phc_hasBody]. rewrite Hc.
       rewrite (WIDTH_512 lanes64). change (512 <=? 256) with false. rewrite andb_false_r.
       change (0 <? 512 / 8) with true. reflexivity. }
  eexists _, false, j. split; [reflexivity|]. cbn [phc_win_shift].
  apply header_word_packet. by rewrite <- (set_header_bytes m t h), le_bytes_length.
Qed.

Lemma phc_body_rest ws hd b s n ms ts rest :
  framed ws ->
  drained (pseudoHeaderConstructionNew garbage) phc_arrive (mkPhcEnv PHC_BODY hd b s n ms ts (ws ++ rest))
  = ws ++ drained (pseudoHeaderConstructionNew garbage) phc_arrive (mkPhcEnv PHC_META hd b s n ms ts rest).
Proof.
  induction 1 as [w Hl|w ws Hl _ IH]; cbn [app]; (erewrite drained_call by reflexivity); cbn; rewrite Hl; [done|].
  by rewrite IH.
Qed.

Lemma phc_payload_packet m t r i h b s n ms ts ws bs rest :
  has_payload m = true -> tx_static h -> widths_ok m t -> packet ws bs -> (32 <= length bs)%nat ->
  exists ws' r' i', let h' := set_header m t h in
  drained (pseudoHeaderConstructionNew garbage) phc_arrive
    (mkPhcEnv PHC_META (mkPacketHeader r i h) b s n (m :: ms) (t :: ts) (ws ++ rest))
  = ws' ++ drained (pseudoHeaderConstructionNew garbage) phc_arrive
      (mkPhcEnv PHC_META (mkPacketHeader r' i' h') true (tm_syn m) (tm_win_shift m) ms ts rest) /\
  packet ws' (tx_header m t ++ drop 32 bs).
Proof.
  intros Hpl Hs Hw Hp Hl. cbv zeta. erewrite drained_call by apply phc_call_meta. rewrite Hpl. cbn [app].
  pose proof (packet_framed _ _ Hp) as Hf. destruct (packet_first _ _ Hp) as (w & ws' & -> & _). cbn [app].
  destruct (consume_once TCP_FULL_PSEUDO_HEADER_SIZE (data w) false 0 (set_header m t h) ltac:(done) ltac:(done))
    as (j & w' & Hc & Hw'). specialize (Hw' eq_refl).
  change (Z.to_nat (TCP_FULL_PSEUDO_HEADER_SIZE / 8)) with 32%nat in Hw'.
  change (TCP_FULL_PSEUDO_HEADER_SIZE - 1) with 255 in Hw'.
  rewrite (set_header_bytes m t h Hs Hw) in Hw'. subst w'.
  erewrite drained_call.
  2: { unfold pseudoHeaderConstructionNew. cbn [phc_state phc_header phc_dataIn]. rewrite Hc. reflexivity. }
  exists (mkWord (tx_header m t ++ drop 32 (data w)) (keep w) (last w) :: ws'), false, j.
  split.
  - inversion Hf as [? Hlast|? ? Hlast Hf']; subst; rewrite Hlast; [done|]. cbn [app].
    rewrite <- (phc_body_rest ws') by done. done.
  - apply (replace_head (w :: ws') 32 bs (tx_header m t) w ws'); [done|done|done|lia|]. by rewrite <- (set_header_bytes m t h), le_bytes_length.
Qed.
(** ** [read_data_arbiter]: every packet from the source that its token names *)
Lemma arbiter_take (app : bool) ws rest others tokens :
  framed ws ->
  drained read_data_arbiter arbiter_arrive
    (if app then mkArbiterEnv TPS_BYPASS others tokens (ws ++ rest)
     else mkArbiterEnv TPS_MEMORY (ws ++ rest) tokens others)
  = ws ++ drained read_data_arbiter arbiter_arrive
      (if app then mkArbiterEnv TPS_CHOOSE others tokens rest
       else mkArbiterEnv TPS_CHOOSE rest tokens others).
Proof.
  induction 1 as [w Hl|w ws Hl _ IH]; cbn [Datatypes.app]; destruct app;
    (erewrite drained_call by reflexivity); cbn; rewrite Hl; try done; by rewrite IH.
Qed.

Lemma arbiter_packets L mem app :
  packets mem (map snd (List.filter (fun x => negb (fst x)) L)) ->
  packets app (map snd (List.filter fst L)) ->
  packets (drained read_data_arbiter arbiter_arrive (mkArbiterEnv TPS_CHOOSE mem (map fst L) app)) (map snd L).
Proof.
  revert mem app. induction L as [|[[] bs] L IH]; intros mem app Hm Ha; cbn [map List.filter fst snd negb] in *.
  - rewrite drained_stuck by done. constructor.
  - inversion Ha as [|ws ? rest ? Hw Hrest]; subst.
    rewrite (drained_call _ _ _ (mkArbiterEnv TPS_BYPASS mem (map fst L) (ws ++ rest)) []) by reflexivity.
    cbn [Datatypes.app].
    rewrite (arbiter_take true ws rest mem (map fst L) (packet_framed _ _ Hw)).
    constructor; [done|by apply IH].
  - inversion Hm as [|ws ? rest ? Hw Hrest]; subst.
    rewrite (drained_call _ _ _ (mkArbiterEnv TPS_MEMORY (ws ++ rest) (map fst L) app) []) by reflexivity.
    cbn [Datatypes.app].
    rewrite (arbiter_take false ws rest app (map fst L) (packet_framed _ _ Hw)).
    constructor; [done|by apply IH].
Qed.
End TxBackend.

#[export] Existing Instances arbiter_kahn remove_kahn insert_kahn.
