(* ===== verification/TxPath.v ===== *)
(** * The transmit path: the IP packet of a segment

    The stages of the back end connected as in [tx_engine] ([toe/tx_engine]), every
    stage on a schedule of its own; the packets that come out are those that the
    receive path accepts, with the same contents. *)

From S2P Require Import Prelude Streams Words Shifters ToeTypes Checksum Headers RxEngine RxDatapath.
From S2P Require Import RxFrontend RxPath TxEngine TxDatapath TxBackend.

Section TxPath.
Context {WW : WordWidth} {C : ToeConfig}.
Hypothesis lanes64 : lanes = 64%nat.
Variable garbage : list Z.
Hypothesis garbage_word : length garbage = lanes.
(** The contents of the header objects before the first assignment. *)
Variable header0 : Z.

#[local] Hint Extern 0 (KahnProcess (pseudoHeaderConstructionNew _) phc_arrive) =>
  exact (phc_kahn _ lanes64) : typeclass_instances.
#[local] Hint Extern 0 (KahnProcess (generate_ipv4 _) generate_arrive) =>
  exact (generate_kahn _ lanes64) : typeclass_instances.

(** ** A message: the metadata and the tuple of a segment, and its payload with the
    source it comes from *)
Record message := mkMessage {
  msg_meta : tx_engine_meta; msg_tuple : fourTuple; msg_isBypass : bool; msg_payload : list Z
}.
Definition msg_ips (g : message) : twoTuple := mkTwoTuple (ft_srcIp (msg_tuple g)) (ft_dstIp (msg_tuple g)).
Definition with_payload (g : message) : bool := has_payload (msg_meta g).

(** The length in the metadata is that of the options and the payload: a segment has
    the one or the other. *)
Record message_ok (g : message) : Prop := {
  mo_widths : widths_ok (msg_meta g) (msg_tuple g);
  mo_length : tm_length (msg_meta g)
              = Z.of_nat (length (tx_options (msg_meta g)) + length (msg_payload g));
  mo_payload : with_payload g = false -> msg_payload g = [];
  mo_bytes : bytes (msg_payload g);
  mo_size : tm_length (msg_meta g) <= 65495
}.

(** The metadata that [metaLoader] writes ([syn_length_ok], part of [aligned]) make
    such messages with a payload of the length they announce. *)
Lemma message_ok_intro g :
  widths_ok (msg_meta g) (msg_tuple g) -> syn_length_ok (msg_meta g) ->
  (if with_payload g then tm_length (msg_meta g) = Z.of_nat (length (msg_payload g))
   else msg_payload g = []) ->
  bytes (msg_payload g) -> tm_length (msg_meta g) <= 65495 -> message_ok g.
Proof.
  intros Hw Hs Hp Hb Hl. constructor; try done.
  - unfold with_payload, has_payload, syn_length_ok, tx_options in *.
    destruct (tm_syn (msg_meta g)); cbn [negb andb] in Hp.
    + rewrite Hp, Hs by done. rewrite length_app. by destruct (_ =? 0).
    + destruct (Z.eqb_spec (tm_length (msg_meta g)) 0) as [He|He]; cbn [negb] in Hp; rewrite Hp; done.
  - intros H. by rewrite H in Hp.
Qed.

(** The segment behind its pseudo header, the checksum zero. *)
Definition tx_segment (g : message) : list Z :=
  tx_header (msg_meta g) (msg_tuple g) ++ tx_options (msg_meta g) ++ msg_payload g.

Definition with_checksum (s : list Z) : list Z :=
  put 16 (le_bytes 2 (reverse16 (rfc1071 s))) (drop 12 s).

(** The IP packet of the message. *)
Definition tx_datagram (g : message) : list Z :=
  ip_header header0 (tm_length (msg_meta g)) (msg_ips g) ++ with_checksum (tx_segment g).

Lemma with_payload_options g : with_payload g = true -> tx_options (msg_meta g) = [].
Proof. unfold with_payload, has_payload, tx_options. by destruct (tm_syn (msg_meta g)). Qed.

Lemma with_payload_nonempty g : message_ok g -> with_payload g = true -> msg_payload g <> [].
Proof.
  intros Hg Hp He. pose proof (mo_length g Hg) as Hl. rewrite with_payload_options, He in Hl by done.
  unfold with_payload, has_payload in Hp. rewrite Hl in Hp. by rewrite andb_false_r in Hp.
Qed.

Lemma tx_header_length m t : length (tx_header m t) = 32%nat.
Proof. done. Qed.

Lemma tx_segment_length g : (32 <= length (tx_segment g))%nat.
Proof. unfold tx_segment. rewrite length_app, tx_header_length. lia. Qed.

Lemma mss_option_bytes : bytes mss_option.
Proof. unfold mss_option. apply Forall_app. split; [by repeat constructor|apply le_bytes_bytes]. Qed.

Lemma tx_options_bytes m t : widths_ok m t -> bytes (tx_options m).
Proof.
  intros Hw. unfold tx_options. destruct (tm_syn m); [|constructor]. apply Forall_app.
  split; [apply mss_option_bytes|]. destruct (negb _); [|constructor]. pose proof (wo_shift m t Hw) as H.
  repeat constructor; unfold in_width in *; pow2; lia.
Qed.

Lemma tx_header_bytes m t : bytes (tx_header m t).
Proof.
  unfold tx_header. repeat (apply Forall_app; split); try apply le_bytes_bytes; try apply be_bytes_bytes;
    repeat constructor; try done.
  - pose proof (tx_dataOffset_range m). unfold in_width. pow2. lia.
  - pose proof (tx_dataOffset_range m). unfold in_width. pow2. lia.
  - unfold tx_flags. by destruct (tm_fin m), (tm_syn m), (tm_rst m), (tm_ack m).
  - unfold tx_flags. by destruct (tm_fin m), (tm_syn m), (tm_rst m), (tm_ack m).
Qed.

Lemma tx_segment_bytes g : message_ok g -> bytes (tx_segment g).
Proof.
  intros Hg. unfold tx_segment. apply Forall_app. split; [apply tx_header_bytes|].
  apply Forall_app. split; [|apply Hg]. eapply tx_options_bytes, Hg.
Qed.

(** ** The stages on sequences of packets *)
Lemma phc_packets G ws r i h b s n :
  Forall message_ok G -> tx_static h ->
  packets ws (map (fun g => replicate 32 0 ++ msg_payload g) (List.filter with_payload G)) ->
  packets (drained (pseudoHeaderConstructionNew garbage) phc_arrive
    (mkPhcEnv PHC_META (mkPacketHeader r i h) b s n (map msg_meta G) (map msg_tuple G) ws)) (map tx_segment G).
Proof.
  intros HG. revert ws r i h b s n. induction HG as [|g G Hg _ IH]; intros ws r i h b s n Hs Hp.
  - rewrite drained_stuck by done. constructor.
  - pose proof (mo_widths g Hg) as Hw. cbn [map List.filter] in *.
    destruct (with_payload g) eqn:Hpl.
    + cbn [map] in Hp. apply packets_inv in Hp as (ws1 & rest & -> & Hp1 & Hrest).
      destruct (phc_payload_packet garbage lanes64 garbage_word (msg_meta g) (msg_tuple g) r i h b s n (map msg_meta G)
        (map msg_tuple G) ws1 (replicate 32 0 ++ msg_payload g) rest Hpl Hs Hw Hp1) as (w & r' & i' & -> & H1).
      { rewrite length_app, length_replicate. lia. }
      constructor; [|apply IH; [by apply set_header_static|done]].
      unfold tx_segment. rewrite with_payload_options by done. rewrite drop_app_ge in H1 by (rewrite length_replicate; lia).
      by rewrite length_replicate in H1.
    + destruct (phc_header_packet garbage lanes64 garbage_word (msg_meta g) (msg_tuple g) r i h b s n (map msg_meta G)
        (map msg_tuple G) ws Hpl Hs Hw) as (w & r' & i' & -> & H1).
      apply (packets_cons [w]); [|apply IH; [by apply set_header_static|done]].
      unfold tx_segment. by rewrite (mo_payload g Hg), app_nil_r by done.
Qed.

Lemma insert_packets ws B cs n :
  packets ws B -> length cs = length B -> Forall (fun b => (18 <= length b)%nat) B ->
  packets (drained insert_checksum insert_arrive (mkInsertEnv IC_INSERT n cs ws))
    (zip_with (fun c b => put 16 (le_bytes 2 (reverse16 c)) b) cs B).
Proof.
  intros Hp. revert cs. induction Hp as [|ws b ws' B Hw Hp IH]; intros [|c cs] Hl HB; try done.
  - rewrite drained_stuck by done. constructor.
  - apply Forall_cons_1 in HB as [Hb HB].
    destruct (insert_packet lanes64 ws b c cs n ws' Hw Hb) as (w & -> & H1).
    cbn [zip_with]. constructor; [done|]. apply IH; [|done]. simpl in Hl. lia.
Qed.

Lemma generate_packets ws B ns ts r i h :
  packets ws (map (app (replicate 20 0)) B) -> length ns = length B -> length ts = length B ->
  ip_static header0 h ->
  packets (drained (generate_ipv4 garbage) generate_arrive (mkGenerateEnv GI_META (mkPacketHeader r i h) ns ts ws))
    (zip_with (fun nt b => ip_header header0 nt.1 nt.2 ++ b) (zip ns ts) B).
Proof.
  revert ws ns ts r i h. induction B as [|b B IH]; intros ws [|n ns] [|t ts] r i h Hp Hn Ht Hs; try done.
  - rewrite drained_stuck by done. constructor.
  - cbn [map] in Hp. apply packets_inv in Hp as (ws1 & rest & -> & Hw & Hrest).
    destruct (generate_packet garbage lanes64 ws1 (replicate 20 0 ++ b) n t ns ts rest r i h Hw)
      as (w & r' & i' & -> & H1); [rewrite length_app, length_replicate; lia|].
    cbn [zip zip_with fst snd]. rewrite (set_ip_header_bytes header0 n t h Hs) in H1.
    rewrite drop_app_ge, length_replicate in H1 by (rewrite length_replicate; lia).
    constructor; [exact H1|]. apply IH; [done|simpl in *; lia|simpl in *; lia|].
    by apply set_ip_header_static.
Qed.
(** ** The transmitted packet, field by field *)
Section Datagram.
Variable g : message.
Hypothesis Hg : message_ok g.
Let m := msg_meta g.
Let t := msg_tuple g.

(** The segment in front of the checksum and behind it. *)
Definition tx_front : list Z := take 28 (tx_header m t).
Definition tx_back : list Z := [0; 0] ++ tx_options m ++ msg_payload g.
Definition tx_checksum : Z := rfc1071 (tx_segment g).

Lemma tx_segment_split : tx_segment g = tx_front ++ [0; 0] ++ tx_back.
Proof. reflexivity. Qed.

Lemma tx_checksum_range : in_width 16 tx_checksum.
Proof.
  unfold tx_checksum. pose proof (tx_segment_bytes g Hg) as Hb. rewrite rfc1071_oc by done.
  pose proof (oc_range _ (sum16_nonneg _ Hb)). unfold in_width. pow2. lia.
Qed.

Lemma with_checksum_split :
  with_checksum (tx_segment g) = drop 12 tx_front ++ [tx_checksum / 256; tx_checksum `mod` 256] ++ tx_back.
Proof.
  unfold with_checksum. fold tx_checksum. rewrite le_bytes_reverse16 by apply tx_checksum_range.
  change (drop 12 (tx_segment g)) with (drop 12 tx_front ++ [0; 0] ++ tx_back).
  rewrite put_at by done. done.
Qed.

Lemma tx_datagram_length : Z.of_nat (length (tx_datagram g)) = tm_length m + 40.
Proof.
  unfold tx_datagram. rewrite with_checksum_split. unfold tx_back. rewrite !length_app.
  change (length (ip_header _ _ _)) with 20%nat. change (length (drop 12 tx_front)) with 16%nat.
  pose proof (mo_length g Hg) as Hl. fold m in Hl. cbn [length]. lia.
Qed.

Lemma tx_length_range : 0 <= tm_length m <= 65495.
Proof. pose proof (mo_length g Hg). pose proof (mo_size g Hg). unfold m. lia. Qed.

Lemma tx_datagram_bytes : bytes (tx_datagram g).
Proof.
  unfold tx_datagram. apply Forall_app. split.
  - unfold ip_header. repeat (apply Forall_app; split); try apply le_bytes_bytes; by repeat constructor.
  - rewrite with_checksum_split. apply Forall_app. split; [apply Forall_drop, Forall_take, tx_header_bytes|].
    apply Forall_app. split; [apply bytes_be16, tx_checksum_range|].
    pose proof (tx_segment_bytes g Hg) as H. rewrite tx_segment_split in H.
    apply Forall_app in H as [_ H]. by apply Forall_app in H as [_ H].
Qed.

Lemma tx_datagram_offset : tcp_offset (tx_datagram g) = tx_dataOffset m.
Proof.
  unfold tcp_offset, tx_datagram. rewrite with_checksum_split.
  change (byte_at 32 _) with (16 * tx_dataOffset m).
  pose proof (tx_dataOffset_range m). unfold bits. change (2 ^ 4) with 16. change (7 - 4 + 1) with 4.
  rewrite Z.mul_comm, Z.div_mul by done. apply Z.mod_small. change (2 ^ 4) with 16. lia.
Qed.

Lemma tx_options_length : Z.of_nat (length (tx_options m)) = 4 * (tx_dataOffset m - 5).
Proof.
  unfold tx_options, tx_dataOffset. destruct (tm_syn m); [|done]. rewrite length_app, mss_option_length.
  by destruct (negb _).
Qed.

Lemma tx_datagram_ok : datagram_ok (tx_datagram g).
Proof.
  pose proof tx_length_range as Hr. constructor.
  - apply tx_datagram_bytes.
  - by unfold tx_datagram.
  - rewrite tx_datagram_length. unfold tx_datagram, ip_header.
    rewrite wrap_small, le_bytes_reverse16 by (unfold in_width; pow2; fold m; lia).
    change (field 2 2 _) with [(tm_length m + 40) / 256; (tm_length m + 40) `mod` 256].
    rewrite be_val_two. pose proof (Z.div_mod (tm_length m + 40) 256). lia.
  - rewrite tx_datagram_offset. pose proof (tx_dataOffset_range m). lia.
  - rewrite tx_datagram_offset, tx_datagram_length. pose proof (mo_length g Hg) as Hl. fold m in Hl.
    pose proof tx_options_length. lia.
Qed.

Lemma tx_datagram_checked :
  checked (tx_datagram g) = tx_front ++ [tx_checksum / 256; tx_checksum `mod` 256] ++ tx_back.
Proof.
  pose proof tx_length_range as Hr. unfold checked. rewrite tx_datagram_length.
  unfold tx_datagram. rewrite with_checksum_split.
  change (drop 20 (ip_header _ _ _ ++ ?l)) with l.
  change (field 12 4 _) with (le_bytes 4 (ft_srcIp t)). change (field 16 4 _) with (le_bytes 4 (ft_dstIp t)).
  replace (tm_length m + 40 - 20) with (tm_length m + 20) by lia.
  assert (tx_front = le_bytes 4 (ft_srcIp t) ++ le_bytes 4 (ft_dstIp t) ++ [0; 6]
    ++ le_bytes 2 (reverse16 (wrap 16 (tm_length m + 20))) ++ drop 12 tx_front) as Hf by reflexivity.
  rewrite Hf at 2. rewrite wrap_small, le_bytes_reverse16 by (unfold in_width; pow2; lia).
  by rewrite <- !app_assoc.
Qed.

Lemma tx_datagram_accepted : accepted (tx_datagram g) = true.
Proof.
  unfold accepted. apply Z.eqb_eq. rewrite tx_datagram_checked. unfold tx_checksum.
  pose proof (tx_segment_bytes g Hg) as Hb. rewrite tx_segment_split in *.
  apply (inserted_checksum_valid tx_front tx_back 14 Hb eq_refl).
  assert (tx_front = take 8 tx_front ++ 0 :: 6 :: drop 10 tx_front) as Hf by reflexivity.
  assert (forall l1 l2 l3 : list Z, (l1 ++ 0 :: 6 :: l2) ++ l3 = l1 ++ ([0; 6] ++ (l2 ++ l3))) as Hassoc
    by (intros; by rewrite <- app_assoc).
  rewrite Hf, Hassoc in *. apply Forall_app in Hb as [Hb1 Hb2]. apply Forall_app in Hb2 as [_ Hb2].
  rewrite (sum16_app _ _ 4) by done. pose proof (sum16_nonneg _ Hb1). pose proof (sum16_nonneg _ Hb2).
  change (sum16 ([0; 6] ++ ?l)) with (256 * 0 + 6 + sum16 l). lia.
Qed.

Lemma tx_datagram_payload : datagram_payload (tx_datagram g) = msg_payload g.
Proof.
  unfold datagram_payload. rewrite tx_datagram_offset. unfold tx_datagram. rewrite with_checksum_split.
  unfold tx_back. pose proof tx_options_length. pose proof (tx_dataOffset_range m).
  replace (20 + Z.to_nat (4 * tx_dataOffset m))%nat with (20 + (16 + (2 + (2 + length (tx_options m)))))%nat by lia.
  change (drop (20 + ?k) (ip_header _ _ _ ++ ?l)) with (drop k l).
  change (drop (16 + ?k) (drop 12 tx_front ++ ?l)) with (drop k l).
  change (drop (2 + ?k) ([?a; ?b] ++ ?l)) with (drop k l).
  change (drop (2 + ?k) ([?a; ?b] ++ ?l)) with (drop k l).
  by rewrite drop_app_length.
Qed.
Lemma tx_datagram_options : datagram_options (tx_datagram g) = tx_options m.
Proof.
  unfold datagram_options, field. rewrite tx_datagram_offset. unfold tx_datagram. rewrite with_checksum_split.
  unfold tx_back. pose proof tx_options_length. pose proof (tx_dataOffset_range m).
  replace (Z.to_nat (4 * (tx_dataOffset m - 5))) with (length (tx_options m)) by lia.
  change 40%nat with (20 + (16 + (2 + (2 + 0))))%nat.
  change (drop (20 + ?k) (ip_header _ _ _ ++ ?l)) with (drop k l).
  change (drop (16 + ?k) (drop 12 tx_front ++ ?l)) with (drop k l).
  change (drop (2 + ?k) ([?a; ?b] ++ ?l)) with (drop k l).
  change (drop (2 + ?k) ([?a; ?b] ++ ?l)) with (drop k l).
  rewrite drop_0. by rewrite take_app_length.
Qed.

Variable winScale0 : Z.

(** The metadata of the message as the receive path reads them. *)
Definition received_meta : rxEngineMetaData :=
  mkRxMeta (tm_seqNumb m) (tm_ackNumb m) (tm_window_size m) winScale0 (Z.of_nat (length (msg_payload g)))
    (tm_ack m) (tm_rst m) (tm_syn m) (tm_fin m) (tx_dataOffset m).

Lemma tx_flags_bits :
  Z.testbit (tx_flags m) 4 = tm_ack m /\ Z.testbit (tx_flags m) 2 = tm_rst m /\
  Z.testbit (tx_flags m) 1 = tm_syn m /\ Z.testbit (tx_flags m) 0 = tm_fin m.
Proof. unfold tx_flags. by destruct (tm_fin m), (tm_syn m), (tm_rst m), (tm_ack m). Qed.

Lemma tx_datagram_meta : datagram_meta winScale0 (tx_datagram g) = received_meta.
Proof.
  unfold datagram_meta, received_meta. rewrite tx_datagram_payload, tx_datagram_offset.
  unfold tx_datagram. rewrite with_checksum_split.
  change (field 24 4 _) with (be_bytes 4 (tm_seqNumb m)). change (field 28 4 _) with (be_bytes 4 (tm_ackNumb m)).
  change (field 34 2 _) with (le_bytes 2 (reverse16 (tm_window_size m))). change (byte_at 33 _) with (tx_flags m).
  destruct tx_flags_bits as (-> & -> & -> & ->). destruct (mo_widths g Hg).
  rewrite !be_bytes_val, le_bytes_reverse16, be_val_two by done.
  f_equal. pose proof (Z.div_mod (tm_window_size m) 256). lia.
Qed.

Lemma tx_datagram_tuple : datagram_tuple (tx_datagram g) = t.
Proof.
  unfold datagram_tuple, tx_datagram. rewrite with_checksum_split.
  change (field 12 4 _) with (le_bytes 4 (ft_srcIp t)). change (field 16 4 _) with (le_bytes 4 (ft_dstIp t)).
  change (field 20 2 _) with (le_bytes 2 (ft_srcPort t)). change (field 22 2 _) with (le_bytes 2 (ft_dstPort t)).
  destruct (mo_widths g Hg). rewrite !le_val_bytes, !wrap_small by done. by destruct t.
Qed.
End Datagram.

(** ** What arrives on the streams of a stage *)
Definition arbiter_mem_in (l : list arbiter_arrival) : list net_axis :=
  omap (fun a => match a with A_fromMemory w => Some w | _ => None end) l.
Definition arbiter_tokens_in (l : list arbiter_arrival) : list bool :=
  omap (fun a => match a with A_isBypass b => Some b | _ => None end) l.
Definition arbiter_app_in (l : list arbiter_arrival) : list net_axis :=
  omap (fun a => match a with A_fromApp w => Some w | _ => None end) l.

Lemma arbiter_arrivals l s ms bs as_ :
  arrive_all arbiter_arrive l (mkArbiterEnv s ms bs as_)
  = mkArbiterEnv s (ms ++ arbiter_mem_in l) (bs ++ arbiter_tokens_in l) (as_ ++ arbiter_app_in l).
Proof.
  revert ms bs as_. induction l as [|[x|x|x] l IH]; intros ms bs as_; unfold arrive_all in *; simpl;
    [by rewrite !app_nil_r|rewrite IH; by rewrite <- app_assoc..].
Qed.

Definition phc_metas_in (l : list phc_arrival) : list tx_engine_meta :=
  omap (fun a => match a with A_txMeta m => Some m | _ => None end) l.
Definition phc_tuples_in (l : list phc_arrival) : list fourTuple :=
  omap (fun a => match a with A_txTuple t => Some t | _ => None end) l.
Definition phc_words_in (l : list phc_arrival) : list net_axis :=
  omap (fun a => match a with A_txData w => Some w | _ => None end) l.

Lemma phc_arrivals l s hd b y n ms ts ws :
  arrive_all phc_arrive l (mkPhcEnv s hd b y n ms ts ws)
  = mkPhcEnv s hd b y n (ms ++ phc_metas_in l) (ts ++ phc_tuples_in l) (ws ++ phc_words_in l).
Proof.
  revert ms ts ws. induction l as [|[x|x|x] l IH]; intros ms ts ws; unfold arrive_all in *; simpl;
    [by rewrite !app_nil_r|rewrite IH; by rewrite <- app_assoc..].
Qed.

Lemma remove_arrivals l f ws :
  arrive_all remove_arrive l (mkRemoveEnv f ws) = mkRemoveEnv f (ws ++ l).
Proof.
  revert ws. induction l as [|x l IH]; intros ws; unfold arrive_all, remove_arrive in *; simpl;
    [by rewrite app_nil_r|rewrite IH; by rewrite <- app_assoc].
Qed.

Definition insert_checksums_in (l : list insert_arrival) : list Z :=
  omap (fun a => match a with A_checksum c => Some c | _ => None end) l.
Definition insert_words_in (l : list insert_arrival) : list net_axis :=
  omap (fun a => match a with A_toInsert w => Some w | _ => None end) l.

Lemma insert_arrivals l s n cs ws :
  arrive_all insert_arrive l (mkInsertEnv s n cs ws)
  = mkInsertEnv s n (cs ++ insert_checksums_in l) (ws ++ insert_words_in l).
Proof.
  revert cs ws. induction l as [|[x|x] l IH]; intros cs ws; unfold arrive_all in *; simpl;
    [by rewrite !app_nil_r|rewrite IH; by rewrite <- app_assoc..].
Qed.

Definition generate_lengths_in (l : list generate_arrival) : list Z :=
  omap (fun a => match a with A_ipLength n => Some n | _ => None end) l.
Definition generate_tuples_in (l : list generate_arrival) : list twoTuple :=
  omap (fun a => match a with A_ipTuple t => Some t | _ => None end) l.
Definition generate_words_in (l : list generate_arrival) : list net_axis :=
  omap (fun a => match a with A_ipShifted w => Some w | _ => None end) l.

Lemma generate_arrivals l s hd ns ts ws :
  arrive_all generate_arrive l (mkGenerateEnv s hd ns ts ws)
  = mkGenerateEnv s hd (ns ++ generate_lengths_in l) (ts ++ generate_tuples_in l) (ws ++ generate_words_in l).
Proof.
  revert ns ts ws. induction l as [|[x|x|x] l IH]; intros ns ts ws; unfold arrive_all in *; simpl;
    [by rewrite !app_nil_r|rewrite IH; by rewrite <- app_assoc..].
Qed.
(** ** The connected stages *)
Record tx_run := mkTxRun {
  x_arbiter : list (option arbiter_arrival); x_shift1 : list (option net_axis);
  x_phc : list (option phc_arrival); x_sum : list (option net_axis);
  x_remove : list (option net_axis); x_rshift : list (option net_axis);
  x_insert : list (option insert_arrival); x_shift2 : list (option net_axis);
  x_generate : list (option generate_arrival)
}.

Definition arbiter_out (x : tx_run) := output read_data_arbiter arbiter_arrive (x_arbiter x) arbiter_init.
Definition shift1_out (x : tx_run) := output (lshiftWordByOctet 32) lshift_arrive (x_shift1 x) lshift_init.
Definition phc_out (x : tx_run) :=
  output (pseudoHeaderConstructionNew garbage) phc_arrive (x_phc x) (phc_init header0).
Definition tx_sum_out (x : tx_run) := output two_complement_subchecksums subsum_arrive (x_sum x) subsum_init.
Definition remove_out (x : tx_run) := output remove_pseudo_header remove_arrive (x_remove x) remove_init.
Definition tx_rshift_out (x : tx_run) := output (rshiftWordByOctet 12) rshift_arrive (x_rshift x) (rshift_init 12).
Definition insert_out (x : tx_run) := output insert_checksum insert_arrive (x_insert x) insert_init.
Definition shift2_out (x : tx_run) := output (lshiftWordByOctet 20) lshift_arrive (x_shift2 x) lshift_init.
Definition generate_out (x : tx_run) :=
  output (generate_ipv4 garbage) generate_arrive (x_generate x) (generate_init header0).

(** What a stage writes is what the next one reads. *)
Record tx_linked (x : tx_run) : Prop := {
  tl_shift1 : arrivals (x_shift1 x) = arbiter_out x;
  tl_data : phc_words_in (arrivals (x_phc x)) = shift1_out x;
  tl_sum : arrivals (x_sum x) = phc_out x;
  tl_remove : arrivals (x_remove x) = words_out (tx_sum_out x);
  tl_rshift : arrivals (x_rshift x) = remove_out x;
  tl_checksums : insert_checksums_in (arrivals (x_insert x))
                 = map finalize_ipv4_checksum (sums_out (tx_sum_out x));
  tl_insert : insert_words_in (arrivals (x_insert x)) = tx_rshift_out x;
  tl_shift2 : arrivals (x_shift2 x) = insert_out x;
  tl_generate : generate_words_in (arrivals (x_generate x)) = shift2_out x
}.

(** What arrives from outside for the messages: the metadata and tuples of [metaLoader]
    and [tupleSplitter], and the payloads from memory and from the application. *)
Record tx_inputs (x : tx_run) (G : list message) : Prop := {
  ti_metas : phc_metas_in (arrivals (x_phc x)) = map msg_meta G;
  ti_tuples : phc_tuples_in (arrivals (x_phc x)) = map msg_tuple G;
  ti_lengths : generate_lengths_in (arrivals (x_generate x)) = map (fun g => tm_length (msg_meta g)) G;
  ti_ips : generate_tuples_in (arrivals (x_generate x)) = map msg_ips G;
  ti_tokens : arbiter_tokens_in (arrivals (x_arbiter x)) = map msg_isBypass (List.filter with_payload G);
  ti_mem : packets (arbiter_mem_in (arrivals (x_arbiter x)))
    (map msg_payload (List.filter (fun g => negb (msg_isBypass g)) (List.filter with_payload G)));
  ti_app : packets (arbiter_app_in (arrivals (x_arbiter x)))
    (map msg_payload (List.filter msg_isBypass (List.filter with_payload G)))
}.

Section Run.
Variables (x : tx_run) (G : list message).
Hypothesis (HG : Forall message_ok G) (Hx : tx_inputs x G) (Hl : tx_linked x).

Lemma run_arbiter : packets (arbiter_out x) (map msg_payload (List.filter with_payload G)).
Proof.
  unfold arbiter_out. rewrite output_drained. unfold arbiter_init. rewrite arbiter_arrivals. cbn [app].
  rewrite (ti_tokens x G Hx). set (P := List.filter with_payload G).
  set (L := map (fun g => (msg_isBypass g, msg_payload g)) P).
  replace (map msg_payload P) with (map snd L) by (unfold L; by rewrite map_map).
  replace (map msg_isBypass P) with (map fst L) by (unfold L; by rewrite map_map).
  apply arbiter_packets; unfold L; rewrite filter_map, map_map; apply Hx.
Qed.

Lemma run_phc : packets (phc_out x) (map tx_segment G).
Proof.
  unfold phc_out. rewrite output_drained. unfold phc_init. rewrite phc_arrivals. cbn [app].
  rewrite (ti_metas x G Hx), (ti_tuples x G Hx), (tl_data x Hl).
  apply phc_packets; [done|apply tx_init_static|].
  rewrite <- (map_map msg_payload (app (replicate 32 0))).
  unfold shift1_out. apply lshift_packets; [lia|lia|]. rewrite (tl_shift1 x Hl). apply run_arbiter.
Qed.

Lemma run_rshift :
  packets (tx_rshift_out x) (map (drop 12) (map tx_segment G)) /\
  map finalize_ipv4_checksum (sums_out (tx_sum_out x)) = map rfc1071 (map tx_segment G).
Proof.
  destruct (subsum_output 32 lanes64 ltac:(lia) (x_sum x) (map tx_segment G)) as (H1 & H2 & _).
  - rewrite (tl_sum x Hl). exact run_phc.
  - apply Forall_map. eapply Forall_impl; [|exact HG]; intros g Hg. by apply tx_segment_bytes.
  - split; [|exact H2]. unfold tx_rshift_out. apply rshift_packets; [lia| |].
    + rewrite (tl_rshift x Hl). unfold remove_out. rewrite output_drained. unfold remove_init.
      rewrite remove_arrivals. cbn [app]. rewrite (remove_passes lanes64), (tl_remove x Hl).
      unfold tx_sum_out. rewrite H1, (tl_sum x Hl). exact run_phc.
    + apply Forall_map. apply Forall_true. intros g. pose proof (tx_segment_length g). lia.
Qed.

Lemma zip_checksums (l : list message) :
  zip_with (fun c b => put 16 (le_bytes 2 (reverse16 c)) b) (map rfc1071 (map tx_segment l))
    (map (drop 12) (map tx_segment l)) = map (fun g => with_checksum (tx_segment g)) l.
Proof. induction l as [|g l IH]; [done|]. cbn [map zip_with]. by rewrite IH. Qed.

Lemma run_insert : packets (insert_out x) (map (fun g => with_checksum (tx_segment g)) G).
Proof.
  destruct run_rshift as [H1 H2]. unfold insert_out. rewrite output_drained. unfold insert_init, ic_first.
  rewrite (WIDTH_512 lanes64). change (128 <? 512) with true. rewrite insert_arrivals. cbn [app].
  rewrite (tl_checksums x Hl), (tl_insert x Hl), H2, <- zip_checksums.
  apply insert_packets; [done|by rewrite !length_map|].
  do 2 apply Forall_map. apply Forall_true. intros g. pose proof (tx_segment_length g).
  rewrite length_drop. lia.
Qed.

Lemma zip_datagrams (l : list message) :
  zip_with (fun nt b => ip_header header0 nt.1 nt.2 ++ b)
    (zip (map (fun g => tm_length (msg_meta g)) l) (map msg_ips l))
    (map (fun g => with_checksum (tx_segment g)) l) = map tx_datagram l.
Proof. induction l as [|g l IH]; [done|]. cbn [map zip zip_with fst snd]. by rewrite IH. Qed.

Lemma run_generate : packets (generate_out x) (map tx_datagram G).
Proof.
  unfold generate_out. rewrite output_drained. unfold generate_init. rewrite generate_arrivals. cbn [app].
  rewrite (ti_lengths x G Hx), (ti_ips x G Hx), (tl_generate x Hl), <- zip_datagrams.
  apply generate_packets; [|by rewrite !length_map..|apply ip_init_static].
  unfold shift2_out. apply lshift_packets; [lia|lia|]. rewrite (tl_shift2 x Hl). exact run_insert.
Qed.
End Run.

(** C2: the back end of the transmit path.  For messages whose metadata, tuples and
    payloads arrive on any schedule, through stages that run on any schedule, the
    packets that leave are the IP packets of the messages, in order; each is a
    well-formed IP packet whose TCP checksum is correct, with the payload of the
    message and, for a SYN, the options. *)
Theorem tx_back_end x G :
  Forall message_ok G -> tx_inputs x G -> tx_linked x ->
  packets (generate_out x) (map tx_datagram G) /\
  Forall (fun g => datagram_ok (tx_datagram g) /\ accepted (tx_datagram g) = true /\
    datagram_payload (tx_datagram g) = msg_payload g /\
    datagram_options (tx_datagram g) = tx_options (msg_meta g)) G.
Proof.
  intros HG Hx Hl. split; [by apply run_generate|].
  eapply Forall_impl; [|exact HG]; intros g Hg. split_and!.
  - by apply tx_datagram_ok.
  - by apply tx_datagram_accepted.
  - by apply tx_datagram_payload.
  - by apply tx_datagram_options.
Qed.

Lemma all_accepted G :
  Forall message_ok G -> List.filter accepted (map tx_datagram G) = map tx_datagram G.
Proof. induction 1 as [|g G Hg _ IH]; [done|]. cbn [map List.filter]. by rewrite tx_datagram_accepted, IH. Qed.

Lemma payloads_nonempty G :
  Forall message_ok G ->
  List.filter nonempty (map (fun g => datagram_payload (tx_datagram g)) G)
  = map msg_payload (List.filter with_payload G).
Proof.
  induction 1 as [|g G Hg _ IH]; [done|]. cbn [map List.filter]. rewrite IH, tx_datagram_payload by done.
  destruct (with_payload g) eqn:Hp.
  - pose proof (with_payload_nonempty g Hg Hp). cbn [map]. by destruct (msg_payload g).
  - by rewrite (mo_payload g Hg).
Qed.

(** What is sent is received.  When the packets that the transmit path writes are
    the input of a receive path, its metadata, tuples and payloads are those of the
    messages: every sequence number, acknowledgement, window, flag, address and port,
    in order, no segment lost to its checksum. *)
Theorem tx_rx_loopback x G r winScale0 :
  Forall message_ok G -> tx_inputs x G -> tx_linked x ->
  arrivals (r_ip r) = generate_out x -> linked lanes64 garbage winScale0 header0 r ->
  pph_metas (pph_out winScale0 header0 r) = map (fun g => received_meta g winScale0) G /\
  pph_tuples (pph_out winScale0 header0 r) = map msg_tuple G /\
  packets (dof_words (dof_out header0 r)) (map msg_payload (List.filter with_payload G)).
Proof.
  intros HG Hx Hl Hr Hlink.
  assert (Forall datagram_ok (map tx_datagram G)) as HD.
  { apply Forall_map. eapply Forall_impl; [|exact HG]; intros g Hg. by apply tx_datagram_ok. }
  assert (packets (arrivals (r_ip r)) (map tx_datagram G)) as Hin by (rewrite Hr; by apply run_generate).
  destruct (front_end lanes64 garbage winScale0 header0 r (map tx_datagram G) Hin HD Hlink)
    as (H1 & H2 & _ & H4 & _).
  assert (List.filter accepted (map tx_datagram G) = map tx_datagram G) as HA.
  { by apply all_accepted. }
  rewrite HA in H1, H2, H4. rewrite H1, H2, !map_map. split_and!.
  - apply map_ext_in. intros g Hg. apply tx_datagram_meta. exact (proj1 (Forall_forall _ _) HG g Hg).
  - apply map_ext_in. intros g Hg. apply tx_datagram_tuple. exact (proj1 (Forall_forall _ _) HG g Hg).
  - rewrite map_map, payloads_nonempty in H4 by done. exact H4.
Qed.
End TxPath.

(** ** Four messages: data from the application, a SYN, an acknowledgement, and data
    from memory *)
Section TxPathWitness.
#[local] Instance width64 : WordWidth := 64%nat.
#[local] Instance demo_config : ToeConfig := sim_config true.

Definition demo_msg_tuple : fourTuple := mkFourTuple 16777226 33554442 13330 20480.
Definition demo_messages : list message :=
  [mkMessage (mkTxMeta 1000 2000 512 0 70 true false false false) demo_msg_tuple true (seqZ 1 70);
   mkMessage (mkTxMeta 5 0 65535 2 8 false false true false) demo_msg_tuple false [];
   mkMessage (mkTxMeta 1070 2000 512 0 0 true false false false) demo_msg_tuple false [];
   mkMessage (mkTxMeta 1070 2001 512 0 3 true false false false) demo_msg_tuple false [7; 8; 9]].

Definition demo_garbage : list Z := replicate 64 171.

(** Every stage runs when all its input has arrived. *)
Definition demo_tx_run : tx_run :=
  let G := demo_messages in
  let P := List.filter with_payload G in
  let arb := map (fun g => Some (A_isBypass (msg_isBypass g))) P
             ++ map (fun w => Some (A_fromMemory w)) (words_of [[7; 8; 9]])
             ++ map (fun w => Some (A_fromApp w)) (words_of [seqZ 1 70]) in
  let shift1 := map Some (output read_data_arbiter arbiter_arrive arb arbiter_init) in
  let data := output (lshiftWordByOctet 32) lshift_arrive shift1 lshift_init in
  let phc := map (fun g => Some (A_txMeta (msg_meta g))) G ++ map (fun g => Some (A_txTuple (msg_tuple g))) G
             ++ map (fun w => Some (A_txData w)) data in
  let segs := snd (calls (pseudoHeaderConstructionNew demo_garbage) 20
                (mkPhcEnv PHC_META (mkPacketHeader false 0 (TcpFull.init 0)) false false 0
                   (map msg_meta G) (map msg_tuple G) data)) in
  let sum := map Some segs in
  let out := output two_complement_subchecksums subsum_arrive sum subsum_init in
  let remove := map Some (words_out out) in
  let rshift := map Some (output remove_pseudo_header remove_arrive remove remove_init) in
  let insert := map (fun s => Some (A_checksum (finalize_ipv4_checksum s))) (sums_out out)
                ++ map (fun w => Some (A_toInsert w)) (output (rshiftWordByOctet 12) rshift_arrive rshift (rshift_init 12)) in
  let shift2 := map Some (output insert_checksum insert_arrive insert insert_init) in
  let generate := map (fun g => Some (A_ipLength (tm_length (msg_meta g)))) G
                  ++ map (fun g => Some (A_ipTuple (msg_ips g))) G
                  ++ map (fun w => Some (A_ipShifted w)) (output (lshiftWordByOctet 20) lshift_arrive shift2 lshift_init) in
  mkTxRun arb shift1 phc sum remove rshift insert shift2 generate.

Lemma demo_tx_linked : tx_linked eq_refl demo_garbage 0 demo_tx_run.
Proof. constructor; by vm_compute. Qed.

Lemma demo_messages_ok : Forall message_ok demo_messages.
Proof.
  repeat (constructor; [apply message_ok_intro;
    [constructor; by vm_compute|by vm_compute|by vm_compute|apply (bool_decide_eq_true_1 _); by vm_compute|by vm_compute]|]).
  constructor.
Qed.

Lemma demo_tx_inputs : tx_inputs demo_tx_run demo_messages.
Proof.
  constructor; try by vm_compute.
  - replace (arbiter_mem_in _) with (words_of [[7; 8; 9]]) by by vm_compute.
    replace (map msg_payload _) with [[7; 8; 9]] by by vm_compute.
    apply words_of_packets; [by apply Nat.ltb_lt|by repeat (constructor; [done|])].
  - replace (arbiter_app_in _) with (words_of [seqZ 1 70]) by by vm_compute.
    replace (map msg_payload _) with [seqZ 1 70] by by vm_compute.
    apply words_of_packets; [by apply Nat.ltb_lt|by repeat (constructor; [done|])].
Qed.

Lemma tx_back_end_witness :
  packets (generate_out eq_refl demo_garbage 0 demo_tx_run) (map (tx_datagram 0) demo_messages) /\
  map (fun d => length d) (map (tx_datagram 0) demo_messages) = [110; 48; 40; 43]%nat.
Proof.
  destruct (tx_back_end eq_refl demo_garbage eq_refl 0 demo_tx_run demo_messages demo_messages_ok
    demo_tx_inputs demo_tx_linked) as [H _].
  split; [exact H|by vm_compute].
Defined.

(** The packets of the four messages, received. *)
Definition demo_ip_words : list net_axis :=
  snd (calls (generate_ipv4 demo_garbage) 40 (arrive_all generate_arrive
    (arrivals (x_generate demo_tx_run)) (generate_init 0))).

Definition demo_rx_run : rx_run := run_of demo_garbage demo_ip_words.

Lemma demo_rx_linked : linked eq_refl demo_garbage 0 0 demo_rx_run.
Proof. constructor; by vm_compute. Qed.

Lemma tx_rx_loopback_witness :
  map (fun m => (rm_seqNumb m, rm_ackNumb m, rm_length m, rm_syn m, rm_dataOffset m)) (pph_metas (pph_out 0 0 demo_rx_run))
  = [(1000, 2000, 70, false, 5); (5, 0, 0, true, 7); (1070, 2000, 0, false, 5); (1070, 2001, 3, false, 5)] /\
  packets (dof_words (dof_out 0 demo_rx_run)) [seqZ 1 70; [7; 8; 9]].
Proof.
  assert (arrivals (r_ip demo_rx_run) = generate_out eq_refl demo_garbage 0 demo_tx_run) as Hip by by vm_compute.
  destruct (tx_rx_loopback eq_refl demo_garbage eq_refl 0 demo_tx_run demo_messages demo_rx_run 0
    demo_messages_ok demo_tx_inputs demo_tx_linked Hip demo_rx_linked) as (H1 & _ & H3).
  split; [|exact H3]. transitivity (map (fun m => (rm_seqNumb m, rm_ackNumb m, rm_length m, rm_syn m, rm_dataOffset m))
    (map (fun g => received_meta g 0) demo_messages)); [f_equal; exact H1|by vm_compute].
Defined.
End TxPathWitness.
