(* ===== verification/TxTyping.v ===== *)
(** * The types of what the transmit engine writes

    The C++ types bound every element of a stream by its width; the model writes
    integers of type [Z].  [Typed] states for each type of element what the widths
    allow.  [metaLoader] preserves it: when everything that arrives is typed, so is
    everything it writes, and the metadata are those from which the transmit path
    builds correct packets ([message_ok] in TxPath.v). *)

From S2P Require Import Prelude Streams Words ToeTypes TxEngine TxBackend TxPath.

(** ** What the widths of a type allow *)
Class Typed (A : Type) := typed : A -> Prop.

(** The longest segment: with the headers of IP and TCP it fills an IP packet. *)
Definition MAX_SEGMENT : Z := 65495.

#[export] Instance typed_fourTuple : Typed fourTuple := fun t =>
  in_width 32 (ft_srcIp t) /\ in_width 32 (ft_dstIp t) /\
  in_width 16 (ft_srcPort t) /\ in_width 16 (ft_dstPort t).
(** The writes of the application are segments of at most the size of an IP packet;
    this bounds the events of type [TX]. *)
#[export] Instance typed_event : Typed event := fun ev =>
  in_width 16 (ev_sessionID ev) /\ in_width WINDOW_BITS (ev_address ev) /\
  in_width 16 (ev_length ev) /\ in_width 3 (ev_rt_count ev) /\
  (ev_type ev = TX -> ev_length ev <= MAX_SEGMENT).
#[export] Instance typed_extendedEvent : Typed extendedEvent := fun x =>
  typed (xev_event x) /\ typed (xev_tuple x).
#[export] Instance typed_rxSarReply : Typed rxSarReply := fun r =>
  in_width 32 (rxr_recvd r) /\ in_width 4 (rxr_win_shift r) /\ in_width 16 (rxr_windowSize r).
#[export] Instance typed_txTxSarReply : Typed txTxSarReply := fun r =>
  in_width 32 (ttr_ackd r) /\ in_width 32 (ttr_not_ackd r) /\ in_width WINDOW_BITS (ttr_usedLength r).
#[export] Instance typed_txTxSarQuery : Typed txTxSarQuery := fun q =>
  in_width 16 (ttq_sessionID q) /\ in_width 32 (ttq_not_ackd q) /\
  (ttq_isRtQuery q = true -> in_width WINDOW_BITS (ttq_not_ackd q)).
#[export] Instance typed_mmCmd : Typed mmCmd := fun c =>
  in_width 32 (mc_saddr c) /\ in_width 16 (mc_bbt c).
#[export] Instance typed_tx_engine_meta : Typed tx_engine_meta := fun m =>
  in_width 32 (tm_seqNumb m) /\ in_width 32 (tm_ackNumb m) /\ in_width 16 (tm_window_size m) /\
  in_width 4 (tm_win_shift m) /\ 0 <= tm_length m <= MAX_SEGMENT.
#[export] Instance typed_ml_write : Typed ml_write := fun x =>
  match x with
  | W_txEng2rxSar_req id | W_txEng2timer_setProbeTimer id | W_txEng2sLookup_rev_req id => in_width 16 id
  | W_txEng2txSar_upd_req q => typed q
  | W_txEng2timer_setRetransmitTimer s => in_width 16 (rts_sessionID s)
  | W_txEng_ipMetaFifoOut l => 0 <= l <= MAX_SEGMENT
  | W_txEng_tcpMetaFifoOut m => typed m
  | W_txBufferReadCmd cmd => typed cmd
  | W_txEng_tupleShortCutFifoOut t => typed t
  | W_txEng_isLookUpFifoOut _ | W_txEng_isDDRbypass _ | W_readCountFifo => True
  end.
#[export] Instance typed_ml_arrival : Typed ml_arrival := fun a =>
  match a with A_event x => typed x | A_rxSarRsp r => typed r | A_txSarRsp r => typed r end.

(** The static variables and the streams that wait. *)
Record ml_typed (e : ml_env) : Prop := {
  mt_event : typed (ml_curEvent e); mt_random : in_width 32 (ml_randomValue e);
  mt_rxSar : typed (ml_rxSar e); mt_txSar : typed (txSarReg e); mt_meta : typed (ml_meta e);
  mt_events : Forall typed (eventEng2txEng_event e);
  mt_rxSars : Forall typed (rxSar2txEng_rsp e); mt_txSars : Forall typed (txSar2txEng_upd_rsp e)
}.

Create HintDb typing.
#[local] Hint Resolve mt_event mt_random mt_rxSar mt_txSar mt_meta mt_events mt_rxSars mt_txSars : typing.

Section Typing.
Context {WW : WordWidth} {C : ToeConfig}.
Hypothesis config : config_ok C.

Definition call_typed (r : ml_env * list ml_write) : Prop := ml_typed r.1 /\ Forall typed r.2.

(** ** The values that a case computes *)
Lemma getAckNumb_width ev : in_width 32 (getAckNumb ev).
Proof. unfold getAckNumb, set_bits, bits. wrap_lia. Qed.

Lemma open_meta_typed rxSar m : typed rxSar -> typed m -> typed (open_meta rxSar m).
Proof. intros (? & ? & ?) (? & ? & ? & ? & ?). by unfold typed, typed_tx_engine_meta. Qed.

Lemma threshold_width n : in_width WINDOW_BITS n -> in_width WINDOW_BITS (slowstart_threshold n).
Proof.
  intros H. unfold slowstart_threshold. case_match; [|by apply wrap_range].
  unfold in_width in *. pose proof (Z.div_le_upper_bound n 2 n ltac:(lia) ltac:(lia)).
  pose proof (Z.div_pos n 2 ltac:(lia) ltac:(lia)). lia.
Qed.

Lemma initial_seq_width r : in_width 32 (initial_seq r).
Proof. by apply wrap_range. Qed.

Lemma Forall_when_typed b (w : list ml_write) : (b = true -> Forall typed w) -> Forall typed (when b w).
Proof. destruct b; simpl; auto. Qed.

(** One goal for every write. *)
Ltac each_write :=
  repeat first [apply Forall_nil_2 | apply Forall_cons_2 | apply Forall_app_2 | apply Forall_when_typed; intros].

Lemma announce_typed id m : typed m -> Forall typed (announce id m).
Proof. intros Hm. unfold announce. each_write; [apply Hm|exact Hm|done]. Qed.

Lemma requests_typed ev : typed ev -> Forall typed (ml_requests ev).
Proof.
  intros (Hid & _). unfold ml_requests. repeat case_match; each_write; done.
Qed.

(** ** The cases of the machine *)
Section Cases.
Variable e : ml_env.
Hypothesis He : ml_typed e.

Lemma id_width : in_width 16 (ev_sessionID (xev_event (ml_curEvent e))).
Proof. apply (mt_event e He). Qed.

Ltac query_typed := split_and!; try done; try by apply wrap_range.

Lemma first_syn_typed seq : Forall typed (first_syn e seq).
Proof. pose proof id_width. unfold first_syn. each_write. query_typed. Qed.

Ltac segment_writes :=
  repeat first [apply announce_typed; assumption | apply first_syn_typed | apply Forall_nil_2 | apply Forall_app_2
               | apply Forall_when_typed; intros | apply Forall_cons_2].


(** A case that stores typed windows and metadata. *)
Lemma case_typed e' w :
  eventEng2txEng_event e' = eventEng2txEng_event e ->
  rxSar2txEng_rsp e' = rxSar2txEng_rsp e -> txSar2txEng_upd_rsp e' = txSar2txEng_upd_rsp e ->
  typed (ml_curEvent e') -> in_width 32 (ml_randomValue e') -> typed (ml_rxSar e') ->
  typed (txSarReg e') -> typed (ml_meta e') -> Forall typed w -> call_typed (e', w).
Proof.
  intros H2 H3 H4 ? ? ? ? ? ?. split; [|done]. constructor; try done; cbn [fst]; rewrite ?H2, ?H3, ?H4; by auto with typing.
Qed.

Ltac case_goals := apply case_typed; try done;
  try first [exact (mt_event e He) | exact (mt_random e He) | exact (mt_rxSar e He)
            | exact (mt_txSar e He) | exact (mt_meta e He)].

Lemma ml_tx_typed rxSar txSar :
  ev_type (xev_event (ml_curEvent e)) = TX -> typed rxSar -> typed txSar -> call_typed (ml_tx e rxSar txSar).
Proof.
  intros Ht Hr (Ha & Hn & Hu). destruct (mt_event e He) as [(Hid & _ & Hl & _ & Hmax) _].
  assert (typed (open_meta rxSar (ml_meta e) <| tm_seqNumb := ttr_not_ackd txSar |>
             <| tm_length := ev_length (xev_event (ml_curEvent e)) |>)) as Hm.
  { destruct (open_meta_typed rxSar (ml_meta e) Hr (mt_meta e He)) as (_ & ? & ? & ? & _).
    split_and!; try done; [apply Hl|by apply Hmax]. }
  case_goals. segment_writes; try done; query_typed.
Qed.

Lemma ml_rt_typed rxSar txSar : typed rxSar -> typed txSar -> call_typed (ml_rt e rxSar txSar).
Proof.
  intros Hr (Ha & Hn & Hu). destruct (mt_event e He) as [(Hid & Haddr & Hl & Hrt & Hmax) Htup].
  assert (typed (open_meta rxSar (ml_meta e) <| tm_seqNumb := ttr_ackd txSar |>
    <| tm_length := wrap 16 (if MSS <? ttr_usedLength txSar then MSS else ttr_usedLength txSar) |>)) as Hm.
  { destruct (open_meta_typed rxSar (ml_meta e) Hr (mt_meta e He)) as (_ & ? & ? & ? & _).
    pose proof (mss_range C config). split_and!; try done; [apply wrap_range; lia|].
    assert (0 <= ttr_usedLength txSar) by apply Hu.
    cbn -[wrap]. rewrite wrap_small; unfold in_width, MAX_SEGMENT; case_match; bool_prop; lia. }
  case_goals.
  - cbn [ml_curEvent]. destruct (negb _ && _); [|exact (mt_event e He)]. split; [|done]. by split_and!.
  - cbn. case_match; [|done]. query_typed.
  - segment_writes; try done; [|split; by apply wrap_range].
    pose proof (threshold_width _ Hu). query_typed. cbn. unfold in_width in *. unfold WINDOW_BITS, WINDOW_SCALE_BITS in *. lia.
Qed.

Lemma ml_ack_typed rxSar txSar : typed rxSar -> typed txSar -> call_typed (ml_ack e rxSar txSar).
Proof.
  intros Hr (Ha & Hn & Hu). pose proof id_width as Hid.
  assert (typed (open_meta rxSar (ml_meta e) <| tm_seqNumb := ttr_not_ackd txSar |> <| tm_length := 0 |>)) as Hm.
  { destruct (open_meta_typed rxSar (ml_meta e) Hr (mt_meta e He)) as (_ & ? & ? & ? & _). by split_and!. }
  case_goals. segment_writes; try done.
Qed.

Lemma ml_fin_typed rxSar txSar : typed rxSar -> typed txSar -> call_typed (ml_fin e rxSar txSar).
Proof.
  intros Hr (Ha & Hn & Hu). pose proof id_width as Hid.
  set (again := negb (ev_rt_count (xev_event (ml_curEvent e)) =? 0)).
  assert (typed (open_meta rxSar (ml_meta e)
    <| tm_seqNumb := if again then wrap 32 (ttr_not_ackd txSar - 1) else ttr_not_ackd txSar |>
    <| tm_length := 0 |> <| tm_fin := true |>)) as Hm.
  { destruct (open_meta_typed rxSar (ml_meta e) Hr (mt_meta e He)) as (_ & ? & ? & ? & _).
    split_and!; try done. cbn. destruct again; [by apply wrap_range|done]. }
  case_goals. segment_writes; try done; query_typed.
Qed.

(** A SYN carries its sequence number, the number to acknowledge and the window scale. *)
Lemma syn_meta_typed seq ack shift len a :
  in_width 32 seq -> in_width 32 ack -> in_width 4 shift -> 0 <= len <= MAX_SEGMENT ->
  typed (mkTxMeta seq ack 65535 shift len a false true false).
Proof. intros ? ? ? [? ?]. by split_and!. Qed.

Lemma ml_syn_typed txSar : (forall t, txSar = Some t -> typed t) -> call_typed (ml_syn e txSar).
Proof.
  intros Ht. pose proof id_width as Hid.
  assert (typed (mkTxMeta (match txSar with Some t => ttr_ackd t | None => initial_seq (ml_randomValue e) end)
    0 65535 WINDOW_SCALE_BITS 8 false false true false)) as Hm.
  { apply syn_meta_typed; try done. destruct txSar as [t|]; [apply (Ht t eq_refl)|apply initial_seq_width]. }
  case_goals.
  - destruct txSar; [exact (mt_random e He)|by apply wrap_range].
  - segment_writes; try done. destruct txSar; [done|by apply first_syn_typed].
Qed.

Lemma ml_syn_ack_typed rxSar txSar : typed rxSar -> typed txSar -> call_typed (ml_syn_ack e rxSar txSar).
Proof.
  intros (Hr & Hs & Hw) (Ha & Hn & Hu). pose proof id_width as Hid.
  set (again := negb (ev_rt_count (xev_event (ml_curEvent e)) =? 0)).
  assert (typed (mkTxMeta (if again then ttr_ackd txSar else initial_seq (ml_randomValue e)) (rxr_recvd rxSar)
    65535 (rxr_win_shift rxSar) (if rxr_win_shift rxSar =? 0 then 4 else 8) true false true false)) as Hm.
  { apply syn_meta_typed; try done; [destruct again; [done|apply initial_seq_width]|by case_match]. }
  case_goals.
  - cbn. fold again. destruct again; [exact (mt_random e He)|by apply wrap_range].
  - segment_writes; try done.
Qed.

Lemma ml_rst_typed txSar : (forall t, txSar = Some t -> typed t) -> call_typed (ml_rst e txSar).
Proof.
  intros Ht. pose proof id_width as Hid. pose proof (getAckNumb_width (xev_event (ml_curEvent e))).
  case_goals. destruct txSar as [t|]; segment_writes; try done.
  - split_and!; try done. apply (Ht t eq_refl).
  - apply (mt_event e He).
Qed.
End Cases.

(** ** The machine *)
Lemma nothing_typed e : ml_typed e -> call_typed (e, []).
Proof. by split. Qed.

Lemma with_both_typed k e :
  ml_typed e ->
  (forall e' r t, ml_typed e' -> ml_curEvent e' = ml_curEvent e -> typed r -> typed t -> call_typed (k e' r t)) ->
  call_typed (with_both k e).
Proof.
  intros He Hk. unfold with_both. pose proof (mt_rxSars e He) as Hr. pose proof (mt_txSars e He) as Ht.
  destruct (rxSar2txEng_rsp e) as [|x r]; [by apply nothing_typed|].
  destruct (txSar2txEng_upd_rsp e) as [|y t]; [by apply nothing_typed|].
  apply Forall_cons_1 in Hr as [? ?]. apply Forall_cons_1 in Ht as [? ?]. apply Hk; try done. destruct He. by constructor.
Qed.

Lemma loaded_or_both_typed k e :
  ml_typed e ->
  (forall e' r t, ml_typed e' -> ml_curEvent e' = ml_curEvent e -> typed r -> typed t -> call_typed (k e' r t)) ->
  call_typed (loaded_or_both k e).
Proof.
  intros He Hk. unfold loaded_or_both. case_match; [|by apply with_both_typed].
  apply Hk; [done|done|apply (mt_rxSar e He)|apply (mt_txSar e He)].
Qed.

Lemma with_tx_typed b k e :
  ml_typed e -> (forall e' t, ml_typed e' -> (forall x, t = Some x -> typed x) -> call_typed (k e' t)) ->
  call_typed (with_tx b k e).
Proof.
  intros He Hk. unfold with_tx. destruct b; [|by apply Hk].
  pose proof (mt_txSars e He) as Ht. destruct (txSar2txEng_upd_rsp e) as [|y t]; [by apply nothing_typed|].
  apply Forall_cons_1 in Ht as [? ?]. apply Hk; [|by intros ? [= <-]]. destruct He. by constructor.
Qed.

Lemma metaLoader_call_typed e : ml_typed e -> call_typed (metaLoader e).
Proof.
  intros He. unfold metaLoader. destruct (ml_evaluating e).
  - destruct (ev_type _) eqn:Ht;
      first [apply with_both_typed | apply loaded_or_both_typed | apply with_tx_typed]; try done; intros;
      first [apply ml_tx_typed | apply ml_rt_typed | apply ml_ack_typed | apply ml_syn_typed
            | apply ml_syn_ack_typed | apply ml_fin_typed | apply ml_rst_typed]; congruence || done.
  - pose proof (mt_events e He) as Hx. destruct (eventEng2txEng_event e) as [|x rest] eqn:Hev.
    + split; [|done]. destruct He. by constructor; cbn; rewrite ?Hev in *.
    + apply Forall_cons_1 in Hx as [[Hx Ht] Hrest]. split; [|by apply Forall_cons_2; [|apply requests_typed]].
      destruct He. constructor; try done; try by apply wrap_range.
Qed.

Lemma ml_arrive_typed a e : typed a -> ml_typed e -> ml_typed (ml_arrive a e).
Proof. intros Ha []. destruct a; constructor; try done; by apply Forall_app_2; [|apply Forall_singleton]. Qed.

Lemma ml_init_typed : ml_typed ml_init.
Proof. constructor; try done; by repeat split. Qed.

Lemma ml_run_typed s :
  Forall typed (arrivals s) ->
  Forall typed (exec metaLoader ml_arrive s ml_init).2 /\
  Forall syn_length_ok (omap out_meta (exec metaLoader ml_arrive s ml_init).2).
Proof.
  refine (fun Ha => proj1 (exec_invariant metaLoader ml_arrive (fun l w e => Forall typed l ->
    (Forall typed w /\ Forall syn_length_ok (omap out_meta w)) /\ ml_typed e) _ _ s ml_init _ Ha)).
  - intros l w e IH Hl. destruct (IH Hl) as ((Hw & Hs) & He). destruct (metaLoader_call_typed e He) as [He' Hw'].
    pose proof (al_syn _ (aligned_call e)). rewrite omap_app. split_and!; [by apply Forall_app_2..|done].
  - intros l w a e IH Hl. apply Forall_app in Hl as [Hl [Hx _]%Forall_cons_1]. destruct (IH Hl) as ((Hw & Hs) & He).
    split_and!; try done. by apply ml_arrive_typed.
  - intros _. split; [done|apply ml_init_typed].
Qed.

End Typing.

(** ** A write of the application of 100 bytes, and the message of its segment *)
Section TypingWitness.
#[local] Existing Instance tiny_config.
#[local] Instance width64 : WordWidth := 64%nat.

Definition typing_schedule : list (option ml_arrival) :=
  [Some (A_event (mkExtendedEvent (mkEvent TX 1 500 100 0) (mkFourTuple 0 0 0 0))); None;
   Some (A_rxSarRsp (mkRxSarReply 7000 2 4096 0)); Some (A_txSarRsp (mkTxTxSarReply 900 1000 0 0 100 false false 2));
   None; None].

Definition typing_message : message :=
  mkMessage (mkTxMeta 1000 7000 4096 0 100 true false false false)
    (mkFourTuple 16777226 33554442 20480 36895) true (replicate 100 42).

End TypingWitness.
