(* ===== verification/EthDatapath.v ===== *)
(** * The link layer: from an IP packet to an Ethernet frame and back
    ([mac_ip_encode], [ethernet_frame_padding_512], [ip_handler], [ethernet/ethernet.hpp],
    [ipv4/ipv4_utils.cpp])

    [mac_ip_encode] asks for the MAC address of the next hop, puts the checksum into
    the IP header and the Ethernet header in front of the packet; short frames are
    padded; [ip_handler] routes the frames that arrive by their Ethertype, removes the
    Ethernet header, checks the IP header and its destination, cuts the padding off
    and routes the packets by their protocol. *)

From S2P Require Import Prelude Streams Words Shifters ToeTypes Checksum Headers TxDatapath.

(** ** [ethHeader] ([ethernet/ethernet.hpp]) *)
Definition ETH_HEADER_SIZE : Z := 112.

Module Eth.
Definition setDstAddress (addr h : Z) : Z := set_bits 47 0 addr h.
Definition setSrcAddress (addr h : Z) : Z := set_bits 95 48 addr h.
Definition setEthertype (type h : Z) : Z := set_bits 111 96 (reverse16 type) h.
Definition getEthertype (h : Z) : Z := reverse16 (bits 111 96 h).
End Eth.

Section EthDatapath.
Context {WW : WordWidth}.

(** ** The checksum of the IP header ([ipv4/ipv4_utils.cpp], the 512 bit overload) *)

(** The pairs of lanes of the header, pair 5 (the checksum itself) left out on demand. *)
Fixpoint add_ip_word (skipChecksum : bool) (ipHeaderLen : Z) (i : nat) (sums data : list Z) : list Z :=
  match sums, data with
  | s :: sums, lo :: hi :: data =>
      (if (negb skipChecksum || negb (i =? 5)%nat) && (Z.of_nat (i / 2) <? ipHeaderLen)
       then add_carry s (reverse16 (le_val [lo; hi])) else s)
      :: add_ip_word skipChecksum ipHeaderLen (S i) sums data
  | _, _ => sums
  end.

Record ipck_env := mkIpckEnv {
  cics_ip_sums : list Z; cics_ipHeaderLen : Z; cics_firstWord : bool; cics_dataIn : stream net_axis
}.
#[export] Instance eta_ipck_env : Eta ipck_env := fun e =>
  mkIpckEnv (cics_ip_sums e) (cics_ipHeaderLen e) (cics_firstWord e) (cics_dataIn e).

Inductive ipck_write := W_cics_dataOut (w : net_axis) | W_subSumFiFoOut (sums : list Z).

Definition ipck_init : ipck_env := mkIpckEnv zero_sums 0 true [].

Definition compute_ipv4_checksum (skipChecksum : bool) (e : ipck_env) : ipck_env * list ipck_write :=
  match cics_dataIn e with
  | [] => (e, [])
  | currWord :: rest =>
      let len := if cics_firstWord e then bits 3 0 (byte_at 0 (data currWord)) else cics_ipHeaderLen e in
      let sums := if cics_firstWord e
                  then add_ip_word skipChecksum len 0 (cics_ip_sums e) (data currWord)
                  else cics_ip_sums e in
      (mkIpckEnv (if last currWord then zero_sums else sums) len (last currWord) rest,
       W_cics_dataOut currWord :: when (cics_firstWord e) [W_subSumFiFoOut sums])
  end.

(** The copies for the two kernels; [ip_handler] uses the default of the flag. *)
Definition mac_compute_ipv4_checksum : ipck_env -> ipck_env * list ipck_write := compute_ipv4_checksum true.
Definition ip_handler_compute_ipv4_checksum : ipck_env -> ipck_env * list ipck_write := compute_ipv4_checksum false.
Definition mac_finalize_ipv4_checksum : list Z -> Z := finalize_ipv4_checksum.
Definition ip_handler_check_ipv4_checksum : list Z -> bool := toe_check_ipv4_checksum.

(** The copies of the shifters. *)
Definition mac_lshiftWordByOctet : nat -> lshift_env -> lshift_env * list net_axis := lshiftWordByOctet.
Definition ip_handler_rshiftWordByOctet : nat -> rshift_env -> rshift_env * list net_axis := rshiftWordByOctet.

(** * [mac_ip_encode] *)

(** ** [extract_ip_address]: the next hop of every packet *)
Record extract_env := mkExtractEnv {
  ea_header : packetHeader; ea_metaWritten : bool; ea_dataIn : stream net_axis
}.
#[export] Instance eta_extract_env : Eta extract_env := fun e =>
  mkExtractEnv (ea_header e) (ea_metaWritten e) (ea_dataIn e).

Inductive extract_write := W_ea_dataOut (w : net_axis) | W_arpTableOut (ip : Z).

Definition extract_init (h : Z) : extract_env := mkExtractEnv (mkPacketHeader false 0 (Ipv4.init h)) false [].

Definition next_hop (regSubNetMask regDefaultGateway dstIpAddress : Z) : Z :=
  if Z.land dstIpAddress regSubNetMask =? Z.land regDefaultGateway regSubNetMask
  then dstIpAddress else regDefaultGateway.

Definition extract_ip_address (regSubNetMask regDefaultGateway : Z) (e : extract_env)
    : extract_env * list extract_write :=
  match ea_dataIn e with
  | [] => (e, [])
  | currWord :: rest =>
      let header := parseWord IPV4_HEADER_SIZE (data currWord) (ea_header e) in
      let write := ph_ready header && negb (ea_metaWritten e) in
      ((if last currWord then mkExtractEnv (clear header) false rest
        else mkExtractEnv header (ea_metaWritten e || write) rest),
       W_ea_dataOut currWord ::
       when write [W_arpTableOut (next_hop regSubNetMask regDefaultGateway (Ipv4.getDstAddr (ph_header header)))])
  end.

(** ** [insert_ip_checksum] *)
Record ipins_env := mkIpinsEnv {
  ii_wordCount : Z; ii_checksum : Z; ii_dataIn : stream net_axis; ii_checksumFifoIn : stream Z
}.
#[export] Instance eta_ipins_env : Eta ipins_env := fun e =>
  mkIpinsEnv (ii_wordCount e) (ii_checksum e) (ii_dataIn e) (ii_checksumFifoIn e).

Definition ipins_init : ipins_env := mkIpinsEnv 0 0 [] [].

Definition put_data (n : nat) (v : list Z) (w : net_axis) : net_axis :=
  mkWord (put n v (data w)) (keep w) (last w).

Definition insert_ip_checksum (e : ipins_env) : ipins_env * list net_axis :=
  if ii_wordCount e =? 0 then
    match ii_dataIn e, ii_checksumFifoIn e with
    | currWord :: rest, checksum :: checksums =>
        (mkIpinsEnv (if last currWord then 0 else wrap 4 (ii_wordCount e + 1)) checksum rest checksums,
         [if 64 <? WIDTH then put_data 10 (le_bytes 2 (reverse16 checksum)) currWord else currWord])
    | _, _ => (e, [])
    end
  else if ii_wordCount e =? 1 then
    match ii_dataIn e with
    | currWord :: rest =>
        (mkIpinsEnv (if last currWord then 0 else wrap 4 (ii_wordCount e + 1)) (ii_checksum e) rest
           (ii_checksumFifoIn e),
         [if WIDTH =? 64 then put_data 2 (le_bytes 2 (reverse16 (ii_checksum e))) currWord else currWord])
    | [] => (e, [])
    end
  else
    match ii_dataIn e with
    | currWord :: rest =>
        (mkIpinsEnv (if last currWord then 0 else ii_wordCount e) (ii_checksum e) rest (ii_checksumFifoIn e),
         [currWord])
    | [] => (e, [])
    end.

(** ** [handle_arp_reply]: a packet whose next hop is unknown is dropped *)
Record arpTableReply := mkArpReply { ar_macAddress : Z; ar_hit : bool }.

Inductive har_stateType := HAR_ARP | HAR_FWD | HAR_DROP.
Record har_env := mkHarEnv {
  har_state : har_stateType; har_arpTableIn : stream arpTableReply; har_dataIn : stream net_axis
}.
#[export] Instance eta_har_env : Eta har_env := fun e =>
  mkHarEnv (har_state e) (har_arpTableIn e) (har_dataIn e).

Inductive har_write := W_headerOut (h : packetHeader) | W_har_dataOut (w : net_axis).

Definition har_init : har_env := mkHarEnv HAR_ARP [] [].

Definition IPV4_ETHERTYPE : Z := 2048.

(** The header of a fresh [ethHeader], whose contents [h0] are undefined. *)
Definition eth_header (dst src h0 : Z) : packetHeader :=
  mkPacketHeader false 0 (Eth.setEthertype IPV4_ETHERTYPE (Eth.setSrcAddress src (Eth.setDstAddress dst h0))).

Definition handle_arp_reply (myMacAddress h0 : Z) (e : har_env) : har_env * list har_write :=
  match har_state e with
  | HAR_ARP =>
      match har_arpTableIn e, har_dataIn e with
      | reply :: replies, word :: rest =>
          if ar_hit reply
          then (mkHarEnv (if last word then HAR_ARP else HAR_FWD) replies rest,
                [W_headerOut (eth_header (ar_macAddress reply) myMacAddress h0); W_har_dataOut word])
          else (mkHarEnv (if last word then HAR_ARP else HAR_DROP) replies rest, [])
      | _, _ => (e, [])
      end
  | HAR_FWD =>
      match har_dataIn e with
      | word :: rest =>
          (mkHarEnv (if last word then HAR_ARP else HAR_FWD) (har_arpTableIn e) rest, [W_har_dataOut word])
      | [] => (e, [])
      end
  | HAR_DROP =>
      match har_dataIn e with
      | word :: rest => (mkHarEnv (if last word then HAR_ARP else HAR_DROP) (har_arpTableIn e) rest, [])
      | [] => (e, [])
      end
  end.

(** ** [insert_ethernet_header] *)
Inductive ieh_stateType := IEH_HEADER | IEH_PARTIAL_HEADER | IEH_BODY.
Record ieh_env := mkIehEnv {
  ieh_state : ieh_stateType; ieh_header : packetHeader;
  ieh_headerIn : stream packetHeader; ieh_dataIn : stream net_axis
}.
#[export] Instance eta_ieh_env : Eta ieh_env := fun e =>
  mkIehEnv (ieh_state e) (ieh_header e) (ieh_headerIn e) (ieh_dataIn e).

Definition ieh_first : ieh_stateType := if WIDTH <=? ETH_HEADER_SIZE then IEH_HEADER else IEH_PARTIAL_HEADER.
Definition ieh_init (h : Z) : ieh_env := mkIehEnv ieh_first (mkPacketHeader false 0 h) [] [].

(** [garbage] is what an unassigned word holds. *)
Definition insert_ethernet_header (garbage : list Z) (e : ieh_env) : ieh_env * list net_axis :=
  match ieh_state e with
  | IEH_HEADER =>
      match ieh_headerIn e with
      | header :: headers =>
          let '(header, d, _) := consumeWord ETH_HEADER_SIZE garbage header in
          (mkIehEnv IEH_PARTIAL_HEADER header headers (ieh_dataIn e), [mkWord d (replicate lanes true) false])
      | [] => (e, [])
      end
  | IEH_PARTIAL_HEADER =>
      match (if WIDTH <=? ETH_HEADER_SIZE then Some (ieh_header e, ieh_headerIn e)
             else match ieh_headerIn e with header :: headers => Some (header, headers) | [] => None end),
            ieh_dataIn e with
      | Some (header, headers), currWord :: rest =>
          let '(header, d, _) := consumeWord ETH_HEADER_SIZE (data currWord) header in
          (mkIehEnv (if last currWord then ieh_first else IEH_BODY) header headers rest,
           [mkWord d (keep currWord) (last currWord)])
      | _, _ => (e, [])
      end
  | IEH_BODY =>
      match ieh_dataIn e with
      | currWord :: rest =>
          (mkIehEnv (if last currWord then ieh_first else IEH_BODY) (ieh_header e) (ieh_headerIn e) rest, [currWord])
      | [] => (e, [])
      end
  end.

(** * [ethernet_frame_padding_512] *)
Record padding_env := mkPaddingEnv { pad_state : bool; pad_dataIn : stream net_axis }.
#[export] Instance eta_padding_env : Eta padding_env := fun e => mkPaddingEnv (pad_state e) (pad_dataIn e).

Definition padding_init : padding_env := mkPaddingEnv false [].

(** The lanes not in use are set to zero and used. *)
Definition pad_word (w : net_axis) : net_axis :=
  mkWord (zip_with (fun (k : bool) d => if k then d else 0) (keep w) (data w))
    (replicate (length (keep w)) true) (last w).

Definition ethernet_frame_padding_512 (e : padding_env) : padding_env * list net_axis :=
  match pad_dataIn e with
  | [] => (e, [])
  | currWord :: rest =>
      if pad_state e then (mkPaddingEnv (negb (last currWord)) rest, [currWord])
      else if last currWord then (mkPaddingEnv false rest, [pad_word currWord])
      else (mkPaddingEnv true rest, [currWord])
  end.
End EthDatapath.

#[export] Existing Instances eta_ipck_env eta_extract_env eta_ipins_env eta_har_env eta_ieh_env eta_padding_env.
