(* ===== verification/MacEncode.v ===== *)
(** * The frames that [mac_ip_encode] sends

    The stages of the sending half of EthDatapath.v as deterministic processes, for
    words of 512 bits, and their composition: on any schedule, every IP packet whose
    next hop is known leaves as an Ethernet frame with a correct header checksum. *)

From S2P Require Import Prelude Streams Words Shifters ToeTypes Checksum Headers TxDatapath EthDatapath.
From S2P Require Import RxFrontend TxBackend.

(** ** An IP packet *)
Definition ip_header_length (d : list Z) : Z := bits 3 0 (byte_at 0 d).
Definition ip_header_of (d : list Z) : list Z := take (Z.to_nat (4 * ip_header_length d)) d.
Definition ip_dst (d : list Z) : Z := le_val (field 16 4 d).
Definition ip_header_valid (d : list Z) : bool := rfc1071 (ip_header_of d) =? 0.

(** The header has its five words and is not longer than the packet. *)
Record ip_ok (d : list Z) : Prop := {
  io_bytes : bytes d; io_ihl : 5 <= ip_header_length d;
  io_length : 4 * ip_header_length d <= Z.of_nat (length d)
}.

(** What the stages rely on when they read a packet. *)
Record ip_readable (d : list Z) : Prop := {
  ir_bytes : bytes d; ir_size : (20 <= length d)%nat;
  ir_length : 4 * ip_header_length d <= Z.of_nat (length d)
}.

Lemma ip_ok_readable d : ip_ok d -> ip_readable d.
Proof. intros [H1 H2 H3]. constructor; [done|lia|done]. Qed.

Lemma ip_ok_readables D : Forall ip_ok D -> Forall ip_readable D.
Proof. apply Forall_impl, ip_ok_readable. Qed.

(** The checksum of the header, computed as if its own bytes were zero. *)
Definition ip_checksum (d : list Z) : Z := rfc1071 (put 10 [0; 0] (ip_header_of d)).
Definition with_ip_checksum (d : list Z) : list Z := put 10 (le_bytes 2 (reverse16 (ip_checksum d))) d.

(** The frame of a packet. *)
Definition eth_frame (dst src : Z) (d : list Z) : list Z := le_bytes 6 dst ++ le_bytes 6 src ++ [8; 0] ++ d.

Lemma ip_header_length_range d : 0 <= ip_header_length d <= 15.
Proof.
  pose proof (bits_range 3 0 (byte_at 0 d) ltac:(lia)) as H. unfold in_width in H.
  change (2 ^ (3 - 0 + 1)) with 16 in H. unfold ip_header_length. lia.
Qed.

Lemma put_length {A} n (v l : list A) : (n + length v <= length l)%nat -> length (put n v l) = length l.
Proof. intros H. unfold put. rewrite !length_app, length_take, length_drop. lia. Qed.

Lemma put_take {A} n (v l : list A) k :
  (n + length v <= k)%nat -> (k <= length l)%nat -> take k (put n v l) = put n v (take k l).
Proof.
  intros H1 H2. unfold put. rewrite take_take, Nat.min_l by lia.
  rewrite !take_app, !length_take, !take_take. rewrite (take_ge v) by lia.
  rewrite skipn_firstn_comm. do 3 f_equal; lia.
Qed.

Lemma put_lookup_lt {A} n (v l : list A) i : (i < n)%nat -> (n <= length l)%nat -> put n v l !! i = l !! i.
Proof.
  intros H1 H2. unfold put. rewrite lookup_app_l by (rewrite length_take; lia). by rewrite lookup_take_lt.
Qed.

Lemma put_bytes n v l : bytes v -> bytes l -> bytes (put n v l).
Proof.
  intros Hv Hl. unfold put. apply Forall_app. split; [by apply Forall_take|].
  apply Forall_app. split; [done|by apply Forall_drop].
Qed.

Section IpChecksum.
Variable d : list Z.
Hypothesis Hd : ip_ok d.

Lemma ip_header_of_length : Z.of_nat (length (ip_header_of d)) = 4 * ip_header_length d.
Proof. pose proof (io_length d Hd). pose proof (io_ihl d Hd). unfold ip_header_of. rewrite length_take. lia. Qed.

Lemma ip_header_of_bytes : bytes (ip_header_of d).
Proof. apply Forall_take, (io_bytes d Hd). Qed.

Lemma ip_masked_positive : 0 < sum16 (put 10 [0; 0] (ip_header_of d)).
Proof.
  pose proof ip_header_of_length as Hl. pose proof (io_ihl d Hd) as Hi.
  pose proof (put_bytes 10 [0; 0] _ ltac:(by repeat constructor) ip_header_of_bytes) as Hb.
  pose proof (put_lookup_lt 10 [0; 0] (ip_header_of d) 0 ltac:(lia) ltac:(lia)) as H0.
  assert (ip_header_of d !! 0%nat = d !! 0%nat) as H1 by (unfold ip_header_of; apply lookup_take_lt; lia).
  rewrite H1 in H0. assert (length (put 10 [0; 0] (ip_header_of d)) = length (ip_header_of d)) as He.
  { apply put_length. simpl. lia. }
  destruct (put 10 [0; 0] (ip_header_of d)) as [|a [|b l]]; [simpl in He; lia|simpl in He; lia|].
  cbn in H0. unfold ip_header_length, byte_at in Hi. rewrite <- H0 in Hi. cbn [default] in Hi.
  inversion Hb as [|? ? Ha Hb1]; subst. inversion Hb1 as [|? ? Hb2 Hb3]; subst.
  pose proof (sum16_nonneg l Hb3). cbn [sum16]. unfold in_width in *.
  assert (a <> 0) by (intros ->; by vm_compute in Hi). lia.
Qed.

Lemma ip_checksum_range : in_width 16 (ip_checksum d).
Proof.
  unfold ip_checksum. pose proof (put_bytes 10 [0; 0] _ ltac:(by repeat constructor) ip_header_of_bytes) as Hb.
  rewrite rfc1071_oc by done. pose proof (oc_range _ (sum16_nonneg _ Hb)). unfold in_width. pow2. lia.
Qed.

Lemma with_ip_checksum_length : length (with_ip_checksum d) = length d.
Proof. pose proof (io_length d Hd). pose proof (io_ihl d Hd). apply put_length. rewrite le_bytes_length. lia. Qed.

Lemma with_ip_checksum_header :
  ip_header_of (with_ip_checksum d) = put 10 (le_bytes 2 (reverse16 (ip_checksum d))) (ip_header_of d).
Proof.
  pose proof (io_length d Hd). pose proof (io_ihl d Hd).
  unfold ip_header_of at 1, ip_header_length, byte_at, with_ip_checksum. rewrite put_lookup_lt by lia.
  apply put_take; rewrite ?le_bytes_length; unfold ip_header_length, byte_at in *; lia.
Qed.

Lemma with_ip_checksum_ok : ip_ok (with_ip_checksum d).
Proof.
  pose proof (io_length d Hd) as Hl. pose proof (io_ihl d Hd) as Hi.
  assert (ip_header_length (with_ip_checksum d) = ip_header_length d) as He.
  { unfold ip_header_length, byte_at, with_ip_checksum. by rewrite put_lookup_lt by lia. }
  constructor; rewrite ?He, ?with_ip_checksum_length; try done.
  apply put_bytes; [apply le_bytes_bytes|apply (io_bytes d Hd)].
Qed.

(** The header with its checksum is valid. *)
Lemma with_ip_checksum_valid : ip_header_valid (with_ip_checksum d) = true.
Proof.
  unfold ip_header_valid. apply Z.eqb_eq. rewrite with_ip_checksum_header.
  pose proof ip_masked_positive as Hpos. pose proof ip_header_of_length as Hl. pose proof (io_ihl d Hd).
  pose proof (put_bytes 10 [0; 0] _ ltac:(by repeat constructor) ip_header_of_bytes) as Hb.
  rewrite le_bytes_reverse16 by apply ip_checksum_range. unfold ip_checksum in *. unfold put in *.
  apply (inserted_checksum_valid _ _ 5); [done| |done]. rewrite length_take. lia.
Qed.

Lemma with_ip_checksum_dst : ip_dst (with_ip_checksum d) = ip_dst d.
Proof.
  pose proof (io_length d Hd). pose proof (io_ihl d Hd). unfold ip_dst, field, with_ip_checksum, put.
  rewrite le_bytes_length, app_assoc, drop_app_ge by (rewrite length_app, length_take, le_bytes_length; lia).
  rewrite length_app, length_take, le_bytes_length, drop_drop. do 3 f_equal. lia.
Qed.
End IpChecksum.

(** ** The sum over the header *)
Fixpoint ip_terms (skip : bool) (len : Z) (i : nat) (data : list Z) : list Z :=
  match data with
  | lo :: hi :: data =>
      (if (negb skip || negb (i =? 5)%nat) && (Z.of_nat (i / 2) <? len) then 256 * lo + hi else 0)
      :: ip_terms skip len (S i) data
  | _ => []
  end.

Lemma header_pair i L :
  ((Z.of_nat (i / 2) <? Z.of_nat L) = true /\ (i < 2 * L)%nat /\
   (4 * L - 2 * i)%nat = S (S (4 * L - 2 * S i))) \/
  ((Z.of_nat (i / 2) <? Z.of_nat L) = false /\ (4 * L - 2 * i)%nat = 0%nat /\ (4 * L - 2 * S i)%nat = 0%nat).
Proof.
  destruct (Z.ltb_spec (Z.of_nat (i / 2)) (Z.of_nat L)) as [H|H]; rewrite Nat2Z.inj_div in H.
  - assert (i < 2 * L)%nat by (apply Nat2Z.inj_lt; Z.div_mod_to_equations; lia). left. split_and!; [done|lia..].
  - assert (2 * L <= i)%nat by (apply Nat2Z.inj_le; Z.div_mod_to_equations; lia). right. split_and!; [done|lia..].
Qed.

(** The lanes behind the header do not matter. *)
Lemma add_ip_word_oc skip L i A l :
  Forall (Z.le 0) A -> bytes (take (4 * L - 2 * i) l) -> length l = (2 * length A)%nat ->
  let T := ip_terms skip (Z.of_nat L) i l in
  add_ip_word skip (Z.of_nat L) i (map oc A) l = map oc (zip_with Z.add A T) /\
  length T = length A /\ Forall (Z.le 0) T.
Proof.
  intros HA. revert i l. induction HA as [|a A Ha _ IH]; intros i [|lo [|hi l]] Hb Hl; simpl in Hl; try lia.
  - by split_and!; [| |constructor].
  - cbn [map add_ip_word ip_terms zip_with length].
    destruct (header_pair i L) as [(-> & Hi & Hk)|(-> & Hk & Hk')]; rewrite Hk in Hb.
    + cbn [take] in Hb. inversion Hb as [|? ? H1 Hb']; subst. inversion Hb' as [|? ? H2 Hb'']; subst.
      destruct (IH (S i) l Hb'' ltac:(lia)) as (-> & -> & IH3). rewrite andb_true_r. unfold in_width in *.
      change (2 ^ 8) with 256 in *. split_and!; [|done|constructor; [destruct (_ || _); lia|done]].
      f_equal. destruct (_ || _); [|by rewrite Z.add_0_r].
      rewrite reverse16_lanes by done. rewrite <- (oc_small (256 * lo + hi)) at 1 by lia. apply add_carry_oc; lia.
    + destruct (IH (S i) l ltac:(rewrite Hk'; constructor) ltac:(lia)) as (-> & -> & IH3).
      rewrite andb_false_r, Z.add_0_r. split_and!; [done|done|by constructor].
Qed.

(** Without the checksum left out: the sum of the header's bytes. *)
Lemma ip_terms_sum L n i l :
  length l = (2 * n)%nat ->
  zsum (ip_terms false (Z.of_nat L) i l) = sum16 (take (4 * L - 2 * i) l).
Proof.
  revert i l. induction n as [|n IH]; intros i [|lo [|hi l]] Hl; simpl in Hl; try lia.
  - by rewrite take_nil.
  - cbn [ip_terms]. change (zsum (?x :: ?t)) with (x + zsum t). rewrite (IH (S i) l) by lia. cbn [negb orb andb].
    destruct (header_pair i L) as [(-> & _ & ->)|(-> & -> & ->)]; [|done]. cbn [take sum16]. lia.
Qed.

Lemma ip_terms_later skip len i l : (5 < i)%nat -> ip_terms skip len i l = ip_terms false len i l.
Proof.
  intros Hi. assert (forall n i l, (length l <= n)%nat -> (5 < i)%nat -> ip_terms skip len i l = ip_terms false len i l) as H.
  { clear. induction n as [|n IH]; intros i [|lo [|hi l]] Hl Hi; try done; simpl in Hl; [lia|].
    cbn [ip_terms]. rewrite IH by lia. by rewrite (proj2 (Nat.eqb_neq i 5)) by lia; destruct skip. }
  by eapply H.
Qed.

(** With it: the sum with zeros in its place. *)
Lemma ip_terms_skip len l :
  (12 <= length l)%nat -> zsum (ip_terms true len 0 l) = zsum (ip_terms false len 0 (put 10 [0; 0] l)).
Proof.
  intros Hl. do 12 (destruct l as [|? l]; [simpl in Hl; lia|]).
  unfold put. cbn [take drop app length Nat.add].
  unfold zsum. cbn [ip_terms foldr]. rewrite (ip_terms_later true) by lia. cbn [negb orb andb Nat.eqb].
  rewrite drop_0. do 5 f_equal. by destruct (Z.of_nat (5 / 2) <? len).
Qed.

(** ** The stages as deterministic processes *)
Section MacStages.
Context {WW : WordWidth}.

Definition ipck_arrive (w : net_axis) (e : ipck_env) : ipck_env := e <| cics_dataIn := cics_dataIn e ++ [w] |>.

#[export, refine] Instance ipck_kahn skip : KahnProcess (compute_ipv4_checksum skip) ipck_arrive := {
  kahn_work e := length (cics_dataIn e); kahn_progress := _; kahn_diamond := _
}.
Proof.
  - intros [s n f [|w ws]]; [by left|right; simpl; lia].
  - intros a [s n f [|w ws]]; [by left|by right].
Defined.

Definition extract_arrive (w : net_axis) (e : extract_env) : extract_env := e <| ea_dataIn := ea_dataIn e ++ [w] |>.

#[export, refine] Instance extract_kahn mask gateway : KahnProcess (extract_ip_address mask gateway) extract_arrive := {
  kahn_work e := length (ea_dataIn e); kahn_progress := _; kahn_diamond := _
}.
Proof.
  - intros [h m [|w ws]]; [by left|right]. unfold extract_ip_address. simpl. destruct (last w); simpl; lia.
  - intros a [h m [|w ws]]; [by left|right]. unfold extract_ip_address. simpl. by destruct (last w).
Defined.

Inductive ipins_arrival := A_ipChecksum (c : Z) | A_ipWord (w : net_axis).
Definition ipins_arrive (a : ipins_arrival) (e : ipins_env) : ipins_env :=
  match a with
  | A_ipChecksum c => e <| ii_checksumFifoIn := ii_checksumFifoIn e ++ [c] |>
  | A_ipWord w => e <| ii_dataIn := ii_dataIn e ++ [w] |>
  end.

#[export, refine] Instance ipins_kahn : KahnProcess insert_ip_checksum ipins_arrive := {
  kahn_work e := length (ii_dataIn e); kahn_progress := _; kahn_diamond := _
}.
Proof.
  - intros [n c [|w ws] [|x xs]]; unfold insert_ip_checksum; simpl; repeat case_match_in_goal;
      (by left) || (right; simpl; lia).
  - intros [x'|w'] [n c [|w ws] [|x xs]]; unfold insert_ip_checksum; simpl; repeat case_match_in_goal;
      (by left) || (by right).
Defined.

Inductive har_arrival := A_arpReply (r : arpTableReply) | A_arpWord (w : net_axis).
Definition har_arrive (a : har_arrival) (e : har_env) : har_env :=
  match a with
  | A_arpReply r => e <| har_arpTableIn := har_arpTableIn e ++ [r] |>
  | A_arpWord w => e <| har_dataIn := har_dataIn e ++ [w] |>
  end.

#[export, refine] Instance har_kahn mac h0 : KahnProcess (handle_arp_reply mac h0) har_arrive := {
  kahn_work e := length (har_dataIn e); kahn_progress := _; kahn_diamond := _
}.
Proof.
  - intros [[] [|r rs] [|w ws]]; unfold handle_arp_reply; simpl; repeat case_match_in_goal;
      (by left) || (right; simpl; lia).
  - intros [r'|w'] [[] [|r rs] [|w ws]]; unfold handle_arp_reply; simpl; repeat case_match_in_goal;
      (by left) || (by right).
Defined.

Definition padding_arrive (w : net_axis) (e : padding_env) : padding_env := e <| pad_dataIn := pad_dataIn e ++ [w] |>.

#[export, refine] Instance padding_kahn : KahnProcess ethernet_frame_padding_512 padding_arrive := {
  kahn_work e := length (pad_dataIn e); kahn_progress := _; kahn_diamond := _
}.
Proof.
  - intros [s [|w ws]]; [by left|right]. unfold ethernet_frame_padding_512. simpl.
    repeat case_match_in_goal; simpl; lia.
  - intros a [s [|w ws]]; [by left|right]. unfold ethernet_frame_padding_512. simpl.
    by repeat case_match_in_goal.
Defined.

Inductive ieh_arrival := A_ethHeader (h : packetHeader) | A_ethWord (w : net_axis).
Definition ieh_arrive (a : ieh_arrival) (e : ieh_env) : ieh_env :=
  match a with
  | A_ethHeader h => e <| ieh_headerIn := ieh_headerIn e ++ [h] |>
  | A_ethWord w => e <| ieh_dataIn := ieh_dataIn e ++ [w] |>
  end.

Variable garbage : list Z.

#[export, refine] Instance ieh_kahn : KahnProcess (insert_ethernet_header garbage) ieh_arrive := {
  kahn_work e := (length (ieh_headerIn e) + length (ieh_dataIn e))%nat; kahn_progress := _; kahn_diamond := _
}.
Proof.
  - intros [[] h [|x xs] [|w ws]]; unfold insert_ethernet_header; simpl; try (by left);
      destruct (WIDTH <=? ETH_HEADER_SIZE); simpl; try (by left); try destruct (consumeWord _ _ _) as [[? ?] ?];
      right; simpl; lia.
  - intros [x'|w'] [[] h [|x xs] [|w ws]]; unfold insert_ethernet_header; simpl; try (by left);
      destruct (WIDTH <=? ETH_HEADER_SIZE); simpl; try (by left); try destruct (consumeWord _ _ _) as [[? ?] ?];
      by right.
Defined.
End MacStages.

#[export] Existing Instances ipck_kahn extract_kahn ipins_kahn har_kahn padding_kahn ieh_kahn.

(** ** The stages on packets *)
Section MacPackets.
Context {WW : WordWidth}.
Hypothesis lanes64 : lanes = 64%nat.

(** The fields of a header that is complete with the first word of a packet. *)
Lemma parsed_first n ws d h :
  packet ws d -> bytes d -> (0 < n)%nat -> (n <= length d)%nat -> (n <= 64)%nat ->
  exists w ws' h', ws = w :: ws' /\ (exists pad, data w = take (Nat.min (length d) 64) d ++ pad) /\
    length (data w) = 64%nat /\
    parseWord (8 * Z.of_nat n) (data w) (mkPacketHeader false 0 h) = mkPacketHeader true 1 h' /\
    forall hi lo m k, (m + k <= n)%nat -> (0 < k)%nat -> lo = 8 * Z.of_nat m -> hi = lo + 8 * Z.of_nat k - 1 ->
      bits hi lo h' = le_val (field m k d).
Proof.
  intros Hp Hb Hn Hl H64.
  destruct (parse_first lanes64 (8 * Z.of_nat n) ws d h ltac:(lia) Hp) as (w & ws' & -> & Hparse & Hw).
  exists w, ws', (set_bits (8 * Z.of_nat n - 1) 0 (le_val (data w)) h). split_and!; [done| | |done|].
  - apply Hw; rewrite ?lanes64; lia.
  - destruct (packet_first _ _ Hp) as (w0 & ws0 & [= <- <-] & _ & _ & _ & Hlen & _). by rewrite Hlen.
  - intros hi lo m k Hmk Hk Hlo Hhi. rewrite set_bits_header by lia.
    destruct (Hw n Hl ltac:(rewrite lanes64; lia)) as [pad ->].
    rewrite (bits_field _ _ m k) by (try apply Forall_take; rewrite ?length_take; done || lia).
    unfold field. rewrite skipn_firstn_comm, take_take. do 2 f_equal. lia.
Qed.

(** *** The checksum of the IP header *)
Definition ck_words (w : list ipck_write) : list net_axis :=
  omap (fun x => match x with W_cics_dataOut wd => Some wd | _ => None end) w.
Definition ck_sums (w : list ipck_write) : list (list Z) :=
  omap (fun x => match x with W_subSumFiFoOut s => Some s | _ => None end) w.

Lemma ipck_rest skip ws sums n rest :
  framed ws -> exists n',
  drained (compute_ipv4_checksum skip) ipck_arrive (mkIpckEnv sums n false (ws ++ rest))
  = map W_cics_dataOut ws ++ drained (compute_ipv4_checksum skip) ipck_arrive (mkIpckEnv zero_sums n' true rest).
Proof.
  induction 1 as [w Hl|w ws Hl _ IH]; cbn [app map]; (erewrite drained_call by reflexivity); cbn; rewrite Hl;
    [by exists n|]. destruct IH as [n' ->]. by exists n'.
Qed.

Lemma zero_sums_64 : zero_sums = map oc (replicate 32 0).
Proof. unfold zero_sums. by rewrite lanes64. Qed.

(** The bytes whose sum is computed. *)
Definition summed_header (skip : bool) (d : list Z) : list Z :=
  if skip then put 10 [0; 0] (ip_header_of d) else ip_header_of d.

Lemma summed_header_word skip d w pad :
  ip_readable d -> (skip = true -> 5 <= ip_header_length d) -> data w = take (Nat.min (length d) 64) d ++ pad -> length (data w) = 64%nat ->
  exists A, add_ip_word skip (ip_header_length d) 0 zero_sums (data w) = map oc A /\
    Forall (Z.le 0) A /\ length A = 32%nat /\ zsum A = sum16 (summed_header skip d).
Proof.
  intros Hd Hskip Hw Hlen. pose proof (ir_length d Hd). pose proof (ip_header_length_range d).
  set (L := Z.to_nat (ip_header_length d)).
  assert (take (4 * L) (data w) = ip_header_of d) as Ht.
  { rewrite Hw, take_app_le by (rewrite length_take; lia). rewrite take_take. unfold ip_header_of. f_equal. lia. }
  replace (ip_header_length d) with (Z.of_nat L) by lia. rewrite zero_sums_64.
  destruct (add_ip_word_oc skip L 0 (replicate 32 0) (data w)) as (-> & HlT & HT).
  { by apply Forall_replicate. }
  { rewrite Nat.sub_0_r, Ht. apply Forall_take, Hd. }
  { by rewrite length_replicate. }
  rewrite length_replicate in HlT. eexists. split; [reflexivity|].
  assert (zip_with Z.add (replicate 32 0) (ip_terms skip (Z.of_nat L) 0 (data w)) = ip_terms skip (Z.of_nat L) 0 (data w)) as ->.
  { revert HlT. generalize (ip_terms skip (Z.of_nat L) 0 (data w)) 32%nat. clear. intros l. induction l as [|x l IH]; intros [|n] Hn; try done.
    cbn [replicate zip_with]. by rewrite IH by (simpl in Hn; lia). }
  split_and!; [done|done|]. unfold summed_header.
  assert (zsum (ip_terms false (Z.of_nat L) 0 (data w)) = sum16 (ip_header_of d)) as Hf
    by (rewrite (ip_terms_sum L 32) by done; by rewrite Nat.sub_0_r, Ht).
  destruct skip; [|done]. specialize (Hskip eq_refl). rewrite ip_terms_skip by lia.
  rewrite (ip_terms_sum L 32) by (rewrite put_length; simpl; lia).
  rewrite Nat.sub_0_r, put_take, Ht by (simpl; lia). done.
Qed.

Lemma ipck_packet skip ws d n rest :
  packet ws d -> ip_readable d -> (skip = true -> 5 <= ip_header_length d) ->
  exists w n' A, drained (compute_ipv4_checksum skip) ipck_arrive (mkIpckEnv zero_sums n true (ws ++ rest))
    = w ++ drained (compute_ipv4_checksum skip) ipck_arrive (mkIpckEnv zero_sums n' true rest) /\
    ck_words w = ws /\ ck_sums w = [map oc A] /\
    Forall (Z.le 0) A /\ length A = 32%nat /\ zsum A = sum16 (summed_header skip d).
Proof.
  intros Hp Hd Hskip. pose proof (ir_size d Hd).
  destruct (parsed_first 20 ws d 0 Hp (ir_bytes d Hd) ltac:(lia) ltac:(lia) ltac:(lia))
    as (w & ws' & h' & -> & [pad Hw] & Hlen & _ & _).
  destruct (summed_header_word skip d w pad Hd Hskip Hw Hlen) as (A & HA & Hnn & HlA & Hsum).
  assert (bits 3 0 (byte_at 0 (data w)) = ip_header_length d) as Hihl.
  { unfold ip_header_length, byte_at. rewrite Hw, lookup_app_l by (rewrite length_take; lia).
    by rewrite lookup_take_lt by lia. }
  cbn [app]. erewrite drained_call by reflexivity.
  cbn [cics_dataIn cics_firstWord cics_ip_sums]. rewrite Hihl, HA.
  pose proof (packet_framed _ _ Hp) as Hf. inversion Hf as [? Hlast|? ? Hlast Hf']; subst; rewrite Hlast.
  - eexists [_; _], _, A. split; [reflexivity|]. by split_and!.
  - destruct (ipck_rest skip ws' (map oc A) (ip_header_length d) rest Hf') as [n' ->].
    eexists ([_; _] ++ map W_cics_dataOut ws'), n', A. split; [by rewrite <- app_assoc|].
    unfold ck_words, ck_sums. rewrite !omap_app.
    rewrite (omap_map_Some _ W_cics_dataOut), (omap_map_None _ W_cics_dataOut) by done. by split_and!.
Qed.

Lemma ipck_packets skip ws D n :
  packets ws D -> Forall ip_readable D -> (skip = true -> Forall ip_ok D) ->
  let w := drained (compute_ipv4_checksum skip) ipck_arrive (mkIpckEnv zero_sums n true ws) in
  ck_words w = ws /\
  map finalize_ipv4_checksum (ck_sums w) = map (fun d => rfc1071 (summed_header skip d)) D.
Proof.
  intros Hp. revert n. induction Hp as [|ws d ws' D Hw Hp IH]; intros n HD Hskip.
  - by rewrite drained_stuck.
  - apply Forall_cons_1 in HD as [Hd HD].
    destruct (ipck_packet skip ws d n ws' Hw Hd) as (w & n' & A & -> & H1 & H2 & H3 & H4 & H5).
    { intros Hs. specialize (Hskip Hs). inversion Hskip as [|? ? Hd1]; subst. apply Hd1. }
    destruct (IH n' HD ltac:(intros Hs; specialize (Hskip Hs); by inversion Hskip)) as (I1 & I2). cbv zeta in *. unfold ck_words, ck_sums in *.
    rewrite !omap_app, H1, H2, I1. split; [done|]. rewrite map_app, I2. cbn [map app]. f_equal.
    apply finalize_packet; [done|rewrite H4; lia| |done].
    unfold summed_header. destruct skip; [apply put_bytes; [by repeat constructor|]|]; apply Forall_take, Hd.
Qed.

(** *** [extract_ip_address] *)
Definition ea_words (w : list extract_write) : list net_axis :=
  omap (fun x => match x with W_ea_dataOut wd => Some wd | _ => None end) w.
Definition ea_requests (w : list extract_write) : list Z :=
  omap (fun x => match x with W_arpTableOut ip => Some ip | _ => None end) w.

Section Extract.
Variables (mask gateway : Z).

Lemma extract_rest ws i h rest :
  framed ws ->
  drained (extract_ip_address mask gateway) extract_arrive (mkExtractEnv (mkPacketHeader true i h) true (ws ++ rest))
  = map W_ea_dataOut ws ++ drained (extract_ip_address mask gateway) extract_arrive
      (mkExtractEnv (mkPacketHeader false 0 h) false rest).
Proof.
  induction 1 as [w Hl|w ws Hl _ IH]; cbn [app map]; (erewrite drained_call by reflexivity); cbn; rewrite Hl; [done|].
  by rewrite IH.
Qed.

Lemma extract_packets ws D h :
  packets ws D -> Forall ip_ok D ->
  let w := drained (extract_ip_address mask gateway) extract_arrive (mkExtractEnv (mkPacketHeader false 0 h) false ws) in
  ea_words w = ws /\ ea_requests w = map (fun d => next_hop mask gateway (ip_dst d)) D.
Proof.
  intros Hp. revert h. induction Hp as [|ws d ws' D Hw Hp IH]; intros h HD.
  - by rewrite drained_stuck.
  - apply Forall_cons_1 in HD as [Hd HD]. pose proof (io_length d Hd). pose proof (io_ihl d Hd).
    destruct (parsed_first 20 ws d h Hw (io_bytes d Hd) ltac:(lia) ltac:(lia) ltac:(lia))
      as (w & ws1 & h' & -> & _ & _ & Hparse & Hf). change (8 * Z.of_nat 20) with IPV4_HEADER_SIZE in Hparse.
    assert (Ipv4.getDstAddr h' = ip_dst d) as Hdst by (by apply Hf; try lia).
    assert (drained (extract_ip_address mask gateway) extract_arrive (mkExtractEnv (mkPacketHeader false 0 h) false ((w :: ws1) ++ ws'))
      = ([W_ea_dataOut w; W_arpTableOut (next_hop mask gateway (ip_dst d))] ++ map W_ea_dataOut ws1)
        ++ drained (extract_ip_address mask gateway) extract_arrive (mkExtractEnv (mkPacketHeader false 0 h') false ws')) as ->.
    { cbn [app]. erewrite drained_call by reflexivity. cbn [ea_dataIn ea_header ea_metaWritten].
      rewrite Hparse. cbn [ph_ready ph_header negb andb orb when]. rewrite Hdst.
      pose proof (packet_framed _ _ Hw) as Hfr. inversion Hfr as [? Hlast|? ? Hlast Hfr']; subst; rewrite Hlast; [done|].
      by rewrite extract_rest. }
    destruct (IH h' HD) as (I1 & I2). cbv zeta in *. unfold ea_words, ea_requests in *.
    rewrite !omap_app, I1, I2. by rewrite (omap_map_Some _ W_ea_dataOut), (omap_map_None _ W_ea_dataOut).
Qed.
End Extract.

(** *** [insert_ip_checksum] *)
Lemma ipins_later n c w ws cs :
  0 < n < 15 ->
  insert_ip_checksum (mkIpinsEnv n c (w :: ws) cs)
  = (mkIpinsEnv (if last w then 0 else if n =? 1 then 2 else n) c ws cs, [w]).
Proof.
  intros Hn. unfold insert_ip_checksum. cbn [ii_wordCount ii_dataIn ii_checksumFifoIn ii_checksum].
  rewrite (proj2 (Z.eqb_neq n 0)) by lia. rewrite (WIDTH_512 lanes64).
  destruct (Z.eqb_spec n 1) as [->|]; done.
Qed.

Lemma ipins_rest ws n c cs rest :
  framed ws -> 0 < n < 15 ->
  drained insert_ip_checksum ipins_arrive (mkIpinsEnv n c (ws ++ rest) cs)
  = ws ++ drained insert_ip_checksum ipins_arrive (mkIpinsEnv 0 c rest cs).
Proof.
  intros Hf. revert n. induction Hf as [w Hl|w ws Hl _ IH]; intros n Hn; cbn [app];
    (erewrite drained_call by (by apply ipins_later)); rewrite Hl; [done|].
  rewrite IH by (destruct (n =? 1); lia). done.
Qed.

Lemma ipins_packets ws D c cs :
  packets ws D -> length cs = length D -> Forall (fun d => (12 <= length d)%nat) D ->
  packets (drained insert_ip_checksum ipins_arrive (mkIpinsEnv 0 c ws cs))
    (zip_with (fun c d => put 10 (le_bytes 2 (reverse16 c)) d) cs D).
Proof.
  intros Hp. revert c cs. induction Hp as [|ws d ws' D Hw Hp IH]; intros c0 [|c cs] Hl HD; try done.
  - rewrite drained_stuck by done. constructor.
  - apply Forall_cons_1 in HD as [Hd HD]. pose proof (packet_framed _ _ Hw) as Hf.
    destruct (packet_first _ _ Hw) as (w & ws1 & -> & _).
    assert (insert_ip_checksum (mkIpinsEnv 0 c0 (w :: ws1 ++ ws') (c :: cs))
      = (mkIpinsEnv (if last w then 0 else 1) c (ws1 ++ ws') cs, [put_data 10 (le_bytes 2 (reverse16 c)) w])) as Hcall.
    { unfold insert_ip_checksum. cbn [ii_wordCount ii_dataIn ii_checksumFifoIn]. by rewrite (WIDTH_512 lanes64). }
    cbn [app]. erewrite drained_call by exact Hcall. cbn [zip_with].
    assert (drained insert_ip_checksum ipins_arrive (mkIpinsEnv (if last w then 0 else 1) c (ws1 ++ ws') cs)
      = ws1 ++ drained insert_ip_checksum ipins_arrive (mkIpinsEnv 0 c ws' cs)) as ->.
    { inversion Hf as [? Hlast|? ? Hlast Hf']; subst; rewrite Hlast; [done|by apply ipins_rest]. }
    rewrite app_assoc. constructor; [|apply IH; [simpl in Hl; lia|done]].
    cbn [app]. eapply (put_word lanes64 (w :: ws1)); try done; rewrite le_bytes_length; lia.
Qed.

(** *** [handle_arp_reply] *)
Definition har_words (w : list har_write) : list net_axis :=
  omap (fun x => match x with W_har_dataOut wd => Some wd | _ => None end) w.
Definition har_headers (w : list har_write) : list packetHeader :=
  omap (fun x => match x with W_headerOut h => Some h | _ => None end) w.

(** The packets with the reply for their next hop, those without a hit left out. *)
Definition resolved (D : list (list Z)) (R : list arpTableReply) : list (list Z * arpTableReply) :=
  List.filter (fun x => ar_hit x.2) (zip D R).

Section Har.
Variables (mac h0 : Z).

Lemma har_rest (fwd : bool) ws rs rest :
  framed ws ->
  drained (handle_arp_reply mac h0) har_arrive (mkHarEnv (if fwd then HAR_FWD else HAR_DROP) rs (ws ++ rest))
  = (if fwd then map W_har_dataOut ws else [])
    ++ drained (handle_arp_reply mac h0) har_arrive (mkHarEnv HAR_ARP rs rest).
Proof.
  induction 1 as [w Hl|w ws Hl _ IH]; destruct fwd; cbn [app map]; (erewrite drained_call by reflexivity);
    cbn; rewrite Hl; [done|done|..]; by rewrite IH.
Qed.

Lemma har_packets ws D R :
  packets ws D ->
  let w := drained (handle_arp_reply mac h0) har_arrive (mkHarEnv HAR_ARP R ws) in
  packets (har_words w) (map fst (resolved D R)) /\
  har_headers w = map (fun x => eth_header (ar_macAddress x.2) mac h0) (resolved D R).
Proof.
  intros Hp. revert R. induction Hp as [|ws d ws' D Hw Hp IH]; intros R.
  - rewrite drained_stuck by (by destruct R). split; [constructor|done].
  - destruct R as [|r R].
    { rewrite drained_stuck by done. split; [constructor|done]. }
    destruct (IH R) as (I1 & I2). cbv zeta in *.
    pose proof (packet_framed _ _ Hw) as Hf. destruct (packet_first _ _ Hw) as (w & ws1 & -> & _).
    unfold resolved in *. cbn [zip List.filter snd].
    assert (drained (handle_arp_reply mac h0) har_arrive (mkHarEnv HAR_ARP (r :: R) ((w :: ws1) ++ ws'))
      = (if ar_hit r then [W_headerOut (eth_header (ar_macAddress r) mac h0)] ++ map W_har_dataOut (w :: ws1) else [])
        ++ drained (handle_arp_reply mac h0) har_arrive (mkHarEnv HAR_ARP R ws')) as ->.
    { assert (handle_arp_reply mac h0 (mkHarEnv HAR_ARP (r :: R) (w :: ws1 ++ ws'))
        = (mkHarEnv (if last w then HAR_ARP else if ar_hit r then HAR_FWD else HAR_DROP) R (ws1 ++ ws'),
           if ar_hit r then [W_headerOut (eth_header (ar_macAddress r) mac h0); W_har_dataOut w] else [])) as Hcall
        by (unfold handle_arp_reply; cbn; by destruct (ar_hit r)).
      cbn [app]. erewrite drained_call by exact Hcall.
      inversion Hf as [? Hlast|? ? Hlast Hf']; subst; rewrite Hlast; destruct (ar_hit r); try done.
      - by rewrite (har_rest true).
      - by rewrite (har_rest false). }
    unfold har_words, har_headers in *. rewrite omap_app, (omap_app _ (if ar_hit r then _ else _)), I2.
    destruct (ar_hit r); [|done]. rewrite !omap_app, (omap_map_Some _ W_har_dataOut), (omap_map_None _ W_har_dataOut) by done.
    split; [by constructor|done].
Qed.
End Har.

(** *** [insert_ethernet_header] *)
Lemma eth_header_bytes dst src h0 :
  le_bytes 14 (bits 111 0 (ph_header (eth_header dst src h0))) = le_bytes 6 dst ++ le_bytes 6 src ++ [8; 0].
Proof.
  change 14%nat with (6 + (6 + 2))%nat.
  rewrite (le_bytes_cut 6 _ 111 48 47 0), (le_bytes_cut 6 _ 111 96 95) by lia.
  unfold eth_header. cbn [ph_header]. unfold Eth.setEthertype, Eth.setSrcAddress, Eth.setDstAddress.
  read_range. by rewrite !le_bytes_wrap by lia.
Qed.

Section Ieh.
Variable garbage : list Z.

Lemma ieh_first_512 : ieh_first = IEH_PARTIAL_HEADER.
Proof. unfold ieh_first. by rewrite (WIDTH_512 lanes64). Qed.

Lemma ieh_rest ws hd hs rest :
  framed ws ->
  drained (insert_ethernet_header garbage) ieh_arrive (mkIehEnv IEH_BODY hd hs (ws ++ rest))
  = ws ++ drained (insert_ethernet_header garbage) ieh_arrive (mkIehEnv IEH_PARTIAL_HEADER hd hs rest).
Proof.
  induction 1 as [w Hl|w ws Hl _ IH]; cbn [app]; (erewrite drained_call by reflexivity);
    cbn [ieh_state ieh_dataIn ieh_header ieh_headerIn]; rewrite Hl, ?ieh_first_512; [done|]. by rewrite IH.
Qed.

(** Every header names the packet it is put in front of. *)
Lemma ieh_packets ws B dsts src h0 hd :
  packets ws (map (app (replicate 14 0)) B) -> length dsts = length B ->
  packets (drained (insert_ethernet_header garbage) ieh_arrive
    (mkIehEnv IEH_PARTIAL_HEADER hd (map (fun dst => eth_header dst src h0) dsts) ws))
    (zip_with (fun dst b => eth_frame dst src b) dsts B).
Proof.
  revert ws dsts hd. induction B as [|b B IH]; intros ws [|dst dsts] hd Hp Hl; try done.
  - cbn [map] in *. inversion Hp; subst. rewrite drained_stuck; [constructor|].
    unfold insert_ethernet_header. cbn [ieh_state ieh_headerIn]. by rewrite (WIDTH_512 lanes64).
  - cbn [map] in Hp. apply packets_inv in Hp as (ws1 & rest & -> & Hw & Hrest).
    pose proof (packet_framed _ _ Hw) as Hf. destruct (packet_first _ _ Hw) as (w & ws' & -> & _).
    destruct (consume_once lanes64 ETH_HEADER_SIZE (data w) false 0 (ph_header (eth_header dst src h0))
      ltac:(done) ltac:(done)) as (j & w' & Hc & Hw'). specialize (Hw' eq_refl).
    change (Z.to_nat (ETH_HEADER_SIZE / 8)) with 14%nat in Hw'. change (ETH_HEADER_SIZE - 1) with 111 in Hw'.
    rewrite eth_header_bytes in Hw'.
    change (mkPacketHeader false 0 (ph_header (eth_header dst src h0))) with (eth_header dst src h0) in Hc.
    assert (insert_ethernet_header garbage (mkIehEnv IEH_PARTIAL_HEADER hd
        (map (fun dst => eth_header dst src h0) (dst :: dsts)) (w :: ws' ++ rest))
      = (mkIehEnv (if last w then IEH_PARTIAL_HEADER else IEH_BODY)
           (mkPacketHeader false j (ph_header (eth_header dst src h0)))
           (map (fun dst => eth_header dst src h0) dsts) (ws' ++ rest), [mkWord w' (keep w) (last w)])) as Hcall.
    { unfold insert_ethernet_header. cbn [ieh_state ieh_headerIn ieh_dataIn map].
      rewrite ieh_first_512, (WIDTH_512 lanes64). change (512 <=? ETH_HEADER_SIZE) with false. cbn iota.
      by rewrite Hc. }
    cbn [app]. erewrite drained_call by exact Hcall. cbn [zip_with].
    assert (forall hd, drained (insert_ethernet_header garbage) ieh_arrive
        (mkIehEnv (if last w then IEH_PARTIAL_HEADER else IEH_BODY) hd
          (map (fun dst => eth_header dst src h0) dsts) (ws' ++ rest))
      = ws' ++ drained (insert_ethernet_header garbage) ieh_arrive
          (mkIehEnv IEH_PARTIAL_HEADER hd (map (fun dst => eth_header dst src h0) dsts) rest)) as ->.
    { intros hd'. inversion Hf as [? Hlast|? ? Hlast Hf']; subst; rewrite Hlast; [done|by apply ieh_rest]. }
    rewrite (app_assoc [_]), Hw'. apply packets_cons; [cbn [app]|apply IH; [done|simpl in Hl; lia]].
    assert (eth_frame dst src b = (le_bytes 6 dst ++ le_bytes 6 src ++ [8; 0]) ++ drop 14 (replicate 14 0 ++ b)) as ->.
    { rewrite drop_app_length'; [|by rewrite length_replicate]. unfold eth_frame. by rewrite <- !app_assoc. }
    apply (replace_head lanes64 (w :: ws') 14 _ _ w ws'); [done|done|rewrite length_app, length_replicate; lia|lia|].
    by rewrite !length_app, !le_bytes_length.
Qed.
End Ieh.

(** *** [ethernet_frame_padding_512] *)

(** A frame that fits into a word is filled with zeros. *)
Definition padded (f : list Z) : list Z := f ++ replicate (64 - length f) 0.

Lemma padding_rest ws rest :
  framed ws ->
  drained ethernet_frame_padding_512 padding_arrive (mkPaddingEnv true (ws ++ rest))
  = ws ++ drained ethernet_frame_padding_512 padding_arrive (mkPaddingEnv false rest).
Proof.
  induction 1 as [w Hl|w ws Hl _ IH]; cbn [app]; (erewrite drained_call by reflexivity); cbn; rewrite Hl; [done|].
  cbn [negb]. by rewrite IH.
Qed.

Lemma pad_word_packet bs pad :
  bs <> [] -> (length bs + length pad)%nat = lanes ->
  packet [pad_word (mkWord (bs ++ pad) (low_lanes lanes (length bs)) true)] (padded bs).
Proof.
  intros Hne Hl. unfold pad_word. cbn [data keep last].
  assert (zip_with (fun (k : bool) d => if k then d else 0) (low_lanes lanes (length bs)) (bs ++ pad) = padded bs) as ->.
  { unfold padded, low_lanes. rewrite zip_with_app by by rewrite length_replicate. f_equal.
    - clear. induction bs as [|b bs IH]; [done|]. cbn [length replicate zip_with]. by rewrite IH.
    - replace (lanes - length bs)%nat with (length pad) by lia. replace (64 - length bs)%nat with (length pad) by lia.
      clear. induction pad as [|b bs IH]; [done|]. cbn [length replicate zip_with]. by rewrite IH. }
  assert (length (low_lanes lanes (length bs)) = lanes) as ->.
  { unfold low_lanes. rewrite length_app, !length_replicate. lia. }
  assert (length (padded bs) = lanes) as Hlen by (unfold padded; rewrite length_app, length_replicate; lia).
  assert (replicate lanes true = low_lanes lanes (length (padded bs))) as ->.
  { rewrite Hlen. unfold low_lanes. by rewrite Nat.sub_diag, app_nil_r. }
  rewrite <- (app_nil_r (padded bs)) at 1. constructor; [|simpl; lia].
  unfold padded. by destruct bs.
Qed.

Lemma padding_packets ws B :
  packets ws B -> packets (drained ethernet_frame_padding_512 padding_arrive (mkPaddingEnv false ws)) (map padded B).
Proof.
  induction 1 as [|ws b ws' B Hw Hp IH].
  - rewrite drained_stuck by done. constructor.
  - cbn [map]. destruct Hw as [bs pad Hne Hl|bs ws rest Hl Hp'].
    + cbn [app]. erewrite drained_call by reflexivity. cbn [pad_dataIn pad_state last].
      constructor; [by apply pad_word_packet|done].
    + cbn [app]. erewrite drained_call by reflexivity. cbn [pad_dataIn pad_state last].
      rewrite padding_rest by by eapply packet_framed. rewrite app_assoc. constructor; [|done].
      assert (padded (bs ++ rest) = bs ++ rest) as ->.
      { unfold padded. replace (64 - length (bs ++ rest))%nat with 0%nat by (rewrite length_app; lia).
        by rewrite app_nil_r. }
      by constructor.
Qed.

(** ** What arrives on the streams of a stage *)
Lemma ipck_arrivals l s n f ws :
  arrive_all ipck_arrive l (mkIpckEnv s n f ws) = mkIpckEnv s n f (ws ++ l).
Proof.
  revert ws. induction l as [|x l IH]; intros ws; unfold arrive_all, ipck_arrive in *; simpl;
    [by rewrite app_nil_r|rewrite IH; by rewrite <- app_assoc].
Qed.

Lemma extract_arrivals l h m ws :
  arrive_all extract_arrive l (mkExtractEnv h m ws) = mkExtractEnv h m (ws ++ l).
Proof.
  revert ws. induction l as [|x l IH]; intros ws; unfold arrive_all, extract_arrive in *; simpl;
    [by rewrite app_nil_r|rewrite IH; by rewrite <- app_assoc].
Qed.

Lemma padding_arrivals l s ws : arrive_all padding_arrive l (mkPaddingEnv s ws) = mkPaddingEnv s (ws ++ l).
Proof.
  revert ws. induction l as [|x l IH]; intros ws; unfold arrive_all, padding_arrive in *; simpl;
    [by rewrite app_nil_r|rewrite IH; by rewrite <- app_assoc].
Qed.

Definition ipins_checksums_in (l : list ipins_arrival) : list Z :=
  omap (fun a => match a with A_ipChecksum c => Some c | _ => None end) l.
Definition ipins_words_in (l : list ipins_arrival) : list net_axis :=
  omap (fun a => match a with A_ipWord w => Some w | _ => None end) l.

Lemma ipins_arrivals l n c ws cs :
  arrive_all ipins_arrive l (mkIpinsEnv n c ws cs)
  = mkIpinsEnv n c (ws ++ ipins_words_in l) (cs ++ ipins_checksums_in l).
Proof.
  revert ws cs. induction l as [|[x|x] l IH]; intros ws cs; unfold arrive_all in *; simpl;
    [by rewrite !app_nil_r|rewrite IH; by rewrite <- app_assoc..].
Qed.

Definition har_replies_in (l : list har_arrival) : list arpTableReply :=
  omap (fun a => match a with A_arpReply r => Some r | _ => None end) l.
Definition har_words_in (l : list har_arrival) : list net_axis :=
  omap (fun a => match a with A_arpWord w => Some w | _ => None end) l.

Lemma har_arrivals l s rs ws :
  arrive_all har_arrive l (mkHarEnv s rs ws) = mkHarEnv s (rs ++ har_replies_in l) (ws ++ har_words_in l).
Proof.
  revert rs ws. induction l as [|[x|x] l IH]; intros rs ws; unfold arrive_all in *; simpl;
    [by rewrite !app_nil_r|rewrite IH; by rewrite <- app_assoc..].
Qed.

Definition ieh_headers_in (l : list ieh_arrival) : list packetHeader :=
  omap (fun a => match a with A_ethHeader h => Some h | _ => None end) l.
Definition ieh_words_in (l : list ieh_arrival) : list net_axis :=
  omap (fun a => match a with A_ethWord w => Some w | _ => None end) l.

Lemma ieh_arrivals l s h hs ws :
  arrive_all ieh_arrive l (mkIehEnv s h hs ws) = mkIehEnv s h (hs ++ ieh_headers_in l) (ws ++ ieh_words_in l).
Proof.
  revert hs ws. induction l as [|[x|x] l IH]; intros hs ws; unfold arrive_all in *; simpl;
    [by rewrite !app_nil_r|rewrite IH; by rewrite <- app_assoc..].
Qed.

(** ** The connected stages of [mac_ip_encode] *)
Record mac_run := mkMacRun {
  m_extract : list (option net_axis); m_sum : list (option net_axis);
  m_insert : list (option ipins_arrival); m_har : list (option har_arrival);
  m_shift : list (option net_axis); m_ieh : list (option ieh_arrival)
}.

Section MacRun.
Variables (garbage : list Z) (header0 : Z).
Variables (myMacAddress regSubNetMask regDefaultGateway : Z).

Definition extract_out (m : mac_run) :=
  output (extract_ip_address regSubNetMask regDefaultGateway) extract_arrive (m_extract m) (extract_init header0).
Definition mac_sum_out (m : mac_run) := output mac_compute_ipv4_checksum ipck_arrive (m_sum m) ipck_init.
Definition ipins_out (m : mac_run) := output insert_ip_checksum ipins_arrive (m_insert m) ipins_init.
Definition har_out (m : mac_run) := output (handle_arp_reply myMacAddress header0) har_arrive (m_har m) har_init.
Definition mac_shift_out (m : mac_run) := output (mac_lshiftWordByOctet 14) lshift_arrive (m_shift m) lshift_init.
Definition ieh_out (m : mac_run) := output (insert_ethernet_header garbage) ieh_arrive (m_ieh m) (ieh_init header0).

Record mac_linked (m : mac_run) : Prop := {
  ml_sum : arrivals (m_sum m) = ea_words (extract_out m);
  ml_checksums : ipins_checksums_in (arrivals (m_insert m)) = map mac_finalize_ipv4_checksum (ck_sums (mac_sum_out m));
  ml_insert : ipins_words_in (arrivals (m_insert m)) = ck_words (mac_sum_out m);
  ml_har : har_words_in (arrivals (m_har m)) = ipins_out m;
  ml_shift : arrivals (m_shift m) = har_words (har_out m);
  ml_headers : ieh_headers_in (arrivals (m_ieh m)) = har_headers (har_out m);
  ml_ieh : ieh_words_in (arrivals (m_ieh m)) = mac_shift_out m
}.

(** The replies of the ARP table, in the order of the requests. *)
Definition mac_replies (m : mac_run) : list arpTableReply := har_replies_in (arrivals (m_har m)).

(** The frames for the packets whose next hop is known. *)
Definition mac_frames (D : list (list Z)) (R : list arpTableReply) : list (list Z) :=
  map (fun x => eth_frame (ar_macAddress x.2) myMacAddress x.1) (resolved (map with_ip_checksum D) R).

Section Run.
Variables (m : mac_run) (D : list (list Z)).
Hypothesis (HD : Forall ip_ok D) (Hin : packets (arrivals (m_extract m)) D) (Hl : mac_linked m).

Lemma run_extract :
  ea_words (extract_out m) = arrivals (m_extract m) /\
  ea_requests (extract_out m) = map (fun d => next_hop regSubNetMask regDefaultGateway (ip_dst d)) D.
Proof.
  unfold extract_out. rewrite output_drained. unfold extract_init. rewrite extract_arrivals. by apply extract_packets.
Qed.

Lemma run_ipins : packets (ipins_out m) (map with_ip_checksum D).
Proof.
  destruct run_extract as [He _].
  assert (ck_words (mac_sum_out m) = arrivals (m_extract m) /\
    map finalize_ipv4_checksum (ck_sums (mac_sum_out m)) = map ip_checksum D) as [Hw Hs].
  { unfold mac_sum_out. rewrite output_drained. unfold ipck_init. rewrite ipck_arrivals. cbn [app].
    rewrite (ml_sum m Hl), He. apply (ipck_packets true); [done|apply ip_ok_readables, HD|done]. }
  unfold ipins_out. rewrite output_drained. unfold ipins_init. rewrite ipins_arrivals. cbn [app].
  rewrite (ml_checksums m Hl), (ml_insert m Hl), Hw. unfold mac_finalize_ipv4_checksum. rewrite Hs.
  replace (map with_ip_checksum D) with (zip_with (fun c d => put 10 (le_bytes 2 (reverse16 c)) d) (map ip_checksum D) D).
  - apply ipins_packets; [done|by rewrite length_map|].
    eapply Forall_impl; [|exact HD]; intros d Hd. pose proof (io_length d Hd). pose proof (io_ihl d Hd). lia.
  - clear. induction D as [|d l IH]; [done|]. cbn [map zip_with]. by rewrite IH.
Qed.

Lemma run_har :
  packets (har_words (har_out m)) (map fst (resolved (map with_ip_checksum D) (mac_replies m))) /\
  har_headers (har_out m)
  = map (fun x => eth_header (ar_macAddress x.2) myMacAddress header0) (resolved (map with_ip_checksum D) (mac_replies m)).
Proof.
  unfold har_out. rewrite output_drained. unfold har_init. rewrite har_arrivals. cbn [app].
  rewrite (ml_har m Hl). by apply har_packets, run_ipins.
Qed.

Lemma run_ieh : packets (ieh_out m) (mac_frames D (mac_replies m)).
Proof.
  destruct run_har as [H1 H2]. unfold ieh_out. rewrite output_drained. unfold ieh_init. rewrite ieh_arrivals. cbn [app].
  rewrite (ml_headers m Hl), (ml_ieh m Hl), H2, ieh_first_512. unfold mac_frames.
  set (L := resolved (map with_ip_checksum D) (mac_replies m)) in *.
  replace (map (fun x => eth_header (ar_macAddress x.2) myMacAddress header0) L)
    with (map (fun dst => eth_header dst myMacAddress header0) (map (fun x => ar_macAddress x.2) L))
    by by rewrite map_map.
  replace (map (fun x => eth_frame (ar_macAddress x.2) myMacAddress x.1) L)
    with (zip_with (fun dst b => eth_frame dst myMacAddress b) (map (fun x => ar_macAddress x.2) L) (map fst L)).
  - apply ieh_packets; [|by rewrite !length_map]. unfold mac_shift_out, mac_lshiftWordByOctet.
    apply lshift_packets; [lia|lia|]. rewrite (ml_shift m Hl). exact H1.
  - clear. induction L as [|x l IH]; [done|]. cbn [map zip_with]. by rewrite IH.
Qed.
End Run.

(** C9: what [mac_ip_encode] sends.  For IP packets that arrive on any schedule,
    through stages that run on any schedule, the ARP table is asked for the next hop
    of every packet -- its destination in the subnet, the gateway otherwise -- and the
    packets whose reply is a hit leave, in order, as frames to the MAC address of the
    reply from ours, with an IP header whose checksum is correct; the other packets
    are dropped whole. *)
Theorem mac_ip_encode_frames m D :
  packets (arrivals (m_extract m)) D -> Forall ip_ok D -> mac_linked m ->
  ea_requests (extract_out m) = map (fun d => next_hop regSubNetMask regDefaultGateway (ip_dst d)) D /\
  packets (ieh_out m) (mac_frames D (mac_replies m)) /\
  Forall (fun d => ip_header_valid (with_ip_checksum d) = true /\ length (with_ip_checksum d) = length d /\
    ip_dst (with_ip_checksum d) = ip_dst d) D.
Proof.
  intros Hin HD Hl. split_and!; [by apply run_extract|by apply run_ieh|].
  eapply Forall_impl; [|exact HD]; intros d Hd.
  split_and!; [by apply with_ip_checksum_valid|by apply with_ip_checksum_length|by apply with_ip_checksum_dst].
Qed.
End MacRun.
End MacPackets.
