(* ===== verification/IpHandler.v ===== *)
(** * The link layer, receiving ([ip_handler/ip_handler.cpp])

    The stages that route a frame by its Ethertype, remove the Ethernet header, check
    the IP header, cut the padding off and route the packet by its protocol. *)

From S2P Require Import Prelude Streams Words Shifters ToeTypes Checksum Headers EthDatapath.

Section IpHandler.
Context {WW : WordWidth}.

(** The protocol numbers of [ip_handler.hpp]. *)
Definition ARP : Z := 2054.
Definition IPv4 : Z := 2048.
Definition IPv6 : Z := 34525.
Definition ICMP : Z := 1.
Definition ICMPv6 : Z := 58.
Definition UDP : Z := 17.
Definition TCP : Z := 6.

(** ** [detect_eth_protocol] *)
Record detect_env := mkDetectEnv {
  de_header : packetHeader; de_metaWritten : bool; de_dataIn : stream net_axis
}.
#[export] Instance eta_detect_env : Eta detect_env := fun e =>
  mkDetectEnv (de_header e) (de_metaWritten e) (de_dataIn e).

Inductive detect_write := W_etherTypeFifo (t : Z) | W_de_dataOut (w : net_axis).

Definition detect_init (h : Z) : detect_env := mkDetectEnv (mkPacketHeader false 0 h) false [].

Definition detect_eth_protocol (e : detect_env) : detect_env * list detect_write :=
  match de_dataIn e with
  | [] => (e, [])
  | word :: rest =>
      let header := parseWord ETH_HEADER_SIZE (data word) (de_header e) in
      let write := ph_ready header && negb (de_metaWritten e) in
      ((if last word then mkDetectEnv (clear header) false rest
        else mkDetectEnv header (de_metaWritten e || write) rest),
       when write [W_etherTypeFifo (Eth.getEthertype (ph_header header))] ++ [W_de_dataOut word])
  end.

(** ** [route_by_eth_protocol] *)
Record route_env := mkRouteEnv {
  rep_fsmState : bool; rep_etherType : Z; rep_etherTypeFifoIn : stream Z; rep_dataIn : stream net_axis
}.
#[export] Instance eta_route_env : Eta route_env := fun e =>
  mkRouteEnv (rep_fsmState e) (rep_etherType e) (rep_etherTypeFifoIn e) (rep_dataIn e).

Inductive route_write := W_ARPdataOut (w : net_axis) | W_IPdataOut (w : net_axis) | W_IPv6dataOut (w : net_axis).

Definition route_init : route_env := mkRouteEnv false 0 [] [].

(** [wide], the condition on the width that the first word alone is under. *)
Definition route_word (wide : bool) (etherType : Z) (word : net_axis) : list route_write :=
  if etherType =? ARP then [W_ARPdataOut word]
  else if (etherType =? IPv4) && wide then [W_IPdataOut word]
  else when ((etherType =? IPv6) && wide) [W_IPv6dataOut word].

Definition route_by_eth_protocol (e : route_env) : route_env * list route_write :=
  if rep_fsmState e then
    match rep_dataIn e with
    | word :: rest =>
        (mkRouteEnv (negb (last word)) (rep_etherType e) (rep_etherTypeFifoIn e) rest,
         route_word true (rep_etherType e) word)
    | [] => (e, [])
    end
  else
    match rep_etherTypeFifoIn e, rep_dataIn e with
    | etherType :: types, word :: rest =>
        (mkRouteEnv (negb (last word)) etherType types rest, route_word (64 <? WIDTH) etherType word)
    | _, _ => (e, [])
    end.

(** ** [extract_ip_meta] *)
Record ipmeta_env := mkIpmetaEnv {
  em_header : packetHeader; em_metaWritten : bool; em_dataIn : stream net_axis
}.
#[export] Instance eta_ipmeta_env : Eta ipmeta_env := fun e =>
  mkIpmetaEnv (em_header e) (em_metaWritten e) (em_dataIn e).

Inductive ipmeta_write := W_em_dataOut (w : net_axis) | W_validIpAddressFifo (b : bool) | W_ipv4Protocol (p : Z).

Definition ipmeta_init (h : Z) : ipmeta_env := mkIpmetaEnv (mkPacketHeader false 0 (Ipv4.init h)) false [].

Definition for_us (myIpAddress dstIpAddress : Z) : bool :=
  (dstIpAddress =? myIpAddress) || (dstIpAddress =? 4294967295).

Definition extract_ip_meta (myIpAddress : Z) (e : ipmeta_env) : ipmeta_env * list ipmeta_write :=
  match em_dataIn e with
  | [] => (e, [])
  | currWord :: rest =>
      let header := parseWord IPV4_HEADER_SIZE (data currWord) (em_header e) in
      let write := ph_ready header && negb (em_metaWritten e) in
      ((if last currWord then mkIpmetaEnv (clear header) false rest
        else mkIpmetaEnv header (em_metaWritten e || write) rest),
       W_em_dataOut currWord ::
       when write [W_validIpAddressFifo (for_us myIpAddress (Ipv4.getDstAddr (ph_header header)));
                   W_ipv4Protocol (Ipv4.getProtocol (ph_header header))])
  end.

(** ** [ip_invalid_dropper] *)
Inductive iid_StateType := IID_GET_VALID | IID_FWD | IID_DROP.
Record iid_env := mkIidEnv {
  iid_state : iid_StateType; iid_dataIn : stream net_axis;
  validChecksumFifoIn : stream bool; validIpAddressFifoIn : stream bool
}.
#[export] Instance eta_iid_env : Eta iid_env := fun e =>
  mkIidEnv (iid_state e) (iid_dataIn e) (validChecksumFifoIn e) (validIpAddressFifoIn e).

Inductive iid_write := W_iid_dataOut (w : net_axis) | W_ipv4ValidFifoOut (b : bool).

Definition iid_init : iid_env := mkIidEnv IID_GET_VALID [] [] [].

Definition ip_invalid_dropper (e : iid_env) : iid_env * list iid_write :=
  match iid_state e with
  | IID_GET_VALID =>
      match validChecksumFifoIn e, validIpAddressFifoIn e with
      | validChecksum :: checks, validIpAddress :: addresses =>
          if validChecksum && validIpAddress
          then (mkIidEnv IID_FWD (iid_dataIn e) checks addresses, [W_ipv4ValidFifoOut true])
          else (mkIidEnv IID_DROP (iid_dataIn e) checks addresses, [W_ipv4ValidFifoOut false])
      | _, _ => (e, [])
      end
  | IID_FWD =>
      match iid_dataIn e with
      | currWord :: rest =>
          (e <| iid_state := if last currWord then IID_GET_VALID else IID_FWD |> <| iid_dataIn := rest |>,
           [W_iid_dataOut currWord])
      | [] => (e, [])
      end
  | IID_DROP =>
      match iid_dataIn e with
      | currWord :: rest =>
          (e <| iid_state := if last currWord then IID_GET_VALID else IID_DROP |> <| iid_dataIn := rest |>, [])
      | [] => (e, [])
      end
  end.

(** ** [cut_length] *)

(** [totalLength], from the bytes of the first word. *)
Definition total_length_of (w : list Z) : Z :=
  set_bits 15 8 (byte_at 2 w) (set_bits 7 0 (byte_at 3 w) 0).

(** The overload for 512 bits; [cl_state] holds in the state [REST]. *)
Record cut_env := mkCutEnv { cl_state : bool; cl_dataIn : stream net_axis }.
#[export] Instance eta_cut_env : Eta cut_env := fun e => mkCutEnv (cl_state e) (cl_dataIn e).

Definition cut_init : cut_env := mkCutEnv false [].

Definition cut_length (e : cut_env) : cut_env * list net_axis :=
  match cl_dataIn e with
  | [] => (e, [])
  | currWord :: rest =>
      (mkCutEnv (negb (last currWord)) rest,
       [if negb (cl_state e) && last currWord
        then mkWord (data currWord) (to_lanes lanes (lenToKeep (total_length_of (data currWord)))) true
        else currWord])
  end.

(** The template for the other widths. *)
Record cut_template_env := mkCutTemplateEnv {
  clt_drop : bool; cl_wordCount : Z; cl_totalLength : Z; clt_dataIn : stream net_axis
}.
#[export] Instance eta_cut_template_env : Eta cut_template_env := fun e =>
  mkCutTemplateEnv (clt_drop e) (cl_wordCount e) (cl_totalLength e) (clt_dataIn e).

Definition cut_template_init : cut_template_env := mkCutTemplateEnv false 0 0 [].

Definition cut_length_template (e : cut_template_env) : cut_template_env * list net_axis :=
  match clt_dataIn e with
  | [] => (e, [])
  | currWord :: rest =>
      if clt_drop e then (e <| clt_drop := negb (last currWord) |> <| clt_dataIn := rest |>, [])
      else
        let n := cl_wordCount e in
        let total := if n =? 0 then total_length_of (data currWord) else cl_totalLength e in
        let cut := negb (n =? 0) && (total <=? (n + 1) * 8) in
        let word := if cut
          then mkWord (data currWord) (to_lanes lanes (lenToKeep (wrap 4 (total - n * 8)))) true
          else currWord in
        (mkCutTemplateEnv (cut && negb (last currWord)) (if last word then 0 else wrap 16 (n + 1)) total rest,
         [word])
  end.

(** ** [detect_ipv4_protocol] *)
Record dip_env := mkDipEnv {
  dip_pkg : bool; dip_ipProtocol : Z;
  ipv4ProtocolIn : stream Z; ipv4ValidIn : stream bool; dip_dataIn : stream net_axis
}.
#[export] Instance eta_dip_env : Eta dip_env := fun e =>
  mkDipEnv (dip_pkg e) (dip_ipProtocol e) (ipv4ProtocolIn e) (ipv4ValidIn e) (dip_dataIn e).

Inductive dip_write := W_ICMPdataOut (w : net_axis) | W_UDPdataOut (w : net_axis) | W_TCPdataOut (w : net_axis).

Definition dip_init : dip_env := mkDipEnv false 0 [] [] [].

Definition protocol_word (p : Z) (w : net_axis) : list dip_write :=
  if p =? ICMP then [W_ICMPdataOut w] else if p =? UDP then [W_UDPdataOut w]
  else when (p =? TCP) [W_TCPdataOut w].

Definition detect_ipv4_protocol (e : dip_env) : dip_env * list dip_write :=
  if dip_pkg e then
    match dip_dataIn e with
    | currWord :: rest =>
        (e <| dip_pkg := negb (last currWord) |> <| dip_dataIn := rest |>, protocol_word (dip_ipProtocol e) currWord)
    | [] => (e, [])
    end
  else
    match ipv4ProtocolIn e, ipv4ValidIn e with
    | protocol :: protocols, valid :: valids =>
        (mkDipEnv valid protocol protocols valids (dip_dataIn e), [])
    | _, _ => (e, [])
    end.

(** ** [detect_ipv6_protocol] *)
Record dip6_env := mkDip6Env { dip6_state : bool; dip6_nextHeader : Z; dip6_dataIn : stream net_axis }.
#[export] Instance eta_dip6_env : Eta dip6_env := fun e =>
  mkDip6Env (dip6_state e) (dip6_nextHeader e) (dip6_dataIn e).

Inductive dip6_write := W_icmpv6DataOut (w : net_axis) | W_ipv6UdpDataOut (w : net_axis).

Definition dip6_init : dip6_env := mkDip6Env false 0 [].

Definition detect_ipv6_protocol (e : dip6_env) : dip6_env * list dip6_write :=
  match dip6_dataIn e with
  | [] => (e, [])
  | currWord :: rest =>
      let nextHeader := if dip6_state e then dip6_nextHeader e else byte_at 6 (data currWord) in
      (mkDip6Env (negb (last currWord)) nextHeader rest,
       if nextHeader =? ICMPv6 then [W_icmpv6DataOut currWord]
       else when (nextHeader =? UDP) [W_ipv6UdpDataOut currWord])
  end.

(** ** [ip_handler_duplicate_stream] *)
Inductive duplicate_write := W_out0 (w : net_axis) | W_out1 (w : net_axis).
Definition ip_handler_duplicate_stream (ins : stream net_axis) : stream net_axis * list duplicate_write :=
  match ins with
  | item :: rest => (rest, [W_out0 item; W_out1 item])
  | [] => ([], [])
  end.
End IpHandler.

#[export] Existing Instances eta_detect_env eta_route_env eta_ipmeta_env eta_iid_env eta_cut_env
  eta_cut_template_env eta_dip_env eta_dip6_env.
