(* ===== verification/IpPath.v ===== *)
(** * Where [ip_handler] sends a frame

    The stages of IpHandler.v as deterministic processes, for words of 512 bits, and
    their composition: on any schedule, a frame goes where its Ethertype and, for an
    IP packet with a valid header and our address, its protocol say. *)

From S2P Require Import Prelude Streams Words Shifters ToeTypes Checksum Headers TxDatapath EthDatapath.
From S2P Require Import RxFrontend RxPath TxBackend MacEncode IpHandler.

Section IpStages.
Context {WW : WordWidth}.

(** ** The stages as deterministic processes *)
Definition detect_arrive (w : net_axis) (e : detect_env) : detect_env := e <| de_dataIn := de_dataIn e ++ [w] |>.

#[export, refine] Instance detect_kahn : KahnProcess detect_eth_protocol detect_arrive := {
  kahn_work e := length (de_dataIn e); kahn_progress := _; kahn_diamond := _
}.
Proof.
  - intros [h m [|w ws]]; [by left|right]. unfold detect_eth_protocol. simpl. destruct (last w); simpl; lia.
  - intros a [h m [|w ws]]; [by left|right]. unfold detect_eth_protocol. simpl. by destruct (last w).
Defined.

Inductive route_arrival := A_etherType (t : Z) | A_ethData (w : net_axis).
Definition route_arrive (a : route_arrival) (e : route_env) : route_env :=
  match a with
  | A_etherType t => e <| rep_etherTypeFifoIn := rep_etherTypeFifoIn e ++ [t] |>
  | A_ethData w => e <| rep_dataIn := rep_dataIn e ++ [w] |>
  end.

#[export, refine] Instance route_kahn : KahnProcess route_by_eth_protocol route_arrive := {
  kahn_work e := length (rep_dataIn e); kahn_progress := _; kahn_diamond := _
}.
Proof.
  - intros [[] t [|x xs] [|w ws]]; (by left) || (right; simpl; lia).
  - intros [x'|w'] [[] t [|x xs] [|w ws]]; (by left) || (by right).
Defined.

Definition ipmeta_arrive (w : net_axis) (e : ipmeta_env) : ipmeta_env := e <| em_dataIn := em_dataIn e ++ [w] |>.

#[export, refine] Instance ipmeta_kahn my : KahnProcess (extract_ip_meta my) ipmeta_arrive := {
  kahn_work e := length (em_dataIn e); kahn_progress := _; kahn_diamond := _
}.
Proof.
  - intros [h m [|w ws]]; [by left|right]. unfold extract_ip_meta. simpl. destruct (last w); simpl; lia.
  - intros a [h m [|w ws]]; [by left|right]. unfold extract_ip_meta. simpl. by destruct (last w).
Defined.

Inductive iid_arrival := A_validChecksum (b : bool) | A_validIpAddress (b : bool) | A_checkedData (w : net_axis).
Definition iid_arrive (a : iid_arrival) (e : iid_env) : iid_env :=
  match a with
  | A_validChecksum b => e <| validChecksumFifoIn := validChecksumFifoIn e ++ [b] |>
  | A_validIpAddress b => e <| validIpAddressFifoIn := validIpAddressFifoIn e ++ [b] |>
  | A_checkedData w => e <| iid_dataIn := iid_dataIn e ++ [w] |>
  end.

#[export, refine] Instance iid_kahn : KahnProcess ip_invalid_dropper iid_arrive := {
  kahn_work e := (length (validChecksumFifoIn e) + length (iid_dataIn e))%nat;
  kahn_progress := _; kahn_diamond := _
}.
Proof.
  - intros [[] [|w ws] [|c cs] [|b bs]]; unfold ip_invalid_dropper; simpl; repeat case_match_in_goal;
      (by left) || (right; simpl; lia).
  - intros [x|x|x] [[] [|w ws] [|c cs] [|b bs]]; unfold ip_invalid_dropper; simpl; repeat case_match_in_goal;
      (by left) || (by right).
Defined.

Definition cut_arrive (w : net_axis) (e : cut_env) : cut_env := e <| cl_dataIn := cl_dataIn e ++ [w] |>.

#[export, refine] Instance cut_kahn : KahnProcess cut_length cut_arrive := {
  kahn_work e := length (cl_dataIn e); kahn_progress := _; kahn_diamond := _
}.
Proof.
  - intros [s [|w ws]]; (by left) || (right; simpl; lia).
  - intros a [s [|w ws]]; (by left) || (by right).
Defined.

Inductive dip_arrival := A_ipv4Protocol (p : Z) | A_ipv4Valid (b : bool) | A_cutData (w : net_axis).
Definition dip_arrive (a : dip_arrival) (e : dip_env) : dip_env :=
  match a with
  | A_ipv4Protocol p => e <| ipv4ProtocolIn := ipv4ProtocolIn e ++ [p] |>
  | A_ipv4Valid b => e <| ipv4ValidIn := ipv4ValidIn e ++ [b] |>
  | A_cutData w => e <| dip_dataIn := dip_dataIn e ++ [w] |>
  end.

#[export, refine] Instance dip_kahn : KahnProcess detect_ipv4_protocol dip_arrive := {
  kahn_work e := (length (ipv4ProtocolIn e) + length (dip_dataIn e))%nat;
  kahn_progress := _; kahn_diamond := _
}.
Proof.
  - intros [[] p [|q ps] [|v vs] [|w ws]]; (by left) || (right; simpl; lia).
  - intros [x|x|x] [[] p [|q ps] [|v vs] [|w ws]]; (by left) || (by right).
Defined.

Definition dip6_arrive (w : net_axis) (e : dip6_env) : dip6_env := e <| dip6_dataIn := dip6_dataIn e ++ [w] |>.

#[export, refine] Instance dip6_kahn : KahnProcess detect_ipv6_protocol dip6_arrive := {
  kahn_work e := length (dip6_dataIn e); kahn_progress := _; kahn_diamond := _
}.
Proof.
  - intros [s n [|w ws]]; (by left) || (right; simpl; lia).
  - intros a [[] n [|w ws]]; (by left) || (by right).
Defined.

Definition duplicate_arrive (w : net_axis) (ins : stream net_axis) : stream net_axis := ins ++ [w].

#[export, refine] Instance duplicate_kahn : KahnProcess ip_handler_duplicate_stream duplicate_arrive := {
  kahn_work ins := length ins; kahn_progress := _; kahn_diamond := _
}.
Proof.
  - intros [|w ws]; (by left) || (right; simpl; lia).
  - intros a [|w ws]; (by left) || (by right).
Defined.
End IpStages.

#[export] Existing Instances detect_kahn route_kahn ipmeta_kahn iid_kahn cut_kahn dip_kahn dip6_kahn duplicate_kahn.

(** ** What is read from a frame and from an IP packet *)
Definition eth_type (f : list Z) : Z := be_val (field 12 2 f).
Definition ip_protocol (d : list Z) : Z := byte_at 9 d.
Definition ip_total_length (d : list Z) : Z := be_val (field 2 2 d).
Definition ipv6_next_header (d : list Z) : Z := byte_at 6 d.

(** A packet that fits into a word ends where its header says. *)
Definition cut_packet (d : list Z) : list Z :=
  if (length d <=? 64)%nat then take (Z.to_nat (ip_total_length d)) d else d.
Definition cut_ok (d : list Z) : Prop :=
  (length d <= 64)%nat -> 1 <= ip_total_length d <= Z.of_nat (length d).

Lemma total_length_word d w :
  bytes d -> (4 <= length d)%nat -> take 4 w = take 4 d -> total_length_of w = ip_total_length d.
Proof.
  intros Hb Hl Hw. unfold total_length_of, ip_total_length, byte_at.
  rewrite <- (lookup_take_lt w 4 2), <- (lookup_take_lt w 4 3), Hw by lia.
  do 4 (destruct d as [|? d]; [simpl in Hl; lia|]). unfold field.
  cbn [lookup list_lookup drop take]. rewrite be_val_two. decompose_Forall. by apply be16.
Qed.

Section IpPackets.
Context {WW : WordWidth}.
Hypothesis lanes64 : lanes = 64%nat.

(** ** [detect_eth_protocol] *)
Definition de_words (w : list detect_write) : list net_axis :=
  omap (fun x => match x with W_de_dataOut wd => Some wd | _ => None end) w.
Definition de_types (w : list detect_write) : list Z :=
  omap (fun x => match x with W_etherTypeFifo t => Some t | _ => None end) w.

Lemma detect_rest ws i h rest :
  framed ws ->
  drained detect_eth_protocol detect_arrive (mkDetectEnv (mkPacketHeader true i h) true (ws ++ rest))
  = map W_de_dataOut ws ++ drained detect_eth_protocol detect_arrive (mkDetectEnv (mkPacketHeader false 0 h) false rest).
Proof.
  induction 1 as [w Hl|w ws Hl _ IH]; cbn [app map]; (erewrite drained_call by reflexivity); cbn; rewrite Hl; [done|].
  by rewrite IH.
Qed.

Lemma detect_packets ws F h :
  packets ws F -> Forall (fun f => bytes f /\ (14 <= length f)%nat) F ->
  let w := drained detect_eth_protocol detect_arrive (mkDetectEnv (mkPacketHeader false 0 h) false ws) in
  de_words w = ws /\ de_types w = map eth_type F.
Proof.
  intros Hp. revert h. induction Hp as [|ws f ws' F Hw Hp IH]; intros h HF.
  - by rewrite drained_stuck.
  - apply Forall_cons_1 in HF as [[Hb Hl] HF].
    destruct (parsed_first lanes64 14 ws f h Hw Hb ltac:(lia) Hl ltac:(lia))
      as (w & ws1 & h' & -> & _ & _ & Hparse & Hf). change (8 * Z.of_nat 14) with ETH_HEADER_SIZE in Hparse.
    assert (Eth.getEthertype h' = eth_type f) as Ht.
    { unfold Eth.getEthertype. rewrite (Hf 111 96 12%nat 2%nat) by lia.
      apply reverse16_be; [by apply field_bytes|apply field_length; lia]. }
    assert (drained detect_eth_protocol detect_arrive (mkDetectEnv (mkPacketHeader false 0 h) false ((w :: ws1) ++ ws'))
      = ([W_etherTypeFifo (eth_type f); W_de_dataOut w] ++ map W_de_dataOut ws1)
        ++ drained detect_eth_protocol detect_arrive (mkDetectEnv (mkPacketHeader false 0 h') false ws')) as ->.
    { cbn [app]. erewrite drained_call by reflexivity. cbn [de_dataIn de_header de_metaWritten].
      rewrite Hparse. cbn [ph_ready ph_header negb andb orb when]. rewrite Ht.
      pose proof (packet_framed _ _ Hw) as Hfr. inversion Hfr as [? Hlast|? ? Hlast Hfr']; subst; rewrite Hlast; [done|].
      by rewrite detect_rest. }
    destruct (IH h' HF) as (I1 & I2). cbv zeta in *. unfold de_words, de_types in *.
    rewrite !omap_app, I1, I2. by rewrite (omap_map_Some _ W_de_dataOut), (omap_map_None _ W_de_dataOut).
Qed.

(** ** [route_by_eth_protocol] *)
Definition arp_words (w : list route_write) : list net_axis :=
  omap (fun x => match x with W_ARPdataOut wd => Some wd | _ => None end) w.
Definition ipv4_words (w : list route_write) : list net_axis :=
  omap (fun x => match x with W_IPdataOut wd => Some wd | _ => None end) w.
Definition ipv6_words (w : list route_write) : list net_axis :=
  omap (fun x => match x with W_IPv6dataOut wd => Some wd | _ => None end) w.

Lemma route_rest ws t ts rest :
  framed ws ->
  drained route_by_eth_protocol route_arrive (mkRouteEnv true t ts (ws ++ rest))
  = flat_map (route_word true t) ws ++ drained route_by_eth_protocol route_arrive (mkRouteEnv false t ts rest).
Proof.
  induction 1 as [w Hl|w ws Hl _ IH]; cbn [app flat_map]; (erewrite drained_call by reflexivity);
    cbn [rep_fsmState rep_dataIn rep_etherType rep_etherTypeFifoIn]; rewrite Hl; cbn [negb]; [by rewrite app_nil_r|].
  by rewrite IH, app_assoc.
Qed.

(** All the words of a packet go where the first goes. *)
Lemma routed {A W} (sel : W -> option A) (g : net_axis -> list W) (b : bool) (ws : list net_axis) (f : net_axis -> A) :
  (forall w, omap sel (g w) = if b then [f w] else []) ->
  omap sel (flat_map g ws) = if b then map f ws else [].
Proof.
  intros Hg. induction ws as [|w ws IH]; [by destruct b|]. cbn [flat_map]. rewrite omap_app, Hg, IH. by destruct b.
Qed.

Lemma route_words t ws :
  arp_words (flat_map (route_word true t) ws) = (if t =? ARP then ws else []) /\
  ipv4_words (flat_map (route_word true t) ws) = (if t =? IPv4 then ws else []) /\
  ipv6_words (flat_map (route_word true t) ws) = (if t =? IPv6 then ws else []).
Proof.
  unfold arp_words, ipv4_words, ipv6_words. rewrite <- (map_id ws) at 2 4 6.
  split_and!; apply routed; intros w; unfold route_word;
    destruct (Z.eqb_spec t ARP) as [->|]; try done; destruct (Z.eqb_spec t IPv4) as [->|]; try done;
    by destruct (t =? IPv6).
Qed.

Lemma route_packets ws F t :
  packets ws F ->
  let w := drained route_by_eth_protocol route_arrive (mkRouteEnv false t (map eth_type F) ws) in
  packets (arp_words w) (List.filter (fun f => eth_type f =? ARP) F) /\
  packets (ipv4_words w) (List.filter (fun f => eth_type f =? IPv4) F) /\
  packets (ipv6_words w) (List.filter (fun f => eth_type f =? IPv6) F).
Proof.
  intros Hp. revert t. induction Hp as [|ws f ws' F Hw Hp IH]; intros t.
  - rewrite drained_stuck by done. split_and!; constructor.
  - destruct (IH (eth_type f)) as (I1 & I2 & I3). cbv zeta in *. cbn [map List.filter].
    assert (drained route_by_eth_protocol route_arrive (mkRouteEnv false t (eth_type f :: map eth_type F) (ws ++ ws'))
      = flat_map (route_word true (eth_type f)) ws
        ++ drained route_by_eth_protocol route_arrive (mkRouteEnv false (eth_type f) (map eth_type F) ws')) as ->.
    { pose proof (packet_framed _ _ Hw) as Hf. destruct (packet_first _ _ Hw) as (w & ws1 & -> & _).
      cbn [app flat_map]. erewrite drained_call by reflexivity. cbn [rep_fsmState rep_dataIn rep_etherTypeFifoIn].
      rewrite (WIDTH_512 lanes64). change (64 <? 512) with true.
      inversion Hf as [? Hlast|? ? Hlast Hf']; subst; rewrite Hlast; cbn [negb]; [by rewrite app_nil_r|].
      by rewrite route_rest, app_assoc. }
    destruct (route_words (eth_type f) ws) as (R1 & R2 & R3).
    unfold arp_words, ipv4_words, ipv6_words in *. rewrite !omap_app, R1, R2, R3.
    split_and!; [destruct (eth_type f =? ARP)|destruct (eth_type f =? IPv4)|destruct (eth_type f =? IPv6)];
      (by constructor) || done.
Qed.

(** ** [extract_ip_meta] *)
Definition em_words (w : list ipmeta_write) : list net_axis :=
  omap (fun x => match x with W_em_dataOut wd => Some wd | _ => None end) w.
Definition em_valids (w : list ipmeta_write) : list bool :=
  omap (fun x => match x with W_validIpAddressFifo b => Some b | _ => None end) w.
Definition em_protocols (w : list ipmeta_write) : list Z :=
  omap (fun x => match x with W_ipv4Protocol p => Some p | _ => None end) w.

Section Meta.
Variable my : Z.

Lemma ipmeta_rest ws i h rest :
  framed ws ->
  drained (extract_ip_meta my) ipmeta_arrive (mkIpmetaEnv (mkPacketHeader true i h) true (ws ++ rest))
  = map W_em_dataOut ws ++ drained (extract_ip_meta my) ipmeta_arrive (mkIpmetaEnv (mkPacketHeader false 0 h) false rest).
Proof.
  induction 1 as [w Hl|w ws Hl _ IH]; cbn [app map]; (erewrite drained_call by reflexivity); cbn; rewrite Hl; [done|].
  by rewrite IH.
Qed.

Lemma ipmeta_packets ws D h :
  packets ws D -> Forall ip_readable D ->
  let w := drained (extract_ip_meta my) ipmeta_arrive (mkIpmetaEnv (mkPacketHeader false 0 h) false ws) in
  em_words w = ws /\ em_valids w = map (fun d => for_us my (ip_dst d)) D /\ em_protocols w = map ip_protocol D.
Proof.
  intros Hp. revert h. induction Hp as [|ws d ws' D Hw Hp IH]; intros h HD.
  - by rewrite drained_stuck.
  - apply Forall_cons_1 in HD as [Hd HD]. pose proof (ir_size d Hd) as Hl.
    destruct (parsed_first lanes64 20 ws d h Hw (ir_bytes d Hd) ltac:(lia) Hl ltac:(lia))
      as (w & ws1 & h' & -> & _ & _ & Hparse & Hf). change (8 * Z.of_nat 20) with IPV4_HEADER_SIZE in Hparse.
    assert (Ipv4.getDstAddr h' = ip_dst d) as Hdst by (by apply Hf; try lia).
    assert (Ipv4.getProtocol h' = ip_protocol d) as Hpr.
    { unfold Ipv4.getProtocol. rewrite (Hf 79 72 9%nat 1%nat) by lia. by rewrite field_one, le_val_single by lia. }
    assert (drained (extract_ip_meta my) ipmeta_arrive (mkIpmetaEnv (mkPacketHeader false 0 h) false ((w :: ws1) ++ ws'))
      = ([W_em_dataOut w; W_validIpAddressFifo (for_us my (ip_dst d)); W_ipv4Protocol (ip_protocol d)] ++ map W_em_dataOut ws1)
        ++ drained (extract_ip_meta my) ipmeta_arrive (mkIpmetaEnv (mkPacketHeader false 0 h') false ws')) as ->.
    { cbn [app]. erewrite drained_call by reflexivity. cbn [em_dataIn em_header em_metaWritten].
      rewrite Hparse. cbn [ph_ready ph_header negb andb orb when]. rewrite Hdst, Hpr.
      pose proof (packet_framed _ _ Hw) as Hfr. inversion Hfr as [? Hlast|? ? Hlast Hfr']; subst; rewrite Hlast; [done|].
      by rewrite ipmeta_rest. }
    destruct (IH h' HD) as (I1 & I2 & I3). cbv zeta in *. unfold em_words, em_valids, em_protocols in *.
    rewrite !omap_app, I1, I2, I3. by rewrite (omap_map_Some _ W_em_dataOut), !(omap_map_None _ W_em_dataOut).
Qed.
End Meta.

(** ** [ip_invalid_dropper] *)
Definition iid_words (w : list iid_write) : list net_axis :=
  omap (fun x => match x with W_iid_dataOut wd => Some wd | _ => None end) w.
Definition iid_valids (w : list iid_write) : list bool :=
  omap (fun x => match x with W_ipv4ValidFifoOut b => Some b | _ => None end) w.

Lemma iid_rest (fwd : bool) ws cs bs rest :
  framed ws ->
  drained ip_invalid_dropper iid_arrive (mkIidEnv (if fwd then IID_FWD else IID_DROP) (ws ++ rest) cs bs)
  = (if fwd then map W_iid_dataOut ws else [])
    ++ drained ip_invalid_dropper iid_arrive (mkIidEnv IID_GET_VALID rest cs bs).
Proof.
  induction 1 as [w Hl|w ws Hl _ IH]; destruct fwd; cbn [app map]; (erewrite drained_call by reflexivity);
    cbn; rewrite Hl; [done|done|..]; by rewrite IH.
Qed.

Lemma iid_packets ws D (ck ad : list Z -> bool) :
  packets ws D ->
  let w := drained ip_invalid_dropper iid_arrive (mkIidEnv IID_GET_VALID ws (map ck D) (map ad D)) in
  packets (iid_words w) (List.filter (fun d => ck d && ad d) D) /\ iid_valids w = map (fun d => ck d && ad d) D.
Proof.
  induction 1 as [|ws d ws' D Hw Hp (I1 & I2)].
  - rewrite drained_stuck by done. split; [constructor|done].
  - cbv zeta in *. cbn [map List.filter].
    assert (drained ip_invalid_dropper iid_arrive (mkIidEnv IID_GET_VALID (ws ++ ws') (ck d :: map ck D) (ad d :: map ad D))
      = ([W_ipv4ValidFifoOut (ck d && ad d)] ++ if ck d && ad d then map W_iid_dataOut ws else [])
        ++ drained ip_invalid_dropper iid_arrive (mkIidEnv IID_GET_VALID ws' (map ck D) (map ad D))) as ->.
    { erewrite (drained_call _ _ _ (mkIidEnv (if ck d && ad d then IID_FWD else IID_DROP) (ws ++ ws') (map ck D) (map ad D))
        [W_ipv4ValidFifoOut (ck d && ad d)]) by (unfold ip_invalid_dropper; cbn; by destruct (ck d && ad d)).
      rewrite iid_rest by by eapply packet_framed. by rewrite app_assoc. }
    unfold iid_words, iid_valids in *. rewrite !omap_app, I2.
    destruct (ck d && ad d); [|done].
    rewrite (omap_map_Some _ W_iid_dataOut), (omap_map_None _ W_iid_dataOut) by done. split; [by constructor|done].
Qed.

(** ** [cut_length] *)
Lemma lenToKeep_lanes n : 1 <= n <= 64 -> to_lanes 64 (lenToKeep n) = low_lanes 64 (Z.to_nat n).
Proof.
  intros Hn. rewrite <- to_lanes_mask by lia. rewrite Z2Nat.id by lia. f_equal.
  destruct (decide (n = 64)) as [->|]; [done|]. apply lenToKeep_ones. lia.
Qed.

Lemma cut_rest ws rest :
  framed ws ->
  drained cut_length cut_arrive (mkCutEnv true (ws ++ rest)) = ws ++ drained cut_length cut_arrive (mkCutEnv false rest).
Proof.
  induction 1 as [w Hl|w ws Hl _ IH]; cbn [app]; (erewrite drained_call by reflexivity); cbn; rewrite Hl; [done|].
  cbn [negb]. by rewrite IH.
Qed.

Lemma cut_packets ws D :
  packets ws D -> Forall (fun d => ip_readable d /\ cut_ok d) D ->
  packets (drained cut_length cut_arrive (mkCutEnv false ws)) (map cut_packet D).
Proof.
  induction 1 as [|ws d ws' D Hw Hp IH]; intros HD.
  - rewrite drained_stuck by done. constructor.
  - apply Forall_cons_1 in HD as [[Hd Hc] HD]. cbn [map]. unfold cut_packet.
    pose proof (ir_size d Hd). inversion Hw as [bs pad Hne Hl|bs ws1 rest Hl Hp1]; subst.
    + rewrite (proj2 (Nat.leb_le _ _)) by lia. specialize (Hc ltac:(lia)).
      assert (total_length_of (d ++ pad) = ip_total_length d) as Ht.
      { apply total_length_word; [apply Hd|lia|]. by rewrite take_app_le by lia. }
      cbn [app]. erewrite drained_call by reflexivity. cbn [cl_dataIn cl_state last data negb andb].
      rewrite Ht, lanes64, lenToKeep_lanes by lia. constructor; [|by apply IH].
      set (n := Z.to_nat (ip_total_length d)). rewrite <- (take_drop n d) at 1. rewrite <- app_assoc.
      replace (low_lanes 64 n) with (low_lanes lanes (length (take n d))).
      * constructor; [|rewrite length_take, length_app, length_drop; lia].
        intros H0%(f_equal length). rewrite length_take in H0. simpl in H0. lia.
      * rewrite lanes64, length_take. f_equal. lia.
    + assert (rest <> []) by by eapply packet_nonempty.
      rewrite (proj2 (Nat.leb_gt _ _)) by (rewrite length_app; destruct rest; [done|simpl; lia]).
      cbn [app]. erewrite drained_call by reflexivity. cbn [cl_dataIn cl_state last data negb andb].
      rewrite cut_rest by by eapply packet_framed. rewrite app_assoc. constructor; [done|by apply IH].
Qed.

(** ** [detect_ipv4_protocol] *)
Definition icmp_words (w : list dip_write) : list net_axis :=
  omap (fun x => match x with W_ICMPdataOut wd => Some wd | _ => None end) w.
Definition udp_words (w : list dip_write) : list net_axis :=
  omap (fun x => match x with W_UDPdataOut wd => Some wd | _ => None end) w.
Definition tcp_words (w : list dip_write) : list net_axis :=
  omap (fun x => match x with W_TCPdataOut wd => Some wd | _ => None end) w.

Lemma dip_rest ws p ps vs rest :
  framed ws ->
  drained detect_ipv4_protocol dip_arrive (mkDipEnv true p ps vs (ws ++ rest))
  = flat_map (protocol_word p) ws ++ drained detect_ipv4_protocol dip_arrive (mkDipEnv false p ps vs rest).
Proof.
  induction 1 as [w Hl|w ws Hl _ IH]; cbn [app flat_map]; (erewrite drained_call by reflexivity);
    cbn; rewrite Hl; cbn [negb]; [by rewrite app_nil_r|]. by rewrite IH, app_assoc.
Qed.

Lemma protocol_words p ws :
  icmp_words (flat_map (protocol_word p) ws) = (if p =? ICMP then ws else []) /\
  udp_words (flat_map (protocol_word p) ws) = (if p =? UDP then ws else []) /\
  tcp_words (flat_map (protocol_word p) ws) = (if p =? TCP then ws else []).
Proof.
  unfold icmp_words, udp_words, tcp_words. rewrite <- (map_id ws) at 2 4 6.
  split_and!; apply routed; intros w; unfold protocol_word;
    destruct (Z.eqb_spec p ICMP) as [->|]; try done; destruct (Z.eqb_spec p UDP) as [->|]; try done;
    by destruct (p =? TCP).
Qed.

(** [valid] packets alone arrive, as [f] makes them. *)
Lemma dip_packets ws D (valid : list Z -> bool) (f : list Z -> list Z) p :
  packets ws (map f (List.filter valid D)) ->
  let w := drained detect_ipv4_protocol dip_arrive (mkDipEnv false p (map ip_protocol D) (map valid D) ws) in
  let goes q := map f (List.filter (fun d => valid d && (ip_protocol d =? q)) D) in
  packets (icmp_words w) (goes ICMP) /\ packets (udp_words w) (goes UDP) /\ packets (tcp_words w) (goes TCP).
Proof.
  revert ws p. induction D as [|d D IH]; intros ws p Hp; cbv zeta in *.
  - rewrite drained_stuck by done. split_and!; constructor.
  - cbn [map List.filter] in *.
    rewrite (drained_call _ _ _ (mkDipEnv (valid d) (ip_protocol d) (map ip_protocol D) (map valid D) ws) []) by reflexivity.
    destruct (valid d); cbn [andb app]; [|by apply IH].
    cbn [map] in Hp. apply packets_inv in Hp as (ws1 & rest & -> & Hw & Hrest).
    rewrite dip_rest by by eapply packet_framed.
    destruct (IH rest (ip_protocol d) Hrest) as (I1 & I2 & I3).
    destruct (protocol_words (ip_protocol d) ws1) as (R1 & R2 & R3).
    unfold icmp_words, udp_words, tcp_words in *. rewrite !omap_app, R1, R2, R3.
    split_and!; [destruct (ip_protocol d =? ICMP)|destruct (ip_protocol d =? UDP)|destruct (ip_protocol d =? TCP)];
      (by constructor) || done.
Qed.

(** ** [detect_ipv6_protocol] *)
Definition icmpv6_words (w : list dip6_write) : list net_axis :=
  omap (fun x => match x with W_icmpv6DataOut wd => Some wd | _ => None end) w.
Definition udpv6_words (w : list dip6_write) : list net_axis :=
  omap (fun x => match x with W_ipv6UdpDataOut wd => Some wd | _ => None end) w.

Definition next_header_word (n : Z) (w : net_axis) : list dip6_write :=
  if n =? ICMPv6 then [W_icmpv6DataOut w] else when (n =? UDP) [W_ipv6UdpDataOut w].

Lemma dip6_rest ws n rest :
  framed ws ->
  drained detect_ipv6_protocol dip6_arrive (mkDip6Env true n (ws ++ rest))
  = flat_map (next_header_word n) ws ++ drained detect_ipv6_protocol dip6_arrive (mkDip6Env false n rest).
Proof.
  induction 1 as [w Hl|w ws Hl _ IH]; cbn [app flat_map]; (erewrite drained_call by reflexivity);
    cbn; rewrite Hl; cbn [negb]; [by rewrite app_nil_r|]. by rewrite IH, app_assoc.
Qed.

Lemma next_header_words n ws :
  icmpv6_words (flat_map (next_header_word n) ws) = (if n =? ICMPv6 then ws else []) /\
  udpv6_words (flat_map (next_header_word n) ws) = (if n =? UDP then ws else []).
Proof.
  unfold icmpv6_words, udpv6_words. rewrite <- (map_id ws) at 2 4.
  split; apply routed; intros w; unfold next_header_word;
    destruct (Z.eqb_spec n ICMPv6) as [->|]; try done; by destruct (n =? UDP).
Qed.

Lemma dip6_packets ws D n :
  packets ws D -> Forall (fun d => (7 <= length d)%nat) D ->
  let w := drained detect_ipv6_protocol dip6_arrive (mkDip6Env false n ws) in
  packets (icmpv6_words w) (List.filter (fun d => ipv6_next_header d =? ICMPv6) D) /\
  packets (udpv6_words w) (List.filter (fun d => ipv6_next_header d =? UDP) D).
Proof.
  intros Hp. revert n. induction Hp as [|ws d ws' D Hw Hp IH]; intros n HD.
  - rewrite drained_stuck by done. split; constructor.
  - apply Forall_cons_1 in HD as [Hd HD]. destruct (IH (ipv6_next_header d) HD) as (I1 & I2).
    cbv zeta in *. cbn [List.filter].
    assert (drained detect_ipv6_protocol dip6_arrive (mkDip6Env false n (ws ++ ws'))
      = flat_map (next_header_word (ipv6_next_header d)) ws
        ++ drained detect_ipv6_protocol dip6_arrive (mkDip6Env false (ipv6_next_header d) ws')) as ->.
    { pose proof (packet_framed _ _ Hw) as Hf.
      destruct (packet_first _ _ Hw) as (w & ws1 & -> & k & pad & Hdata & _ & Hk & Hkl).
      assert (byte_at 6 (data w) = ipv6_next_header d) as Hb.
      { unfold ipv6_next_header, byte_at. rewrite Hdata, lookup_app_l by (rewrite length_take; lia).
        by rewrite lookup_take_lt by lia. }
      cbn [app flat_map]. erewrite drained_call by reflexivity. cbn [dip6_state dip6_dataIn dip6_nextHeader].
      rewrite Hb. inversion Hf as [? Hlast|? ? Hlast Hf']; subst; rewrite Hlast; cbn [negb]; [by rewrite app_nil_r|].
      by rewrite dip6_rest, app_assoc. }
    destruct (next_header_words (ipv6_next_header d) ws) as (R1 & R2).
    unfold icmpv6_words, udpv6_words in *. rewrite !omap_app, R1, R2.
    split; [destruct (ipv6_next_header d =? ICMPv6)|destruct (ipv6_next_header d =? UDP)]; (by constructor) || done.
Qed.

(** ** [ip_handler_duplicate_stream] *)
Definition out0_words (w : list duplicate_write) : list net_axis :=
  omap (fun x => match x with W_out0 wd => Some wd | _ => None end) w.
Definition out1_words (w : list duplicate_write) : list net_axis :=
  omap (fun x => match x with W_out1 wd => Some wd | _ => None end) w.

Lemma duplicate_words ws :
  let w := drained ip_handler_duplicate_stream duplicate_arrive ws in out0_words w = ws /\ out1_words w = ws.
Proof.
  induction ws as [|w ws (I1 & I2)]; [by rewrite drained_stuck|]. cbv zeta in *.
  erewrite drained_call by reflexivity. unfold out0_words, out1_words in *. by rewrite !omap_app, I1, I2.
Qed.

(** ** What arrives on the streams of a stage *)
Lemma detect_arrivals l h m ws : arrive_all detect_arrive l (mkDetectEnv h m ws) = mkDetectEnv h m (ws ++ l).
Proof.
  revert ws. induction l as [|x l IH]; intros ws; unfold arrive_all, detect_arrive in *; simpl;
    [by rewrite app_nil_r|rewrite IH; by rewrite <- app_assoc].
Qed.

Definition route_types_in (l : list route_arrival) : list Z :=
  omap (fun a => match a with A_etherType t => Some t | _ => None end) l.
Definition route_words_in (l : list route_arrival) : list net_axis :=
  omap (fun a => match a with A_ethData w => Some w | _ => None end) l.

Lemma route_arrivals l s t ts ws :
  arrive_all route_arrive l (mkRouteEnv s t ts ws) = mkRouteEnv s t (ts ++ route_types_in l) (ws ++ route_words_in l).
Proof.
  revert ts ws. induction l as [|[x|x] l IH]; intros ts ws; unfold arrive_all in *; simpl;
    [by rewrite !app_nil_r|rewrite IH; by rewrite <- app_assoc..].
Qed.

Lemma ipmeta_arrivals l h m ws : arrive_all ipmeta_arrive l (mkIpmetaEnv h m ws) = mkIpmetaEnv h m (ws ++ l).
Proof.
  revert ws. induction l as [|x l IH]; intros ws; unfold arrive_all, ipmeta_arrive in *; simpl;
    [by rewrite app_nil_r|rewrite IH; by rewrite <- app_assoc].
Qed.

Definition iid_checks_in (l : list iid_arrival) : list bool :=
  omap (fun a => match a with A_validChecksum b => Some b | _ => None end) l.
Definition iid_addresses_in (l : list iid_arrival) : list bool :=
  omap (fun a => match a with A_validIpAddress b => Some b | _ => None end) l.
Definition iid_words_in (l : list iid_arrival) : list net_axis :=
  omap (fun a => match a with A_checkedData w => Some w | _ => None end) l.

Lemma iid_arrivals l s ws cs bs :
  arrive_all iid_arrive l (mkIidEnv s ws cs bs)
  = mkIidEnv s (ws ++ iid_words_in l) (cs ++ iid_checks_in l) (bs ++ iid_addresses_in l).
Proof.
  revert ws cs bs. induction l as [|[x|x|x] l IH]; intros ws cs bs; unfold arrive_all in *; simpl;
    [by rewrite !app_nil_r|rewrite IH; by rewrite <- app_assoc..].
Qed.

Lemma cut_arrivals l s ws : arrive_all cut_arrive l (mkCutEnv s ws) = mkCutEnv s (ws ++ l).
Proof.
  revert ws. induction l as [|x l IH]; intros ws; unfold arrive_all, cut_arrive in *; simpl;
    [by rewrite app_nil_r|rewrite IH; by rewrite <- app_assoc].
Qed.

Definition dip_protocols_in (l : list dip_arrival) : list Z :=
  omap (fun a => match a with A_ipv4Protocol p => Some p | _ => None end) l.
Definition dip_valids_in (l : list dip_arrival) : list bool :=
  omap (fun a => match a with A_ipv4Valid b => Some b | _ => None end) l.
Definition dip_words_in (l : list dip_arrival) : list net_axis :=
  omap (fun a => match a with A_cutData w => Some w | _ => None end) l.

Lemma dip_arrivals l s p ps vs ws :
  arrive_all dip_arrive l (mkDipEnv s p ps vs ws)
  = mkDipEnv s p (ps ++ dip_protocols_in l) (vs ++ dip_valids_in l) (ws ++ dip_words_in l).
Proof.
  revert ps vs ws. induction l as [|[x|x|x] l IH]; intros ps vs ws; unfold arrive_all in *; simpl;
    [by rewrite !app_nil_r|rewrite IH; by rewrite <- app_assoc..].
Qed.

Lemma dip6_arrivals l s n ws : arrive_all dip6_arrive l (mkDip6Env s n ws) = mkDip6Env s n (ws ++ l).
Proof.
  revert ws. induction l as [|x l IH]; intros ws; unfold arrive_all, dip6_arrive in *; simpl;
    [by rewrite app_nil_r|rewrite IH; by rewrite <- app_assoc].
Qed.

Lemma duplicate_arrivals l ws : arrive_all duplicate_arrive l ws = ws ++ l.
Proof.
  revert ws. induction l as [|x l IH]; intros ws; unfold arrive_all, duplicate_arrive in *; simpl;
    [by rewrite app_nil_r|rewrite IH; by rewrite <- app_assoc].
Qed.

(** ** The connected stages of [ip_handler] *)
Record ip_run := mkIpRun {
  i_detect : list (option net_axis); i_route : list (option route_arrival);
  i_shift4 : list (option net_axis); i_shift6 : list (option net_axis);
  i_meta : list (option net_axis); i_sum : list (option net_axis); i_drop : list (option iid_arrival);
  i_cut : list (option net_axis); i_dip : list (option dip_arrival); i_dip6 : list (option net_axis);
  i_duplicate : list (option net_axis)
}.

Section IpRun.
Variables (header0 myIpAddress : Z).

Definition detect_out (i : ip_run) := output detect_eth_protocol detect_arrive (i_detect i) (detect_init header0).
Definition route_out (i : ip_run) := output route_by_eth_protocol route_arrive (i_route i) route_init.
Definition shift4_out (i : ip_run) := output (ip_handler_rshiftWordByOctet 14) rshift_arrive (i_shift4 i) (rshift_init 14).
Definition shift6_out (i : ip_run) := output (ip_handler_rshiftWordByOctet 14) rshift_arrive (i_shift6 i) (rshift_init 14).
Definition meta_out (i : ip_run) := output (extract_ip_meta myIpAddress) ipmeta_arrive (i_meta i) (ipmeta_init header0).
Definition ip_sum_out (i : ip_run) := output ip_handler_compute_ipv4_checksum ipck_arrive (i_sum i) ipck_init.
Definition drop_out (i : ip_run) := output ip_invalid_dropper iid_arrive (i_drop i) iid_init.
Definition cut_out (i : ip_run) := output cut_length cut_arrive (i_cut i) cut_init.
Definition dip_out (i : ip_run) := output detect_ipv4_protocol dip_arrive (i_dip i) dip_init.
Definition dip6_out (i : ip_run) := output detect_ipv6_protocol dip6_arrive (i_dip6 i) dip6_init.
Definition duplicate_out (i : ip_run) := output ip_handler_duplicate_stream duplicate_arrive (i_duplicate i) [].

Record ip_linked (i : ip_run) : Prop := {
  il_types : route_types_in (arrivals (i_route i)) = de_types (detect_out i);
  il_route : route_words_in (arrivals (i_route i)) = de_words (detect_out i);
  il_shift4 : arrivals (i_shift4 i) = ipv4_words (route_out i);
  il_shift6 : arrivals (i_shift6 i) = ipv6_words (route_out i);
  il_meta : arrivals (i_meta i) = shift4_out i;
  il_sum : arrivals (i_sum i) = em_words (meta_out i);
  il_checks : iid_checks_in (arrivals (i_drop i)) = map ip_handler_check_ipv4_checksum (ck_sums (ip_sum_out i));
  il_addresses : iid_addresses_in (arrivals (i_drop i)) = em_valids (meta_out i);
  il_drop : iid_words_in (arrivals (i_drop i)) = ck_words (ip_sum_out i);
  il_cut : arrivals (i_cut i) = iid_words (drop_out i);
  il_protocols : dip_protocols_in (arrivals (i_dip i)) = em_protocols (meta_out i);
  il_valids : dip_valids_in (arrivals (i_dip i)) = iid_valids (drop_out i);
  il_dip : dip_words_in (arrivals (i_dip i)) = cut_out i;
  il_dip6 : arrivals (i_dip6 i) = shift6_out i;
  il_duplicate : arrivals (i_duplicate i) = udp_words (dip_out i)
}.

(** A frame that carries what its Ethertype says. *)
Record frame_ok (f : list Z) : Prop := {
  fo_bytes : bytes f; fo_length : (14 < length f)%nat;
  fo_ipv4 : eth_type f = IPv4 -> ip_readable (drop 14 f) /\ cut_ok (drop 14 f);
  fo_ipv6 : eth_type f = IPv6 -> (7 <= length (drop 14 f))%nat
}.

(** The packets of the frames of a type. *)
Definition of_type (t : Z) (F : list (list Z)) : list (list Z) :=
  map (drop 14) (List.filter (fun f => eth_type f =? t) F).

(** Our packets, and those of them of a protocol, as they are passed on. *)
Definition ours (d : list Z) : bool := ip_header_valid d && for_us myIpAddress (ip_dst d).
Definition of_protocol (q : Z) (F : list (list Z)) : list (list Z) :=
  map cut_packet (List.filter (fun d => ours d && (ip_protocol d =? q)) (of_type IPv4 F)).

Lemma of_type_Forall (P : list Z -> Prop) t F :
  (forall f, frame_ok f -> eth_type f = t -> P (drop 14 f)) -> Forall frame_ok F -> Forall P (of_type t F).
Proof.
  intros HP HF. unfold of_type. apply Forall_map. induction HF as [|f F Hf _ IH]; [constructor|].
  cbn [List.filter]. destruct (Z.eqb_spec (eth_type f) t); [constructor; [by apply HP|done]|done].
Qed.

Section Run.
Variables (i : ip_run) (F : list (list Z)).
Hypothesis (HF : Forall frame_ok F) (Hin : packets (arrivals (i_detect i)) F) (Hl : ip_linked i).

Lemma run_route :
  packets (arp_words (route_out i)) (List.filter (fun f => eth_type f =? ARP) F) /\
  packets (ipv4_words (route_out i)) (List.filter (fun f => eth_type f =? IPv4) F) /\
  packets (ipv6_words (route_out i)) (List.filter (fun f => eth_type f =? IPv6) F).
Proof.
  unfold route_out. rewrite output_drained. unfold route_init. rewrite route_arrivals. cbn [app].
  rewrite (il_types i Hl), (il_route i Hl). unfold detect_out. rewrite output_drained. unfold detect_init.
  rewrite detect_arrivals. cbn [app].
  destruct (detect_packets (arrivals (i_detect i)) F header0 Hin) as [-> ->]; [|by apply route_packets].
  eapply Forall_impl; [|exact HF]; intros f Hf. split; [apply Hf|]. pose proof (fo_length f Hf). lia.
Qed.

Lemma routed_length t : Forall (fun f => (14 < length f)%nat) (List.filter (fun f => eth_type f =? t) F).
Proof. apply Forall_filter. eapply Forall_impl; [|exact HF]; intros f Hf. apply Hf. Qed.

Lemma run_shift4 : packets (arrivals (i_meta i)) (of_type IPv4 F).
Proof.
  destruct run_route as (_ & H4 & _). rewrite (il_meta i Hl). unfold shift4_out, ip_handler_rshiftWordByOctet, of_type.
  apply rshift_packets; [lia|by rewrite (il_shift4 i Hl)|apply routed_length].
Qed.

Lemma run_shift6 : packets (arrivals (i_dip6 i)) (of_type IPv6 F).
Proof.
  destruct run_route as (_ & _ & H6). rewrite (il_dip6 i Hl). unfold shift6_out, ip_handler_rshiftWordByOctet, of_type.
  apply rshift_packets; [lia|by rewrite (il_shift6 i Hl)|apply routed_length].
Qed.

Lemma ipv4_readable : Forall (fun d => ip_readable d /\ cut_ok d) (of_type IPv4 F).
Proof. apply of_type_Forall; [|done]. intros f Hf Ht. by apply (fo_ipv4 f Hf). Qed.

Lemma ipv4_readables : Forall ip_readable (of_type IPv4 F).
Proof. eapply Forall_impl; [|exact ipv4_readable]; intros d Hd. apply Hd. Qed.

Lemma run_meta :
  em_words (meta_out i) = arrivals (i_meta i) /\
  em_valids (meta_out i) = map (fun d => for_us myIpAddress (ip_dst d)) (of_type IPv4 F) /\
  em_protocols (meta_out i) = map ip_protocol (of_type IPv4 F).
Proof.
  unfold meta_out. rewrite output_drained. unfold ipmeta_init. rewrite ipmeta_arrivals. cbn [app].
  apply ipmeta_packets; [apply run_shift4|apply ipv4_readables].
Qed.

Lemma run_drop :
  packets (iid_words (drop_out i)) (List.filter ours (of_type IPv4 F)) /\
  iid_valids (drop_out i) = map ours (of_type IPv4 F).
Proof.
  destruct run_meta as (Hw & Hv & _).
  destruct (ipck_packets lanes64 false (arrivals (i_sum i)) (of_type IPv4 F) 0) as (H1 & H2).
  { rewrite (il_sum i Hl), Hw. apply run_shift4. }
  { apply ipv4_readables. }
  { done. }
  assert (ip_sum_out i = drained (compute_ipv4_checksum false) ipck_arrive (mkIpckEnv zero_sums 0 true (arrivals (i_sum i)))) as Hs.
  { unfold ip_sum_out. rewrite output_drained. unfold ipck_init. by rewrite ipck_arrivals. }
  cbv zeta in *. rewrite <- Hs in H1, H2.
  unfold drop_out. rewrite output_drained. unfold iid_init. rewrite iid_arrivals. cbn [app].
  rewrite (il_checks i Hl), (il_addresses i Hl), (il_drop i Hl), Hv, H1, (il_sum i Hl), Hw.
  replace (map ip_handler_check_ipv4_checksum (ck_sums (ip_sum_out i))) with (map ip_header_valid (of_type IPv4 F)).
  - apply (iid_packets _ _ ip_header_valid (fun d => for_us myIpAddress (ip_dst d))). apply run_shift4.
  - unfold ip_handler_check_ipv4_checksum, toe_check_ipv4_checksum.
    rewrite <- (map_map finalize_ipv4_checksum (fun c => c =? 0)), H2, map_map. done.
Qed.

Lemma Forall_ours : Forall (fun d => ip_readable d /\ cut_ok d) (List.filter ours (of_type IPv4 F)).
Proof. apply Forall_filter, ipv4_readable. Qed.

Lemma run_dip :
  packets (icmp_words (dip_out i)) (of_protocol ICMP F) /\ packets (udp_words (dip_out i)) (of_protocol UDP F) /\
  packets (tcp_words (dip_out i)) (of_protocol TCP F).
Proof.
  destruct run_meta as (_ & _ & Hp). destruct run_drop as (Hw & Hv).
  unfold dip_out. rewrite output_drained. unfold dip_init. rewrite dip_arrivals. cbn [app].
  rewrite (il_protocols i Hl), (il_valids i Hl), (il_dip i Hl), Hp, Hv.
  apply (dip_packets _ _ ours cut_packet).
  unfold cut_out. rewrite output_drained. unfold cut_init. rewrite cut_arrivals. cbn [app]. rewrite (il_cut i Hl).
  apply cut_packets; [done|apply Forall_ours].
Qed.

Lemma run_duplicate :
  out0_words (duplicate_out i) = udp_words (dip_out i) /\ out1_words (duplicate_out i) = udp_words (dip_out i).
Proof.
  unfold duplicate_out. rewrite output_drained, duplicate_arrivals. cbn [app].
  rewrite (il_duplicate i Hl). apply duplicate_words.
Qed.
End Run.

(** C10: where [ip_handler] sends a frame.  For frames that arrive on any schedule,
    through stages that run on any schedule, the ARP frames leave whole; the IPv4
    packets with a correct header checksum that are sent to us or to everyone leave
    by their protocol, in order, the padding of a short frame cut off, the UDP packets
    twice; the IPv6 packets by their next header; nothing else leaves. *)
Theorem ip_handler_routes i F :
  packets (arrivals (i_detect i)) F -> Forall frame_ok F -> ip_linked i ->
  packets (arp_words (route_out i)) (List.filter (fun f => eth_type f =? ARP) F) /\
  packets (tcp_words (dip_out i)) (of_protocol TCP F) /\
  packets (icmp_words (dip_out i)) (of_protocol ICMP F) /\
  packets (out0_words (duplicate_out i)) (of_protocol UDP F) /\
  out1_words (duplicate_out i) = out0_words (duplicate_out i) /\
  packets (icmpv6_words (dip6_out i)) (List.filter (fun d => ipv6_next_header d =? ICMPv6) (of_type IPv6 F)) /\
  packets (udpv6_words (dip6_out i)) (List.filter (fun d => ipv6_next_header d =? UDP) (of_type IPv6 F)).
Proof.
  intros Hin HF Hl. destruct (run_route i F HF Hin Hl) as (Ha & _). destruct (run_dip i F HF Hin Hl) as (Hi & Hu & Ht).
  destruct (run_duplicate i Hl) as [-> ->].
  destruct (dip6_packets (arrivals (i_dip6 i)) (of_type IPv6 F) 0) as (H6 & H6').
  { by apply run_shift6. }
  { apply of_type_Forall; [|done]. intros f Hf Ht6. by apply (fo_ipv6 f Hf). }
  split_and!; try done; unfold dip6_out; rewrite output_drained; unfold dip6_init; rewrite dip6_arrivals; done.
Qed.
End IpRun.
End IpPackets.

(** ** [cut_length] for the other widths *)
Definition cut_template_arrive {WW : WordWidth} (w : net_axis) (e : cut_template_env) : cut_template_env :=
  e <| clt_dataIn := clt_dataIn e ++ [w] |>.

#[export, refine] Instance cut_template_kahn {WW : WordWidth} : KahnProcess cut_length_template cut_template_arrive := {
  kahn_work e := length (clt_dataIn e); kahn_progress := _; kahn_diamond := _
}.
Proof.
  - intros [[] n t [|w ws]]; (by left) || (right; simpl; lia).
  - intros a [[] n t [|w ws]]; (by left) || (by right).
Defined.

Section CutTemplate.
Context {WW : WordWidth}.

Lemma cut_template_dropped ws n t rest :
  framed ws ->
  drained cut_length_template cut_template_arrive (mkCutTemplateEnv true n t (ws ++ rest))
  = drained cut_length_template cut_template_arrive (mkCutTemplateEnv false n t rest).
Proof.
  induction 1 as [w Hl|w ws Hl _ IH]; cbn [app]; (erewrite drained_call by reflexivity); cbn; rewrite Hl; [done|].
  exact IH.
Qed.

(** A word behind the first. *)
Lemma cut_template_call n t w rest :
  0 < n < 65535 ->
  cut_length_template (mkCutTemplateEnv false n t (w :: rest))
  = (let cut := t <=? (n + 1) * 8 in
     (mkCutTemplateEnv (cut && negb (last w)) (if cut || last w then 0 else n + 1) t rest,
      [if cut then mkWord (data w) (to_lanes lanes (lenToKeep (wrap 4 (t - n * 8)))) true else w])).
Proof.
  intros Hn. unfold cut_length_template. cbn [clt_dataIn clt_drop cl_wordCount cl_totalLength].
  rewrite (proj2 (Z.eqb_neq n 0)) by lia. cbn [negb andb]. rewrite (wrap_small 16) by (unfold in_width; pow2; lia).
  by destruct (t <=? (n + 1) * 8).
Qed.

(** A length that the count of words, taken for eight bytes each, does not reach is not
    cut at all. *)
Lemma cut_template_uncut ws n t rest :
  framed ws -> 0 < n -> n + Z.of_nat (length ws) < 65536 -> 8 * (n + Z.of_nat (length ws)) < t ->
  drained cut_length_template cut_template_arrive (mkCutTemplateEnv false n t (ws ++ rest))
  = ws ++ drained cut_length_template cut_template_arrive (mkCutTemplateEnv false 0 t rest).
Proof.
  intros Hf. revert n. induction Hf as [w Hl|w ws Hl _ IH]; intros n H0 Hn Ht; cbn [app length] in *;
    (erewrite drained_call by (apply cut_template_call; lia)); cbv zeta;
    rewrite (proj2 (Z.leb_gt _ _)) by lia; cbn [andb orb]; rewrite Hl; [done|].
  cbn [app]. by rewrite IH by lia.
Qed.
End CutTemplate.

Lemma cut_template_arrivals {WW : WordWidth} l n t ws :
  arrive_all cut_template_arrive l (mkCutTemplateEnv false n t ws) = mkCutTemplateEnv false n t (ws ++ l).
Proof.
  revert ws. induction l as [|x l IH]; intros ws; unfold arrive_all, cut_template_arrive in *; simpl;
    [by rewrite app_nil_r|rewrite IH; by rewrite <- app_assoc].
Qed.

(** [cut_length] on wider words.  The words are counted as eight bytes each whatever
    their width: a packet whose announced length is more than eight times the number of
    its words leaves as it came, with all that follows the announced length. *)
Theorem cut_length_wide_uncut {WW : WordWidth} s d :
  packet (arrivals s) d -> bytes d -> (4 <= lanes)%nat -> (4 <= length d)%nat ->
  Z.of_nat (length (arrivals s)) < 65535 -> 8 * Z.of_nat (length (arrivals s)) < ip_total_length d ->
  output cut_length_template cut_template_arrive s cut_template_init = arrivals s.
Proof.
  intros Hp Hb Hw Hl Hn Ht. rewrite output_drained. unfold cut_template_init. rewrite cut_template_arrivals. cbn [app].
  pose proof (packet_framed _ _ Hp) as Hf. destruct (packet_first _ _ Hp) as (w & ws & Hws & k & pad & Hd & _ & Hk & Hkl).
  rewrite Hws in *. assert (total_length_of (data w) = ip_total_length d) as Htot.
  { apply total_length_word; [done|done|]. rewrite Hd, take_app_le by (rewrite length_take; lia). rewrite take_take. f_equal. lia. }
  assert (cut_length_template (mkCutTemplateEnv false 0 0 (w :: ws))
    = (mkCutTemplateEnv false (if last w then 0 else 1) (ip_total_length d) ws, [w])) as Hcall.
  { unfold cut_length_template. cbn. by rewrite Htot. }
  erewrite drained_call by exact Hcall. cbn [app]. f_equal.
  inversion Hf as [? Hlast|? ? Hlast Hf']; subst; rewrite Hlast; [by apply drained_stuck|].
  rewrite <- (app_nil_r ws) at 1. rewrite cut_template_uncut by (cbn [length] in *; done || lia).
  rewrite drained_stuck by done. apply app_nil_r.
Qed.

Section CutTemplate64.
#[local] Instance width8 : WordWidth := 8%nat.

Lemma cut_template_later ws d n t rest :
  packet ws d -> 0 < n -> 8 * n < t <= 8 * n + Z.of_nat (length d) -> t < 65536 ->
  exists ws', drained cut_length_template cut_template_arrive (mkCutTemplateEnv false n t (ws ++ rest))
    = ws' ++ drained cut_length_template cut_template_arrive (mkCutTemplateEnv false 0 t rest) /\
    packet ws' (take (Z.to_nat (t - 8 * n)) d).
Proof.
  intros Hp. revert n. induction Hp as [bs pad Hne Hl|bs ws d Hl Hp IH]; intros n H0 Ht H16; cbn [app];
    (erewrite drained_call by (apply cut_template_call; lia)); cbv zeta; change lanes with 8%nat in *; cbn [last data].
  - rewrite (proj2 (Z.leb_le _ _)) by lia. cbn [andb orb negb]. eexists [_]. split; [done|].
    rewrite wrap_small by (unfold in_width; pow2; lia). replace (t - n * 8) with (t - 8 * n) by lia.
    rewrite lenToKeep_ones by lia. set (k := Z.to_nat (t - 8 * n)).
    replace (2 ^ (t - 8 * n) - 1) with (2 ^ Z.of_nat k - 1) by (unfold k; rewrite Z2Nat.id by lia; done).
    rewrite to_lanes_mask by lia. rewrite <- (take_drop k bs) at 1. rewrite <- app_assoc.
    replace k with (length (take k bs)) at 3 by (rewrite length_take; lia).
    apply packet_last; [|rewrite length_take, length_app, length_drop; change lanes with 8%nat; lia].
    intros H%(f_equal length). rewrite length_take in H. simpl in H. lia.
  - rewrite length_app in Ht. destruct (Z.leb_spec t ((n + 1) * 8)) as [Hc|Hc]; cbn [andb orb negb].
    + rewrite cut_template_dropped by by eapply packet_framed. eexists [_]. split; [done|].
      rewrite wrap_small by (unfold in_width; pow2; lia). replace (t - n * 8) with (t - 8 * n) by lia.
      rewrite lenToKeep_ones by lia. set (k := Z.to_nat (t - 8 * n)).
      replace (2 ^ (t - 8 * n) - 1) with (2 ^ Z.of_nat k - 1) by (unfold k; rewrite Z2Nat.id by lia; done).
      rewrite to_lanes_mask, take_app_le by lia. rewrite <- (take_drop k bs) at 1.
      replace k with (length (take k bs)) at 3 by (rewrite length_take; lia).
      apply packet_last; [|rewrite length_take, length_drop; change lanes with 8%nat; lia].
      intros H%(f_equal length). rewrite length_take in H. simpl in H. lia.
    + destruct (IH (n + 1) ltac:(lia) ltac:(lia) H16) as (ws' & -> & Hp'). eexists (_ :: ws'). split; [done|].
      rewrite take_app_ge by lia. replace (Z.to_nat (t - 8 * n) - length bs)%nat with (Z.to_nat (t - 8 * (n + 1))) by lia.
      by constructor.
Qed.

(** [cut_length] on words of 64 bits.  A packet of at least two words leaves with
    exactly the bytes that its IP header announces, whatever follows them; on any
    schedule, packet by packet. *)
Theorem cut_length_64 s D :
  packets (arrivals s) D ->
  Forall (fun d => bytes d /\ 8 < ip_total_length d <= Z.of_nat (length d)) D ->
  packets (output cut_length_template cut_template_arrive s cut_template_init)
    (map (fun d => take (Z.to_nat (ip_total_length d)) d) D).
Proof.
  intros Hp HD. rewrite output_drained.
  unfold cut_template_init. rewrite cut_template_arrivals. cbn [app].
  generalize 0 at 2 as t. induction Hp as [|ws d ws' D Hw Hp IH]; intros t.
  - rewrite drained_stuck by done. constructor.
  - apply Forall_cons_1 in HD as [[Hb Hd] HD]. cbn [map].
    inversion Hw as [? pad Hne Hl|bs ws1 rest Hl Hp1]; subst; change lanes with 8%nat in *; [lia|].
    assert (total_length_of bs = ip_total_length (bs ++ rest)) as Ht.
    { apply total_length_word; [done|rewrite length_app; lia|]. by rewrite take_app_le by lia. }
    set (T := ip_total_length (bs ++ rest)) in *.
    assert (T < 65536) as HT.
    { pose proof (be_val_range (field 2 2 (bs ++ rest)) (field_bytes 2 2 _ Hb)) as H.
      rewrite field_length in H by (rewrite length_app; lia). change (2 ^ (8 * Z.of_nat 2)) with 65536 in H. unfold T, ip_total_length. lia. }
    cbn [app]. erewrite (drained_call _ _ _ (mkCutTemplateEnv false 1 T (ws1 ++ ws')) [mkWord bs (low_lanes 8 8) false]).
    2: { unfold cut_length_template. cbn. by rewrite Ht. }
    rewrite length_app in Hd.
    destruct (cut_template_later ws1 rest 1 T ws' Hp1) as (out & -> & Hout); [lia|lia|lia|].
    rewrite app_assoc. constructor; [|by apply IH].
    rewrite take_app_ge by lia. replace (Z.to_nat T - length bs)%nat with (Z.to_nat (T - 8 * 1)) by lia.
    by constructor.
Qed.

(** A packet of 40 bytes in a frame that was padded to 60. *)
Definition demo_padded_packet : list Z := [69; 0; 0; 40; 0; 0; 0; 0; 64; 6] ++ seqZ 1 30 ++ replicate 6 0.

Lemma demo_padded_bytes : bytes demo_padded_packet.
Proof. apply (bool_decide_eq_true_1 _). by vm_compute. Qed.

Lemma cut_length_64_witness :
  packets (output cut_length_template cut_template_arrive (map Some (words_of [demo_padded_packet])) cut_template_init)
    [take 40 demo_padded_packet].
Proof.
  refine (cut_length_64 (map Some (words_of [demo_padded_packet])) [demo_padded_packet] _ _).
  - replace (arrivals _) with (words_of [demo_padded_packet]) by by vm_compute.
    apply words_of_packets; [by apply Nat.ltb_lt|by constructor].
  - constructor; [|done]. split; [apply demo_padded_bytes|by vm_compute].
Defined.
End CutTemplate64.

Section CutTemplate128.
#[local] Instance width16 : WordWidth := 16%nat.

Lemma cut_length_wide_uncut_witness :
  output cut_length_template cut_template_arrive (map Some (words_of [demo_padded_packet])) cut_template_init
  = words_of [demo_padded_packet] /\ length demo_padded_packet = 46%nat /\ ip_total_length demo_padded_packet = 40.
Proof.
  assert (arrivals (map Some (words_of [demo_padded_packet])) = words_of [demo_padded_packet]) as Ha by by vm_compute.
  split; [|done]. rewrite <- Ha at 2. apply (cut_length_wide_uncut _ demo_padded_packet); rewrite ?Ha.
  - unfold words_of. cbn [flat_map]. rewrite app_nil_r. apply frame_packet; [by apply Nat.ltb_lt|done|done].
  - apply demo_padded_bytes.
  - by apply Nat.leb_le.
  - by apply Nat.leb_le.
  - by vm_compute.
  - by vm_compute.
Defined.
End CutTemplate128.
