(* ===== verification/WirePath.v ===== *)
(** * From one stack to another: messages over the wire

    The transmit path of TxPath.v, the link layer of MacEncode.v and IpPath.v and the
    receive path of RxPath.v connected, every stage on a schedule of its own: the
    messages whose next hop is known and whose destination is the receiver arrive
    there, unchanged and in order. *)

From S2P Require Import Prelude Streams Words Shifters ToeTypes Checksum Headers RxEngine RxDatapath.
From S2P Require Import RxFrontend RxPath TxEngine TxDatapath TxBackend TxPath EthDatapath MacEncode IpHandler IpPath.

(** ** A frame and the packet in it *)
Lemma eth_frame_length dst src d : length (eth_frame dst src d) = (14 + length d)%nat.
Proof. unfold eth_frame. rewrite !length_app, !le_bytes_length. simpl. lia. Qed.

Lemma eth_frame_bytes dst src d : bytes d -> bytes (eth_frame dst src d).
Proof.
  intros Hd. unfold eth_frame. apply Forall_app. split; [apply le_bytes_bytes|].
  apply Forall_app. split; [apply le_bytes_bytes|]. apply Forall_app. split; [by repeat constructor|done].
Qed.

(** The packet of a padded frame, and the padding. *)
Definition on_wire (d : list Z) : list Z := d ++ replicate (50 - length d) 0.

Lemma padded_frame_packet dst src d : drop 14 (padded (eth_frame dst src d)) = on_wire d.
Proof.
  unfold padded, on_wire. rewrite eth_frame_length. replace (64 - (14 + length d))%nat with (50 - length d)%nat by lia.
  reflexivity.
Qed.

Lemma padded_frame_type dst src d : eth_type (padded (eth_frame dst src d)) = IPv4.
Proof. reflexivity. Qed.

Lemma padded_frame_length dst src d : (14 + length d <= length (padded (eth_frame dst src d)))%nat.
Proof. unfold padded. rewrite length_app, eth_frame_length. lia. Qed.

Lemma bytes_zeros d n : bytes d -> bytes (d ++ replicate n 0).
Proof. intros Hd. apply Forall_app. split; [done|]. by apply Forall_replicate. Qed.

Section OnWire.
Variable d : list Z.
Hypothesis Hd : ip_ok d.

Lemma on_wire_header_length : ip_header_length (on_wire d) = ip_header_length d.
Proof.
  pose proof (io_length d Hd). pose proof (io_ihl d Hd). unfold ip_header_length at 1, byte_at, on_wire.
  by rewrite lookup_app_l by lia.
Qed.

Lemma on_wire_readable : ip_readable (on_wire d).
Proof.
  pose proof (io_length d Hd). pose proof (io_ihl d Hd). constructor.
  - apply bytes_zeros, Hd.
  - unfold on_wire. rewrite length_app. lia.
  - rewrite on_wire_header_length. unfold on_wire. rewrite length_app. lia.
Qed.

Lemma on_wire_field m k : (m + k <= length d)%nat -> field m k (on_wire d) = field m k d.
Proof. intros H. by apply field_app_l. Qed.

Lemma on_wire_valid : ip_header_valid (on_wire d) = ip_header_valid d.
Proof.
  pose proof (io_length d Hd). unfold ip_header_valid, ip_header_of. rewrite on_wire_header_length.
  unfold on_wire. by rewrite take_app_le by lia.
Qed.

Lemma on_wire_dst : ip_dst (on_wire d) = ip_dst d.
Proof. pose proof (io_length d Hd). pose proof (io_ihl d Hd). unfold ip_dst. by rewrite on_wire_field by lia. Qed.

Lemma on_wire_protocol : ip_protocol (on_wire d) = ip_protocol d.
Proof.
  pose proof (io_length d Hd). pose proof (io_ihl d Hd). unfold ip_protocol, byte_at, on_wire.
  by rewrite lookup_app_l by lia.
Qed.

Hypothesis Htotal : ip_total_length d = Z.of_nat (length d).

Lemma on_wire_total : ip_total_length (on_wire d) = Z.of_nat (length d).
Proof.
  pose proof (io_length d Hd). pose proof (io_ihl d Hd). rewrite <- Htotal. unfold ip_total_length.
  by rewrite on_wire_field by lia.
Qed.

Lemma on_wire_cut_ok : cut_ok (on_wire d).
Proof.
  pose proof (io_length d Hd). pose proof (io_ihl d Hd). intros _. rewrite on_wire_total. unfold on_wire.
  rewrite length_app. lia.
Qed.

(** The padding is cut off. *)
Lemma cut_on_wire : cut_packet (on_wire d) = d.
Proof.
  unfold cut_packet. rewrite on_wire_total, Nat2Z.id.
  destruct (Nat.leb_spec (length (on_wire d)) 64) as [H|H]; unfold on_wire in *.
  - by rewrite take_app_length.
  - rewrite length_app, length_replicate in H. replace (50 - length d)%nat with 0%nat by lia. apply app_nil_r.
Qed.

Lemma padded_frame_ok dst src : frame_ok (padded (eth_frame dst src d)).
Proof.
  pose proof (io_length d Hd). pose proof (io_ihl d Hd). constructor.
  - apply bytes_zeros, eth_frame_bytes, Hd.
  - pose proof (padded_frame_length dst src d). lia.
  - intros _. rewrite padded_frame_packet. split; [apply on_wire_readable|apply on_wire_cut_ok].
  - by rewrite padded_frame_type.
Qed.
End OnWire.

(** ** The packet of a message on the wire *)
Section WirePath.
Context {WW : WordWidth} {C : ToeConfig}.
Hypothesis lanes64 : lanes = 64%nat.
Variable garbage : list Z.
Hypothesis garbage_word : length garbage = lanes.
Variable header0 : Z.

(** The header fields of the transmitted packet with the checksum in its place. *)
Definition wire_header0 (g : message) : Z :=
  set_bits 95 80 (reverse16 (ip_checksum (tx_datagram header0 g))) header0.

Lemma wire_datagram g : with_ip_checksum (tx_datagram header0 g) = tx_datagram (wire_header0 g) g.
Proof.
  unfold with_ip_checksum. set (c := ip_checksum _).
  assert (forall len t s, put 10 (le_bytes 2 (reverse16 c)) (ip_header header0 len t ++ s)
    = ip_header (set_bits 95 80 (reverse16 c) header0) len t ++ s) as H; [|apply H].
  intros len t s. unfold ip_header, put.
  assert (bits 15 8 (set_bits 95 80 (reverse16 c) header0) = bits 15 8 header0) as -> by by read_range.
  assert (bits 63 32 (set_bits 95 80 (reverse16 c) header0) = bits 63 32 header0) as -> by by read_range.
  assert (le_bytes 2 (bits 95 80 (set_bits 95 80 (reverse16 c) header0)) = le_bytes 2 (reverse16 c)) as ->
    by (read_range; by rewrite le_bytes_wrap by lia).
  reflexivity.
Qed.

Section Message.
Variable g : message.
Hypothesis Hg : message_ok g.

Lemma wire_ip_ok h : ip_ok (tx_datagram h g).
Proof.
  pose proof (tx_datagram_length lanes64 garbage garbage_word h g Hg) as Hl. pose proof (tx_length_range lanes64 garbage garbage_word g Hg).
  assert (ip_header_length (tx_datagram h g) = 5) as He by done.
  constructor; rewrite ?He; [by apply (tx_datagram_bytes lanes64 garbage garbage_word)|lia|lia].
Qed.

Lemma wire_total h : ip_total_length (tx_datagram h g) = Z.of_nat (length (tx_datagram h g)).
Proof. apply (dg_length _ (tx_datagram_ok lanes64 garbage garbage_word h g Hg)). Qed.

Lemma wire_dst h : ip_dst (tx_datagram h g) = ft_dstIp (msg_tuple g).
Proof.
  change (ip_dst (tx_datagram h g)) with (le_val (le_bytes 4 (ft_dstIp (msg_tuple g)))).
  rewrite le_val_bytes. apply wrap_small. apply (mo_widths g Hg).
Qed.

Lemma wire_protocol h : ip_protocol (tx_datagram h g) = TCP.
Proof. reflexivity. Qed.

Lemma wire_valid : ip_header_valid (tx_datagram (wire_header0 g) g) = true.
Proof. rewrite <- wire_datagram. apply with_ip_checksum_valid, wire_ip_ok. Qed.
End Message.

Variables (senderMac receiverIp : Z).

(** The messages with the reply for their next hop, those without a hit left out; and
    those of them that are for the receiver. *)
Definition hits (G : list message) (R : list arpTableReply) : list (message * arpTableReply) :=
  List.filter (fun x => ar_hit x.2) (zip G R).
Definition delivered (G : list message) (R : list arpTableReply) : list message :=
  map fst (List.filter (fun x => for_us receiverIp (ft_dstIp (msg_tuple x.1))) (hits G R)).

Definition wire_frame (x : message * arpTableReply) : list Z :=
  padded (eth_frame (ar_macAddress x.2) senderMac (tx_datagram (wire_header0 x.1) x.1)).

Lemma hits_ok G R : Forall message_ok G -> Forall (fun x => message_ok x.1) (hits G R).
Proof.
  intros HG. apply Forall_filter. revert R. induction HG as [|g G Hg _ IH]; intros [|r R]; constructor; done.
Qed.

Lemma resolved_hits (f : message -> list Z) G R : resolved (map f G) R = map (fun x => (f x.1, x.2)) (hits G R).
Proof.
  revert R. induction G as [|g G IH]; intros [|r R]; try done. unfold resolved, hits in *.
  cbn [map zip List.filter snd]. rewrite IH. by destruct (ar_hit r).
Qed.

Lemma wire_frames G R :
  map padded (mac_frames senderMac (map (tx_datagram header0) G) R) = map wire_frame (hits G R).
Proof.
  unfold mac_frames. rewrite (map_map (tx_datagram header0) with_ip_checksum), resolved_hits, !map_map.
  apply map_ext. intros x. unfold wire_frame. cbn [fst snd]. by rewrite wire_datagram.
Qed.

Lemma filter_all {A} (p : A -> bool) l : Forall (fun x => p x = true) l -> List.filter p l = l.
Proof. induction 1 as [|x l Hx _ IH]; [done|]. cbn [List.filter]. by rewrite Hx, IH. Qed.

(** What [ip_handler] makes of the frames. *)
Lemma wire_tcp L :
  Forall (fun x => message_ok x.1) L ->
  of_protocol receiverIp TCP (map wire_frame L)
  = map (fun g => tx_datagram (wire_header0 g) g)
      (map fst (List.filter (fun x => for_us receiverIp (ft_dstIp (msg_tuple x.1))) L)).
Proof.
  intros HL. unfold of_protocol, of_type.
  rewrite (filter_all (fun f => eth_type f =? IPv4)) by (by apply Forall_map, Forall_true).
  rewrite map_map. induction HL as [|x L Hx _ IH]; [done|]. cbn [map List.filter].
  assert (drop 14 (wire_frame x) = on_wire (tx_datagram (wire_header0 x.1) x.1)) as -> by apply padded_frame_packet.
  unfold ours at 1.
  pose proof (wire_ip_ok x.1 Hx (wire_header0 x.1)) as Hok.
  rewrite on_wire_valid, on_wire_dst, on_wire_protocol, wire_valid, wire_dst, wire_protocol by done.
  rewrite Z.eqb_refl, andb_true_r, andb_true_l.
  destruct (for_us receiverIp (ft_dstIp (msg_tuple x.1))); [|exact IH]. cbn [map].
  rewrite cut_on_wire by (done || by apply wire_total). by rewrite IH.
Qed.

Variables (regSubNetMask regDefaultGateway winScale0 : Z).

(** The connected kernels of the two stacks. *)
Record wire_run := mkWireRun {
  w_tx : tx_run; w_mac : mac_run; w_padding : list (option net_axis); w_ip : ip_run; w_rx : rx_run
}.

Definition padding_out (w : wire_run) := output ethernet_frame_padding_512 padding_arrive (w_padding w) padding_init.

Record wire_linked (w : wire_run) : Prop := {
  wl_tx : tx_linked lanes64 garbage header0 (w_tx w);
  wl_packets : arrivals (m_extract (w_mac w)) = generate_out lanes64 garbage header0 (w_tx w);
  wl_mac : mac_linked header0 senderMac regSubNetMask regDefaultGateway (w_mac w);
  wl_frames : arrivals (w_padding w) = ieh_out garbage header0 (w_mac w);
  wl_padded : arrivals (i_detect (w_ip w)) = padding_out w;
  wl_ip : ip_linked header0 receiverIp (w_ip w);
  wl_received : arrivals (r_ip (w_rx w)) = tcp_words (dip_out (w_ip w));
  wl_rx : linked lanes64 garbage winScale0 header0 (w_rx w)
}.

Lemma wire_received w G :
  Forall message_ok G -> tx_inputs (w_tx w) G -> wire_linked w ->
  packets (arrivals (r_ip (w_rx w)))
    (map (fun g => tx_datagram (wire_header0 g) g) (delivered G (mac_replies (w_mac w)))).
Proof.
  intros HG Hx Hl. set (R := mac_replies (w_mac w)). pose proof (hits_ok G R HG) as HH.
  assert (Forall ip_ok (map (tx_datagram header0) G)) as HD.
  { apply Forall_map. eapply Forall_impl; [|exact HG]; intros g Hg. by apply wire_ip_ok. }
  assert (packets (ieh_out garbage header0 (w_mac w)) (mac_frames senderMac (map (tx_datagram header0) G) R)) as Hieh.
  { apply (run_ieh lanes64 garbage header0 senderMac regSubNetMask regDefaultGateway); [done| |apply (wl_mac w Hl)].
    rewrite (wl_packets w Hl). apply (run_generate lanes64 garbage garbage_word); [done|done|apply (wl_tx w Hl)]. }
  assert (packets (arrivals (i_detect (w_ip w))) (map wire_frame (hits G R))) as Hdet.
  { rewrite (wl_padded w Hl), <- wire_frames. unfold padding_out. rewrite output_drained. unfold padding_init.
    rewrite padding_arrivals. cbn [app]. rewrite (wl_frames w Hl). by apply padding_packets. }
  assert (Forall frame_ok (map wire_frame (hits G R))) as HF.
  { apply Forall_map. eapply Forall_impl; [|exact HH]; intros x Hxok.
    apply padded_frame_ok; [by apply wire_ip_ok|by apply wire_total]. }
  rewrite (wl_received w Hl). unfold delivered. rewrite <- wire_tcp by done.
  by apply (run_dip lanes64 header0 receiverIp (w_ip w) _ HF Hdet (wl_ip w Hl)).
Qed.

(** C3: over the wire.  For messages whose metadata, tuples and payloads reach the
    transmit path of one stack on any schedule, the packets going through
    [mac_ip_encode], the padding and [ip_handler] to the receive path of another, with
    every stage of the two on a schedule of its own: exactly the messages whose next
    hop the ARP table knew and whose destination is the receiver are received, with
    every field of the metadata, the four-tuple and the payload, in order. *)
Theorem wire_loopback w G :
  Forall message_ok G -> tx_inputs (w_tx w) G -> wire_linked w ->
  let G' := delivered G (mac_replies (w_mac w)) in
  pph_metas (pph_out winScale0 header0 (w_rx w)) = map (fun g => received_meta g winScale0) G' /\
  pph_tuples (pph_out winScale0 header0 (w_rx w)) = map msg_tuple G' /\
  packets (dof_words (dof_out header0 (w_rx w))) (map msg_payload (List.filter with_payload G')).
Proof.
  intros HG Hx Hl G'. pose proof (wire_received w G HG Hx Hl) as Hin. fold G' in Hin.
  assert (Forall message_ok G') as HG'.
  { unfold G', delivered. apply Forall_map, Forall_filter, hits_ok, HG. }
  set (dg := fun g => tx_datagram (wire_header0 g) g) in *.
  assert (Forall datagram_ok (map dg G')) as HD.
  { apply Forall_map. eapply Forall_impl; [|exact HG']; intros g Hg. by apply (tx_datagram_ok lanes64 garbage garbage_word). }
  destruct (front_end lanes64 garbage winScale0 header0 (w_rx w) (map dg G') Hin HD (wl_rx w Hl))
    as (H1 & H2 & _ & H4 & _).
  rewrite (filter_all accepted) in H1, H2, H4
    by (apply Forall_map; eapply Forall_impl; [|exact HG']; intros g Hg; by apply (tx_datagram_accepted lanes64 garbage garbage_word)).
  rewrite H1, H2, !map_map. pose proof (proj1 (Forall_forall _ _) HG') as Hok. split_and!.
  - apply map_ext_in. intros g Hg. by apply (tx_datagram_meta lanes64 garbage garbage_word), Hok.
  - apply map_ext_in. intros g Hg. by apply (tx_datagram_tuple lanes64 garbage garbage_word), Hok.
  - rewrite <- (payloads_nonempty lanes64 garbage garbage_word header0) by done.
    replace (map (fun g => datagram_payload (tx_datagram header0 g)) G') with (map datagram_payload (map dg G')); [done|].
    rewrite map_map. apply map_ext_in. intros g Hg. unfold dg. by rewrite !(tx_datagram_payload lanes64 garbage garbage_word) by by apply Hok.
Qed.
End WirePath.

(** ** The four messages of TxPath.v over the wire; the third one's next hop is unknown *)
Section WireWitness.
#[local] Existing Instance TxPath.width64.
#[local] Existing Instance TxPath.demo_config.

Definition demo_mac : Z := 6618611909121.
Definition demo_replies : list arpTableReply :=
  [mkArpReply 5 true; mkArpReply 5 true; mkArpReply 0 false; mkArpReply 5 true].

(** Every stage runs when all its input has arrived. *)
Definition mac_run_of (words : list net_axis) (replies : list arpTableReply) : mac_run :=
  let extract := map Some words in
  let out1 := output (extract_ip_address 16777215 16777226) extract_arrive extract (extract_init 0) in
  let sum := map Some (ea_words out1) in
  let out2 := output mac_compute_ipv4_checksum ipck_arrive sum ipck_init in
  let insert := map (fun s => Some (A_ipChecksum (mac_finalize_ipv4_checksum s))) (ck_sums out2)
                ++ map (fun w => Some (A_ipWord w)) (ck_words out2) in
  let har := map (fun r => Some (A_arpReply r)) replies
             ++ map (fun w => Some (A_arpWord w)) (output insert_ip_checksum ipins_arrive insert ipins_init) in
  let out3 := output (handle_arp_reply demo_mac 0) har_arrive har har_init in
  let shift := map Some (har_words out3) in
  let ieh := map (fun h => Some (A_ethHeader h)) (har_headers out3)
             ++ map (fun w => Some (A_ethWord w)) (output (mac_lshiftWordByOctet 14) lshift_arrive shift lshift_init) in
  mkMacRun extract sum insert har shift ieh.

Definition ip_run_of (my : Z) (words : list net_axis) : ip_run :=
  let detect := map Some words in
  let out1 := output detect_eth_protocol detect_arrive detect (detect_init 0) in
  let route := map (fun t => Some (A_etherType t)) (de_types out1) ++ map (fun w => Some (A_ethData w)) (de_words out1) in
  let out2 := output route_by_eth_protocol route_arrive route route_init in
  let shift4 := map Some (ipv4_words out2) in
  let shift6 := map Some (ipv6_words out2) in
  let meta := map Some (output (ip_handler_rshiftWordByOctet 14) rshift_arrive shift4 (rshift_init 14)) in
  let dip6 := map Some (output (ip_handler_rshiftWordByOctet 14) rshift_arrive shift6 (rshift_init 14)) in
  let out3 := output (extract_ip_meta my) ipmeta_arrive meta (ipmeta_init 0) in
  let sum := map Some (em_words out3) in
  let out4 := output ip_handler_compute_ipv4_checksum ipck_arrive sum ipck_init in
  let drop := map (fun s => Some (A_validChecksum (ip_handler_check_ipv4_checksum s))) (ck_sums out4)
              ++ map (fun b => Some (A_validIpAddress b)) (em_valids out3)
              ++ map (fun w => Some (A_checkedData w)) (ck_words out4) in
  let out5 := output ip_invalid_dropper iid_arrive drop iid_init in
  let cut := map Some (iid_words out5) in
  let dip := map (fun p => Some (A_ipv4Protocol p)) (em_protocols out3)
             ++ map (fun b => Some (A_ipv4Valid b)) (iid_valids out5)
             ++ map (fun w => Some (A_cutData w)) (output cut_length cut_arrive cut cut_init) in
  let out6 := output detect_ipv4_protocol dip_arrive dip dip_init in
  mkIpRun detect route shift4 shift6 meta sum drop cut dip dip6 (map Some (udp_words out6)).

(** The datagrams of the messages. *)
Definition demo_packets : list (list Z) := map (tx_datagram 0) demo_messages.

Lemma demo_packets_ok : Forall ip_ok demo_packets.
Proof.
  repeat (constructor; [constructor; [apply (bool_decide_eq_true_1 _); by vm_compute|by vm_compute|by vm_compute]|]).
  constructor.
Qed.

Lemma mac_ip_encode_frames_witness :
  let m := mac_run_of (words_of demo_packets) demo_replies in
  ea_requests (extract_out 0 16777215 16777226 m) = [33554442; 33554442; 33554442; 33554442] /\
  packets (ieh_out [] 0 m) (mac_frames demo_mac demo_packets demo_replies) /\
  map (take 14) (mac_frames demo_mac demo_packets demo_replies)
  = replicate 3 ([5; 0; 0; 0; 0; 0] ++ le_bytes 6 demo_mac ++ [8; 0]).
Proof.
  cbv zeta. assert (mac_linked 0 demo_mac 16777215 16777226 (mac_run_of (words_of demo_packets) demo_replies)) as Hl
    by (constructor; by vm_compute).
  destruct (mac_ip_encode_frames (WW := TxPath.width64) eq_refl [] 0 demo_mac 16777215 16777226
    (mac_run_of (words_of demo_packets) demo_replies) demo_packets) as (H1 & H2 & _).
  - replace (arrivals _) with (words_of demo_packets) by by vm_compute.
    apply words_of_packets; [by apply Nat.ltb_lt|]. by repeat (constructor; [by vm_compute|]).
  - exact demo_packets_ok.
  - exact Hl.
  - split_and!; [rewrite H1; by vm_compute|exact H2|by vm_compute].
Defined.

(** An ARP frame, a segment to us, the same without its header checksum, a UDP packet
    to everyone and an ICMPv6 packet. *)
Definition demo_segment : list Z :=
  tx_datagram 0 (mkMessage (mkTxMeta 1070 2001 512 0 3 true false false false) demo_msg_tuple false [7; 8; 9]).
Definition demo_udp : list Z :=
  [69; 0; 0; 30; 0; 0; 0; 0; 64; 17; 0; 0; 10; 0; 0; 1; 255; 255; 255; 255] ++ seqZ 1 10.
Definition demo_ipv6 : list Z := [96; 0; 0; 0; 0; 8; 58; 255] ++ replicate 32 1 ++ seqZ 1 8.
Definition demo_arp_frame : list Z := le_bytes 6 demo_mac ++ le_bytes 6 5 ++ [8; 6] ++ seqZ 1 28.
Definition demo_ipv6_frame : list Z := le_bytes 6 demo_mac ++ le_bytes 6 5 ++ [134; 221] ++ demo_ipv6.
Definition demo_frames : list (list Z) :=
  [padded demo_arp_frame; padded (eth_frame demo_mac 5 (with_ip_checksum demo_segment));
   padded (eth_frame demo_mac 5 demo_segment); padded (eth_frame demo_mac 5 (with_ip_checksum demo_udp));
   demo_ipv6_frame].

Lemma demo_frames_ok : Forall frame_ok demo_frames.
Proof.
  repeat (constructor; [constructor;
    [apply (bool_decide_eq_true_1 _); by vm_compute|by apply Nat.ltb_lt
    |intros Ht; first [by vm_compute in Ht|split;
       [constructor; [apply (bool_decide_eq_true_1 _); by vm_compute|by apply Nat.leb_le|by vm_compute]|intros _; by vm_compute]]
    |intros Ht; first [by vm_compute in Ht|by apply Nat.leb_le]]|]).
  constructor.
Qed.

Lemma ip_handler_routes_witness :
  let i := ip_run_of 33554442 (words_of demo_frames) in
  packets (arp_words (route_out i)) [padded demo_arp_frame] /\
  packets (tcp_words (dip_out i)) [with_ip_checksum demo_segment] /\
  packets (out0_words (duplicate_out i)) [with_ip_checksum demo_udp] /\
  packets (icmpv6_words (dip6_out i)) [demo_ipv6].
Proof.
  cbv zeta. set (i := ip_run_of 33554442 (words_of demo_frames)).
  assert (ip_linked 0 33554442 i) as Hl by (constructor; by vm_compute).
  destruct (ip_handler_routes (WW := TxPath.width64) eq_refl 0 33554442 i demo_frames) as (H1 & H2 & _ & H3 & _ & H4 & _).
  - replace (arrivals _) with (words_of demo_frames) by by vm_compute.
    apply words_of_packets; [by apply Nat.ltb_lt|]. by repeat (constructor; [by vm_compute|]).
  - exact demo_frames_ok.
  - exact Hl.
  - assert (List.filter (fun f => eth_type f =? ARP) demo_frames = [padded demo_arp_frame]) as E1 by by vm_compute.
    assert (of_protocol 33554442 TCP demo_frames = [with_ip_checksum demo_segment]) as E2 by by vm_compute.
    assert (of_protocol 33554442 UDP demo_frames = [with_ip_checksum demo_udp]) as E3 by by vm_compute.
    assert (List.filter (fun d => ipv6_next_header d =? ICMPv6) (of_type IPv6 demo_frames) = [demo_ipv6]) as E4 by by vm_compute.
    rewrite E1 in H1. rewrite E2 in H2. rewrite E3 in H3. rewrite E4 in H4. by split_and!.
Defined.

(** The two stacks. *)
Definition demo_wire_run : wire_run :=
  let mac := mac_run_of demo_ip_words demo_replies in
  let padding := map Some (ieh_out demo_garbage 0 mac) in
  let ip := ip_run_of 33554442 (output ethernet_frame_padding_512 padding_arrive padding padding_init) in
  mkWireRun demo_tx_run mac padding ip (run_of demo_garbage (tcp_words (dip_out ip))).

Lemma demo_wire_linked : wire_linked (WW := TxPath.width64) eq_refl demo_garbage 0 demo_mac 33554442 16777215 16777226 0 demo_wire_run.
Proof.
  constructor; by vm_compute.
Qed.

Lemma wire_loopback_witness :
  map (fun m => (rm_seqNumb m, rm_ackNumb m, rm_length m, rm_syn m)) (pph_metas (pph_out 0 0 (w_rx demo_wire_run)))
  = [(1000, 2000, 70, false); (5, 0, 0, true); (1070, 2001, 3, false)] /\
  packets (dof_words (dof_out 0 (w_rx demo_wire_run))) [seqZ 1 70; [7; 8; 9]].
Proof.
  destruct (wire_loopback (WW := TxPath.width64) eq_refl demo_garbage eq_refl 0 demo_mac 33554442 16777215 16777226 0
    demo_wire_run demo_messages demo_messages_ok demo_tx_inputs demo_wire_linked) as (H1 & _ & H3).
  assert (map msg_payload (List.filter with_payload (delivered 33554442 demo_messages (mac_replies (w_mac demo_wire_run))))
    = [seqZ 1 70; [7; 8; 9]]) as E by by vm_compute.
  rewrite E in H3. split; [|exact H3].
  transitivity (map (fun m => (rm_seqNumb m, rm_ackNumb m, rm_length m, rm_syn m))
    (map (fun g => received_meta g 0) (delivered 33554442 demo_messages (mac_replies (w_mac demo_wire_run)))));
    [f_equal; exact H1|by vm_compute].
Defined.
End WireWitness.
