(* ===== verification/ArpServer.v ===== *)
(** * Address resolution ([arp_server_subnet])

    [process_arp_pkg] reads the ARP packets, [generate_arp_pkg] writes requests and
    replies, [arp_table] keeps one entry for every value of the last octet of an
    address and answers the questions of [mac_ip_encode] and of the host.  The
    exchange of a request and a reply is shown to resolve an address; in a subnet of
    256 addresses an answer is the one that was given for the address asked for. *)

From S2P Require Import Prelude Streams Words Shifters ToeTypes Checksum Headers TxDatapath EthDatapath.
From S2P Require Import RxFrontend TxBackend MacEncode IpHandler IpPath.

(** ** [arpHeader] ([arp_server_subnet.hpp]) *)
Definition ARP_HEADER_SIZE : Z := 336.
Definition ARP_OP_REQUEST : Z := 256.
Definition ARP_OP_REPLY : Z := 512.
Definition BROADCAST_MAC : Z := 2 ^ 48 - 1.

Module ArpHeader.
(** The constructor; bit 159, the highest of the protocol length, is left undefined. *)
Definition init (h : Z) : Z :=
  set_bits 158 152 4 (set_bits 151 144 6 (set_bits 143 128 8 (set_bits 127 112 256 (set_bits 111 96 1544 h)))).
Definition setDstMacAddr (addr h : Z) : Z := set_bits 47 0 addr h.
Definition setSrcMacAddr (addr h : Z) : Z := set_bits 95 48 addr h.
Definition getSrcMacAddr (h : Z) : Z := bits 95 48 h.
Definition setSenderHwAddr (addr h : Z) : Z := set_bits 223 176 addr h.
Definition getSenderHwAddr (h : Z) : Z := bits 223 176 h.
Definition setSenderProtoAddr (addr h : Z) : Z := set_bits 255 224 addr h.
Definition getSenderProtoAddr (h : Z) : Z := bits 255 224 h.
Definition setTargetHwAddr (addr h : Z) : Z := set_bits 303 256 addr h.
Definition setTargetProtoAddr (addr h : Z) : Z := set_bits 335 304 addr h.
Definition getTargetProtoAddr (h : Z) : Z := bits 335 304 h.
Definition setRequest (h : Z) : Z := set_bits 175 160 ARP_OP_REQUEST h.
Definition isRequest (h : Z) : bool := bits 175 160 h =? ARP_OP_REQUEST.
Definition setReply (h : Z) : Z := set_bits 175 160 ARP_OP_REPLY h.
Definition isReply (h : Z) : bool := bits 175 160 h =? ARP_OP_REPLY.
End ArpHeader.

Record arpTableEntry := mkArpEntry { ae_ipAddress : Z; ae_macAddress : Z; ae_valid : bool }.
Record arpReplyMeta := mkArpReplyMeta { rm_srcMacAddr : Z; rm_senderHwAddr : Z; rm_senderProtoAddr : Z }.

Section ArpServer.
Context {WW : WordWidth}.

(** ** [process_arp_pkg] *)
Record pap_env := mkPapEnv {
  pag_header : packetHeader; pag_requestCounter : Z; pag_replyCounter : Z; pag_dataIn : stream net_axis
}.
#[export] Instance eta_pap_env : Eta pap_env := fun e =>
  mkPapEnv (pag_header e) (pag_requestCounter e) (pag_replyCounter e) (pag_dataIn e).

Inductive pap_write :=
| W_arpReplyMeta (m : arpReplyMeta)
| W_arpTableInsert (x : arpTableEntry)
| W_regRequestCount (n : Z)
| W_regReplyCount (n : Z).

Definition pap_init (h : Z) : pap_env := mkPapEnv (mkPacketHeader false 0 (ArpHeader.init h)) 0 0 [].

Definition process_arp_pkg (myIpAddress : Z) (e : pap_env) : pap_env * list pap_write :=
  match pag_dataIn e with
  | [] => (e, [])
  | word :: rest =>
      let header := parseWord ARP_HEADER_SIZE (data word) (pag_header e) in
      let h := ph_header header in
      if last word then
        if ArpHeader.getTargetProtoAddr h =? myIpAddress then
          if ArpHeader.isRequest h then
            let n := wrap 16 (pag_requestCounter e + 1) in
            (mkPapEnv (clear header) n (pag_replyCounter e) rest,
             [W_arpReplyMeta (mkArpReplyMeta (ArpHeader.getSrcMacAddr h) (ArpHeader.getSenderHwAddr h)
                (ArpHeader.getSenderProtoAddr h)); W_regRequestCount n])
          else if ArpHeader.isReply h then
            let n := wrap 16 (pag_replyCounter e + 1) in
            (mkPapEnv (clear header) (pag_requestCounter e) n rest,
             [W_arpTableInsert (mkArpEntry (ArpHeader.getSenderProtoAddr h) (ArpHeader.getSenderHwAddr h) true);
              W_regReplyCount n])
          else (mkPapEnv (clear header) (pag_requestCounter e) (pag_replyCounter e) rest, [])
        else (mkPapEnv (clear header) (pag_requestCounter e) (pag_replyCounter e) rest, [])
      else (mkPapEnv header (pag_requestCounter e) (pag_replyCounter e) rest, [])
  end.

(** ** [generate_arp_pkg]: a reply is sent before a request *)
Inductive arpSendStateType := GAP_IDLE | GAP_HEADER | GAP_PARTIAL_HEADER.
Record gap_env := mkGapEnv {
  gap_state : arpSendStateType; gap_header : packetHeader; gap_replyMeta : arpReplyMeta; gap_inputIP : Z;
  gap_remainingLength : Z; gap_arpReplyMetaFifo : stream arpReplyMeta; gap_arpRequestMetaFifo : stream Z
}.
#[export] Instance eta_gap_env : Eta gap_env := fun e =>
  mkGapEnv (gap_state e) (gap_header e) (gap_replyMeta e) (gap_inputIP e) (gap_remainingLength e)
    (gap_arpReplyMetaFifo e) (gap_arpRequestMetaFifo e).

Definition gap_init (h : Z) : gap_env :=
  mkGapEnv GAP_IDLE (mkPacketHeader false 0 (ArpHeader.init h)) (mkArpReplyMeta 0 0 0) 0 0 [] [].

Definition reply_header (myMac myIp : Z) (m : arpReplyMeta) (h : Z) : Z :=
  ArpHeader.setTargetProtoAddr (rm_senderProtoAddr m) (ArpHeader.setTargetHwAddr (rm_senderHwAddr m)
    (ArpHeader.setSenderProtoAddr myIp (ArpHeader.setSenderHwAddr myMac (ArpHeader.setReply
      (ArpHeader.setSrcMacAddr myMac (ArpHeader.setDstMacAddr (rm_srcMacAddr m) h)))))).

Definition request_header (myMac myIp inputIP : Z) (h : Z) : Z :=
  ArpHeader.setTargetProtoAddr inputIP (ArpHeader.setTargetHwAddr 0
    (ArpHeader.setSenderProtoAddr myIp (ArpHeader.setSenderHwAddr myMac (ArpHeader.setRequest
      (ArpHeader.setSrcMacAddr myMac (ArpHeader.setDstMacAddr BROADCAST_MAC h)))))).

(** The data of [sendWord] is cleared before it is filled. *)
Definition generate_arp_pkg (myMacAddress myIpAddress : Z) (e : gap_env) : gap_env * list net_axis :=
  match gap_state e with
  | GAP_IDLE =>
      let header := clear (gap_header e) in
      match gap_arpReplyMetaFifo e, gap_arpRequestMetaFifo e with
      | m :: metas, _ =>
          (e <| gap_arpReplyMetaFifo := metas |> <| gap_replyMeta := m |> <| gap_state := GAP_HEADER |>
             <| gap_header := header <| ph_header := reply_header myMacAddress myIpAddress m (ph_header header) |> |>, [])
      | [], ip :: ips =>
          (e <| gap_arpRequestMetaFifo := ips |> <| gap_inputIP := ip |> <| gap_state := GAP_HEADER |>
             <| gap_header := header <| ph_header := request_header myMacAddress myIpAddress ip (ph_header header) |> |>, [])
      | [], [] => (e <| gap_header := header |>, [])
      end
  | GAP_HEADER =>
      let '(header, d, n) := consumeWord ARP_HEADER_SIZE (replicate lanes 0) (gap_header e) in
      let e := e <| gap_header := header |> <| gap_remainingLength := n |> in
      if ARP_HEADER_SIZE <? WIDTH
      then (e <| gap_state := GAP_IDLE |>, [mkWord d (to_lanes lanes (lenToKeep (ARP_HEADER_SIZE / 8))) true])
      else (e <| gap_state := if n <? WIDTH / 8 then GAP_PARTIAL_HEADER else GAP_HEADER |>,
            [mkWord d (replicate lanes true) false])
  | GAP_PARTIAL_HEADER =>
      let '(header, d, _) := consumeWord ARP_HEADER_SIZE (replicate lanes 0) (gap_header e) in
      (e <| gap_header := header |> <| gap_state := GAP_IDLE |>,
       [mkWord d (to_lanes lanes (lenToKeep (gap_remainingLength e))) true])
  end.

(** ** [arp_table]: 256 entries, by the highest octet of the address as the code holds
    it, which is the last of the dotted notation *)
Record arp_table_env := mkArpTableEnv {
  arpTable : list arpTableEntry;
  arpTableInsertFifo : stream arpTableEntry; macIpEncode_req : stream Z; hostIpEncode_req : stream Z
}.
#[export] Instance eta_arp_table_env : Eta arp_table_env := fun e =>
  mkArpTableEnv (arpTable e) (arpTableInsertFifo e) (macIpEncode_req e) (hostIpEncode_req e).

Inductive arp_table_write :=
| W_macIpEncode_rsp (r : arpTableReply)
| W_hostIpEncode_rsp (r : arpTableReply)
| W_arpRequestMeta (ip : Z).

Definition no_entry : arpTableEntry := mkArpEntry 0 0 false.
Definition arp_table_init : arp_table_env := mkArpTableEnv (replicate 256 no_entry) [] [] [].

Definition arp_index (ip : Z) : nat := Z.to_nat (bits 31 24 ip).
Definition arp_entry (t : list arpTableEntry) (ip : Z) : arpTableEntry := default no_entry (t !! arp_index ip).

(** The answer to a question, and the request that a miss triggers. *)
Definition arp_answer (rsp : arpTableReply -> arp_table_write) (t : list arpTableEntry) (ip : Z) : list arp_table_write :=
  let currEntry := arp_entry t ip in
  when (negb (ae_valid currEntry)) [W_arpRequestMeta ip]
  ++ [rsp (mkArpReply (ae_macAddress currEntry) (ae_valid currEntry))].

Definition arp_table (e : arp_table_env) : arp_table_env * list arp_table_write :=
  match arpTableInsertFifo e, macIpEncode_req e, hostIpEncode_req e with
  | currEntry :: entries, _, _ =>
      (e <| arpTableInsertFifo := entries |>
         <| arpTable := <[arp_index (ae_ipAddress currEntry) := currEntry]> (arpTable e) |>, [])
  | [], query_ip :: reqs, _ =>
      (e <| macIpEncode_req := reqs |>, arp_answer W_macIpEncode_rsp (arpTable e) query_ip)
  | [], [], query_ip :: reqs =>
      (e <| hostIpEncode_req := reqs |>, arp_answer W_hostIpEncode_rsp (arpTable e) query_ip)
  | [], [], [] => (e, [])
  end.
End ArpServer.

#[export] Existing Instances eta_pap_env eta_gap_env eta_arp_table_env.

(** ** An ARP packet *)

(** [op] is the operation, 1 for a request and 2 for a reply; [plen] the byte whose
    highest bit is undefined. *)
Definition arp_frame (dst src op sha spa tha tpa plen : Z) : list Z :=
  le_bytes 6 dst ++ le_bytes 6 src ++ [8; 6; 0; 1; 8; 0; 6; plen; 0; op]
  ++ le_bytes 6 sha ++ le_bytes 4 spa ++ le_bytes 6 tha ++ le_bytes 4 tpa.

Definition protocol_length (h0 : Z) : Z := bits 159 152 (ArpHeader.init h0).

Lemma protocol_length_cases h0 : protocol_length h0 = 4 \/ protocol_length h0 = 132.
Proof.
  unfold protocol_length. rewrite (bits_split 158) by lia. unfold ArpHeader.init. read_range.
  change (wrap (158 - 152 + 1) 4) with 4.
  match goal with |- context [bits 159 (158 + 1) ?x] => pose proof (bits_range 159 (158 + 1) x ltac:(lia)) as H end.
  unfold in_width in H. change (2 ^ (159 - (158 + 1) + 1)) with 2 in H. change (2 ^ (158 + 1 - 152)) with 128. lia.
Qed.

(** The fields that only the constructor assigns. *)
Record arp_static (h0 h : Z) : Prop := {
  as_ethertype : bits 111 96 h = 1544; as_hardware : bits 127 112 h = 256; as_protocol : bits 143 128 h = 8;
  as_hlen : bits 151 144 h = 6; as_plen : bits 159 152 h = protocol_length h0
}.

Ltac unfold_arp :=
  unfold reply_header, request_header, ArpHeader.setDstMacAddr, ArpHeader.setSrcMacAddr, ArpHeader.setSenderHwAddr,
    ArpHeader.setSenderProtoAddr, ArpHeader.setTargetHwAddr, ArpHeader.setTargetProtoAddr, ArpHeader.setRequest,
    ArpHeader.setReply.

Lemma arp_init_static h : arp_static h (ArpHeader.init h).
Proof. constructor; [unfold ArpHeader.init; by read_range..|done]. Qed.

Lemma reply_static mac ip m h0 h : arp_static h0 h -> arp_static h0 (reply_header mac ip m h).
Proof. intros [H1 H2 H3 H4 H5]. constructor; unfold_arp; by read_range. Qed.

Lemma request_static mac ip q h0 h : arp_static h0 h -> arp_static h0 (request_header mac ip q h).
Proof. intros [H1 H2 H3 H4 H5]. constructor; unfold_arp; by read_range. Qed.

(** The header in its fields. *)
Lemma arp_header_cut h0 h :
  arp_static h0 h ->
  le_bytes 42 (bits 335 0 h) = le_bytes 6 (bits 47 0 h) ++ le_bytes 6 (bits 95 48 h)
    ++ [8; 6; 0; 1; 8; 0; 6; protocol_length h0] ++ le_bytes 2 (bits 175 160 h) ++ le_bytes 6 (bits 223 176 h)
    ++ le_bytes 4 (bits 255 224 h) ++ le_bytes 6 (bits 303 256 h) ++ le_bytes 4 (bits 335 304 h).
Proof.
  intros [H1 H2 H3 H4 H5]. change 42%nat with (6 + (6 + (2 + (2 + (2 + (1 + (1 + (2 + (6 + (4 + (6 + 4)))))))))))%nat.
  rewrite (le_bytes_cut 6 _ 335 48 47 0), (le_bytes_cut 6 _ 335 96 95), (le_bytes_cut 2 _ 335 112 111),
    (le_bytes_cut 2 _ 335 128 127), (le_bytes_cut 2 _ 335 144 143), (le_bytes_cut 1 _ 335 152 151),
    (le_bytes_cut 1 _ 335 160 159), (le_bytes_cut 2 _ 335 176 175), (le_bytes_cut 6 _ 335 224 223),
    (le_bytes_cut 4 _ 335 256 255), (le_bytes_cut 6 _ 335 304 303) by lia.
  rewrite H1, H2, H3, H4, H5. rewrite (le_bytes_one (protocol_length h0)); [done|].
  destruct (protocol_length_cases h0) as [-> | ->]; unfold in_width; pow2; lia.
Qed.

Definition reply_frame (mac ip : Z) (m : arpReplyMeta) (plen : Z) : list Z :=
  arp_frame (rm_srcMacAddr m) mac 2 mac ip (rm_senderHwAddr m) (rm_senderProtoAddr m) plen.
Definition request_frame (mac ip q plen : Z) : list Z := arp_frame BROADCAST_MAC mac 1 mac ip 0 q plen.

Lemma reply_header_bytes mac ip m h0 h :
  arp_static h0 h -> le_bytes 42 (bits 335 0 (reply_header mac ip m h)) = reply_frame mac ip m (protocol_length h0).
Proof.
  intros Hs. rewrite (arp_header_cut h0) by by apply reply_static. unfold_arp. read_range.
  by rewrite !le_bytes_wrap by lia.
Qed.

Lemma request_header_bytes mac ip q h0 h :
  arp_static h0 h -> le_bytes 42 (bits 335 0 (request_header mac ip q h)) = request_frame mac ip q (protocol_length h0).
Proof.
  intros Hs. rewrite (arp_header_cut h0) by by apply request_static. unfold_arp. read_range.
  by rewrite !le_bytes_wrap by lia.
Qed.

(** The entry for an address, after an insertion. *)
Lemma arp_index_bound ip : (arp_index ip < 256)%nat.
Proof.
  unfold arp_index. pose proof (bits_range 31 24 ip ltac:(lia)) as H. unfold in_width in H.
  change (2 ^ (31 - 24 + 1)) with 256 in H. lia.
Qed.

Lemma arp_entry_insert t x ip :
  length t = 256%nat ->
  arp_entry (<[arp_index (ae_ipAddress x) := x]> t) ip
  = if decide (arp_index (ae_ipAddress x) = arp_index ip) then x else arp_entry t ip.
Proof.
  intros Hl. unfold arp_entry. pose proof (arp_index_bound ip). destruct (decide _) as [He|He].
  - by rewrite He, list_lookup_insert_eq by lia.
  - by rewrite list_lookup_insert_ne.
Qed.

Section ArpPackets.
Context {WW : WordWidth}.
Hypothesis lanes64 : lanes = 64%nat.

(** *** [generate_arp_pkg]: a packet in two calls *)
Definition gap_idle (h0 : Z) (e : gap_env) : Prop := gap_state e = GAP_IDLE /\ arp_static h0 (ph_header (gap_header e)).

Lemma gap_send h0 mac ip e bs :
  gap_state e = GAP_HEADER -> ph_idx (gap_header e) = 0 -> arp_static h0 (ph_header (gap_header e)) ->
  le_bytes 42 (bits 335 0 (ph_header (gap_header e))) = bs ->
  exists e' w, generate_arp_pkg mac ip e = (e', [w]) /\ packet [w] bs /\ gap_idle h0 e' /\
    gap_arpReplyMetaFifo e' = gap_arpReplyMetaFifo e /\ gap_arpRequestMetaFifo e' = gap_arpRequestMetaFifo e.
Proof.
  destruct e as [s [r i h] m q n ms ips]. cbn [gap_state gap_header ph_idx ph_header]. intros -> -> Hs Hbs.
  destruct (consume_once lanes64 ARP_HEADER_SIZE (replicate lanes 0) r 0 h ltac:(done) ltac:(done)) as (j & w' & Hc & Hw').
  specialize (Hw' eq_refl). change (Z.to_nat (ARP_HEADER_SIZE / 8)) with 42%nat in Hw'.
  change (ARP_HEADER_SIZE - 1) with 335 in Hw'.
  unfold generate_arp_pkg. cbn [gap_state gap_header]. rewrite Hc, (WIDTH_512 lanes64).
  change (ARP_HEADER_SIZE <? 512) with true. cbn iota. eexists _, _. split; [reflexivity|].
  split_and!; [|done|done|done]. rewrite Hbs in Hw'.
  assert (length bs = 42%nat) as Hlen by (by rewrite <- Hbs, le_bytes_length).
  rewrite lanes64 in *. change (to_lanes 64 _) with (low_lanes 64 42). rewrite Hw', drop_replicate.
  replace (low_lanes 64 42) with (low_lanes lanes (length bs)) by (by rewrite lanes64, Hlen).
  constructor; [by destruct bs|]. rewrite length_replicate, lanes64. lia.
Qed.

Lemma gap_reply h0 mac ip e m ms :
  gap_idle h0 e -> gap_arpReplyMetaFifo e = m :: ms ->
  exists e' w, calls (generate_arp_pkg mac ip) 2 e = (e', [w]) /\
    packet [w] (reply_frame mac ip m (protocol_length h0)) /\ gap_idle h0 e' /\
    gap_arpReplyMetaFifo e' = ms /\ gap_arpRequestMetaFifo e' = gap_arpRequestMetaFifo e.
Proof.
  intros [Hst Hs] Hm. destruct e as [s [r i h] m0 q n ms0 ips]. simpl in *. subst s ms0.
  set (e1 := mkGapEnv GAP_HEADER (mkPacketHeader false 0 (reply_header mac ip m h)) m q n ms ips).
  assert (generate_arp_pkg mac ip (mkGapEnv GAP_IDLE (mkPacketHeader r i h) m0 q n (m :: ms) ips) = (e1, [])) as Hcall by done.
  destruct (gap_send h0 mac ip e1 (reply_frame mac ip m (protocol_length h0)) eq_refl eq_refl) as (e' & w & Hc & Hp & Hi & H1 & H2).
  { by apply reply_static. }
  { by apply reply_header_bytes. }
  exists e', w. cbn [calls]. rewrite Hcall, Hc. by split_and!.
Qed.

Lemma gap_request h0 mac ip e q qs :
  gap_idle h0 e -> gap_arpReplyMetaFifo e = [] -> gap_arpRequestMetaFifo e = q :: qs ->
  exists e' w, calls (generate_arp_pkg mac ip) 2 e = (e', [w]) /\
    packet [w] (request_frame mac ip q (protocol_length h0)) /\ gap_idle h0 e' /\
    gap_arpReplyMetaFifo e' = [] /\ gap_arpRequestMetaFifo e' = qs.
Proof.
  intros [Hst Hs] Hm Hq. destruct e as [s [r i h] m0 q0 n ms0 ips]. simpl in *. subst s ms0 ips.
  set (e1 := mkGapEnv GAP_HEADER (mkPacketHeader false 0 (request_header mac ip q h)) m0 q n [] qs).
  assert (generate_arp_pkg mac ip (mkGapEnv GAP_IDLE (mkPacketHeader r i h) m0 q0 n [] (q :: qs)) = (e1, [])) as Hcall by done.
  destruct (gap_send h0 mac ip e1 (request_frame mac ip q (protocol_length h0)) eq_refl eq_refl) as (e' & w & Hc & Hp & Hi & H1 & H2).
  { by apply request_static. }
  { by apply request_header_bytes. }
  exists e', w. cbn [calls]. rewrite Hcall, Hc. by split_and!.
Qed.

(** *** [process_arp_pkg] *)
Definition pap_arrive (w : net_axis) (e : pap_env) : pap_env := e <| pag_dataIn := pag_dataIn e ++ [w] |>.

#[export, refine] Instance pap_kahn my : KahnProcess (process_arp_pkg my) pap_arrive := {
  kahn_work e := length (pag_dataIn e); kahn_progress := _; kahn_diamond := _
}.
Proof.
  - intros [h n m [|w ws]]; [by left|right]. unfold process_arp_pkg. simpl. repeat case_match_in_goal; simpl; lia.
  - intros a [h n m [|w ws]]; [by left|right]. unfold process_arp_pkg. simpl. by repeat case_match_in_goal.
Defined.

Definition pap_metas (w : list pap_write) : list arpReplyMeta :=
  omap (fun x => match x with W_arpReplyMeta m => Some m | _ => None end) w.
Definition pap_inserts (w : list pap_write) : list arpTableEntry :=
  omap (fun x => match x with W_arpTableInsert e => Some e | _ => None end) w.

(** What an ARP packet says. *)
Definition arp_op (f : list Z) : Z := le_val (field 20 2 f).
Definition arp_for (my : Z) (f : list Z) : bool := le_val (field 38 4 f) =? my.
Definition arp_meta (f : list Z) : arpReplyMeta :=
  mkArpReplyMeta (le_val (field 6 6 f)) (le_val (field 22 6 f)) (le_val (field 28 4 f)).
Definition arp_learned (f : list Z) : arpTableEntry :=
  mkArpEntry (le_val (field 28 4 f)) (le_val (field 22 6 f)) true.
Definition is_request (my : Z) (f : list Z) : bool := arp_for my f && (arp_op f =? ARP_OP_REQUEST).
Definition is_reply (my : Z) (f : list Z) : bool := arp_for my f && (arp_op f =? ARP_OP_REPLY).

Definition pap_out (my : Z) (h : Z) (n m : Z) (ws : list net_axis) : list pap_write :=
  drained (process_arp_pkg my) pap_arrive (mkPapEnv (mkPacketHeader false 0 h) n m ws).

(** The writes of a whole packet, whose header is [h']. *)
Definition arp_writes (my n m h' : Z) (w : list pap_write) : Prop :=
  let mine := ArpHeader.getTargetProtoAddr h' =? my in
  pap_metas w = when (mine && ArpHeader.isRequest h')
    [mkArpReplyMeta (ArpHeader.getSrcMacAddr h') (ArpHeader.getSenderHwAddr h') (ArpHeader.getSenderProtoAddr h')] /\
  pap_inserts w = when (mine && ArpHeader.isReply h')
    [mkArpEntry (ArpHeader.getSenderProtoAddr h') (ArpHeader.getSenderHwAddr h') true].

Lemma requests_are_not_replies h : ArpHeader.isRequest h = true -> ArpHeader.isReply h = false.
Proof. unfold ArpHeader.isRequest, ArpHeader.isReply. intros ->%Z.eqb_eq. done. Qed.

(** The last word, when the header is complete. *)
Lemma pap_last my h h' r n m w rest i :
  last w = true -> parseWord ARP_HEADER_SIZE (data w) (mkPacketHeader r i h) = mkPacketHeader true 1 h' ->
  exists n' m' x, drained (process_arp_pkg my) pap_arrive (mkPapEnv (mkPacketHeader r i h) n m (w :: rest))
    = x ++ pap_out my h' n' m' rest /\ arp_writes my n m h' x.
Proof.
  intros Hl Hp.
  assert (exists n' m' x, process_arp_pkg my (mkPapEnv (mkPacketHeader r i h) n m (w :: rest))
    = (mkPapEnv (mkPacketHeader false 0 h') n' m' rest, x) /\ arp_writes my n m h' x) as (n' & m' & x & Hcall & Hx).
  { unfold process_arp_pkg. cbn [pag_dataIn pag_header]. rewrite Hp, Hl. unfold arp_writes. cbn [ph_header].
    destruct (ArpHeader.getTargetProtoAddr h' =? my); [|by eexists _, _, _].
    destruct (ArpHeader.isRequest h') eqn:Hq.
    - rewrite (requests_are_not_replies h' Hq). by eexists _, _, _.
    - destruct (ArpHeader.isReply h'); by eexists _, _, _. }
  exists n', m', x. split; [|done]. by erewrite drained_call by exact Hcall.
Qed.

Lemma pap_rest my ws h n m rest :
  framed ws ->
  exists n' m' x, drained (process_arp_pkg my) pap_arrive (mkPapEnv (mkPacketHeader true 1 h) n m (ws ++ rest))
    = x ++ pap_out my h n' m' rest /\ arp_writes my n m h x.
Proof.
  induction 1 as [w Hl|w ws Hl _ IH]; cbn [app]; [by apply pap_last|].
  erewrite (drained_call _ _ _ (mkPapEnv (mkPacketHeader true 1 h) n m (ws ++ rest)) []); [done|].
  unfold process_arp_pkg. cbn [pag_dataIn pag_header]. by rewrite Hl.
Qed.

Lemma pap_packets my ws F h n m :
  packets ws F -> Forall (fun f => bytes f /\ (42 <= length f)%nat) F ->
  pap_metas (pap_out my h n m ws) = map arp_meta (List.filter (is_request my) F) /\
  pap_inserts (pap_out my h n m ws) = map arp_learned (List.filter (is_reply my) F).
Proof.
  intros Hp. revert h n m. induction Hp as [|ws f ws' F Hw Hp IH]; intros h n m HF.
  - unfold pap_out. by rewrite drained_stuck.
  - apply Forall_cons_1 in HF as [[Hb Hl] HF].
    destruct (parsed_first lanes64 42 ws f h Hw Hb ltac:(lia) Hl ltac:(lia))
      as (w & ws1 & h' & -> & _ & _ & Hparse & Hf). change (8 * Z.of_nat 42) with ARP_HEADER_SIZE in Hparse.
    assert (exists n' m' x, pap_out my h n m ((w :: ws1) ++ ws') = x ++ pap_out my h' n' m' ws' /\
      exists n m, arp_writes my n m h' x) as (n' & m' & x & -> & (n1 & m1 & H1 & H2)).
    { pose proof (packet_framed _ _ Hw) as Hfr. unfold pap_out at 1. cbn [app].
      inversion Hfr as [? Hlast|? ? Hlast Hfr']; subst.
      - cbn [app]. destruct (pap_last my h h' false n m w ws' 0 Hlast Hparse) as (n' & m' & x & -> & Hx). by eauto 10.
      - erewrite (drained_call _ _ _ (mkPapEnv (mkPacketHeader true 1 h') n m (ws1 ++ ws')) []).
        + destruct (pap_rest my ws1 h' n m ws' Hfr') as (n' & m' & x & -> & Hx). by eauto 10.
        + unfold process_arp_pkg. cbn [pag_dataIn pag_header]. by rewrite Hparse, Hlast. }
    destruct (IH h' n' m' HF) as (I1 & I2). unfold pap_metas, pap_inserts in *. rewrite !omap_app, H1, H2, I1, I2.
    cbn [List.filter]. unfold is_request at 2, is_reply at 2, arp_for, arp_op, arp_meta at 2, arp_learned at 2.
    unfold ArpHeader.isRequest, ArpHeader.isReply, ArpHeader.getTargetProtoAddr, ArpHeader.getSrcMacAddr,
      ArpHeader.getSenderHwAddr, ArpHeader.getSenderProtoAddr.
    rewrite (Hf 335 304 38%nat 4%nat), (Hf 175 160 20%nat 2%nat), (Hf 95 48 6%nat 6%nat), (Hf 223 176 22%nat 6%nat),
      (Hf 255 224 28%nat 4%nat) by lia.
    split; destruct (le_val (field 38 4 f) =? my);
      destruct (le_val (field 20 2 f) =? ARP_OP_REQUEST), (le_val (field 20 2 f) =? ARP_OP_REPLY); reflexivity.
Qed.

Lemma pap_arrivals l h n m ws : arrive_all pap_arrive l (mkPapEnv h n m ws) = mkPapEnv h n m (ws ++ l).
Proof.
  revert ws. induction l as [|x l IH]; intros ws; unfold arrive_all, pap_arrive in *; simpl;
    [by rewrite app_nil_r|rewrite IH; by rewrite <- app_assoc].
Qed.

Lemma pap_output my h s F :
  packets (arrivals s) F -> Forall (fun f => bytes f /\ (42 <= length f)%nat) F ->
  pap_metas (output (process_arp_pkg my) pap_arrive s (pap_init h)) = map arp_meta (List.filter (is_request my) F) /\
  pap_inserts (output (process_arp_pkg my) pap_arrive s (pap_init h)) = map arp_learned (List.filter (is_reply my) F).
Proof.
  intros Hp HF. rewrite output_drained. unfold pap_init. rewrite pap_arrivals. cbn [app]. by apply pap_packets.
Qed.

(** *** What the frames say to the other side *)
Lemma arp_frame_bytes dst src op sha spa tha tpa plen :
  in_width 8 op -> in_width 8 plen -> bytes (padded (arp_frame dst src op sha spa tha tpa plen)).
Proof.
  intros Hop Hpl. unfold padded. apply Forall_app. split; [|by apply Forall_replicate].
  unfold arp_frame. rewrite !Forall_app. split_and!; try apply le_bytes_bytes. repeat (constructor; [done|]). constructor.
Qed.

Lemma protocol_length_byte h0 : in_width 8 (protocol_length h0).
Proof. destruct (protocol_length_cases h0) as [-> | ->]; unfold in_width; pow2; lia. Qed.

Lemma le_val_le_bytes n z : in_width (8 * Z.of_nat n) z -> le_val (le_bytes n z) = z.
Proof. intros H. rewrite le_val_bytes. by apply wrap_small. Qed.

Section Exchange.
Variables (macA ipA macB ipB : Z) (h0 : Z).
Hypothesis (HmA : in_width 48 macA) (HiA : in_width 32 ipA) (HmB : in_width 48 macB) (HiB : in_width 32 ipB).

Let request := padded (request_frame macA ipA ipB (protocol_length h0)).
Let meta := mkArpReplyMeta macA macA ipA.
Let reply := padded (reply_frame macB ipB meta (protocol_length h0)).

Lemma request_said :
  bytes request /\ length request = 64%nat /\ is_request ipB request = true /\ arp_meta request = meta /\
  eth_type request = ARP.
Proof.
  unfold request. split_and!; [by apply arp_frame_bytes, protocol_length_byte|done| | |done].
  - unfold is_request, arp_for.
    change (field 38 4 _) with (le_bytes 4 ipB). rewrite le_val_le_bytes by done. by rewrite Z.eqb_refl.
  - unfold arp_meta. change (field 6 6 _) with (le_bytes 6 macA). change (field 22 6 _) with (le_bytes 6 macA).
    change (field 28 4 _) with (le_bytes 4 ipA). by rewrite !le_val_le_bytes by done.
Qed.

Lemma reply_said :
  bytes reply /\ length reply = 64%nat /\ is_reply ipA reply = true /\ arp_learned reply = mkArpEntry ipB macB true /\
  eth_type reply = ARP.
Proof.
  unfold reply. split_and!; [by apply arp_frame_bytes, protocol_length_byte|done| | |done].
  - unfold is_reply, arp_for.
    change (field 38 4 _) with (le_bytes 4 ipA). rewrite le_val_le_bytes by done. by rewrite Z.eqb_refl.
  - unfold arp_learned. change (field 22 6 _) with (le_bytes 6 macB).
    change (field 28 4 _) with (le_bytes 4 ipB). by rewrite !le_val_le_bytes by done.
Qed.
End Exchange.

(** C27: a request and its reply resolve an address.  When a stack A asks its table for
    an address B that it does not know, the answer is a miss and a request goes to the
    generator, which sends one packet; padded, and whatever its words and its schedule,
    B's side reads from it whom to answer, and its generator sends one packet; A's side
    reads from that one the entry for B; and once the table has stored it, the same
    question is answered with B's MAC address. *)
Theorem arp_exchange_resolves macA ipA macB ipB hA hB ta reqs gA gB :
  in_width 48 macA -> in_width 32 ipA -> in_width 48 macB -> in_width 32 ipB ->
  length (arpTable ta) = 256%nat -> arpTableInsertFifo ta = [] -> macIpEncode_req ta = ipB :: reqs ->
  ae_valid (arp_entry (arpTable ta) ipB) = false ->
  gap_idle hA gA -> gap_arpReplyMetaFifo gA = [] -> gap_idle hB gB ->
  let meta := mkArpReplyMeta macA macA ipA in
  let request := request_frame macA ipA ipB (protocol_length hA) in
  let reply := reply_frame macB ipB meta (protocol_length hB) in
  (exists ta' mac, arp_table ta = (ta', [W_arpRequestMeta ipB; W_macIpEncode_rsp (mkArpReply mac false)]) /\
     (calls arp_table 2 (ta' <| arpTableInsertFifo := [mkArpEntry ipB macB true] |> <| macIpEncode_req := [ipB] |>)).2
     = [W_macIpEncode_rsp (mkArpReply macB true)]) /\
  packet (calls (generate_arp_pkg macA ipA) 2 (gA <| gap_arpRequestMetaFifo := [ipB] |>)).2 request /\
  (forall s h, packets (arrivals s) [padded request] ->
     pap_metas (output (process_arp_pkg ipB) pap_arrive s (pap_init h)) = [meta]) /\
  packet (calls (generate_arp_pkg macB ipB) 2 (gB <| gap_arpReplyMetaFifo := [meta] |>)).2 reply /\
  (forall s h, packets (arrivals s) [padded reply] ->
     pap_inserts (output (process_arp_pkg ipA) pap_arrive s (pap_init h)) = [mkArpEntry ipB macB true]).
Proof.
  intros HmA HiA HmB HiB Hlen Hins Hreq Hmiss HgA HrA HgB meta request reply. split_and!.
  - exists (ta <| macIpEncode_req := reqs |>), (ae_macAddress (arp_entry (arpTable ta) ipB)). split.
    + destruct ta as [t xs rs hs]. cbn in *. subst xs rs. unfold arp_table. cbn. unfold arp_answer. by rewrite Hmiss.
    + destruct ta as [t xs rs hs]. cbn in *. subst xs rs. unfold arp_answer.
      rewrite (arp_entry_insert t (mkArpEntry ipB macB true)), decide_True by done. done.
  - destruct (gap_request hA macA ipA (gA <| gap_arpRequestMetaFifo := [ipB] |>) ipB []) as (e' & w & -> & Hp & _);
      [by destruct gA..|exact Hp].
  - intros s h Hs. destruct (request_said macA ipA ipB hA HmA HiA HiB) as (Hb & Hl & Hr & Hm & _).
    destruct (pap_output ipB h s [padded request] Hs) as [-> _].
    { constructor; [|done]. split; [exact Hb|]. unfold request. rewrite Hl. lia. }
    cbn [List.filter]. unfold request in *. rewrite Hr. cbn [map]. by rewrite Hm.
  - destruct (gap_reply hB macB ipB (gB <| gap_arpReplyMetaFifo := [meta] |>) meta []) as (e' & w & -> & Hp & _);
      [by destruct gB..|exact Hp].
  - intros s h Hs. destruct (reply_said macA ipA macB ipB hB HiA HmB HiB) as (Hb & Hl & Hr & Hm & _).
    destruct (pap_output ipA h s [padded reply] Hs) as [_ ->].
    { constructor; [|done]. split; [exact Hb|]. unfold reply, meta. rewrite Hl. lia. }
    cbn [List.filter]. unfold reply, meta in *. rewrite Hr. cbn [map]. by rewrite Hm.
Qed.
End ArpPackets.

#[export] Existing Instances pap_kahn.

(** ** The answers of the table, on any schedule *)
Inductive arp_arrival := A_insert (x : arpTableEntry) | A_macQuery (ip : Z) | A_hostQuery (ip : Z).
Definition arp_arrive (a : arp_arrival) (e : arp_table_env) : arp_table_env :=
  match a with
  | A_insert x => e <| arpTableInsertFifo := arpTableInsertFifo e ++ [x] |>
  | A_macQuery ip => e <| macIpEncode_req := macIpEncode_req e ++ [ip] |>
  | A_hostQuery ip => e <| hostIpEncode_req := hostIpEncode_req e ++ [ip] |>
  end.

Definition inserted (l : list arp_arrival) : list arpTableEntry :=
  omap (fun a => match a with A_insert x => Some x | _ => None end) l.
Definition mac_queries (l : list arp_arrival) : list Z :=
  omap (fun a => match a with A_macQuery ip => Some ip | _ => None end) l.
Definition mac_answers (w : list arp_table_write) : list arpTableReply :=
  omap (fun x => match x with W_macIpEncode_rsp r => Some r | _ => None end) w.
Definition arp_requests (w : list arp_table_write) : list Z :=
  omap (fun x => match x with W_arpRequestMeta ip => Some ip | _ => None end) w.

(** A hit carries the MAC address of an entry with the same last octet; a miss has
    triggered a request. *)
Definition answer_ok (l : list arp_arrival) (w : list arp_table_write) (ip : Z) (r : arpTableReply) : Prop :=
  if ar_hit r
  then exists x, x ∈ inserted l /\ ae_valid x = true /\ arp_index (ae_ipAddress x) = arp_index ip /\
         ae_macAddress x = ar_macAddress r
  else ip ∈ arp_requests w.

Record arp_sound (l : list arp_arrival) (w : list arp_table_write) (e : arp_table_env) : Prop := {
  at_length : length (arpTable e) = 256%nat;
  at_entries : forall ip, let x := arp_entry (arpTable e) ip in
    ae_valid x = true -> x ∈ inserted l /\ arp_index (ae_ipAddress x) = arp_index ip;
  at_waiting : forall x, x ∈ arpTableInsertFifo e -> x ∈ inserted l;
  at_answers : exists asked, mac_queries l = asked ++ macIpEncode_req e /\ Forall2 (answer_ok l w) asked (mac_answers w)
}.

Lemma answer_ok_more l l' w w' ip r : answer_ok l w ip r -> answer_ok (l ++ l') (w ++ w') ip r.
Proof.
  unfold answer_ok, inserted, arp_requests. rewrite !omap_app. destruct (ar_hit r).
  - intros (x & Hx & H). exists x. split; [|done]. apply elem_of_app. by left.
  - intros H. apply elem_of_app. by left.
Qed.

Lemma answers_more l l' w w' asked R :
  Forall2 (answer_ok l w) asked R -> Forall2 (answer_ok (l ++ l') (w ++ w')) asked R.
Proof. induction 1; constructor; [by apply answer_ok_more|done]. Qed.

(** A new answer is sound when the table is. *)
Lemma answer_sound l w rsp t ip :
  (forall ip, let x := arp_entry t ip in ae_valid x = true -> x ∈ inserted l /\ arp_index (ae_ipAddress x) = arp_index ip) ->
  answer_ok l (w ++ arp_answer rsp t ip) ip (mkArpReply (ae_macAddress (arp_entry t ip)) (ae_valid (arp_entry t ip))).
Proof.
  intros Ht. unfold answer_ok. cbn [ar_hit ar_macAddress]. destruct (ae_valid (arp_entry t ip)) eqn:Hv.
  - destruct (Ht ip Hv) as [H1 H2]. by exists (arp_entry t ip).
  - unfold arp_requests, arp_answer. rewrite !omap_app, Hv. apply elem_of_app. right. by left.
Qed.

Lemma arp_sound_call l w e : arp_sound l w e -> arp_sound l (w ++ (arp_table e).2) (arp_table e).1.
Proof.
  intros [Hl He Hw (asked & Hq & Ha)]. destruct e as [t [|x xs] [|q qs] hs]; cbn in Hl, He, Hw, Hq.
  - destruct hs as [|q hs]; unfold arp_table; cbn.
    + constructor; [done|done|done|]. exists asked. split; [done|]. by rewrite app_nil_r.
    + constructor; [done|done|done|]. exists asked. split; [done|]. rewrite <- (app_nil_r l).
      assert (mac_answers (w ++ arp_answer W_hostIpEncode_rsp t q) = mac_answers w) as ->.
      { unfold mac_answers, arp_answer. rewrite !omap_app. destruct (ae_valid _); cbn; by rewrite app_nil_r. }
      by apply answers_more.
  - constructor; [done|done|done|]. exists (asked ++ [q]). split; [cbn; by rewrite <- app_assoc|].
    assert (mac_answers (w ++ arp_answer W_macIpEncode_rsp t q) = mac_answers w
      ++ [mkArpReply (ae_macAddress (arp_entry t q)) (ae_valid (arp_entry t q))]) as H.
    { unfold mac_answers, arp_answer. rewrite !omap_app. by destruct (ae_valid _). }
    unfold arp_table. cbn -[arp_answer]. rewrite H. apply Forall2_app.
    + rewrite <- (app_nil_r l). by apply answers_more.
    + constructor; [|constructor]. by apply answer_sound.
  - constructor.
    + unfold arp_table. cbn. by rewrite length_insert.
    + intros ip. unfold arp_table. cbn [fst arpTable]. cbn. rewrite arp_entry_insert by done.
      destruct (decide _) as [Hi|Hi]; [|apply He]. intros _. split; [apply Hw; by left|done].
    + intros y Hy. apply Hw. by right.
    + exists asked. split; [done|]. unfold arp_table. cbn. by rewrite app_nil_r.
  - constructor.
    + unfold arp_table. cbn. by rewrite length_insert.
    + intros ip. unfold arp_table. cbn. rewrite arp_entry_insert by done.
      destruct (decide _) as [Hi|Hi]; [|apply He]. intros _. split; [apply Hw; by left|done].
    + intros y Hy. apply Hw. by right.
    + exists asked. split; [done|]. unfold arp_table. cbn. by rewrite app_nil_r.
Qed.

Lemma arp_sound_arrive l w a e : arp_sound l w e -> arp_sound (l ++ [a]) w (arp_arrive a e).
Proof.
  intros [Hl He Hw (asked & Hq & Ha)].
  assert (forall x, x ∈ inserted l -> x ∈ inserted (l ++ [a])) as Hmore.
  { intros x Hx. unfold inserted. rewrite omap_app. apply elem_of_app. by left. }
  assert (forall ip, let x := arp_entry (arpTable e) ip in
    ae_valid x = true -> x ∈ inserted (l ++ [a]) /\ arp_index (ae_ipAddress x) = arp_index ip) as He'.
  { intros ip x Hx. destruct (He ip Hx). split; [by apply Hmore|done]. }
  assert (Forall2 (answer_ok (l ++ [a]) w) asked (mac_answers w)) as Ha'.
  { rewrite <- (app_nil_r w) at 1. by apply answers_more. }
  assert (forall x, x ∈ arpTableInsertFifo e -> x ∈ inserted (l ++ [a])) as Hw' by (intros; by apply Hmore, Hw).
  assert (mac_queries (l ++ [a]) = (asked ++ macIpEncode_req e) ++ mac_queries [a]) as Hq'.
  { rewrite <- Hq. unfold mac_queries. by rewrite omap_app. }
  destruct e as [t xs qs hs]. destruct a as [y|ip|ip]; constructor; try done; cbn in *;
    try (exists asked; split; [|done]; rewrite Hq'; cbn; by rewrite ?app_nil_r, <- ?app_assoc).
  intros x [Hx| ->%list_elem_of_singleton]%elem_of_app; [by apply Hw'|].
  unfold inserted. rewrite omap_app. apply elem_of_app. right. by left.
Qed.

Lemma arp_sound_always s :
  arp_sound (arrivals s) (exec arp_table arp_arrive s arp_table_init).2 (exec arp_table arp_arrive s arp_table_init).1.
Proof.
  apply exec_invariant.
  - apply arp_sound_call.
  - intros. by apply arp_sound_arrive.
  - constructor; [done| |by intros ? ?%elem_of_nil|by exists []].
    intros ip x Hv. unfold x, arp_entry, arp_table_init in Hv. cbn [arpTable] in Hv.
    by rewrite lookup_replicate_2 in Hv by apply arp_index_bound.
Qed.

(** With a mask of 24 bits the next hop is in the gateway's subnet. *)
Lemma next_hop_subnet gateway d :
  in_width 32 gateway -> in_width 32 d ->
  in_width 32 (next_hop 16777215 gateway d) /\ bits 23 0 (next_hop 16777215 gateway d) = bits 23 0 gateway.
Proof.
  intros Hg Hd. unfold next_hop. change 16777215 with (Z.ones 24). rewrite !Z.land_ones by lia.
  destruct (Z.eqb_spec (d mod 2 ^ 24) (gateway mod 2 ^ 24)) as [He|He]; [|done].
  split; [done|]. rewrite !bits_0. exact He.
Qed.

Lemma subnet_address x y :
  in_width 32 x -> in_width 32 y -> arp_index x = arp_index y -> bits 23 0 x = bits 23 0 y -> x = y.
Proof.
  intros Hx Hy Hi Hb. unfold arp_index in Hi.
  assert (bits 31 24 x = bits 31 24 y) as Hi'.
  { pose proof (bits_range 31 24 x ltac:(lia)). pose proof (bits_range 31 24 y ltac:(lia)). unfold in_width in *. lia. }
  rewrite <- (wrap_small 32 x), <- (wrap_small 32 y), <- !(bits_0 31), !(bits_split 23 31 0) by (done || lia).
  change (23 + 1) with 24. by rewrite Hb, Hi'.
Qed.

(** C26: a frame goes to the next hop of its packet.  When the questions of
    [mac_ip_encode] are the next hops of its packets for a mask of 24 bits, and the
    replies that were stored came from the gateway's subnet, then on any schedule the
    answers come in the order of the packets, a hit carries the MAC address that was
    stored for the very next hop of the packet, and a miss has triggered a request for
    it. *)
Theorem arp_answers_next_hop s gateway dsts i d r :
  in_width 32 gateway -> Forall (in_width 32) dsts ->
  mac_queries (arrivals s) = map (next_hop 16777215 gateway) dsts ->
  (forall x, x ∈ inserted (arrivals s) -> in_width 32 (ae_ipAddress x) /\ bits 23 0 (ae_ipAddress x) = bits 23 0 gateway) ->
  let w := (exec arp_table arp_arrive s arp_table_init).2 in
  dsts !! i = Some d -> mac_answers w !! i = Some r ->
  if ar_hit r
  then mkArpEntry (next_hop 16777215 gateway d) (ar_macAddress r) true ∈ inserted (arrivals s)
  else next_hop 16777215 gateway d ∈ arp_requests w.
Proof.
  intros Hg Hds Hq Hx w Hd Hr. destruct (at_answers _ _ _ (arp_sound_always s)) as (asked & Ha & HF).
  destruct (Forall2_lookup_r _ _ _ _ _ HF Hr) as (ip & Hip & Hok).
  assert (ip = next_hop 16777215 gateway d) as ->.
  { rewrite Hq in Ha. apply (lookup_app_l_Some _ (macIpEncode_req (exec arp_table arp_arrive s arp_table_init).1)) in Hip.
    rewrite <- Ha, list_lookup_fmap, Hd in Hip. by injection Hip as <-. }
  unfold answer_ok in Hok. destruct (ar_hit r); [|done]. destruct Hok as (x & Hin & Hv & Hi & Hm).
  destruct (Hx x Hin) as [Hw Hn]. rewrite Forall_forall in Hds.
  destruct (next_hop_subnet gateway d Hg) as [Hw' Hn']; [by eapply Hds, list_elem_of_In, list_elem_of_lookup_2|].
  assert (ae_ipAddress x = next_hop 16777215 gateway d) as He by (apply subnet_address; congruence).
  destruct x as [xip xmac xv]. simpl in *. by subst.
Qed.

(** C37: in a larger subnet it need not.  The table does not compare addresses: after a
    reply from one address, every address with the same last octet is answered with
    its MAC address, without a request. *)
Theorem arp_table_aliases t x ip mask gateway :
  length t = 256%nat -> ae_valid x = true -> bits 31 24 (ae_ipAddress x) = bits 31 24 ip ->
  Z.land ip mask = Z.land gateway mask -> 
  (calls arp_table 2 (mkArpTableEnv t [x] [next_hop mask gateway ip] [])).2
  = [W_macIpEncode_rsp (mkArpReply (ae_macAddress x) true)].
Proof.
  intros Hl Hv Hi Hm. unfold next_hop. rewrite Hm, Z.eqb_refl.
  assert (arp_index (ae_ipAddress x) = arp_index ip) as He by (unfold arp_index; by rewrite Hi).
  unfold calls, arp_table. cbn -[arp_answer]. unfold arp_answer. by rewrite arp_entry_insert, decide_True, Hv.
Qed.

(** ** Two stacks in one subnet: 10.0.0.1 asks for 10.0.0.2 *)
Section ArpWitnesses.
#[local] Instance width64 : WordWidth := 64%nat.

Lemma arp_exchange_resolves_witness :
  let ta := mkArpTableEnv (replicate 256 no_entry) [] [33554442] [] in
  let request := request_frame 11 16777226 33554442 4 in
  (exists ta' mac, arp_table ta = (ta', [W_arpRequestMeta 33554442; W_macIpEncode_rsp (mkArpReply mac false)]) /\
     (calls arp_table 2 (ta' <| arpTableInsertFifo := [mkArpEntry 33554442 22 true] |> <| macIpEncode_req := [33554442] |>)).2
     = [W_macIpEncode_rsp (mkArpReply 22 true)]) /\
  packet (calls (generate_arp_pkg 11 16777226) 2 (gap_init 0 <| gap_arpRequestMetaFifo := [33554442] |>)).2 request.
Proof.
  destruct (arp_exchange_resolves (WW := width64) eq_refl 11 16777226 22 33554442 0 0
    (mkArpTableEnv (replicate 256 no_entry) [] [33554442] []) [] (gap_init 0) (gap_init 0)
    ltac:(done) ltac:(done) ltac:(done) ltac:(done) eq_refl eq_refl eq_refl ltac:(by vm_compute)
    ltac:(split; [done|apply arp_init_static]) eq_refl ltac:(split; [done|apply arp_init_static])) as (H1 & H2 & _).
  split; [exact H1|exact H2].
Defined.

(** The entry of 10.0.0.2 arrives, then a question for it and one for 8.8.8.8. *)
Definition demo_arp_schedule : list (option arp_arrival) :=
  [Some (A_insert (mkArpEntry 33554442 22 true)); Some (A_macQuery 33554442); None; Some (A_macQuery 16777226); None; None].

Lemma arp_answers_next_hop_witness :
  let w := (exec arp_table arp_arrive demo_arp_schedule arp_table_init).2 in
  mac_answers w = [mkArpReply 22 true; mkArpReply 0 false] /\
  mkArpEntry 33554442 22 true ∈ inserted (arrivals demo_arp_schedule) /\ 16777226 ∈ arp_requests w.
Proof.
  assert (forall x, x ∈ inserted (arrivals demo_arp_schedule) ->
    in_width 32 (ae_ipAddress x) /\ bits 23 0 (ae_ipAddress x) = bits 23 0 16777226) as Hx.
  { intros x ->%list_elem_of_singleton. by vm_compute. }
  split_and!.
  - by vm_compute.
  - refine (arp_answers_next_hop demo_arp_schedule 16777226 [33554442; 134744072] 0 33554442 (mkArpReply 22 true)
      ltac:(done) ltac:(repeat (constructor; [done|]); constructor) ltac:(by vm_compute) Hx eq_refl _). by vm_compute.
  - refine (arp_answers_next_hop demo_arp_schedule 16777226 [33554442; 134744072] 1 134744072 (mkArpReply 0 false)
      ltac:(done) ltac:(repeat (constructor; [done|]); constructor) ltac:(by vm_compute) Hx eq_refl _). by vm_compute.
Defined.

(** 10.0.1.2 answered, 10.0.2.2 asked for, with a mask of 16 bits. *)
Lemma arp_table_aliases_witness :
  (calls arp_table 2 (mkArpTableEnv (replicate 256 no_entry) [mkArpEntry 33619978 22 true]
    [next_hop 65535 16777226 33685514] [])).2 = [W_macIpEncode_rsp (mkArpReply 22 true)] /\ 33619978 <> 33685514.
Proof. split; [by apply (arp_table_aliases (replicate 256 no_entry) (mkArpEntry 33619978 22 true))|lia]. Defined.
End ArpWitnesses.
