(* ===== verification/MultiQueue.v ===== *)
(** * Queues in a shared memory
      ([ib_transport_protocol/multi_queue/multi_queue.hpp])

    Many first-in first-out queues, one per key, share one memory of linked entries
    and one list of free entries.  Four processes: the table of the first and last
    entry of each queue, the memory of the entries, the handler of the free list and
    the machine that carries out one request after the other through messages to the
    other three.  Keys are below [NUM_QUEUES], the size of the first table. *)

From S2P Require Import Prelude.

(** ** Data *)
Inductive mqPopOperation := POP | FRONT.
Record mqPopReq := mkMqPopReq { mqp_op : mqPopOperation; mqp_key : Z }.

Record mqPointerEntry := mkMqPointerEntry { mpe_head : Z; mpe_tail : Z; mpe_valid : bool }.
#[export] Instance eta_mqPointerEntry : Eta mqPointerEntry := fun e =>
  mkMqPointerEntry (mpe_head e) (mpe_tail e) (mpe_valid e).
#[export] Instance zero_init_mqPointerEntry : ZeroInit mqPointerEntry := mkMqPointerEntry 0 0 false.

Record mqPointerReq := mkMqPointerReq { mpr_key : Z; mpr_lock : bool }.
#[export] Instance zero_init_mqPointerReq : ZeroInit mqPointerReq := mkMqPointerReq 0 false.
Record mqPointerUpdate := mkMqPointerUpdate { mpu_key : Z; mpu_entry : mqPointerEntry }.

Section Data.
Context {T : Type} `{ZeroInit T}.

Record mqInsertReq := mkMqInsertReq { mqi_key : Z; mqi_value : T }.
#[export] Instance zero_init_mqInsertReq : ZeroInit mqInsertReq := mkMqInsertReq 0 zero_init.

Record mqMetaEntry := mkMqMetaEntry { mme_value : T; mme_next : Z; mme_valid : bool; mme_isTail : bool }.
#[export] Instance eta_mqMetaEntry : Eta mqMetaEntry := fun e =>
  mkMqMetaEntry (mme_value e) (mme_next e) (mme_valid e) (mme_isTail e).
#[export] Instance zero_init_mqMetaEntry : ZeroInit mqMetaEntry := mkMqMetaEntry zero_init 0 false false.
(** [mqMetaEntry(mqInsertReq&)]. *)
Definition mqMetaEntry_new (r : mqInsertReq) : mqMetaEntry := mkMqMetaEntry (mqi_value r) 0 true true.
(** [mqMetaEntry(next)]: the other fields are not assigned, and not read. *)
Definition mqMetaEntry_next (next : Z) : mqMetaEntry := mkMqMetaEntry zero_init next false false.

Record mqMetaReq := mkMqMetaReq { mmr_idx : Z; mmr_entry : mqMetaEntry; mmr_write : bool; mmr_append : bool }.
Definition mqMetaReq_read (idx : Z) : mqMetaReq := mkMqMetaReq idx zero_init false false.
Definition mqMetaReq_append (idx next : Z) : mqMetaReq := mkMqMetaReq idx (mqMetaEntry_next next) false true.
Definition mqMetaReq_write (idx : Z) (e : mqMetaEntry) : mqMetaReq := mkMqMetaReq idx e true false.
End Data.

Arguments mqInsertReq T : clear implicits.
Arguments mqMetaEntry T : clear implicits.
Arguments mqMetaReq T : clear implicits.
#[export] Existing Instances eta_mqMetaEntry zero_init_mqMetaEntry zero_init_mqInsertReq.

(** ** [mq_pointer_table] *)
Record pt_env := mkPtEnv {
  ptr_table : table mqPointerEntry; mq_lockedKey : Z; mq_isLocked : bool; mq_wait : bool;
  mq_request : mqPointerReq;
  pointerReqFifo : stream mqPointerReq; pointerUpdFifo : stream mqPointerUpdate
}.
#[export] Instance eta_pt_env : Eta pt_env := fun e =>
  mkPtEnv (ptr_table e) (mq_lockedKey e) (mq_isLocked e) (mq_wait e) (mq_request e)
    (pointerReqFifo e) (pointerUpdFifo e).

Definition pt_init : pt_env := mkPtEnv ∅ 0 false false zero_init [] [].

Definition mq_pointer_table (e : pt_env) : pt_env * list mqPointerEntry :=
  match pointerUpdFifo e, pointerReqFifo e with
  | upd :: rest, _ =>
      (e <| pointerUpdFifo := rest |> <| ptr_table := tset (mpu_key upd) (mpu_entry upd) (ptr_table e) |>
         <| mq_isLocked := if mq_lockedKey e =? mpu_key upd then false else mq_isLocked e |>, [])
  | [], request :: rest =>
      if negb (mq_wait e) then
        let e := e <| pointerReqFifo := rest |> <| mq_request := request |> in
        if mpr_lock request && mq_isLocked e then (e <| mq_wait := true |>, [])
        else ((if mpr_lock request
               then e <| mq_isLocked := true |> <| mq_lockedKey := mpr_key request |> else e),
              [(ptr_table e).[mpr_key request]])
      else if negb (mq_isLocked e) then
        (e <| mq_isLocked := true |> <| mq_lockedKey := mpr_key (mq_request e) |> <| mq_wait := false |>,
         [(ptr_table e).[mpr_key (mq_request e)]])
      else (e, [])
  | [], [] =>
      if mq_wait e && negb (mq_isLocked e) then
        (e <| mq_isLocked := true |> <| mq_lockedKey := mpr_key (mq_request e) |> <| mq_wait := false |>,
         [(ptr_table e).[mpr_key (mq_request e)]])
      else (e, [])
  end.

(** ** [mq_freelist_handler] *)
Record fl_env := mkFlEnv { freeListCounter : Z; releaseFifo : stream Z }.
#[export] Instance eta_fl_env : Eta fl_env := fun e => mkFlEnv (freeListCounter e) (releaseFifo e).
Definition fl_init : fl_env := mkFlEnv 0 [].

(** [full]: [rt_freeListFifo.full()]. *)
Definition mq_freelist_handler (MULTI_QUEUE_SIZE : Z) (full : bool) (e : fl_env) : fl_env * list Z :=
  match releaseFifo e with
  | idx :: rest => (e <| releaseFifo := rest |>, [idx])
  | [] =>
      if (freeListCounter e <? MULTI_QUEUE_SIZE) && negb full
      then (e <| freeListCounter := wrap 16 (freeListCounter e + 1) |>, [freeListCounter e])
      else (e, [])
  end.

Section Tables.
Context {T : Type} `{ZeroInit T}.

(** ** [mq_meta_table] *)
Record mt_env := mkMtEnv { meta_table : table (mqMetaEntry T); meta_upd_req : stream (mqMetaReq T) }.
#[export] Instance eta_mt_env : Eta mt_env := fun e => mkMtEnv (meta_table e) (meta_upd_req e).
Definition mt_init : mt_env := mkMtEnv ∅ [].

(** What a request does to the table. *)
Definition meta_apply (req : mqMetaReq T) (t : table (mqMetaEntry T)) : table (mqMetaEntry T) :=
  if mmr_write req then tset (mmr_idx req) (mmr_entry req) t
  else if mmr_append req then
    tset (mmr_idx req) (t.[mmr_idx req] <| mme_next := mme_next (mmr_entry req) |> <| mme_isTail := false |>) t
  else t.

Definition mq_meta_table (e : mt_env) : mt_env * list (mqMetaEntry T) :=
  match meta_upd_req e with
  | req :: rest =>
      (mkMtEnv (meta_apply req (meta_table e)) rest,
       when (negb (mmr_write req) && negb (mmr_append req)) [(meta_table e).[mmr_idx req]])
  | [] => (e, [])
  end.

(** ** [mq_process_requests] *)
Inductive mq_stateType := STATE_MAIN | STATE_PUSH | STATE_PUSH_2 | STATE_POP | STATE_POP_2.
Record pr_env := mkPrEnv {
  mq_state : mq_stateType; newMetaIdx : Z; mq_insert : mqInsertReq T; popRequest : mqPopReq;
  ptrMeta : mqPointerEntry;
  multiQueue_push : stream (mqInsertReq T); multiQueue_pop_req : stream mqPopReq;
  pointerRspFifo : stream mqPointerEntry; metaRspFifo : stream (mqMetaEntry T); freeListFifo : stream Z
}.
#[export] Instance eta_pr_env : Eta pr_env := fun e =>
  mkPrEnv (mq_state e) (newMetaIdx e) (mq_insert e) (popRequest e) (ptrMeta e) (multiQueue_push e)
    (multiQueue_pop_req e) (pointerRspFifo e) (metaRspFifo e) (freeListFifo e).

Inductive mq_write :=
| W_pointerReq (r : mqPointerReq) | W_pointerUpd (u : mqPointerUpdate)
| W_metaReq (r : mqMetaReq T) | W_release (idx : Z) | W_pop_rsp (v : T).

Definition pr_init : pr_env := mkPrEnv STATE_MAIN 0 zero_init (mkMqPopReq POP 0) zero_init [] [] [] [] [].

Definition mq_process_requests (e : pr_env) : pr_env * list mq_write :=
  match mq_state e with
  | STATE_MAIN =>
      match multiQueue_push e, freeListFifo e, multiQueue_pop_req e with
      | insert :: pushes, idx :: free, _ =>
          (e <| newMetaIdx := idx |> <| freeListFifo := free |> <| mq_insert := insert |>
             <| multiQueue_push := pushes |> <| mq_state := STATE_PUSH |>,
           [W_pointerReq (mkMqPointerReq (mqi_key insert) true)])
      | _, _, request :: reqs =>
          (e <| popRequest := request |> <| multiQueue_pop_req := reqs |> <| mq_state := STATE_POP |>,
           [W_pointerReq (mkMqPointerReq (mqp_key request) false)])
      | _, _, [] => (e, [])
      end
  | STATE_PUSH =>
      match pointerRspFifo e with
      | ptr :: rest =>
          let new := newMetaIdx e in
          if negb (mpe_valid ptr) then
            let ptr := mkMqPointerEntry new new true in
            (e <| pointerRspFifo := rest |> <| ptrMeta := ptr |> <| mq_state := STATE_MAIN |>,
             [W_metaReq (mqMetaReq_write new (mqMetaEntry_new (mq_insert e)));
              W_pointerUpd (mkMqPointerUpdate (mqi_key (mq_insert e)) ptr)])
          else
            (e <| pointerRspFifo := rest |> <| ptrMeta := ptr <| mpe_tail := new |> |>
               <| mq_state := STATE_PUSH_2 |>,
             [W_metaReq (mqMetaReq_append (mpe_tail ptr) new)])
      | [] => (e, [])
      end
  | STATE_PUSH_2 =>
      (e <| mq_state := STATE_MAIN |>,
       [W_metaReq (mqMetaReq_write (newMetaIdx e) (mqMetaEntry_new (mq_insert e)));
        W_pointerUpd (mkMqPointerUpdate (mqi_key (mq_insert e)) (ptrMeta e))])
  | STATE_POP =>
      match pointerRspFifo e with
      | ptr :: rest =>
          let e := e <| pointerRspFifo := rest |> <| ptrMeta := ptr |> in
          if mpe_valid ptr then (e <| mq_state := STATE_POP_2 |>, [W_metaReq (mqMetaReq_read (mpe_head ptr))])
          else (e <| mq_state := STATE_MAIN |>, [])
      | [] => (e, [])
      end
  | STATE_POP_2 =>
      match metaRspFifo e with
      | meta :: rest =>
          let e := e <| metaRspFifo := rest |> <| mq_state := STATE_MAIN |> in
          if mme_valid meta then
            match mqp_op (popRequest e) with
            | POP =>
                let ptr := ptrMeta e <| mpe_valid := negb (mme_isTail meta) |> <| mpe_head := mme_next meta |> in
                (e <| ptrMeta := ptr |>,
                 [W_pop_rsp (mme_value meta); W_release (mpe_head (ptrMeta e));
                  W_pointerUpd (mkMqPointerUpdate (mqp_key (popRequest e)) ptr)])
            | FRONT => (e, [W_pop_rsp (mme_value meta)])
            end
          else (e, [])
      | [] => (e, [])
      end
  end.
End Tables.

Arguments mt_env T : clear implicits.
Arguments pr_env T : clear implicits.
Arguments mq_write T : clear implicits.
#[export] Existing Instances eta_mt_env eta_pr_env.

(** ** [multi_queue]: the four processes connected *)
Section MultiQueue.
Context {T : Type} `{ZeroInit T}.
Variable MULTI_QUEUE_SIZE : Z.

Record mq_env := mkMqEnv { mq_ptr : pt_env; mq_free : fl_env; mq_meta : mt_env T; mq_proc : pr_env T }.
#[export] Instance eta_mq_env : Eta mq_env := fun e => mkMqEnv (mq_ptr e) (mq_free e) (mq_meta e) (mq_proc e).
Definition mq_init : mq_env := mkMqEnv pt_init fl_init mt_init pr_init.

Inductive mq_process := P_freelist | P_pointer | P_meta | P_requests.

(** The streams that the writes of [mq_process_requests] go to. *)
Definition mq_deliver (w : mq_write T) (e : mq_env) : mq_env :=
  match w with
  | W_pointerReq r => e <| mq_ptr := mq_ptr e <| pointerReqFifo := pointerReqFifo (mq_ptr e) ++ [r] |> |>
  | W_pointerUpd u => e <| mq_ptr := mq_ptr e <| pointerUpdFifo := pointerUpdFifo (mq_ptr e) ++ [u] |> |>
  | W_metaReq r => e <| mq_meta := mq_meta e <| meta_upd_req := meta_upd_req (mq_meta e) ++ [r] |> |>
  | W_release idx => e <| mq_free := mq_free e <| releaseFifo := releaseFifo (mq_free e) ++ [idx] |> |>
  | W_pop_rsp _ => e
  end.
Definition pop_rsp (w : mq_write T) : option T := match w with W_pop_rsp v => Some v | _ => None end.

(** One call of one process, and what it answers. *)
Definition mq_call (p : mq_process) (e : mq_env) : mq_env * list T :=
  let proc := mq_proc e in
  match p with
  | P_freelist =>
      let is_full := full (Z.to_nat MULTI_QUEUE_SIZE) (freeListFifo proc) in
      let '(f, w) := mq_freelist_handler MULTI_QUEUE_SIZE is_full (mq_free e) in
      (e <| mq_free := f |> <| mq_proc := proc <| freeListFifo := freeListFifo proc ++ w |> |>, [])
  | P_pointer =>
      let '(t, w) := mq_pointer_table (mq_ptr e) in
      (e <| mq_ptr := t |> <| mq_proc := proc <| pointerRspFifo := pointerRspFifo proc ++ w |> |>, [])
  | P_meta =>
      let '(t, w) := mq_meta_table (mq_meta e) in
      (e <| mq_meta := t |> <| mq_proc := proc <| metaRspFifo := metaRspFifo proc ++ w |> |>, [])
  | P_requests =>
      let '(p, w) := mq_process_requests proc in
      (fold_left (fun e w => mq_deliver w e) w (e <| mq_proc := p |>), omap pop_rsp w)
  end.

(** A run: requests arrive and processes are called, in any order. *)
Inductive mq_event := E_push (r : mqInsertReq T) | E_pop (r : mqPopReq) | E_call (p : mq_process).

Definition mq_step (ev : mq_event) (e : mq_env) : mq_env * list T :=
  match ev with
  | E_push r => (e <| mq_proc := mq_proc e <| multiQueue_push := multiQueue_push (mq_proc e) ++ [r] |> |>, [])
  | E_pop r => (e <| mq_proc := mq_proc e <| multiQueue_pop_req := multiQueue_pop_req (mq_proc e) ++ [r] |> |>, [])
  | E_call p => mq_call p e
  end.

Fixpoint mq_run (s : list mq_event) (e : mq_env) : mq_env * list T :=
  match s with
  | [] => (e, [])
  | ev :: s => let '(e1, w1) := mq_step ev e in let '(e2, w2) := mq_run s e1 in (e2, w1 ++ w2)
  end.

Definition mq_pushes (s : list mq_event) : list (mqInsertReq T) :=
  omap (fun ev => match ev with E_push r => Some r | _ => None end) s.
Definition mq_pops (s : list mq_event) : list mqPopReq :=
  omap (fun ev => match ev with E_pop r => Some r | _ => None end) s.

(** ** What it implements: a queue for every key *)
Inductive mq_op := Push (r : mqInsertReq T) | PopFront (r : mqPopReq).
Definition queues : Type := Z -> list T.

Definition mq_spec (op : mq_op) (q : queues) : queues * list T :=
  match op with
  | Push r => (fun k => if k =? mqi_key r then q k ++ [mqi_value r] else q k, [])
  | PopFront r =>
      match q (mqp_key r) with
      | [] => (q, [])
      | v :: rest =>
          (match mqp_op r with
           | POP => fun k => if k =? mqp_key r then rest else q k
           | FRONT => q
           end, [v])
      end
  end.

Fixpoint mq_specs (ops : list mq_op) (q : queues) : queues * list T :=
  match ops with
  | [] => (q, [])
  | op :: ops => let '(q1, w1) := mq_spec op q in let '(q2, w2) := mq_specs ops q1 in (q2, w1 ++ w2)
  end.

Definition op_push (op : mq_op) : option (mqInsertReq T) := match op with Push r => Some r | _ => None end.
Definition op_pop (op : mq_op) : option mqPopReq := match op with PopFront r => Some r | _ => None end.
End MultiQueue.

(** ** The entries in use

    Every entry in use with its key, in the order of their insertion; the queue of a
    key are its entries. *)
Section Entries.
Context {T : Type} `{ZeroInit T}.
Implicit Types (A : list (Z * (Z * T))) (l : list (Z * T)).

Definition of_key (k : Z) A : list (Z * T) := map snd (List.filter (fun x => fst x =? k) A).
Definition ids A : list Z := map (fun x => fst (snd x)) A.

Fixpoint remove_first (k : Z) A : list (Z * (Z * T)) :=
  match A with
  | [] => []
  | x :: r => if fst x =? k then r else x :: remove_first k r
  end.

Lemma of_key_snoc k A k' x : of_key k (A ++ [(k', x)]) = of_key k A ++ (if k' =? k then [x] else []).
Proof. unfold of_key. rewrite List.filter_app, map_app. simpl. by destruct (k' =? k). Qed.

Lemma of_key_ids k A i : i ∈ map fst (of_key k A) -> i ∈ ids A.
Proof.
  unfold of_key, ids. rewrite !list_elem_of_In, !in_map_iff.
  intros ([j v] & <- & ((k' & x) & <- & [Hx _]%filter_In)%in_map_iff). by exists (k', x).
Qed.

Lemma of_key_nodup k A : NoDup (ids A) -> NoDup (map fst (of_key k A)).
Proof.
  unfold of_key, ids. induction A as [|[k' [i v]] A IH]; [done|]. simpl. intros [Hi HA]%list.NoDup_cons.
  destruct (k' =? k); [|by apply IH]. simpl. apply list.NoDup_cons. split; [|by apply IH].
  contradict Hi. by apply (of_key_ids k A).
Qed.

(** An entry is in one queue. *)
Lemma of_key_disjoint k k' A i :
  NoDup (ids A) -> i ∈ map fst (of_key k A) -> i ∈ map fst (of_key k' A) -> k = k'.
Proof.
  unfold of_key. induction A as [|[k0 [j v]] A IH]; [by intros _ H1%elem_of_nil|]. simpl.
  intros [Hj HA]%list.NoDup_cons. specialize (IH HA).
  destruct (Z.eqb_spec k0 k) as [E|E], (Z.eqb_spec k0 k') as [E'|E']; simpl; rewrite ?elem_of_cons; [congruence|..|done].
  - intros [->|H1] H2; [|by apply IH]. destruct Hj. by apply (of_key_ids k' A).
  - intros H1 [->|H2]; [|by apply IH]. destruct Hj. by apply (of_key_ids k A).
Qed.

Lemma of_key_remove k A k' x l :
  of_key k A = x :: l -> of_key k' (remove_first k A) = if k' =? k then l else of_key k' A.
Proof.
  unfold of_key. induction A as [|[k0 y] A IH]; [done|]. simpl.
  destruct (Z.eqb_spec k0 k) as [->|Hne]; simpl.
  - intros [= -> <-]. destruct (Z.eqb_spec k' k) as [->|]; [done|]. destruct (Z.eqb_spec k k'); [lia|done].
  - intros Hq. specialize (IH Hq).
    destruct (Z.eqb_spec k0 k') as [->|]; simpl; [|done]. destruct (Z.eqb_spec k' k); [done|]. by f_equal.
Qed.

Lemma ids_remove k A i v l :
  of_key k A = (i, v) :: l -> forall j, occurrences j (ids A) = occurrences j (i :: ids (remove_first k A)).
Proof.
  unfold of_key, ids. induction A as [|[k0 y] A IH]; [done|]. simpl.
  destruct (Z.eqb_spec k0 k) as [->|]; simpl; [by intros [= -> _]|].
  intros Hq j. specialize (IH Hq j). simpl in IH. lia.
Qed.

(** *** The linked entries of a queue *)
Fixpoint chain (t : table (mqMetaEntry T)) l : Prop :=
  match l with
  | [] => True
  | (i, v) :: r =>
      mme_valid (t.[i]) = true /\ mme_value (t.[i]) = v /\
      match r with
      | [] => mme_isTail (t.[i]) = true
      | (j, _) :: _ => mme_isTail (t.[i]) = false /\ mme_next (t.[i]) = j
      end /\ chain t r
  end.

(** The table entry of a queue: its first and its last entry. *)
Definition ends (p : mqPointerEntry) l : Prop :=
  match l with
  | [] => mpe_valid p = false
  | (i, _) :: _ => mpe_valid p = true /\ mpe_head p = i /\ exists l' v, l = l' ++ [(mpe_tail p, v)]
  end.

Lemma chain_ext t t' l : (forall i, i ∈ map fst l -> t.[i] = t'.[i]) -> chain t l -> chain t' l.
Proof.
  induction l as [|[i v] l IH]; [done|]. simpl. intros He (H1 & H2 & H3 & H4).
  rewrite <- (He i) by set_solver. split_and!; try done. apply IH; [|done]. intros j Hj. apply He. set_solver.
Qed.

Lemma chain_set i m t l : i ∉ map fst l -> chain t l -> chain (tset i m t) l.
Proof. intros Hi. apply chain_ext. intros j Hj. rewrite tget_tset_ne; [done|congruence]. Qed.

Lemma chain_new t i r : chain (tset i (mqMetaEntry_new r) t) [(i, mqi_value r)].
Proof. simpl. by rewrite tget_tset_eq. Qed.

(** The entry in the middle of a queue. *)
Lemma chain_at t before i v l :
  chain t (before ++ (i, v) :: l) ->
  mme_valid (t.[i]) = true /\ mme_value (t.[i]) = v /\
  match l with [] => mme_isTail (t.[i]) = true | (j, _) :: _ => mme_isTail (t.[i]) = false /\ mme_next (t.[i]) = j end.
Proof.
  induction before as [|[j w] before IH]; [simpl; tauto|]. intros (_ & _ & _ & Hc). by apply IH.
Qed.

(** An entry is appended: the last one is linked to it, and it is written. *)
Lemma chain_snoc t l i v j w m :
  chain t (l ++ [(i, v)]) -> NoDup (map fst (l ++ [(i, v)])) -> j ∉ map fst (l ++ [(i, v)]) ->
  mme_valid m = true -> mme_value m = w -> mme_isTail m = true ->
  chain (tset j m (meta_apply (mqMetaReq_append i j) t)) ((l ++ [(i, v)]) ++ [(j, w)]).
Proof.
  intros Hc Hn Hj H1 H2 H3. unfold meta_apply. cbn [mmr_write mmr_append mmr_idx mmr_entry mqMetaReq_append].
  induction l as [|[a b] l IH].
  - simpl in *. destruct Hc as (Hv & Hval & Ht & _).
    rewrite tget_tset_ne, !tget_tset_eq by set_solver. by split_and!.
  - simpl in Hc, Hn, Hj. apply list.NoDup_cons in Hn as [Ha Hn]. destruct Hc as (Hv & Hval & Hl & Hc).
    apply not_elem_of_cons in Hj as [Hja Hj]. specialize (IH Hc Hn Hj).
    assert (i ∈ map fst (l ++ [(i, v)])) as Hi by (rewrite map_app; apply elem_of_app; right; by left).
    assert (a <> i) as Hai by (by intros ->).
    change (((a, b) :: l) ++ [(i, v)]) with ((a, b) :: (l ++ [(i, v)])). simpl.
    rewrite !tget_tset_ne by congruence. split_and!; try done. by destruct l as [|[]].
Qed.
Lemma ends_set k k' p (t : table mqPointerEntry) l : (k' = k -> ends p l) -> (k' <> k -> ends (t.[k']) l) -> ends ((tset k p t).[k']) l.
Proof.
  intros H1 H2. destruct (decide (k' = k)) as [->|Hne]; [rewrite tget_tset_eq; auto|rewrite tget_tset_ne; auto].
Qed.

(** *** An insertion and a removal keep tables and queues in step *)
Section Updates.
Variables (A : list (Z * (Z * T))) (key i : Z).

Section Ends.
Variable t : table mqPointerEntry.
Hypothesis Ht : forall k, ends (t.[k]) (of_key k A).

Lemma ends_insert_first v :
  mpe_valid (t.[key]) = false ->
  of_key key A = [] /\ forall k, ends ((tset key (mkMqPointerEntry i i true) t).[k]) (of_key k (A ++ [(key, (i, v))])).
Proof.
  intros Hv. assert (of_key key A = []) as Hq.
  { specialize (Ht key). destruct (of_key key A) as [|[]]; [done|]. destruct Ht as [? _]. congruence. }
  split; [done|]. intros k. rewrite of_key_snoc. apply ends_set; intros Hk.
  - subst k. rewrite Hq, Z.eqb_refl. cbn. split_and!; try done. by exists [], v.
  - destruct (Z.eqb_spec key k); [congruence|]. by rewrite app_nil_r.
Qed.

Lemma ends_insert_behind v :
  mpe_valid (t.[key]) = true ->
  (exists l v0, of_key key A = l ++ [(mpe_tail (t.[key]), v0)]) /\
  forall k, ends ((tset key (t.[key] <| mpe_tail := i |>) t).[k]) (of_key k (A ++ [(key, (i, v))])).
Proof.
  intros Hv. pose proof (Ht key) as Hk. destruct (of_key key A) as [|[j w] l] eqn:Hq; [simpl in Hk; congruence|].
  destruct Hk as (_ & Hh & l' & v0 & Hl). split; [by exists l', v0|].
  intros k. rewrite of_key_snoc. apply ends_set; intros Hk.
  - subst k. rewrite Hq, Z.eqb_refl. cbn. split_and!; try done. by exists ((j, w) :: l), v.
  - destruct (Z.eqb_spec key k); [congruence|]. by rewrite app_nil_r.
Qed.

Lemma ends_remove v l (m : mqMetaEntry T) :
  of_key key A = (i, v) :: l ->
  match l with [] => mme_isTail m = true | (j, _) :: _ => mme_isTail m = false /\ mme_next m = j end ->
  forall k, ends ((tset key (t.[key] <| mpe_valid := negb (mme_isTail m) |> <| mpe_head := mme_next m |>) t).[k])
    (of_key k (remove_first key A)).
Proof.
  intros Hq Hm k. pose proof (Ht key) as Hk. rewrite Hq in Hk. destruct Hk as (_ & Hh & l' & w & Hl).
  rewrite (of_key_remove _ _ _ _ _ Hq). apply ends_set; intros Hkk.
  - subst k. rewrite Z.eqb_refl. destruct l as [|[j x] l]; cbn; [by rewrite Hm|].
    destruct Hm as [-> ->]. split_and!; try done. destruct l' as [|y l']; [done|]. injection Hl as _ Hl. by exists l', w.
  - by destruct (Z.eqb_spec k key).
Qed.
End Ends.

Section Chains.
Variable t : table (mqMetaEntry T).
Hypothesis Ht : forall k, chain t (of_key k A).
Hypothesis new : forall k, i ∉ map fst (of_key k A).

Lemma chain_insert_first (r : mqInsertReq T) :
  of_key key A = [] ->
  forall k, chain (tset i (mqMetaEntry_new r) t) (of_key k (A ++ [(key, (i, mqi_value r))])).
Proof.
  intros Hq k. rewrite of_key_snoc. destruct (Z.eqb_spec key k) as [<-|Hne].
  - rewrite Hq. apply chain_new.
  - rewrite app_nil_r. by apply chain_set.
Qed.

Lemma chain_insert_behind (r : mqInsertReq T) l j v0 :
  NoDup (ids A) -> of_key key A = l ++ [(j, v0)] ->
  forall k, chain (tset i (mqMetaEntry_new r) (meta_apply (mqMetaReq_append j i) t))
    (of_key k (A ++ [(key, (i, mqi_value r))])).
Proof.
  intros Hnd Hq k. rewrite of_key_snoc. destruct (Z.eqb_spec key k) as [<-|Hne].
  - pose proof (of_key_nodup key A Hnd) as Hnk. specialize (new key). specialize (Ht key).
    rewrite Hq in *. by apply chain_snoc.
  - rewrite app_nil_r. apply chain_set; [done|]. apply chain_set; [|done].
    intros Hj. apply Hne. apply (of_key_disjoint _ _ A j Hnd); [|done].
    rewrite Hq, map_app. apply elem_of_app. right. by left.
Qed.
End Chains.

Lemma chain_remove t v l :
  (forall k, chain t (of_key k A)) -> of_key key A = (i, v) :: l ->
  forall k, chain t (of_key k (remove_first key A)).
Proof.
  intros Ht Hq k. rewrite (of_key_remove _ _ _ _ _ Hq). destruct (k =? key); [|done].
  specialize (Ht key). rewrite Hq in Ht. apply Ht.
Qed.
End Updates.
End Entries.

(** ** Messages under way *)
Section Messages.
Context {T : Type} `{ZeroInit T}.

Definition upd_apply (u : mqPointerUpdate) (t : table mqPointerEntry) : table mqPointerEntry :=
  tset (mpu_key u) (mpu_entry u) t.
Definition upd_all (U : list mqPointerUpdate) (t : table mqPointerEntry) : table mqPointerEntry :=
  fold_left (fun t u => upd_apply u t) U t.
Definition meta_all (M : list (mqMetaReq T)) (t : table (mqMetaEntry T)) : table (mqMetaEntry T) :=
  fold_left (fun t r => meta_apply r t) M t.

Definition is_write (r : mqMetaReq T) : Prop := mmr_write r = true \/ mmr_append r = true.

(** The lock is held only until the update that is on its way arrives. *)
Record unlocked (p : pt_env) : Prop := {
  ul_wait : mq_wait p = false;
  ul_upd : (length (pointerUpdFifo p) <= 1)%nat;
  ul_lock : mq_isLocked p = true -> exists u, pointerUpdFifo p = [u] /\ mpu_key u = mq_lockedKey p
}.

(** The table is asked for a key, or has answered. *)
Inductive asked (p : pt_env) (key : Z) (lock : bool) (rsp : stream mqPointerEntry) : Prop :=
| asked_req : pointerReqFifo p = [mkMqPointerReq key lock] -> rsp = [] -> unlocked p -> asked p key lock rsp
| asked_rsp : pointerReqFifo p = [] -> pointerUpdFifo p = [] -> mq_wait p = false ->
    rsp = [(ptr_table p).[key]] -> mq_isLocked p = lock -> (lock = true -> mq_lockedKey p = key) ->
    asked p key lock rsp.

(** The memory is asked for an entry, behind writes, or has answered. *)
Inductive reading (m : mt_env T) (idx : Z) (rsp : stream (mqMetaEntry T)) : Prop :=
| reading_req M : meta_upd_req m = M ++ [mqMetaReq_read idx] -> Forall is_write M -> rsp = [] -> reading m idx rsp
| reading_rsp : meta_upd_req m = [] -> rsp = [(meta_table m).[idx]] -> reading m idx rsp.

Lemma upd_all_app U V t : upd_all (U ++ V) t = upd_all V (upd_all U t).
Proof. apply fold_left_app. Qed.
Lemma meta_all_app M N t : meta_all (M ++ N) t = meta_all N (meta_all M t).
Proof. apply fold_left_app. Qed.

Lemma meta_all_write M t i (m : mqMetaEntry T) : meta_all (M ++ [mqMetaReq_write i m]) t = tset i m (meta_all M t).
Proof. by rewrite meta_all_app. Qed.


(** *** The table of the queues *)
Definition upd_pending (p : pt_env) : table mqPointerEntry := upd_all (pointerUpdFifo p) (ptr_table p).

Lemma pointer_update p u U :
  unlocked p -> pointerUpdFifo p = u :: U ->
  unlocked (mq_pointer_table p).1 /\ (mq_pointer_table p).2 = [] /\
  pointerReqFifo (mq_pointer_table p).1 = pointerReqFifo p /\ upd_pending (mq_pointer_table p).1 = upd_pending p.
Proof.
  intros [Hw Hl Hk] HU. destruct p as [t key locked wait req P U0]. cbn in *. subst U0.
  unfold mq_pointer_table. cbn in *. split_and!; try done. constructor; cbn; [done|lia|].
  intros Hlock. destruct (Z.eqb_spec key (mpu_key u)) as [E|E]; [done|].
  destruct (Hk Hlock) as (u' & [= <- _] & Hu). congruence.
Qed.

Lemma pointer_idle p :
  pointerReqFifo p = [] -> pointerUpdFifo p = [] -> mq_wait p = false -> mq_pointer_table p = (p, []).
Proof. intros H1 H2 H3. unfold mq_pointer_table. by rewrite H1, H2, H3. Qed.

Lemma pointer_unlocked p :
  unlocked p -> pointerReqFifo p = [] ->
  unlocked (mq_pointer_table p).1 /\ (mq_pointer_table p).2 = [] /\
  pointerReqFifo (mq_pointer_table p).1 = [] /\ upd_pending (mq_pointer_table p).1 = upd_pending p.
Proof.
  intros Hu HP. destruct (pointerUpdFifo p) as [|u U] eqn:HU.
  - rewrite pointer_idle by (done || apply Hu). done.
  - destruct (pointer_update p u U Hu HU) as (H1 & H2 & H3 & H4). by rewrite H3.
Qed.

Lemma pointer_asked p key lock rsp :
  asked p key lock rsp ->
  asked (mq_pointer_table p).1 key lock (rsp ++ (mq_pointer_table p).2) /\
  upd_pending (mq_pointer_table p).1 = upd_pending p.
Proof.
  intros [HP -> Hu|HP HU Hw -> Hl Hk].
  - destruct (pointerUpdFifo p) as [|u U] eqn:HU.
    + destruct Hu as [Hw _ Hk]. rewrite HU in Hk.
      assert (mq_isLocked p = false) as Hl by (destruct (mq_isLocked p); [destruct (Hk eq_refl) as (? & ? & _)|]; done).
      destruct p as [t lk locked wait req P U0]. cbn in *. subst. unfold mq_pointer_table. cbn.
      rewrite andb_false_r. split; [|by destruct lock]. by destruct lock; apply asked_rsp.
    + destruct (pointer_update p u U Hu HU) as (H1 & -> & H3 & H4). split; [|done].
      apply asked_req; [by rewrite H3|done..].
  - rewrite pointer_idle by done. split; [|done]. rewrite app_nil_r. by apply asked_rsp.
Qed.

(** *** The memory of the entries *)
Lemma meta_call_all (m : mt_env T) :
  meta_all (meta_upd_req (mq_meta_table m).1) (meta_table (mq_meta_table m).1)
  = meta_all (meta_upd_req m) (meta_table m).
Proof. unfold mq_meta_table. by destruct m as [t [|req M]]. Qed.

Lemma meta_writes (m : mt_env T) :
  Forall is_write (meta_upd_req m) ->
  (mq_meta_table m).2 = [] /\ Forall is_write (meta_upd_req (mq_meta_table m).1).
Proof.
  unfold mq_meta_table. destruct m as [t [|req M]]; [done|]. cbn. intros [Hr HM]%Forall_cons_1. split; [|done].
  destruct Hr as [-> | ->]; [done|]. by rewrite andb_false_r.
Qed.

Lemma meta_reading (m : mt_env T) idx rsp :
  reading m idx rsp -> reading (mq_meta_table m).1 idx (rsp ++ (mq_meta_table m).2).
Proof.
  destruct m as [t M0]. unfold mq_meta_table. intros [M E HM -> | E ->]; cbn in E; subst M0; cbn; [|by apply reading_rsp].
  destruct M as [|req M]; cbn; [by apply reading_rsp|]. apply Forall_cons_1 in HM as [Hr HM].
  destruct Hr as [-> | ->]; rewrite ?andb_false_r; cbn; by eapply reading_req.
Qed.

(** The phases of the dialogue with the two tables. *)
Inductive ptr_phase := PtrIdle | PtrAsked (key : Z) (lock : bool) | PtrGranted (key : Z) | PtrRead.
Definition in_ptr_phase (ph : ptr_phase) (p : pt_env) (rsp : stream mqPointerEntry) : Prop :=
  match ph with
  | PtrIdle => pointerReqFifo p = [] /\ rsp = [] /\ unlocked p
  | PtrAsked key lock => asked p key lock rsp
  | PtrGranted key =>
      pointerReqFifo p = [] /\ rsp = [] /\ pointerUpdFifo p = [] /\ mq_wait p = false /\
      mq_isLocked p = true /\ mq_lockedKey p = key
  | PtrRead =>
      pointerReqFifo p = [] /\ rsp = [] /\ pointerUpdFifo p = [] /\ mq_wait p = false /\ mq_isLocked p = false
  end.

Lemma pointer_in_phase ph p rsp :
  in_ptr_phase ph p rsp ->
  in_ptr_phase ph (mq_pointer_table p).1 (rsp ++ (mq_pointer_table p).2) /\
  upd_pending (mq_pointer_table p).1 = upd_pending p.
Proof.
  destruct ph as [|key lock|key|]; cbn [in_ptr_phase].
  - intros (H1 & -> & H3). by destruct (pointer_unlocked p H3 H1) as (? & -> & ? & ?).
  - apply pointer_asked.
  - intros (H1 & -> & H3 & H4 & H5). by rewrite pointer_idle.
  - intros (H1 & -> & H3 & H4 & H5). by rewrite pointer_idle.
Qed.

Definition in_meta_phase (reads : option Z) (m : mt_env T) (rsp : stream (mqMetaEntry T)) : Prop :=
  match reads with Some idx => reading m idx rsp | None => rsp = [] /\ Forall is_write (meta_upd_req m) end.

Lemma meta_in_phase reads (m : mt_env T) rsp :
  in_meta_phase reads m rsp -> in_meta_phase reads (mq_meta_table m).1 (rsp ++ (mq_meta_table m).2).
Proof.
  destruct reads as [idx|]; cbn [in_meta_phase]; [apply meta_reading|].
  intros [-> HM]. by destruct (meta_writes m HM) as [-> ?].
Qed.
End Messages.
#[global] Arguments meta_all {T _} M t : simpl never.

Lemma no_cycle {X} (x : X) l : x :: l = l -> False.
Proof. intros Hl. apply (f_equal length) in Hl. simpl in Hl. lia. Qed.

Ltac cyclic :=
  match goal with
  | E : ?l = _ :: ?l |- _ => symmetry in E; by apply no_cycle in E
  | E : _ :: ?l = ?l |- _ => by apply no_cycle in E
  end.
