(* ===== verification/QueueRefinement.v ===== *)
(** * The queues in the shared memory are queues

    [multi_queue] (MultiQueue.v) implements one queue per key: the invariant of its
    reachable states relates the tables, and the messages that are on their way to
    them, to the contents of the queues. *)

From S2P Require Import Prelude MultiQueue.

Section Invariant.
Context {T : Type} `{ZeroInit T}.
Implicit Types (A : list (Z * (Z * T))) (e : mq_env (T := T)) (l : list (Z * T)).

(** ** The tables when the messages under way have arrived

    In [STATE_PUSH_2] the machine will write the new entry and the table entry of its
    queue whatever happens: the push counts as done. *)
Definition settled_ptr e : table mqPointerEntry :=
  let t := upd_all (pointerUpdFifo (mq_ptr e)) (ptr_table (mq_ptr e)) in
  match mq_state (mq_proc e) with
  | STATE_PUSH_2 => tset (mqi_key (mq_insert (mq_proc e))) (ptrMeta (mq_proc e)) t
  | _ => t
  end.
Definition settled_meta e : table (mqMetaEntry T) :=
  let t := meta_all (meta_upd_req (mq_meta e)) (meta_table (mq_meta e)) in
  match mq_state (mq_proc e) with
  | STATE_PUSH_2 => tset (newMetaIdx (mq_proc e)) (mqMetaEntry_new (mq_insert (mq_proc e))) t
  | _ => t
  end.

(** ** What is under way, state by state *)
Definition control e : Prop :=
  let p := mq_ptr e in
  let r := mq_proc e in
  let M := meta_upd_req (mq_meta e) in
  match mq_state r with
  | STATE_MAIN =>
      pointerReqFifo p = [] /\ pointerRspFifo r = [] /\ metaRspFifo r = [] /\ Forall is_write M /\ unlocked p
  | STATE_PUSH =>
      asked p (mqi_key (mq_insert r)) true (pointerRspFifo r) /\ metaRspFifo r = [] /\ Forall is_write M
  | STATE_PUSH_2 =>
      pointerReqFifo p = [] /\ pointerRspFifo r = [] /\ metaRspFifo r = [] /\ Forall is_write M /\
      pointerUpdFifo p = [] /\ mq_wait p = false /\ mq_isLocked p = true /\ mq_lockedKey p = mqi_key (mq_insert r)
  | STATE_POP =>
      asked p (mqp_key (popRequest r)) false (pointerRspFifo r) /\ metaRspFifo r = [] /\ Forall is_write M
  | STATE_POP_2 =>
      pointerReqFifo p = [] /\ pointerRspFifo r = [] /\ pointerUpdFifo p = [] /\ mq_wait p = false /\
      mq_isLocked p = false /\ ptrMeta r = (ptr_table p).[mqp_key (popRequest r)] /\ mpe_valid (ptrMeta r) = true /\
      reading (mq_meta e) (mpe_head (ptrMeta r)) (metaRspFifo r)
  end.

(** ** The invariant: [A] are the entries in use *)
Definition held e : list Z :=
  match mq_state (mq_proc e) with STATE_PUSH => [newMetaIdx (mq_proc e)] | _ => [] end.
Definition idle_ids e : list Z := freeListFifo (mq_proc e) ++ releaseFifo (mq_free e) ++ held e.

Record mq_inv (SIZE : Z) A e : Prop := {
  inv_count : 0 <= freeListCounter (mq_free e) <= SIZE;
  inv_own : forall i, occurrences i (idle_ids e ++ ids A)
                      = if (0 <=? i) && (i <? freeListCounter (mq_free e)) then 1%nat else 0%nat;
  inv_ends : forall k, ends (settled_ptr e).[k] (of_key k A);
  inv_chain : forall k, chain (settled_meta e) (of_key k A);
  inv_control : control e
}.

Lemma inv_nodup SIZE A e : mq_inv SIZE A e -> NoDup (idle_ids e ++ ids A).
Proof. intros [_ Ho _ _ _]. apply occurrences_nodup. intros i. rewrite Ho. case_match; lia. Qed.

Lemma inv_init SIZE : 0 <= SIZE -> mq_inv SIZE [] mq_init.
Proof.
  intros Hs. constructor; try done; simpl.
  - intros i. case_match; [lia|done].
  - split_and!; try done. constructor; cbn; [done|lia|done].
Qed.

(** ** The processes *)
Section Steps.
Variable SIZE : Z.
Hypothesis SIZE_range : 0 < SIZE < 2 ^ 16.

(** A call that changes neither what the tables will hold nor what is under way. *)
Lemma inv_same A e e' :
  mq_inv SIZE A e -> 0 <= freeListCounter (mq_free e') <= SIZE ->
  (forall i, occurrences i (idle_ids e' ++ ids A)
             = if (0 <=? i) && (i <? freeListCounter (mq_free e')) then 1%nat else 0%nat) ->
  (forall k, (settled_ptr e').[k] = (settled_ptr e).[k]) -> settled_meta e' = settled_meta e -> control e' ->
  mq_inv SIZE A e'.
Proof.
  intros [H1 H2 H3 H4 H5] Hc Ho Hp Hm Hk. constructor; try done.
  - intros k. by rewrite Hp.
  - intros k. by rewrite Hm.
Qed.

Lemma inv_freelist A e : mq_inv SIZE A e -> mq_inv SIZE A (mq_call SIZE P_freelist e).1.
Proof.
  intros Hi. pose proof Hi as [Hc Ho _ _ Hk]. destruct e as [p [counter rel] m r]. unfold mq_call, mq_freelist_handler.
  cbn [mq_free mq_proc releaseFifo freeListCounter] in *. destruct rel as [|idx rel]; cbn [releaseFifo freeListCounter] in *.
  - destruct (_ && _) eqn:Hlt; cbn -[wrap].
    + bool_prop. rewrite wrap_small by (unfold in_width; lia).
      apply (inv_same A _ _ Hi); try done; cbn; [lia|]. intros i. specialize (Ho i).
      unfold idle_ids, held in *. cbn in *. rewrite !occurrences_app in *. cbn in *.
      repeat case_match; bool_prop; lia.
    + apply (inv_same A _ _ Hi); try done; cbn. intros i. specialize (Ho i).
      unfold idle_ids, held in *. cbn in *. by rewrite app_nil_r.
  - apply (inv_same A _ _ Hi); try done; cbn. intros i. specialize (Ho i).
    unfold idle_ids, held in *. cbn in *. rewrite !occurrences_app in *. cbn in *. rewrite ?occurrences_app in *. cbn in *. lia.
Qed.
(** *** The tables *)
Lemma inv_pointer A e : mq_inv SIZE A e -> mq_inv SIZE A (mq_call SIZE P_pointer e).1.
Proof.
  intros Hi. pose proof Hi as [Hc Ho _ _ Hk]. destruct e as [p f m r]. unfold mq_call.
  cbn [mq_free mq_proc mq_ptr mq_meta] in *. destruct (mq_pointer_table p) as [p' w] eqn:Hp. cbn [fst].
  assert (control (mkMqEnv p' f m (r <| pointerRspFifo := pointerRspFifo r ++ w |>)) /\
          upd_pending p' = upd_pending p) as [Hk' Hu].
  { unfold control in *. cbn [mq_free mq_proc mq_ptr mq_meta] in *. destruct r as [st n i q pm pushes pops R N F].
    cbn in *. destruct st.
    - destruct Hk as (H1 & -> & H3 & H4 & H5). destruct (pointer_unlocked p H5 H1) as (U1 & U2 & U3 & U4).
      rewrite Hp in *. cbn in *. by subst w.
    - destruct Hk as (H1 & H2 & H3). destruct (pointer_asked _ _ _ _ H1) as (U1 & U2). rewrite Hp in *. done.
    - destruct Hk as (H1 & H2 & H3 & H4 & H5 & H6 & H7 & H8).
      rewrite pointer_idle in Hp by done. injection Hp as <- <-. by rewrite app_nil_r.
    - destruct Hk as (H1 & H2 & H3). destruct (pointer_asked _ _ _ _ H1) as (U1 & U2). rewrite Hp in *. done.
    - destruct Hk as (H1 & H2 & H3 & H4 & H5). rewrite pointer_idle in Hp by done. injection Hp as <- <-.
      by rewrite app_nil_r. }
  apply (inv_same A _ _ Hi); try done. intros k. unfold settled_ptr. cbn. fold (upd_pending p') (upd_pending p).
  by rewrite Hu.
Qed.

Lemma inv_meta A e : mq_inv SIZE A e -> mq_inv SIZE A (mq_call SIZE P_meta e).1.
Proof.
  intros Hi. pose proof Hi as [Hc Ho _ _ Hk]. destruct e as [p f m r]. unfold mq_call.
  cbn [mq_free mq_proc mq_ptr mq_meta] in *. pose proof (meta_call_all m) as Hall. pose proof (meta_writes m) as Hwr.
  destruct (mq_meta_table m) as [m' w] eqn:Hm. cbn [fst snd] in *.
  apply (inv_same A _ _ Hi); try done; [unfold settled_meta; cbn; by rewrite Hall|].
  unfold control in *. cbn [mq_free mq_proc mq_ptr mq_meta] in *. destruct r as [st n i q pm pushes pops R N F].
  cbn in *. destruct st.
  - destruct Hk as (H1 & H2 & -> & H4 & H5). by destruct (Hwr H4) as [-> ?].
  - destruct Hk as (H1 & -> & H3). by destruct (Hwr H3) as [-> ?].
  - destruct Hk as (H1 & H2 & -> & H4 & H5). by destruct (Hwr H4) as [-> ?].
  - destruct Hk as (H1 & -> & H3). by destruct (Hwr H3) as [-> ?].
  - destruct Hk as (H1 & H2 & H3 & H4 & H5 & H6 & H7 & Hm'). split_and!; try done.
    apply meta_reading in Hm'. by rewrite Hm in Hm'.
Qed.
(** *** The machine *)
Definition contents A : queues := fun k => map snd (of_key k A).

(** The requests that have been read and not yet carried out, and those that wait. *)
Definition open_pushes e : list (mqInsertReq T) :=
  match mq_state (mq_proc e) with STATE_PUSH => [mq_insert (mq_proc e)] | _ => [] end
  ++ multiQueue_push (mq_proc e).
Definition open_pops e : list mqPopReq :=
  match mq_state (mq_proc e) with STATE_POP | STATE_POP_2 => [popRequest (mq_proc e)] | _ => [] end
  ++ multiQueue_pop_req (mq_proc e).

(** A call carries out at most one request, as the queues prescribe. *)
Record served A e A' (w : list T) e' (ops : list (mq_op (T := T))) : Prop := {
  sv_inv : mq_inv SIZE A' e';
  sv_spec : forall q, (forall k, q k = contents A k) ->
    (mq_specs ops q).2 = w /\ forall k, (mq_specs ops q).1 k = contents A' k;
  sv_pushes : open_pushes e = omap op_push ops ++ open_pushes e';
  sv_pops : open_pops e = omap op_pop ops ++ open_pops e'
}.

Lemma served_none A e e' :
  mq_inv SIZE A e' -> open_pushes e = open_pushes e' -> open_pops e = open_pops e' -> served A e A [] e' [].
Proof. by constructor. Qed.

Lemma contents_snoc A r i k :
  contents (A ++ [(mqi_key r, (i, mqi_value r))]) k
  = if k =? mqi_key r then contents A k ++ [mqi_value r] else contents A k.
Proof.
  unfold contents. rewrite of_key_snoc, map_app, (Z.eqb_sym k). by destruct (_ =? _); [|rewrite app_nil_r].
Qed.

Lemma spec_push A r i :
  forall q, (forall k, q k = contents A k) ->
  (mq_specs [Push r] q).2 = [] /\
  forall k, (mq_specs [Push r] q).1 k = contents (A ++ [(mqi_key r, (i, mqi_value r))]) k.
Proof. intros q Hq. split; [done|]. intros k. rewrite contents_snoc. simpl. by rewrite !Hq. Qed.

Lemma new_unused SIZE' A e i k : mq_inv SIZE' A e -> i ∈ idle_ids e -> i ∉ map fst (of_key k A).
Proof.
  intros Hi Hin Hk. apply inv_nodup in Hi. apply list.NoDup_app in Hi as (_ & Hd & _).
  apply (Hd i Hin). by apply (of_key_ids k).
Qed.

(** The entry that is held, and what the table has answered. *)
Lemma pushing A e ptr :
  mq_inv SIZE A e -> mq_state (mq_proc e) = STATE_PUSH -> pointerRspFifo (mq_proc e) = [ptr] ->
  (forall k, newMetaIdx (mq_proc e) ∉ map fst (of_key k A)) /\
  ptr = (settled_ptr e).[mqi_key (mq_insert (mq_proc e))] /\
  metaRspFifo (mq_proc e) = [] /\ Forall is_write (meta_upd_req (mq_meta e)) /\
  pointerReqFifo (mq_ptr e) = [] /\ pointerUpdFifo (mq_ptr e) = [] /\ mq_wait (mq_ptr e) = false /\
  mq_isLocked (mq_ptr e) = true /\ mq_lockedKey (mq_ptr e) = mqi_key (mq_insert (mq_proc e)).
Proof.
  intros Hi Hst HR. pose proof (inv_control _ _ _ Hi) as Hk. unfold control in Hk. rewrite Hst, HR in Hk.
  destruct Hk as ([|HP HU Hw HR' Hl Hkey] & HN & HM); [done|]. injection HR' as ->. specialize (Hkey eq_refl).
  split_and!; try done.
  - intros k. apply (new_unused SIZE A e); [done|]. unfold idle_ids, held. rewrite Hst, !elem_of_app. right; right. by left.
  - unfold settled_ptr. by rewrite Hst, HU.
Qed.

(** The entry that was held is in use. *)
Lemma own_push A e key v :
  mq_inv SIZE A e -> mq_state (mq_proc e) = STATE_PUSH ->
  forall i, occurrences i ((freeListFifo (mq_proc e) ++ releaseFifo (mq_free e) ++ [])
                           ++ ids (A ++ [(key, (newMetaIdx (mq_proc e), v))]))
            = if (0 <=? i) && (i <? freeListCounter (mq_free e)) then 1%nat else 0%nat.
Proof.
  intros Hi Hst i. rewrite <- (inv_own _ _ _ Hi i). unfold idle_ids, held, ids. rewrite Hst, map_app. cbn.
  rewrite !occurrences_app. cbn. lia.
Qed.

(** The first entry of a queue is pushed. *)
Lemma push_first A e ptr :
  mq_inv SIZE A e -> mq_state (mq_proc e) = STATE_PUSH -> pointerRspFifo (mq_proc e) = [ptr] ->
  mpe_valid ptr = false ->
  let r := mq_insert (mq_proc e) in
  served A e (A ++ [(mqi_key r, (newMetaIdx (mq_proc e), mqi_value r))]) (mq_call SIZE P_requests e).2
    (mq_call SIZE P_requests e).1 [Push r].
Proof.
  intros Hi Hst HR Hv r. destruct (pushing A e ptr Hi Hst HR) as (Hn & Hptr & HN & HM & HP & HU & Hw & Hl & Hkey).
  rewrite Hptr in Hv. destruct (ends_insert_first A (mqi_key r) (newMetaIdx (mq_proc e)) (settled_ptr e) (inv_ends _ _ _ Hi)
    (mqi_value r) Hv) as [Hq He].
  pose proof (chain_insert_first A (mqi_key r) _ (settled_meta e) (inv_chain _ _ _ Hi) Hn r Hq) as Hch.
  pose proof (own_push A e (mqi_key r) (mqi_value r) Hi Hst) as Ho. pose proof (inv_count _ _ _ Hi) as Hc.
  destruct e as [p f m [st n ins q pm pushes pops R N F]]. unfold settled_ptr, settled_meta in *. cbn in *.
  rewrite HU in *. subst st R N r ptr. unfold mq_call, mq_process_requests. cbn in *. rewrite Hv. cbn.
  constructor; [|by apply spec_push|done|done].
  constructor; [done|done| | |]; unfold settled_ptr, settled_meta, control; cbn; rewrite ?HU.
  - done.
  - intros k. by rewrite meta_all_write.
  - split_and!; try done; [apply Forall_app_2; [done|]; apply Forall_singleton; by left|].
    constructor; cbn; [done|rewrite ?HU; cbn; lia|]. intros _. rewrite ?HU. cbn. by eexists.
Qed.

(** An entry is pushed behind others. *)
Lemma push_behind A e ptr :
  mq_inv SIZE A e -> mq_state (mq_proc e) = STATE_PUSH -> pointerRspFifo (mq_proc e) = [ptr] ->
  mpe_valid ptr = true ->
  let r := mq_insert (mq_proc e) in
  served A e (A ++ [(mqi_key r, (newMetaIdx (mq_proc e), mqi_value r))]) (mq_call SIZE P_requests e).2
    (mq_call SIZE P_requests e).1 [Push r].
Proof.
  intros Hi Hst HR Hv r. destruct (pushing A e ptr Hi Hst HR) as (Hn & Hptr & HN & HM & HP & HU & Hw & Hl & Hkey).
  rewrite Hptr in Hv. destruct (ends_insert_behind A (mqi_key r) (newMetaIdx (mq_proc e)) (settled_ptr e) (inv_ends _ _ _ Hi)
    (mqi_value r) Hv) as [(l & v0 & Hq) He].
  pose proof (inv_nodup SIZE A e Hi) as Hnd. apply list.NoDup_app in Hnd as (_ & _ & Hnd).
  pose proof (chain_insert_behind A (mqi_key r) _ (settled_meta e) (inv_chain _ _ _ Hi) Hn r l _ v0 Hnd Hq) as Hch.
  pose proof (own_push A e (mqi_key r) (mqi_value r) Hi Hst) as Ho. pose proof (inv_count _ _ _ Hi) as Hc.
  destruct e as [p f m [st n ins q pm pushes pops R N F]]. unfold settled_ptr, settled_meta in *. cbn in *.
  rewrite HU in *. subst st R N r ptr. unfold mq_call, mq_process_requests. cbn in *. rewrite Hv in He |- *. cbn.
  constructor; [|by apply spec_push|done|done].
  constructor; [done|done| | |]; unfold settled_ptr, settled_meta, control; cbn; rewrite ?HU.
  - done.
  - intros k. rewrite meta_all_app. apply Hch.
  - split_and!; try done. apply Forall_app_2; [done|]. apply Forall_singleton. by right.
Qed.

Lemma finish_push A e :
  mq_inv SIZE A e -> mq_state (mq_proc e) = STATE_PUSH_2 ->
  served A e A (mq_call SIZE P_requests e).2 (mq_call SIZE P_requests e).1 [].
Proof.
  intros Hi Hst. pose proof Hi as [Hc Ho He Hch Hk]. unfold control in Hk. rewrite Hst in Hk.
  destruct Hk as (HP & HR & HN & HM & HU & Hw & Hl & Hkey).
  destruct e as [p f m [st n ins q pm pushes pops R N F]]. cbn in *. subst st R N.
  unfold mq_call, mq_process_requests. cbn. apply served_none; [|done..].
  apply (inv_same A _ _ Hi); try done.
  - intros k. unfold settled_ptr. cbn. by rewrite HU.
  - unfold settled_meta. cbn. apply meta_all_write.
  - unfold control. cbn. split_and!; try done; [apply Forall_app_2; [done|]; apply Forall_singleton; by left|].
    constructor; cbn; [done|rewrite HU; cbn; lia|]. intros _. rewrite HU. cbn. by eexists.
Qed.

(** Asking for the front of a queue. *)
Lemma pop_ask A e ptr :
  mq_inv SIZE A e -> mq_state (mq_proc e) = STATE_POP -> pointerRspFifo (mq_proc e) = [ptr] ->
  exists ops, served A e A (mq_call SIZE P_requests e).2 (mq_call SIZE P_requests e).1 ops.
Proof.
  intros Hi Hst HR. pose proof Hi as [Hc Ho He Hch Hk].
  unfold control in Hk. rewrite Hst, HR in Hk. destruct Hk as ([|HP HU Hw HR' Hl _] & HN & HM); [done|].
  injection HR' as ->. specialize (He (mqp_key (popRequest (mq_proc e)))). unfold settled_ptr in He.
  rewrite Hst, HU in He. cbn in He.
  destruct e as [p f m [st n ins q pm pushes pops R N F]]. cbn in *. subst st R N.
  unfold mq_call, mq_process_requests. cbn. destruct (mpe_valid _) eqn:Hv; cbn.
  - exists []. apply served_none; [|done..]. apply (inv_same A _ _ Hi); try done.
    + unfold settled_meta. cbn. by rewrite meta_all_app.
    + unfold control. cbn. split_and!; try done. by eapply reading_req.
  - exists [PopFront q]. constructor; [|intros qs Hq|done|done].
    + apply (inv_same A _ _ Hi); try done. unfold control. cbn. split_and!; try done.
      constructor; [done|rewrite HU; cbn; lia|congruence].
    + assert (qs (mqp_key q) = []) as E.
      { rewrite Hq. unfold contents. destruct (of_key _ A) as [|[]]; [done|]. destruct He as [He _]. congruence. }
      simpl. by rewrite E.
Qed.

(** The front of a queue is read, and removed. *)
Lemma pop_front A e meta :
  mq_inv SIZE A e -> mq_state (mq_proc e) = STATE_POP_2 -> metaRspFifo (mq_proc e) = [meta] ->
  exists A' ops, served A e A' (mq_call SIZE P_requests e).2 (mq_call SIZE P_requests e).1 ops.
Proof.
  intros Hi Hst HN. pose proof Hi as [Hc Ho He Hch Hk].
  unfold control in Hk. rewrite Hst, HN in Hk. destruct Hk as (HP & HR & HU & Hw & Hl & Hpm & Hv & Hm).
  destruct Hm as [|HM HN']; [done|]. injection HN' as ->.
  set (key := mqp_key (popRequest (mq_proc e))) in *. pose proof (He key) as Hek. pose proof (Hch key) as Hck.
  unfold settled_ptr in Hek. unfold settled_meta in Hck. rewrite Hst, HU in Hek. rewrite Hst, HM in Hck. cbn in Hek. unfold meta_all in Hck. cbn in Hck.
  rewrite <- Hpm in Hek. destruct (of_key key A) as [|[i v] l] eqn:Hq; [simpl in Hek; congruence|].
  destruct Hek as (_ & Hh & l' & w & Hlast). destruct Hck as (Hmv & Hval & Hnext & Hck).
  destruct e as [p f m [st n ins q pm pushes pops R N F]]. cbn in *. subst st R N key i.
  unfold mq_call, mq_process_requests. cbn. rewrite Hmv. destruct (mqp_op q) eqn:Hop; cbn.
  - exists (remove_first (mqp_key q) A), [PopFront q]. constructor; [|intros qs Hqs|done|done].
    + constructor; cbn; [done| | | |]; unfold settled_ptr, settled_meta, control; cbn; rewrite ?HU, ?HM.
      * intros j. specialize (Ho j). pose proof (ids_remove _ _ _ _ _ Hq j) as Hj. unfold idle_ids, held in *.
        cbn in *. rewrite !occurrences_app in *. cbn in *. lia.
      * subst pm. unfold settled_ptr in He. cbn in He. rewrite HU in He. exact (ends_remove A _ _ _ He v l _ Hq Hnext).
      * unfold settled_meta in Hch. cbn in Hch. rewrite HM in Hch. exact (chain_remove A _ _ _ v l Hch Hq).
      * split_and!; try done. constructor; cbn; [done|rewrite ?HU; cbn; lia|congruence].
    + assert (qs (mqp_key q) = v :: map snd l) as E by (rewrite Hqs; unfold contents; by rewrite Hq).
      simpl. rewrite E, Hop. split; [by rewrite Hval|]. intros k. simpl. unfold contents. rewrite (of_key_remove _ _ _ _ _ Hq). destruct (k =? _); [done|apply Hqs].
  - exists A, [PopFront q]. constructor; [|intros qs Hqs|done|done].
    + apply (inv_same A _ _ Hi); try done. unfold control. cbn. rewrite HM. split_and!; try done.
      constructor; [done|rewrite HU; cbn; lia|congruence].
    + assert (qs (mqp_key q) = v :: map snd l) as E by (rewrite Hqs; unfold contents; by rewrite Hq).
      simpl. rewrite E, Hop. by rewrite Hval.
Qed.
(** A request is read. *)
Lemma start_request A e :
  mq_inv SIZE A e -> mq_state (mq_proc e) = STATE_MAIN ->
  served A e A (mq_call SIZE P_requests e).2 (mq_call SIZE P_requests e).1 [].
Proof.
  intros Hi Hst. pose proof Hi as [Hc Ho _ _ Hk]. unfold control in Hk. rewrite Hst in Hk.
  destruct Hk as (HP & HR & HN & HM & Hu).
  destruct e as [p f m [st n ins q pm pushes pops R N F]]. cbn in *. subst st R N.
  assert (forall r reqs, pops = r :: reqs -> served A (mkMqEnv p f m (mkPrEnv STATE_MAIN n ins q pm pushes pops [] [] F)) A []
    (mkMqEnv (p <| pointerReqFifo := [mkMqPointerReq (mqp_key r) false] |>) f m
      (mkPrEnv STATE_POP n ins r pm pushes reqs [] [] F)) []) as Hpop.
  { intros r reqs ->. apply served_none; [|done..]. apply (inv_same A _ _ Hi); try done.
    unfold control. cbn. split_and!; try done. apply asked_req; [done..|]. by destruct Hu. }
  unfold mq_call, mq_process_requests. cbn.
  destruct pushes as [|r pushes]; [|destruct F as [|idx F]]; cycle 2.
  { cbn. rewrite HP. apply served_none; [|done..]. apply (inv_same A _ _ Hi); try done.
    - cbn. intros i. rewrite <- Ho. unfold idle_ids, held. cbn. rewrite !occurrences_app. cbn. lia.
    - unfold control. cbn. split_and!; try done. apply asked_req; [done..|]. by destruct Hu. }
  all: destruct pops as [|r' reqs]; cbn; [by apply served_none|]; rewrite HP; by apply Hpop.
Qed.

Lemma inv_requests A e :
  mq_inv SIZE A e ->
  exists A' ops, served A e A' (mq_call SIZE P_requests e).2 (mq_call SIZE P_requests e).1 ops.
Proof.
  intros Hi. pose proof (inv_control _ _ _ Hi) as Hk. unfold control in Hk.
  assert ((mq_call SIZE P_requests e) = (e, []) -> 
    exists A' ops, served A e A' (mq_call SIZE P_requests e).2 (mq_call SIZE P_requests e).1 ops) as Hidle.
  { intros ->. exists A, []. by apply served_none. }
  destruct (mq_state (mq_proc e)) eqn:Hst.
  - exists A, []. by apply start_request.
  - destruct Hk as ([_ HR _|_ _ _ HR _ _] & _).
    + apply Hidle. destruct e as [p f m []]. cbn in *. unfold mq_call, mq_process_requests. cbn. by rewrite Hst, HR.
    + destruct (mpe_valid ((ptr_table (mq_ptr e)).[mqi_key (mq_insert (mq_proc e))])) eqn:Hv.
      * eexists _, _. by eapply push_behind.
      * eexists _, _. by eapply push_first.
  - exists A, []. by apply finish_push.
  - destruct Hk as ([_ HR _|_ _ _ HR _ _] & _).
    + apply Hidle. destruct e as [p f m []]. cbn in *. unfold mq_call, mq_process_requests. cbn. by rewrite Hst, HR.
    + exists A. by eapply pop_ask.
  - destruct Hk as (_ & _ & _ & _ & _ & _ & _ & [? _ _ HN|_ HN]).
    + apply Hidle. destruct e as [p f m []]. cbn in *. unfold mq_call, mq_process_requests. cbn. by rewrite Hst, HN.
    + by eapply pop_front.
Qed.

(** ** Runs *)
Definition arrived_push (ev : mq_event (T := T)) : list (mqInsertReq T) := mq_pushes [ev].
Definition arrived_pop (ev : mq_event (T := T)) : list mqPopReq := mq_pops [ev].

Lemma inv_arrival A e r :
  mq_inv SIZE A e ->
  mq_inv SIZE A (mq_step SIZE (E_push r) e).1.
Proof. intros Hi. pose proof Hi as [? ? _ _ Hk]. by apply (inv_same A _ _ Hi). Qed.

Lemma inv_arrival_pop A e r : mq_inv SIZE A e -> mq_inv SIZE A (mq_step SIZE (E_pop r) e).1.
Proof. intros Hi. pose proof Hi as [? ? _ _ Hk]. by apply (inv_same A _ _ Hi). Qed.

Lemma specs_app (ops1 ops2 : list (mq_op (T := T))) q :
  mq_specs (ops1 ++ ops2) q =
    ((mq_specs ops2 (mq_specs ops1 q).1).1, (mq_specs ops1 q).2 ++ (mq_specs ops2 (mq_specs ops1 q).1).2).
Proof.
  revert q. induction ops1 as [|op ops1 IH]; intros q; [simpl; by destruct (mq_specs ops2 q)|].
  simpl. destruct (mq_spec op q) as [q1 w1]. rewrite IH. destruct (mq_specs ops1 q1) as [q2 w2]. simpl.
  by rewrite app_assoc.
Qed.

Lemma step_served A e ev :
  mq_inv SIZE A e ->
  exists A' ops, mq_inv SIZE A' (mq_step SIZE ev e).1 /\
    (forall q, (forall k, q k = contents A k) ->
      (mq_specs ops q).2 = (mq_step SIZE ev e).2 /\ forall k, (mq_specs ops q).1 k = contents A' k) /\
    open_pushes e ++ mq_pushes [ev] = omap op_push ops ++ open_pushes (mq_step SIZE ev e).1 /\
    open_pops e ++ mq_pops [ev] = omap op_pop ops ++ open_pops (mq_step SIZE ev e).1.
Proof.
  intros Hi. destruct ev as [r|r|p].
  - exists A, []. split_and!; [by apply inv_arrival|done|..]; unfold open_pushes, open_pops; cbn;
      by rewrite ?app_nil_r, ?app_assoc.
  - exists A, []. split_and!; [by apply inv_arrival_pop|done|..]; unfold open_pushes, open_pops; cbn;
      by rewrite ?app_nil_r, ?app_assoc.
  - rewrite !app_nil_r. destruct p.
    + exists A, []. pose proof (inv_freelist A e Hi) as H1. cbn -[mq_call] in *.
      split_and!; try done; unfold mq_call; by destruct (mq_freelist_handler _ _ _).
    + exists A, []. pose proof (inv_pointer A e Hi) as H1. cbn -[mq_call] in *.
      split_and!; try done; unfold mq_call; by destruct (mq_pointer_table _).
    + exists A, []. pose proof (inv_meta A e Hi) as H1. cbn -[mq_call] in *.
      split_and!; try done; unfold mq_call; by destruct (mq_meta_table _).
    + destruct (inv_requests A e Hi) as (A' & ops & [H1 H2 H3 H4]). exists A', ops. by split_and!.
Qed.

Lemma run_served s A e q :
  mq_inv SIZE A e -> (forall k, q k = contents A k) ->
  exists A' ops, mq_inv SIZE A' (mq_run SIZE s e).1 /\
    (mq_specs ops q).2 = (mq_run SIZE s e).2 /\ (forall k, (mq_specs ops q).1 k = contents A' k) /\
    open_pushes e ++ mq_pushes s = omap op_push ops ++ open_pushes (mq_run SIZE s e).1 /\
    open_pops e ++ mq_pops s = omap op_pop ops ++ open_pops (mq_run SIZE s e).1.
Proof.
  revert A e q. induction s as [|ev s IH]; intros A e q Hi Hq.
  - exists A, []. split_and!; try done; unfold mq_pushes, mq_pops; by rewrite app_nil_r.
  - destruct (step_served A e ev Hi) as (A1 & ops1 & Hi1 & Hs1 & Hp1 & Ho1). destruct (Hs1 q Hq) as [Hw1 Hq1].
    destruct (IH A1 _ _ Hi1 Hq1) as (A2 & ops2 & Hi2 & Hw2 & Hq2 & Hp2 & Ho2).
    exists A2, (ops1 ++ ops2). rewrite specs_app. simpl mq_run. destruct (mq_step SIZE ev e) as [e1 w1].
    cbn [fst snd] in *. destruct (mq_run SIZE s e1) as [e2 w2]. cbn [fst snd] in *.
    assert (mq_pushes (ev :: s) = mq_pushes [ev] ++ mq_pushes s) as -> by apply (omap_app _ [ev] s).
    assert (mq_pops (ev :: s) = mq_pops [ev] ++ mq_pops s) as -> by apply (omap_app _ [ev] s).
    split_and!; try done.
    + by rewrite Hw1, Hw2.
    + by rewrite app_assoc, Hp1, omap_app, <- app_assoc, Hp2, app_assoc.
    + by rewrite app_assoc, Ho1, omap_app, <- app_assoc, Ho2, app_assoc.
Qed.

(** ** Progress

    Every call of a process that changes anything uses up some of what is left to do. *)
Definition state_work (st : mq_stateType) : nat :=
  match st with STATE_MAIN => 0 | STATE_PUSH => 7 | STATE_PUSH_2 => 4 | STATE_POP => 7 | STATE_POP_2 => 3 end.
Definition work e : nat :=
  let r := mq_proc e in
  let p := mq_ptr e in
  (12 * (length (multiQueue_push r) + length (multiQueue_pop_req r)) + state_work (mq_state r)
   + length (releaseFifo (mq_free e)) + Z.to_nat (SIZE - freeListCounter (mq_free e))
   + 3 * length (pointerReqFifo p) + (if mq_wait p then 2 else 0) + length (pointerUpdFifo p)
   + length (pointerRspFifo r) + 2 * length (meta_upd_req (mq_meta e)) + length (metaRspFifo r))%nat.

Lemma work_decreases p e :
  0 <= freeListCounter (mq_free e) -> mq_call SIZE p e = (e, []) \/ (work (mq_call SIZE p e).1 < work e)%nat.
Proof.
  intros Hc. destruct e as [[t key locked wait req P U] [counter rel] [mt M] [st n ins q pm pushes pops R N F]].
  cbn in Hc. unfold mq_call, work. cbn [mq_free mq_proc mq_ptr mq_meta]. destruct p.
  - unfold mq_freelist_handler. cbn. destruct rel as [|idx rel]; cbn; [|right; lia].
    destruct (_ && _) eqn:Hlt; cbn -[wrap]; [|left; by rewrite app_nil_r]. right. bool_prop.
    rewrite wrap_small by (unfold in_width; lia). lia.
  - unfold mq_pointer_table. cbn. destruct U as [|u U]; cbn; [|right; rewrite length_app; cbn; lia].
    destruct P as [|r P]; cbn.
    + destruct wait, locked; cbn; rewrite ?app_nil_r, ?length_app; cbn; auto; right; lia.
    + destruct wait; cbn; [destruct locked; cbn; rewrite ?app_nil_r, ?length_app; cbn; auto; right; lia|].
      destruct (mpr_lock r), locked; cbn; right; rewrite ?app_nil_r, ?length_app; cbn; lia.
  - unfold mq_meta_table. cbn. destruct M as [|r M]; cbn; [left; by rewrite app_nil_r|].
    right. rewrite length_app. destruct (_ && _); cbn; lia.
  - unfold mq_process_requests. cbn. destruct st; cbn.
    + destruct pushes, F, pops; cbn; auto; right; rewrite ?length_app; cbn; lia.
    + destruct R as [|ptr R]; [by left|]. destruct (mpe_valid ptr); cbn; right; rewrite ?length_app; cbn; lia.
    + right. rewrite ?length_app. cbn. lia.
    + destruct R as [|ptr R]; [by left|]. destruct (mpe_valid ptr); cbn; right; rewrite ?length_app; cbn; lia.
    + destruct N as [|m N]; [by left|]. destruct (mme_valid m); [destruct (mqp_op q)|]; cbn; right;
        rewrite ?length_app; cbn; lia.
Qed.

(** The processes are called in the order of the top level, round after round. *)
Definition round : list (mq_event (T := T)) := [E_call P_freelist; E_call P_pointer; E_call P_meta; E_call P_requests].
Fixpoint rounds (n : nat) : list (mq_event (T := T)) := match n with O => [] | S n => round ++ rounds n end.

Definition stuck e : Prop := forall p, mq_call SIZE p e = (e, []).

Lemma run_app s1 s2 e :
  mq_run SIZE (s1 ++ s2) e =
    ((mq_run SIZE s2 (mq_run SIZE s1 e).1).1, (mq_run SIZE s1 e).2 ++ (mq_run SIZE s2 (mq_run SIZE s1 e).1).2).
Proof.
  revert e. induction s1 as [|ev s1 IH]; intros e; [simpl; by destruct (mq_run SIZE s2 e)|].
  simpl. destruct (mq_step SIZE ev e) as [e1 w1]. rewrite IH. destruct (mq_run SIZE s1 e1) as [e2 w2]. simpl.
  by rewrite app_assoc.
Qed.

(** A call keeps the invariant, and with it the counter in its range. *)
Lemma call_inv A e p : mq_inv SIZE A e -> exists A', mq_inv SIZE A' (mq_call SIZE p e).1.
Proof. intros Hi. destruct (step_served A e (E_call p) Hi) as (A' & ops & H' & _). by exists A'. Qed.

Lemma round_work A e : mq_inv SIZE A e -> stuck e \/ (work (mq_run SIZE round e).1 < work e)%nat.
Proof.
  intros Hi. assert (forall (ps : list mq_process) A e, mq_inv SIZE A e ->
    (forall p, p ∈ ps -> mq_call SIZE p e = (e, [])) \/ (work (mq_run SIZE (map E_call ps) e).1 < work e)%nat) as Hl.
  { clear A e Hi. induction ps as [|p ps IH]; intros A e Hi; [left; intros p Hp; by apply elem_of_nil in Hp|].
    destruct (work_decreases p e (proj1 (inv_count _ _ _ Hi))) as [Hs|Hd].
    - destruct (IH A e Hi) as [H1|H1].
      + left. intros p' [->|Hp']%elem_of_cons; auto.
      + right. simpl. rewrite Hs. by destruct (mq_run SIZE (map E_call ps) e).
    - right. destruct (call_inv A e p Hi) as [A' Hi']. simpl. destruct (mq_call SIZE p e) as [e1 w1]. simpl in *.
      destruct (IH A' e1 Hi') as [H1|H1]; [|destruct (mq_run SIZE (map E_call ps) e1); simpl in *; lia].
      assert (mq_run SIZE (map E_call ps) e1 = (e1, [])) as ->; [|done].
      clear -H1. induction ps as [|p ps IH]; [done|]. simpl. rewrite H1 by by left.
      rewrite IH by (intros p' Hp'; apply H1; by right). done. }
  destruct (Hl [P_freelist; P_pointer; P_meta; P_requests] A e Hi) as [Hs|Hd]; [left|by right].
  intros []; apply Hs; set_solver.
Qed.

Lemma rounds_stuck A e : mq_inv SIZE A e -> exists n, (n <= work e)%nat /\ stuck (mq_run SIZE (rounds n) e).1.
Proof.
  remember (work e) as w eqn:Hw. revert A e Hw. induction w as [w IH] using lt_wf_ind. intros A e -> Hi.
  destruct (round_work A e Hi) as [Hs|Hd]; [exists O; split; [lia|done]|].
  destruct (run_served round A e (contents A) Hi ltac:(done)) as (A' & _ & Hi' & _).
  destruct (IH _ Hd A' _ eq_refl Hi') as (n & Hn & Hs). exists (S n). split; [lia|].
  change (rounds (S n)) with (round ++ rounds n). by rewrite run_app.
Qed.

Lemma length_ids A : length (ids A) = length A.
Proof. apply length_map. Qed.

Lemma full_ids A :
  (forall i, occurrences i (ids A) = if (0 <=? i) && (i <? SIZE) then 1%nat else 0%nat) ->
  length (ids A) = length (seqZ 0 SIZE).
Proof.
  intros Ho. apply Permutation_length, NoDup_Permutation.
  - apply occurrences_nodup. intros i. rewrite Ho. case_match; lia.
  - apply NoDup_seqZ.
  - intros i. by rewrite !occurrences_pos, Ho, occurrences_seqZ.
Qed.

Lemma inv_size A e : mq_inv SIZE A e -> Z.of_nat (length A) <= SIZE.
Proof.
  intros Hi. pose proof Hi as [Hc Ho _ _ _]. pose proof (inv_nodup SIZE A e Hi) as Hnd.
  apply list.NoDup_app in Hnd as (_ & _ & Hnd). rewrite <- length_ids.
  assert (ids A ⊆+ seqZ 0 SIZE) as Hsub.
  { apply NoDup_submseteq; [done|]. intros i Hi'%occurrences_pos. apply occurrences_pos. specialize (Ho i).
    rewrite occurrences_app in Ho. rewrite occurrences_seqZ. repeat case_match; bool_prop; lia. }
  apply submseteq_length in Hsub. rewrite length_seqZ in Hsub. lia.
Qed.

(** When nothing moves, every request has been carried out, unless the memory is full. *)
Lemma stuck_done A e :
  mq_inv SIZE A e -> stuck e -> open_pops e = [] /\ (open_pushes e = [] \/ length A = Z.to_nat SIZE).
Proof.
  intros Hi Hs. pose proof Hi as [Hc Ho _ _ Hk]. pose proof (inv_nodup SIZE A e Hi) as Hnd.
  pose proof (Hs P_freelist) as Sf. pose proof (Hs P_pointer) as Sp. pose proof (Hs P_meta) as Sm.
  pose proof (Hs P_requests) as Sr. clear Hs.
  destruct e as [[t key locked wait req P U] [counter rel] [mt M] [st n ins q pm pushes pops R N F]].
  unfold mq_call, mq_pointer_table, mq_meta_table, mq_freelist_handler in Sf, Sp, Sm. cbn in Sf, Sp, Sm, Hc, Hk.
  assert (M = []) as ->.
  { destruct M as [|r M]; [done|]. cbn in Sm. injection Sm; intros; cyclic. }
  assert (rel = [] /\ (F = [] -> counter = SIZE)) as [-> HF].
  { destruct rel as [|idx rel]; cbn in Sf; [|injection Sf; intros; cyclic].
    split; [done|]. intros ->. destruct (counter <? SIZE) eqn:Hlt; [|bool_prop; lia].
    unfold full in Sf. destruct (Z.to_nat SIZE) eqn:HS; [lia|]. cbn in Sf. injection Sf; intros; done. }
  assert (wait = false -> P = []) as HP.
  { intros ->. destruct U as [|u U]; cbn in Sp; [|injection Sp; intros; cyclic].
    destruct P as [|r P]; [done|]. cbn in Sp. destruct (mpr_lock r && locked); cbn in Sp; [done|].
    destruct (mpr_lock r); cbn in Sp; injection Sp; intros; cyclic. }
  unfold control in Hk. cbn in Hk. unfold open_pops, open_pushes. cbn.
  unfold mq_call, mq_process_requests in Sr. cbn in Sr. destruct st; cbn in Hk.
  - destruct Hk as (_ & _ & _ & _ & [Hw _ _]). cbn in Hw. specialize (HP Hw).
    destruct pops as [|r reqs].
    + split; [done|]. destruct pushes as [|r pushes]; [by left|]. right.
      destruct F as [|idx F]; [|done]. rewrite (HF eq_refl) in Ho.
      rewrite <- (length_ids A), (full_ids A) by (intros i; by rewrite Ho). apply length_seqZ.
    + exfalso. destruct pushes, F; cbn in Sr; done.
  - exfalso. destruct Hk as ([HP' _ [Hw _ _]|_ _ _ HR _ _] & _); cbn in *; [by rewrite HP in HP'|].
    rewrite HR in Sr. cbn in Sr. destruct (mpe_valid _); done.
  - done.
  - exfalso. destruct Hk as ([HP' _ [Hw _ _]|_ _ _ HR _ _] & _); cbn in *; [by rewrite HP in HP'|].
    rewrite HR in Sr. cbn in Sr. destruct (mpe_valid _); done.
  - exfalso. destruct Hk as (_ & _ & _ & _ & _ & _ & _ & [M' HM' _ _|_ HN]); [by destruct M'|].
    rewrite HN in Sr. cbn in Sr. destruct (mme_valid _); [destruct (mqp_op q)|]; done.
Qed.
End Steps.


End Invariant.

(** ** Two queues in a memory of two entries

    Values 10 and 11 for key 5, 20 for key 7; the third push waits until a pop has
    freed an entry. *)
Section QueueWitnesses.
Definition demo_queue_events : list (mq_event (T := Z)) :=
  [E_push (mkMqInsertReq 5 10); E_push (mkMqInsertReq 5 11)] ++ rounds 8 ++
  [E_push (mkMqInsertReq 7 20); E_pop (mkMqPopReq FRONT 5); E_pop (mkMqPopReq POP 5); E_pop (mkMqPopReq POP 7)].

Example demo_queue_answers : (mq_run 2 (demo_queue_events ++ rounds 12) mq_init).2 = [10; 10; 20].
Proof. by vm_compute. Qed.


End QueueWitnesses.
