(* ===== verification/Retransmitter.v ===== *)
(** * The retransmitter of the RDMA transport
      ([ib_transport_protocol/retransmitter/retransmitter.cpp])

    For every queue pair it keeps the requests that have been sent and not yet been
    acknowledged, linked in a memory that all queue pairs share, and sends them again
    when the receiver or a timer asks for it.  The tables and the handler of the free
    list are, line by line, those of [multi_queue] (MultiQueue.v), with [MAX_QPS]
    queues; the machine in front of them is another one. *)

From S2P Require Import Prelude MultiQueue.

(** ** Data ([retransmitter.hpp]) *)
Definition META_TABLE_SIZE : Z := 2000.

Record retransRelease := mkRetransRelease { rel_qpn : Z; latest_acked_req : Z }.
#[export] Instance zero_init_retransRelease : ZeroInit retransRelease := mkRetransRelease 0 0.
Record retransmission := mkRetransmission { rtm_qpn : Z; rtm_psn : Z }.
#[export] Instance zero_init_retransmission : ZeroInit retransmission := mkRetransmission 0 0.

(** What [retransEntry] and [retransMetaEntry] hold besides the queue pair and the
    links; [opCode] is the number of the [ibOpCode]. *)
Record retransRequest := mkRetransRequest {
  rq_psn : Z; rq_opCode : Z; rq_localAddr : Z; rq_remoteAddr : Z; rq_length : Z
}.
#[export] Instance zero_init_retransRequest : ZeroInit retransRequest := mkRetransRequest 0 0 0 0 0.
Definition retransEntry : Type := mqInsertReq retransRequest.
Definition retransMetaEntry : Type := mqMetaEntry retransRequest.

(** [retransEvent(op, qpn, laddr, raddr, len, psn)]: [validPsn] is true, [isNak] false. *)
Record retransEvent := mkRetransEvent { rev_qpn : Z; rev_request : retransRequest }.

(** ** [retrans_pointer_table], [retrans_meta_table], [freelist_handler] *)
Definition retrans_pointer_table : pt_env -> pt_env * list mqPointerEntry := mq_pointer_table.
Definition retrans_meta_table : mt_env retransRequest -> mt_env retransRequest * list retransMetaEntry := mq_meta_table.
Definition freelist_handler : bool -> fl_env -> fl_env * list Z := mq_freelist_handler META_TABLE_SIZE.

(** ** [process_retransmissions] *)
Inductive retransStateType :=
| MAIN | INSERT | INSERT_2 | RELEASE_0 | RELEASE_1 | RETRANS_0 | RETRANS_1 | RETRANS_2
| TIMER_RETRANS | TIMER_RETRANS_2.

Record rp_env := mkRpEnv {
  rt_state : retransStateType; rt_release : retransRelease; rt_curr : Z; rt_newMetaIdx : Z;
  rt_insert : retransEntry; rt_retrans : retransmission; rt_ptrMeta : mqPointerEntry;
  rx2retrans_release_upd : stream retransRelease; tx2retrans_insertRequest : stream retransEntry;
  rx2retrans_req : stream retransmission; timer2retrans_req : stream retransmission;
  rt_pointerRspFifo : stream mqPointerEntry; rt_metaRspFifo : stream retransMetaEntry;
  rt_freeListFifo : stream Z
}.
#[export] Instance eta_rp_env : Eta rp_env := fun e =>
  mkRpEnv (rt_state e) (rt_release e) (rt_curr e) (rt_newMetaIdx e) (rt_insert e) (rt_retrans e)
    (rt_ptrMeta e) (rx2retrans_release_upd e) (tx2retrans_insertRequest e) (rx2retrans_req e)
    (timer2retrans_req e) (rt_pointerRspFifo e) (rt_metaRspFifo e) (rt_freeListFifo e).

Inductive rp_write :=
| W_pointerReq (r : mqPointerReq) | W_pointerUpd (u : mqPointerUpdate)
| W_metaReq (r : mqMetaReq retransRequest) | W_releaseIdx (idx : Z) | W_retrans2event (ev : retransEvent).

Definition rp_init : rp_env :=
  mkRpEnv MAIN zero_init 0 0 zero_init zero_init zero_init [] [] [] [] [] [] [].

(** [MAIN]: releases come first, then insertions if there is a free entry, then the
    requests to send again.  [RETRANS_0] asks for the queue of the last release. *)
Definition rp_main (e : rp_env) : rp_env * list rp_write :=
  match rx2retrans_release_upd e, tx2retrans_insertRequest e, rt_freeListFifo e with
  | release :: rest, _, _ =>
      (e <| rx2retrans_release_upd := rest |> <| rt_release := release |> <| rt_state := RELEASE_0 |>,
       [W_pointerReq (mkMqPointerReq (rel_qpn release) true)])
  | [], insert :: rest, idx :: free =>
      (e <| rt_newMetaIdx := idx |> <| rt_freeListFifo := free |> <| rt_insert := insert |>
         <| tx2retrans_insertRequest := rest |> <| rt_state := INSERT |>,
       [W_pointerReq (mkMqPointerReq (mqi_key insert) true)])
  | [], _, _ =>
      match rx2retrans_req e, timer2retrans_req e with
      | retrans :: rest, _ =>
          (e <| rx2retrans_req := rest |> <| rt_retrans := retrans |> <| rt_state := RETRANS_0 |>,
           [W_pointerReq (mkMqPointerReq (rel_qpn (rt_release e)) false)])
      | [], retrans :: rest =>
          (e <| timer2retrans_req := rest |> <| rt_retrans := retrans |> <| rt_state := TIMER_RETRANS |>,
           [W_pointerReq (mkMqPointerReq (rtm_qpn retrans) false)])
      | [], [] => (e, [])
      end
  end.

Definition rp_insert (ptr : mqPointerEntry) (e : rp_env) : rp_env * list rp_write :=
  let new := rt_newMetaIdx e in
  if negb (mpe_valid ptr) then
    let ptr := mkMqPointerEntry new new true in
    (e <| rt_ptrMeta := ptr |> <| rt_state := MAIN |>,
     [W_metaReq (mqMetaReq_write new (mqMetaEntry_new (rt_insert e)));
      W_pointerUpd (mkMqPointerUpdate (mqi_key (rt_insert e)) ptr)])
  else
    (e <| rt_ptrMeta := ptr <| mpe_tail := new |> |> <| rt_state := INSERT_2 |>,
     [W_metaReq (mqMetaReq_append (mpe_tail ptr) new)]).

(** One entry of the queue is looked at: it is the one acknowledged, the last one, or
    the walk goes on.  [curr] is moved on before the entry is given back. *)
Definition rp_release (meta : retransMetaEntry) (e : rp_env) : rp_env * list rp_write :=
  let qpn := rel_qpn (rt_release e) in
  let '(e, w) :=
    if negb (mme_valid meta) || (rq_psn (mme_value meta) =? latest_acked_req (rt_release e)) then
      let ptr := rt_ptrMeta e <| mpe_head := mme_next meta |> <| mpe_valid := negb (mme_isTail meta) |> in
      (e <| rt_ptrMeta := ptr |> <| rt_state := MAIN |>, [W_pointerUpd (mkMqPointerUpdate qpn ptr)])
    else if mme_isTail meta then
      let ptr := rt_ptrMeta e <| mpe_valid := false |> <| mpe_head := rt_curr e |> in
      (e <| rt_ptrMeta := ptr |> <| rt_state := MAIN |> <| rt_curr := mme_next meta |>,
       [W_pointerUpd (mkMqPointerUpdate qpn ptr)])
    else (e <| rt_curr := mme_next meta |>, [W_metaReq (mqMetaReq_read (mme_next meta))]) in
  (e, w ++ when (mme_valid meta) [W_releaseIdx (rt_curr e)]).

(** The event of an entry, and the request for the one behind it. *)
Definition send_again (e : rp_env) (meta : retransMetaEntry) : rp_write :=
  W_retrans2event (mkRetransEvent (rtm_qpn (rt_retrans e)) (mme_value meta)).
Definition read_on (meta : retransMetaEntry) : list rp_write :=
  when (negb (mme_isTail meta)) [W_metaReq (mqMetaReq_read (mme_next meta))].

(** Looking for the sequence number, and sending everything from there on. *)
Definition rp_search (meta : retransMetaEntry) (e : rp_env) : rp_env * list rp_write :=
  if mme_valid meta then
    let found := rq_psn (mme_value meta) =? rtm_psn (rt_retrans e) in
    (e <| rt_state := if mme_isTail meta then MAIN else if found then RETRANS_2 else RETRANS_1 |>,
     read_on meta ++ when found [send_again e meta])
  else (e <| rt_state := MAIN |>, []).

Definition rp_resend (meta : retransMetaEntry) (e : rp_env) : rp_env * list rp_write :=
  if mme_valid meta then
    (e <| rt_state := if mme_isTail meta then MAIN else RETRANS_2 |>, read_on meta ++ [send_again e meta])
  else (e <| rt_state := MAIN |>, []).

(** The states that wait for the table of the queues, and for the memory. *)
Definition with_ptr (k : mqPointerEntry -> rp_env -> rp_env * list rp_write) (e : rp_env) : rp_env * list rp_write :=
  match rt_pointerRspFifo e with
  | ptr :: rest => k ptr (e <| rt_pointerRspFifo := rest |> <| rt_ptrMeta := ptr |>)
  | [] => (e, [])
  end.
Definition with_meta (k : retransMetaEntry -> rp_env -> rp_env * list rp_write) (e : rp_env) : rp_env * list rp_write :=
  match rt_metaRspFifo e with
  | meta :: rest => k meta (e <| rt_metaRspFifo := rest |>)
  | [] => (e, [])
  end.
Definition read_head (ptr : mqPointerEntry) : rp_write := W_metaReq (mqMetaReq_read (mpe_head ptr)).

Definition process_retransmissions (e : rp_env) : rp_env * list rp_write :=
  match rt_state e with
  | MAIN => rp_main e
  | INSERT => with_ptr rp_insert e
  | INSERT_2 =>
      (e <| rt_state := MAIN |>,
       [W_metaReq (mqMetaReq_write (rt_newMetaIdx e) (mqMetaEntry_new (rt_insert e)));
        W_pointerUpd (mkMqPointerUpdate (mqi_key (rt_insert e)) (rt_ptrMeta e))])
  | RELEASE_0 =>
      with_ptr (fun ptr e =>
        if mpe_valid ptr then (e <| rt_curr := mpe_head ptr |> <| rt_state := RELEASE_1 |>, [read_head ptr])
        else (e <| rt_state := MAIN |>, [W_pointerUpd (mkMqPointerUpdate (rel_qpn (rt_release e)) ptr)])) e
  | RELEASE_1 => with_meta rp_release e
  | RETRANS_0 =>
      with_ptr (fun ptr e =>
        if mpe_valid ptr then (e <| rt_curr := mpe_head ptr |> <| rt_state := RETRANS_1 |>, [read_head ptr])
        else (e <| rt_state := MAIN |>, [])) e
  | RETRANS_1 => with_meta rp_search e
  | RETRANS_2 => with_meta rp_resend e
  | TIMER_RETRANS =>
      with_ptr (fun ptr e =>
        if mpe_valid ptr then (e <| rt_state := TIMER_RETRANS_2 |>, [read_head ptr])
        else (e <| rt_state := MAIN |>, [])) e
  | TIMER_RETRANS_2 =>
      with_meta (fun meta e => (e <| rt_state := MAIN |>, when (mme_valid meta) [send_again e meta])) e
  end.

(** ** [retransmitter]: the four processes connected *)
Record rt_env := mkRtEnv { rt_ptr : pt_env; rt_free : fl_env; rt_meta : mt_env retransRequest; rt_proc : rp_env }.
#[export] Instance eta_rt_env : Eta rt_env := fun e => mkRtEnv (rt_ptr e) (rt_free e) (rt_meta e) (rt_proc e).
Definition rt_init : rt_env := mkRtEnv pt_init fl_init mt_init rp_init.

Definition rt_deliver (w : rp_write) (e : rt_env) : rt_env :=
  match w with
  | W_pointerReq r => e <| rt_ptr := rt_ptr e <| pointerReqFifo := pointerReqFifo (rt_ptr e) ++ [r] |> |>
  | W_pointerUpd u => e <| rt_ptr := rt_ptr e <| pointerUpdFifo := pointerUpdFifo (rt_ptr e) ++ [u] |> |>
  | W_metaReq r => e <| rt_meta := rt_meta e <| meta_upd_req := meta_upd_req (rt_meta e) ++ [r] |> |>
  | W_releaseIdx idx => e <| rt_free := rt_free e <| releaseFifo := releaseFifo (rt_free e) ++ [idx] |> |>
  | W_retrans2event _ => e
  end.
Definition event_of (w : rp_write) : option retransEvent := match w with W_retrans2event ev => Some ev | _ => None end.

Inductive rt_process := R_freelist | R_pointer | R_meta | R_requests.

Definition rt_call (p : rt_process) (e : rt_env) : rt_env * list retransEvent :=
  let proc := rt_proc e in
  match p with
  | R_freelist =>
      let '(f, w) := freelist_handler (full (Z.to_nat META_TABLE_SIZE) (rt_freeListFifo proc)) (rt_free e) in
      (e <| rt_free := f |> <| rt_proc := proc <| rt_freeListFifo := rt_freeListFifo proc ++ w |> |>, [])
  | R_pointer =>
      let '(t, w) := retrans_pointer_table (rt_ptr e) in
      (e <| rt_ptr := t |> <| rt_proc := proc <| rt_pointerRspFifo := rt_pointerRspFifo proc ++ w |> |>, [])
  | R_meta =>
      let '(t, w) := retrans_meta_table (rt_meta e) in
      (e <| rt_meta := t |> <| rt_proc := proc <| rt_metaRspFifo := rt_metaRspFifo proc ++ w |> |>, [])
  | R_requests =>
      let '(p, w) := process_retransmissions proc in
      (fold_left (fun e w => rt_deliver w e) w (e <| rt_proc := p |>), omap event_of w)
  end.

(** The request that a call of the machine reads. *)
Inductive rt_op :=
| OpRelease (r : retransRelease) | OpInsert (r : retransEntry) | OpRetrans (r : retransmission) | OpTimer (r : retransmission).
Definition rt_accepted (e : rp_env) : list rt_op :=
  match rt_state e with
  | MAIN =>
      match rx2retrans_release_upd e, tx2retrans_insertRequest e, rt_freeListFifo e with
      | r :: _, _, _ => [OpRelease r]
      | [], r :: _, _ :: _ => [OpInsert r]
      | [], _, _ =>
          match rx2retrans_req e, timer2retrans_req e with
          | r :: _, _ => [OpRetrans r]
          | [], r :: _ => [OpTimer r]
          | [], [] => []
          end
      end
  | _ => []
  end.

(** A run: requests arrive and processes are called, in any order; with the events and
    the requests that were read. *)
Inductive rt_event := E_arrive (op : rt_op) | E_rtcall (p : rt_process).

Definition rt_arrive (op : rt_op) (e : rt_env) : rt_env :=
  let r := rt_proc e in
  e <| rt_proc :=
    match op with
    | OpRelease x => r <| rx2retrans_release_upd := rx2retrans_release_upd r ++ [x] |>
    | OpInsert x => r <| tx2retrans_insertRequest := tx2retrans_insertRequest r ++ [x] |>
    | OpRetrans x => r <| rx2retrans_req := rx2retrans_req r ++ [x] |>
    | OpTimer x => r <| timer2retrans_req := timer2retrans_req r ++ [x] |>
    end |>.

Record rt_trace := mkRtTrace { tr_env : rt_env; tr_events : list retransEvent; tr_history : list rt_op }.
Definition rt_step (ev : rt_event) (t : rt_trace) : rt_trace :=
  match ev with
  | E_arrive op => mkRtTrace (rt_arrive op (tr_env t)) (tr_events t) (tr_history t)
  | E_rtcall p =>
      let '(e, w) := rt_call p (tr_env t) in
      mkRtTrace e (tr_events t ++ w)
        (tr_history t ++ match p with R_requests => rt_accepted (rt_proc (tr_env t)) | _ => [] end)
  end.
Definition rt_run (s : list rt_event) : rt_trace := fold_left (fun t ev => rt_step ev t) s (mkRtTrace rt_init [] []).

(** ** What it is for: the requests of every queue pair that are not acknowledged *)
Definition outstanding : Type := Z -> list retransRequest.

Fixpoint release_until (psn : Z) (l : list retransRequest) : list retransRequest :=
  match l with [] => [] | v :: r => if rq_psn v =? psn then r else release_until psn r end.
Fixpoint from_psn (psn : Z) (l : list retransRequest) : list retransRequest :=
  match l with [] => [] | v :: r => if rq_psn v =? psn then l else from_psn psn r end.

Definition rt_spec (op : rt_op) (q : outstanding) : outstanding * list retransEvent :=
  match op with
  | OpInsert r => (fun k => if k =? mqi_key r then q k ++ [mqi_value r] else q k, [])
  | OpRelease r => (fun k => if k =? rel_qpn r then release_until (latest_acked_req r) (q k) else q k, [])
  | OpRetrans r => (q, map (mkRetransEvent (rtm_qpn r)) (from_psn (rtm_psn r) (q (rtm_qpn r))))
  | OpTimer r => (q, match q (rtm_qpn r) with [] => [] | v :: _ => [mkRetransEvent (rtm_qpn r) v] end)
  end.

Fixpoint rt_specs (ops : list rt_op) (q : outstanding) : outstanding * list retransEvent :=
  match ops with
  | [] => (q, [])
  | op :: ops => let '(q1, w1) := rt_spec op q in let '(q2, w2) := rt_specs ops q1 in (q2, w1 ++ w2)
  end.

(** What the machine relies on: a release acknowledges the oldest request of its queue
    pair, and what the receiver asks for again belongs to the queue pair of the last
    release. *)
Definition relies_on (last : Z) (q : outstanding) (op : rt_op) : bool :=
  match op with
  | OpRelease r => match q (rel_qpn r) with [] => true | v :: _ => rq_psn v =? latest_acked_req r end
  | OpRetrans r => rtm_qpn r =? last
  | _ => true
  end.
Definition last_release (op : rt_op) (last : Z) : Z := match op with OpRelease r => rel_qpn r | _ => last end.
Fixpoint orderly (last : Z) (q : outstanding) (ops : list rt_op) : bool :=
  match ops with
  | [] => true
  | op :: ops => relies_on last q op && orderly (last_release op last) (rt_spec op q).1 ops
  end.

Definition op_release (op : rt_op) : option retransRelease := match op with OpRelease r => Some r | _ => None end.
Definition op_insert (op : rt_op) : option retransEntry := match op with OpInsert r => Some r | _ => None end.
Definition op_retrans (op : rt_op) : option retransmission := match op with OpRetrans r => Some r | _ => None end.
Definition op_timer (op : rt_op) : option retransmission := match op with OpTimer r => Some r | _ => None end.
Definition arrived (s : list rt_event) : list rt_op :=
  omap (fun ev => match ev with E_arrive op => Some op | _ => None end) s.
