(* ===== verification/RetransRefinement.v ===== *)
(** * What the retransmitter does, and when

    As long as every release acknowledges the oldest request of its queue pair, and the
    receiver asks again for requests of the queue pair of the last release, the
    retransmitter (Retransmitter.v) keeps the requests of every queue pair and sends
    exactly those it should.  Without the first it gives an entry of the memory back
    twice, without the second it looks in the wrong queue. *)

From S2P Require Import Prelude MultiQueue QueueRefinement Retransmitter.

Implicit Types (A : list (Z * (Z * retransRequest))) (e : rt_env) (r : rp_env).

(** ** The tables when the messages under way have arrived *)
Definition rt_settled_ptr e : table mqPointerEntry :=
  match rt_state (rt_proc e) with
  | INSERT_2 => tset (mqi_key (rt_insert (rt_proc e))) (rt_ptrMeta (rt_proc e)) (upd_pending (rt_ptr e))
  | _ => upd_pending (rt_ptr e)
  end.
Definition rt_settled_meta e : table retransMetaEntry :=
  let t := meta_all (meta_upd_req (rt_meta e)) (meta_table (rt_meta e)) in
  match rt_state (rt_proc e) with
  | INSERT_2 => tset (rt_newMetaIdx (rt_proc e)) (mqMetaEntry_new (rt_insert (rt_proc e))) t
  | _ => t
  end.

(** ** What is under way, state by state *)
Definition rt_ptr_phase r : ptr_phase :=
  match rt_state r with
  | MAIN => PtrIdle
  | INSERT => PtrAsked (mqi_key (rt_insert r)) true
  | INSERT_2 => PtrGranted (mqi_key (rt_insert r))
  | RELEASE_0 => PtrAsked (rel_qpn (rt_release r)) true
  | RELEASE_1 => PtrGranted (rel_qpn (rt_release r))
  | RETRANS_0 => PtrAsked (rel_qpn (rt_release r)) false
  | TIMER_RETRANS => PtrAsked (rtm_qpn (rt_retrans r)) false
  | RETRANS_1 | RETRANS_2 | TIMER_RETRANS_2 => PtrRead
  end.
(** [at_]: the entry that the machine waits for. *)
Definition rt_reads (at_ : Z) r : option Z :=
  match rt_state r with RELEASE_1 | RETRANS_1 | RETRANS_2 | TIMER_RETRANS_2 => Some at_ | _ => None end.

(** Where a walk over a queue is, and what it has already sent. *)
Record walk : Type := mkWalk { wk_at : Z; wk_sent : list retransRequest }.

Definition oldest_released A r : Prop :=
  match of_key (rel_qpn (rt_release r)) A with
  | [] => True
  | (_, v) :: _ => rq_psn v = latest_acked_req (rt_release r)
  end.

Definition walk_ok A (g : walk) r : Prop :=
  let q := of_key (rtm_qpn (rt_retrans r)) A in
  let wanted := from_psn (rtm_psn (rt_retrans r)) (map snd q) in
  match rt_state r with
  | RELEASE_0 => oldest_released A r
  | RELEASE_1 => oldest_released A r /\ ends (rt_ptrMeta r) (of_key (rel_qpn (rt_release r)) A) /\
      mpe_valid (rt_ptrMeta r) = true /\ rt_curr r = wk_at g /\ mpe_head (rt_ptrMeta r) = wk_at g
  | RETRANS_0 => rtm_qpn (rt_retrans r) = rel_qpn (rt_release r)
  | RETRANS_1 => exists before v l, q = before ++ (wk_at g, v) :: l /\
      wanted = from_psn (rtm_psn (rt_retrans r)) (v :: map snd l)
  | RETRANS_2 => exists before v l, q = before ++ (wk_at g, v) :: l /\ wanted = wk_sent g ++ v :: map snd l
  | TIMER_RETRANS_2 => exists v l, q = (wk_at g, v) :: l
  | _ => True
  end /\ (rt_state r <> RETRANS_2 -> wk_sent g = []).

Record rt_inv A (g : walk) e : Prop := {
  ri_count : 0 <= freeListCounter (rt_free e) <= META_TABLE_SIZE;
  ri_own : forall i, occurrences i ((rt_freeListFifo (rt_proc e) ++ releaseFifo (rt_free e)
      ++ match rt_state (rt_proc e) with INSERT => [rt_newMetaIdx (rt_proc e)] | _ => [] end) ++ ids A)
    = if (0 <=? i) && (i <? freeListCounter (rt_free e)) then 1%nat else 0%nat;
  ri_ends : forall k, ends (rt_settled_ptr e).[k] (of_key k A);
  ri_chain : forall k, chain (rt_settled_meta e) (of_key k A);
  ri_ptr : in_ptr_phase (rt_ptr_phase (rt_proc e)) (rt_ptr e) (rt_pointerRspFifo (rt_proc e));
  ri_meta : in_meta_phase (rt_reads (wk_at g) (rt_proc e)) (rt_meta e) (rt_metaRspFifo (rt_proc e));
  ri_walk : walk_ok A g (rt_proc e)
}.

Definition resting : walk := mkWalk 0 [].

Lemma rt_inv_init : rt_inv [] resting rt_init.
Proof.
  constructor; try done; cbn.
  - intros i. case_match; [lia|done].
  - split_and!; try done. constructor; cbn; try done; lia.
Qed.

(** ** The free list and the two tables *)
Lemma rt_inv_freelist A g e : rt_inv A g e -> rt_inv A g (rt_call R_freelist e).1.
Proof.
  intros [Hc Ho He Hch Hp Hm Hw]. destruct e as [p [counter rel] m [st re cu n ins ret pm q1 q2 q3 q4 R N F]].
  unfold rt_call, freelist_handler, mq_freelist_handler. cbn in *. destruct rel as [|idx rel]; cbn.
  - destruct (_ && _) eqn:Hlt; cbn -[wrap].
    + bool_prop. rewrite wrap_small by (unfold in_width, META_TABLE_SIZE in *; lia).
      constructor; try done; cbn; [unfold META_TABLE_SIZE in *; lia|]. intros i. specialize (Ho i).
      rewrite !occurrences_app in *. cbn in *. repeat case_match; bool_prop; lia.
    + constructor; try done; cbn. intros i. rewrite <- Ho. by rewrite app_nil_r.
  - constructor; try done; cbn. intros i. rewrite <- Ho. rewrite !occurrences_app. cbn. lia.
Qed.

Lemma rt_inv_pointer A g e : rt_inv A g e -> rt_inv A g (rt_call R_pointer e).1.
Proof.
  intros [Hc Ho He Hch Hp Hm Hw]. destruct (pointer_in_phase _ _ _ Hp) as [Hp' Hu].
  destruct e as [p f m r]. unfold rt_call, retrans_pointer_table in *. cbn [rt_ptr rt_free rt_meta rt_proc] in *.
  destruct (mq_pointer_table p) as [p' w]. cbn [fst snd] in *. constructor; try done.
  intros k. specialize (He k). unfold rt_settled_ptr in *. cbn in *. by rewrite Hu.
Qed.

Lemma rt_inv_meta A g e : rt_inv A g e -> rt_inv A g (rt_call R_meta e).1.
Proof.
  intros [Hc Ho He Hch Hp Hm Hw]. pose proof (meta_in_phase _ _ _ Hm) as Hm'.
  destruct e as [p f m r]. unfold rt_call, retrans_meta_table in *. cbn [rt_ptr rt_free rt_meta rt_proc] in *.
  pose proof (meta_call_all m) as Hall. destruct (mq_meta_table m) as [m' w]. cbn [fst snd] in *. constructor; try done.
  intros k. specialize (Hch k). unfold rt_settled_meta in *. cbn in *. by rewrite Hall.
Qed.

(** ** The machine *)
Definition inflight r : list rt_op :=
  match rt_state r with
  | MAIN | INSERT_2 => []
  | INSERT => [OpInsert (rt_insert r)]
  | RELEASE_0 | RELEASE_1 => [OpRelease (rt_release r)]
  | RETRANS_0 | RETRANS_1 | RETRANS_2 => [OpRetrans (rt_retrans r)]
  | TIMER_RETRANS | TIMER_RETRANS_2 => [OpTimer (rt_retrans r)]
  end.
Definition events_for r (l : list retransRequest) : list retransEvent := map (mkRetransEvent (rtm_qpn (rt_retrans r))) l.

(** A call finishes the request under way or goes on with it; what has been sent for
    the unfinished one is the beginning of what has to be. *)
Record advanced A (g : walk) e (w : list retransEvent) e' A' (g' : walk) (ops : list rt_op) : Prop := {
  av_inv : rt_inv A' g' e';
  av_spec : forall q, (forall k, q k = contents A k) ->
    events_for (rt_proc e) (wk_sent g) ++ w = (rt_specs ops q).2 ++ events_for (rt_proc e') (wk_sent g') /\
    forall k, (rt_specs ops q).1 k = contents A' k;
  av_history : inflight (rt_proc e) ++ rt_accepted (rt_proc e) = ops ++ inflight (rt_proc e')
}.

Definition relied A e : Prop :=
  Forall (fun op => relies_on (rel_qpn (rt_release (rt_proc e))) (contents A) op = true) (rt_accepted (rt_proc e)).

Abbreviation machine_call A g e A' g' ops := (advanced A g e (rt_call R_requests e).2 (rt_call R_requests e).1 A' g' ops).

(** A request is read. *)
Lemma read_request A g e :
  rt_inv A g e -> rt_state (rt_proc e) = MAIN -> relied A e -> machine_call A g e A resting [].
Proof.
  intros [Hc Ho He Hch Hp Hm [_ Hsent]] Hst Hr. unfold relied, rt_ptr_phase, rt_reads in *. rewrite Hst in *.
  destruct Hp as (HP & HR & Hu). cbn in Hm. destruct Hm as [HN HM].
  destruct e as [p f m [st re cu n ins ret pm q1 q2 q3 q4 R N F]]. cbn in *. subst st R N.
  assert (wk_sent g = []) as Hs by (by apply Hsent).
  assert (forall key lock, asked (p <| pointerReqFifo := [mkMqPointerReq key lock] |>) key lock []) as Hask.
  { intros key lock. apply asked_req; [done..|]. by destruct Hu. }
  unfold rt_call, process_retransmissions, rp_main. cbn.
  destruct q1 as [|x q1].
  1: destruct q2 as [|x q2]; [|destruct F as [|idx F]].
  3: { cbn. rewrite HP. constructor; [|by intros q Hq; rewrite Hs|done]. constructor; try done; try apply Hask.
    cbn. intros i. rewrite <- Ho. rewrite !occurrences_app. cbn. lia. }
  1-2: destruct q3 as [|x' q3]; [destruct q4 as [|x' q4]|]; cbn; rewrite ?HP;
    (constructor; [constructor; try done; try apply Hask|by intros q Hq; rewrite Hs|done]).
  - cbn. apply Forall_cons_1 in Hr as [Hr _]. cbn in Hr. unfold walk_ok. cbn. split; [lia|done].
  - cbn. apply Forall_cons_1 in Hr as [Hr _]. cbn in Hr. unfold walk_ok. cbn. split; [lia|done].
  - cbn. rewrite HP. constructor; [|by intros q Hq; rewrite Hs|done]. constructor; try done; try apply Hask.
    apply Forall_cons_1 in Hr as [Hr _]. cbn in Hr. unfold walk_ok, oldest_released. cbn. split; [|done].
    unfold contents in Hr. destruct (of_key _ A) as [|[i v] l]; [done|]. cbn in Hr. lia.
Qed.

(** Nothing has arrived that the machine waits for. *)
Lemma machine_waits A g e :
  rt_inv A g e -> rt_accepted (rt_proc e) = [] -> rt_call R_requests e = (e, []) -> machine_call A g e A g [].
Proof. intros Hi Ha ->. constructor; [done| |by rewrite Ha, app_nil_r]. intros q Hq. by rewrite app_nil_r. Qed.

(** *** Insertions *)
Lemma rt_unused A g e i :
  rt_inv A g e -> rt_state (rt_proc e) = INSERT -> i = rt_newMetaIdx (rt_proc e) ->
  NoDup (ids A) /\ forall k, i ∉ map fst (of_key k A).
Proof.
  intros Hi Hst ->. pose proof (ri_own _ _ _ Hi) as Ho. rewrite Hst in Ho.
  assert (NoDup ((rt_freeListFifo (rt_proc e) ++ releaseFifo (rt_free e) ++ [rt_newMetaIdx (rt_proc e)]) ++ ids A)) as Hnd.
  { apply occurrences_nodup. intros j. rewrite Ho. case_match; lia. }
  apply list.NoDup_app in Hnd as (_ & Hd & Hnd). split; [done|]. intros k Hk.
  apply (Hd (rt_newMetaIdx (rt_proc e))); [rewrite !elem_of_app; right; right; by left|]. by apply (of_key_ids k).
Qed.

Lemma spec_insert A (r : retransEntry) i :
  forall q, (forall k, q k = contents A k) ->
  forall k, (rt_spec (OpInsert r) q).1 k = contents (A ++ [(mqi_key r, (i, mqi_value r))]) k.
Proof. intros q Hq k. rewrite contents_snoc. simpl. by rewrite !Hq. Qed.

Lemma insert_entry A g e ptr R :
  rt_inv A g e -> rt_state (rt_proc e) = INSERT -> rt_pointerRspFifo (rt_proc e) = ptr :: R ->
  let r := rt_insert (rt_proc e) in
  machine_call A g e (A ++ [(mqi_key r, (rt_newMetaIdx (rt_proc e), mqi_value r))]) g [OpInsert r].
Proof.
  intros Hi Hst HR r. destruct (rt_unused A g e _ Hi Hst eq_refl) as [Hnd Hn].
  pose proof Hi as [Hc Ho He Hch Hp Hm [_ Hsent]]. assert (wk_sent g = []) as Hs by (apply Hsent; by rewrite Hst).
  unfold rt_ptr_phase, rt_reads in *. rewrite Hst, HR in *. destruct Hp as [|HP HU Hw HR' Hl Hkey]; [done|].
  injection HR' as -> ->. specialize (Hkey eq_refl). destruct Hm as [HN HM].
  assert (forall i, occurrences i ((rt_freeListFifo (rt_proc e) ++ releaseFifo (rt_free e) ++ [])
      ++ ids (A ++ [(mqi_key r, (rt_newMetaIdx (rt_proc e), mqi_value r))]))
    = if (0 <=? i) && (i <? freeListCounter (rt_free e)) then 1%nat else 0%nat) as Ho'.
  { intros i. rewrite <- Ho. unfold ids. rewrite map_app. cbn. rewrite !occurrences_app. cbn. lia. }
  assert (rt_settled_ptr e = ptr_table (rt_ptr e)) as Ep.
  { unfold rt_settled_ptr, upd_pending. by rewrite Hst, HU. }
  assert (rt_settled_meta e = meta_all (meta_upd_req (rt_meta e)) (meta_table (rt_meta e))) as Em.
  { unfold rt_settled_meta. by rewrite Hst. }
  rewrite Ep in He. rewrite Em in Hch.
  pose proof (ends_insert_first A (mqi_key r) (rt_newMetaIdx (rt_proc e)) _ He (mqi_value r)) as Hf.
  pose proof (ends_insert_behind A (mqi_key r) (rt_newMetaIdx (rt_proc e)) _ He (mqi_value r)) as Hb. clear Ep Em.
  destruct e as [p f m [st re cu n ins ret pm q1 q2 q3 q4 R N F]]. cbn in *. subst st R N r.
  unfold rt_call, process_retransmissions, with_ptr, rp_insert. cbn. destruct (mpe_valid _) eqn:Hv; cbn.
  - destruct (Hb eq_refl) as [(l & v0 & Hq) He'].
    constructor; [|intros q Hq'; split; [by rewrite Hs|by apply spec_insert]|done].
    constructor; try done; unfold rt_settled_ptr, rt_settled_meta; cbn.
    + unfold upd_pending. cbn. by rewrite HU.
    + intros k. rewrite meta_all_app. by apply (chain_insert_behind A _ _ _ Hch Hn ins l _ v0).
    + split; [done|]. apply Forall_app_2; [done|]. apply Forall_singleton. by right.
  - destruct (Hf eq_refl) as [Hq He'].
    constructor; [|intros q Hq'; split; [by rewrite Hs|by apply spec_insert]|done].
    constructor; try done; unfold rt_settled_ptr, rt_settled_meta; cbn.
    + unfold upd_pending. cbn. by rewrite HU.
    + intros k. rewrite meta_all_write. by apply chain_insert_first.
    + split_and!; try done. constructor; cbn; [done|rewrite HU; cbn; lia|]. intros _. rewrite HU. cbn. by eexists.
    + split; [done|]. apply Forall_app_2; [done|]. apply Forall_singleton. by left.
Qed.

Lemma insert_finish A g e :
  rt_inv A g e -> rt_state (rt_proc e) = INSERT_2 -> machine_call A g e A g [].
Proof.
  intros [Hc Ho He Hch Hp Hm [_ Hsent]] Hst. assert (wk_sent g = []) as Hs by (apply Hsent; by rewrite Hst).
  unfold rt_ptr_phase, rt_reads in *. rewrite Hst in *. destruct Hp as (HP & HR & HU & Hw & Hl & Hkey). destruct Hm as [HN HM].
  destruct e as [p f m [st re cu n ins ret pm q1 q2 q3 q4 R N F]]. unfold rt_settled_ptr, rt_settled_meta in *.
  cbn in *. subst st R N. unfold rt_call, process_retransmissions. cbn.
  constructor; [|intros q Hq; by rewrite Hs|done].
  constructor; try done; unfold rt_settled_ptr, rt_settled_meta; cbn.
  - unfold upd_pending in *. cbn. rewrite HU in *. done.
  - intros k. rewrite meta_all_write. apply Hch.
  - split_and!; try done. constructor; cbn; [done|rewrite HU; cbn; lia|]. intros _. rewrite HU. cbn. by eexists.
  - split; [done|]. apply Forall_app_2; [done|]. apply Forall_singleton. by left.
Qed.

(** *** Releases *)
Lemma tset_tset {X} k (a b : X) t : tset k a (tset k b t) = tset k a t.
Proof. unfold tset. apply insert_insert_eq. Qed.

Lemma ends_same key (t : table mqPointerEntry) A :
  (forall k, ends (t.[k]) (of_key k A)) -> forall k, ends ((tset key (t.[key]) t).[k]) (of_key k A).
Proof. intros Ht k. apply ends_set; intros Hk; [subst k|]; apply Ht. Qed.

Lemma release_ask A g e ptr R :
  rt_inv A g e -> rt_state (rt_proc e) = RELEASE_0 -> rt_pointerRspFifo (rt_proc e) = ptr :: R ->
  exists g' ops, machine_call A g e A g' ops.
Proof.
  intros [Hc Ho He Hch Hp Hm Hw] Hst HR. destruct Hw as [Hold Hsent].
  assert (wk_sent g = []) as Hs by (apply Hsent; by rewrite Hst).
  unfold rt_ptr_phase, rt_reads, rt_settled_ptr, rt_settled_meta, upd_pending in *. rewrite Hst, HR in *.
  destruct Hp as [|HP HU Hwait HR' Hl Hkey]; [done|]. injection HR' as -> ->. specialize (Hkey eq_refl). destruct Hm as [HN HM].
  destruct e as [p f m [st re cu n ins ret pm q1 q2 q3 q4 R N F]]. cbn in *. subst st R N. rewrite HU in *.
  unfold rt_call, process_retransmissions, with_ptr. cbn. destruct (mpe_valid _) eqn:Hv; cbn.
  - exists (mkWalk (mpe_head (ptr_table p).[rel_qpn re]) []), []. constructor; [|intros q Hq; by rewrite Hs|done].
    constructor; try done; cbn.
    + intros k. unfold rt_settled_ptr, upd_pending. cbn. by rewrite HU.
    + intros k. unfold rt_settled_meta. cbn. rewrite meta_all_app. apply Hch.
    + by eapply reading_req.
    + split; [|done]. cbn. by split_and!.
  - exists resting, [OpRelease re]. constructor; [| |done].
    + constructor; try done; cbn.
      * unfold rt_settled_ptr, upd_pending. cbn. rewrite HU. cbn. by apply ends_same.
      * split_and!; try done. constructor; cbn; [done|rewrite HU; cbn; lia|]. intros _. rewrite HU. cbn. by eexists.
    + intros q Hq. split; [by rewrite Hs|]. intros k. cbn. rewrite Hq. destruct (Z.eqb_spec k (rel_qpn re)) as [->|]; [|done].
      unfold contents. specialize (He (rel_qpn re)). cbn in He. destruct (of_key _ A) as [|[]]; [done|]. destruct He as [He _]. congruence.
Qed.

Lemma release_one A g e meta N :
  rt_inv A g e -> rt_state (rt_proc e) = RELEASE_1 -> rt_metaRspFifo (rt_proc e) = meta :: N ->
  machine_call A g e (remove_first (rel_qpn (rt_release (rt_proc e))) A) resting [OpRelease (rt_release (rt_proc e))].
Proof.
  intros [Hc Ho He Hch Hp Hm Hw] Hst HN. destruct Hw as [Hold Hsent].
  assert (wk_sent g = []) as Hs by (apply Hsent; by rewrite Hst).
  unfold rt_ptr_phase, rt_reads, rt_settled_ptr, rt_settled_meta, upd_pending in *. rewrite Hst, HN in *.
  destruct Hp as (HP & HR & HU & Hwait & Hl & Hkey). destruct Hm as [|HM HN']; [done|]. injection HN' as -> ->.
  destruct Hold as (Hold & Hend & Hv & Hcurr & Hhead). unfold oldest_released in Hold.
  set (qpn := rel_qpn (rt_release (rt_proc e))) in *.
  destruct (of_key qpn A) as [|[i v] l] eqn:Hq; [simpl in Hend; congruence|]. destruct Hend as (_ & Hi & Hlast).
  pose proof (Hch qpn) as Hck. rewrite Hq, HM in Hck. destruct (chain_at _ [] _ _ _ Hck) as (Hmv & Hval & Hnext).
  rewrite Hhead in Hi. subst i.
  assert (forall k, ends ((tset qpn (rt_ptrMeta (rt_proc e)) (upd_all (pointerUpdFifo (rt_ptr e)) (ptr_table (rt_ptr e)))).[k]) (of_key k A)) as He2.
  { intros k. apply ends_set; intros Hk; [subst k; rewrite Hq; by split_and!|done]. }
  pose proof (ends_remove A qpn _ _ He2 v l _ Hq Hnext) as He3. rewrite tget_tset_eq in He3.
  setoid_rewrite tset_tset in He3. rewrite HU in He3.
  destruct e as [p f m [st re cu n ins ret pm q1 q2 q3 q4 R N F]]. cbn in *. subst st R N cu.
  unfold rt_call, process_retransmissions, with_meta, rp_release. cbn.
  rewrite HM in *. unfold meta_all in Hmv, Hval, Hnext, He3. cbn in Hmv, Hval, Hnext, He3.
  rewrite Hmv. cbn. rewrite Hval, Hold, Z.eqb_refl. cbn. constructor; [| |done].
  - constructor; cbn; [done| | | | | |done].
    + intros j. specialize (Ho j). pose proof (ids_remove _ _ _ _ _ Hq j) as Hj. cbn in *.
      rewrite !occurrences_app in *. cbn in *. lia.
    + unfold rt_settled_ptr, upd_pending. cbn. rewrite HU. cbn. exact He3.
    + unfold rt_settled_meta. cbn. rewrite HM. exact (chain_remove A _ _ _ v l Hch Hq).
    + split_and!; try done. constructor; cbn; [done|rewrite HU; cbn; lia|]. intros _. rewrite HU. cbn. by eexists.
    + split; [done|]. by rewrite HM.
  - intros q Hq'. split; [by rewrite Hs|]. intros k. subst qpn. cbn in *. rewrite Hq'. unfold contents.
    rewrite (of_key_remove _ _ _ _ _ Hq). destruct (Z.eqb_spec k (rel_qpn re)) as [->|]; [|done]. rewrite Hq. cbn. by rewrite Hold, Z.eqb_refl.
Qed.

(** *** Sending again *)

(** The state after a call that only moves the walk on. *)
Lemma walk_on A g e r' g' M :
  rt_inv A g e -> rt_settled_ptr e = upd_pending (rt_ptr e) ->
  rt_settled_meta e = meta_all (meta_upd_req (rt_meta e)) (meta_table (rt_meta e)) ->
  rt_state r' <> INSERT -> rt_state r' <> INSERT_2 -> rt_state (rt_proc e) <> INSERT ->
  rt_freeListFifo r' = rt_freeListFifo (rt_proc e) ->
  in_ptr_phase (rt_ptr_phase r') (rt_ptr e) (rt_pointerRspFifo r') ->
  meta_all M (meta_table (rt_meta e)) = meta_all (meta_upd_req (rt_meta e)) (meta_table (rt_meta e)) ->
  in_meta_phase (rt_reads (wk_at g') r') (mkMtEnv (meta_table (rt_meta e)) M) (rt_metaRspFifo r') ->
  walk_ok A g' r' ->
  rt_inv A g' (mkRtEnv (rt_ptr e) (rt_free e) (mkMtEnv (meta_table (rt_meta e)) M) r').
Proof.
  intros [Hc Ho He Hch Hp Hm Hw] Ep Em H1 H2 H3 HF Hp' HM Hm' Hw'. constructor; try done; cbn.
  - intros i. rewrite <- Ho, HF. destruct (rt_state r'), (rt_state (rt_proc e)); done.
  - intros k. rewrite Ep in He. unfold rt_settled_ptr. cbn. by destruct (rt_state r').
  - intros k. rewrite Em in Hch. unfold rt_settled_meta. cbn. rewrite HM. by destruct (rt_state r').
Qed.

(** The table has answered without a lock: what the queue looks like. *)
Lemma asked_front A g e ptr R key :
  rt_inv A g e -> rt_state (rt_proc e) <> INSERT_2 -> rt_ptr_phase (rt_proc e) = PtrAsked key false ->
  rt_pointerRspFifo (rt_proc e) = ptr :: R ->
  R = [] /\ in_ptr_phase PtrRead (rt_ptr e) [] /\ in_ptr_phase PtrIdle (rt_ptr e) [] /\
  if mpe_valid ptr then exists v l, of_key key A = (mpe_head ptr, v) :: l else of_key key A = [].
Proof.
  intros Hi Hst Hph HR. pose proof (ri_ptr _ _ _ Hi) as Hp. pose proof (ri_ends _ _ _ Hi key) as He.
  rewrite Hph, HR in Hp. destruct Hp as [|HP HU Hw HR' Hl _]; [done|]. injection HR' as -> ->.
  assert (rt_settled_ptr e = ptr_table (rt_ptr e)) as Ep.
  { unfold rt_settled_ptr, upd_pending. rewrite HU. by destruct (rt_state (rt_proc e)). }
  rewrite Ep in He. cbn. split_and!; try done.
  - constructor; [done|rewrite HU; cbn; lia|congruence].
  - destruct (of_key key A) as [|[i v] l]; cbn in He; [by rewrite He|]. destruct He as (-> & -> & _). by exists v, l.
Qed.

(** A walk starts at the head of the queue that the table names. *)
Lemma retrans_ask A g e ptr R :
  rt_inv A g e -> rt_state (rt_proc e) = RETRANS_0 -> rt_pointerRspFifo (rt_proc e) = ptr :: R ->
  exists g' ops, machine_call A g e A g' ops.
Proof.
  intros Hi Hst HR. pose proof (ri_walk _ _ _ Hi) as [Hw Hsent]. pose proof (ri_meta _ _ _ Hi) as Hm.
  assert (rt_ptr_phase (rt_proc e) = PtrAsked (rtm_qpn (rt_retrans (rt_proc e))) false) as Hph.
  { unfold rt_ptr_phase. rewrite Hst in *. by rewrite Hw. }
  destruct (asked_front A g e ptr R _ Hi ltac:(congruence) Hph HR) as (-> & Hread & Hidle & Hq).
  unfold rt_reads in Hm. rewrite Hst in *. assert (wk_sent g = []) as Hs by (by apply Hsent). destruct Hm as [HN HM].
  destruct e as [p f m [st re cu n ins ret pm q1 q2 q3 q4 R' N F]]. cbn in *. subst st R' N.
  unfold rt_call, process_retransmissions, with_ptr. cbn. destruct (mpe_valid ptr); cbn.
  - destruct Hq as (v & l & Hq). exists (mkWalk (mpe_head ptr) []), []. constructor; [|intros q Hq'; by rewrite Hs|done].
    eapply (walk_on A g _ _ _ _ Hi); try done; cbn.
    + by rewrite meta_all_app.
    + by eapply reading_req.
    + split; [|done]. exists [], v, l. cbn. by rewrite Hq.
  - exists resting, [OpRetrans ret]. constructor; [destruct m; by apply (walk_on A g _ _ _ _ Hi)| |done].
    intros q Hq'. split; [|done]. rewrite Hs. cbn. rewrite Hq'. unfold contents. by rewrite Hq.
Qed.

Lemma timer_ask A g e ptr R :
  rt_inv A g e -> rt_state (rt_proc e) = TIMER_RETRANS -> rt_pointerRspFifo (rt_proc e) = ptr :: R ->
  exists g' ops, machine_call A g e A g' ops.
Proof.
  intros Hi Hst HR. pose proof (ri_walk _ _ _ Hi) as [_ Hsent]. pose proof (ri_meta _ _ _ Hi) as Hm.
  assert (rt_ptr_phase (rt_proc e) = PtrAsked (rtm_qpn (rt_retrans (rt_proc e))) false) as Hph.
  { unfold rt_ptr_phase. by rewrite Hst. }
  destruct (asked_front A g e ptr R _ Hi ltac:(congruence) Hph HR) as (-> & Hread & Hidle & Hq).
  unfold rt_reads in Hm. rewrite Hst in *. assert (wk_sent g = []) as Hs by (by apply Hsent). destruct Hm as [HN HM].
  destruct e as [p f m [st re cu n ins ret pm q1 q2 q3 q4 R' N F]]. cbn in *. subst st R' N.
  unfold rt_call, process_retransmissions, with_ptr. cbn. destruct (mpe_valid ptr); cbn.
  - destruct Hq as (v & l & Hq). exists (mkWalk (mpe_head ptr) []), []. constructor; [|intros q Hq'; by rewrite Hs|done].
    eapply (walk_on A g _ _ _ _ Hi); try done; cbn.
    + by rewrite meta_all_app.
    + by eapply reading_req.
    + split; [|done]. by exists v, l.
  - exists resting, [OpTimer ret]. constructor; [destruct m; by apply (walk_on A g _ _ _ _ Hi)| |done].
    intros q Hq'. split; [|done]. rewrite Hs. cbn. rewrite Hq'. unfold contents. by rewrite Hq.
Qed.

(** The memory has answered: the entry that the walk has reached. *)
Lemma entry_read A g e meta N key before v l :
  rt_inv A g e -> rt_state (rt_proc e) <> INSERT_2 -> rt_reads (wk_at g) (rt_proc e) = Some (wk_at g) ->
  rt_metaRspFifo (rt_proc e) = meta :: N -> of_key key A = before ++ (wk_at g, v) :: l ->
  N = [] /\ meta_upd_req (rt_meta e) = [] /\ mme_valid meta = true /\ mme_value meta = v /\
  match l with [] => mme_isTail meta = true | (j, _) :: _ => mme_isTail meta = false /\ mme_next meta = j end.
Proof.
  intros Hi Hst Hph HN Hq. pose proof (ri_meta _ _ _ Hi) as Hm. pose proof (ri_chain _ _ _ Hi key) as Hch.
  rewrite Hph, HN in Hm. destruct Hm as [|HM HN']; [done|]. injection HN' as -> ->.
  rewrite Hq in Hch. unfold rt_settled_meta in Hch. rewrite HM in Hch.
  assert (chain (meta_table (rt_meta e)) (before ++ (wk_at g, v) :: l)) as Hc by (by destruct (rt_state (rt_proc e))).
  by destruct (chain_at _ _ _ _ _ Hc) as (? & ? & ?).
Qed.

Lemma timer_send A g e meta N :
  rt_inv A g e -> rt_state (rt_proc e) = TIMER_RETRANS_2 -> rt_metaRspFifo (rt_proc e) = meta :: N ->
  exists g' ops, machine_call A g e A g' ops.
Proof.
  intros Hi Hst HN. pose proof (ri_walk _ _ _ Hi) as [Hw Hsent]. pose proof (ri_ptr _ _ _ Hi) as Hp.
  rewrite Hst in Hw. destruct Hw as (v & l & Hq).
  destruct (entry_read A g e meta N _ [] v l Hi ltac:(congruence) ltac:(unfold rt_reads; by rewrite Hst) HN Hq)
    as (-> & HM & Hv & Hval & _).
  unfold rt_ptr_phase in Hp. rewrite Hst in *. assert (wk_sent g = []) as Hs by (by apply Hsent).
  destruct Hp as (HP & HR & HU & Hw & Hl).
  destruct e as [p f m [st re cu n ins ret pm q1 q2 q3 q4 R N F]]. cbn in *. subst st R N.
  unfold rt_call, process_retransmissions, with_meta. cbn. rewrite Hv. cbn.
  exists resting, [OpTimer ret]. constructor; [| |done].
  - destruct m as [t M]. cbn in *. subst M. apply (walk_on A g _ _ _ _ Hi); try done. cbn. split_and!; try done.
    constructor; [done|rewrite HU; cbn; lia|congruence].
  - intros q Hq'. split; [|done]. rewrite Hs. cbn. rewrite Hq'. unfold contents. rewrite Hq. cbn. by rewrite Hval.
Qed.

Lemma read_idle p rsp : in_ptr_phase PtrRead p rsp -> in_ptr_phase PtrIdle p rsp.
Proof.
  intros (HP & HR & HU & Hw & Hl). split_and!; try done. constructor; [done|rewrite HU; cbn; lia|congruence].
Qed.

(** The walk moves from an entry to the next one. *)
Lemma split_next {X} (before : list X) x y l : before ++ x :: y :: l = (before ++ [x]) ++ y :: l.
Proof. by rewrite <- app_assoc. Qed.

Lemma search_step A g e meta N :
  rt_inv A g e -> rt_state (rt_proc e) = RETRANS_1 -> rt_metaRspFifo (rt_proc e) = meta :: N ->
  exists g' ops, machine_call A g e A g' ops.
Proof.
  intros Hi Hst HN. pose proof (ri_walk _ _ _ Hi) as [Hw Hsent]. pose proof (ri_ptr _ _ _ Hi) as Hp.
  rewrite Hst in Hw. destruct Hw as (before & v & l & Hq & Hwant).
  destruct (entry_read A g e meta N _ before v l Hi ltac:(congruence) ltac:(unfold rt_reads; by rewrite Hst) HN Hq)
    as (-> & HM & Hv & Hval & Hnext).
  unfold rt_ptr_phase in Hp. rewrite Hst in *. assert (wk_sent g = []) as Hs by (by apply Hsent).
  pose proof (read_idle _ _ Hp) as Hidle.
  destruct e as [p f [t M] [st re cu n ins ret pm q1 q2 q3 q4 R N F]]. cbn in *. subst st M N.
  unfold rt_call, process_retransmissions, with_meta, rp_search. cbn. rewrite Hv, Hval.
  assert (forall q : outstanding, (forall k, q k = contents A k) ->
    from_psn (rtm_psn ret) (q (rtm_qpn ret)) = if rq_psn v =? rtm_psn ret then v :: map snd l else from_psn (rtm_psn ret) (map snd l)) as Hsp.
  { intros q Hq'. rewrite Hq'. unfold contents. by rewrite Hwant. }
  destruct l as [|[j w] l].
  - exists resting, [OpRetrans ret]. unfold read_on. rewrite Hnext.
    destruct (rq_psn v =? rtm_psn ret) eqn:Hf; cbn; (constructor; [by apply (walk_on A g _ _ _ _ Hi)| |done]);
      (intros q Hq'; split; [|done]); cbn; by rewrite Hs, Hsp, ?Hval.
  - destruct Hnext as [Htail Hj]. unfold read_on. rewrite Htail, Hj. rewrite split_next in Hq. cbn in Hwant.
    destruct (rq_psn v =? rtm_psn ret) eqn:Hf; cbn.
    + exists (mkWalk j [v]), []. constructor; [| |done].
      * apply (walk_on A g _ _ _ _ Hi); try done; cbn; [by apply (reading_req _ _ _ [])|].
        split; [|done]. by exists (before ++ [(wk_at g, v)]), w, l.
      * intros q Hq'. split; [|done]. cbn. rewrite Hs. cbn. by rewrite Hval.
    + exists (mkWalk j []), []. constructor; [|by intros q Hq'; cbn; rewrite Hs|done].
      apply (walk_on A g _ _ _ _ Hi); try done; cbn; [by apply (reading_req _ _ _ [])|].
      split; [|done]. by exists (before ++ [(wk_at g, v)]), w, l.
Qed.

Lemma resend_step A g e meta N :
  rt_inv A g e -> rt_state (rt_proc e) = RETRANS_2 -> rt_metaRspFifo (rt_proc e) = meta :: N ->
  exists g' ops, machine_call A g e A g' ops.
Proof.
  intros Hi Hst HN. pose proof (ri_walk _ _ _ Hi) as [Hw _]. pose proof (ri_ptr _ _ _ Hi) as Hp.
  rewrite Hst in Hw. destruct Hw as (before & v & l & Hq & Hwant).
  destruct (entry_read A g e meta N _ before v l Hi ltac:(congruence) ltac:(unfold rt_reads; by rewrite Hst) HN Hq)
    as (-> & HM & Hv & Hval & Hnext).
  unfold rt_ptr_phase in Hp. rewrite Hst in *. pose proof (read_idle _ _ Hp) as Hidle.
  destruct e as [p f [t M] [st re cu n ins ret pm q1 q2 q3 q4 R N F]]. cbn in *. subst st M N.
  unfold rt_call, process_retransmissions, with_meta, rp_resend, read_on. cbn. rewrite Hv.
  destruct l as [|[j w] l].
  - rewrite Hnext. cbn. exists resting, [OpRetrans ret]. constructor; [by apply (walk_on A g _ _ _ _ Hi)| |done].
    intros q Hq'. split; [|done]. cbn. rewrite Hq'. unfold contents. rewrite Hwant. unfold events_for. cbn.
    rewrite map_app, Hval, !app_nil_r. done.
  - destruct Hnext as [Htail Hj]. rewrite Htail, Hj. cbn. rewrite split_next in Hq.
    exists (mkWalk j (wk_sent g ++ [v])), []. constructor; [| |done].
    + apply (walk_on A g _ _ _ _ Hi); try done; cbn; [by apply (reading_req _ _ _ [])|].
      split; [|done]. exists (before ++ [(wk_at g, v)]), w, l. cbn. split; [done|]. by rewrite <- app_assoc.
    + intros q Hq'. split; [|done]. cbn. unfold events_for. cbn. by rewrite map_app, Hval.
Qed.

(** *** Every call *)
(** Nothing has come from the table, or from the memory. *)
Lemma machine_starved A g e :
  rt_inv A g e ->
  match rt_state (rt_proc e) with
  | INSERT | RELEASE_0 | RETRANS_0 | TIMER_RETRANS => rt_pointerRspFifo (rt_proc e) = []
  | RELEASE_1 | RETRANS_1 | RETRANS_2 | TIMER_RETRANS_2 => rt_metaRspFifo (rt_proc e) = []
  | MAIN | INSERT_2 => False
  end -> machine_call A g e A g [].
Proof.
  intros Hi Hn. apply machine_waits; [done|unfold rt_accepted; by destruct (rt_state _)|].
  destruct e as [p f m [st re cu n ins ret pm q1 q2 q3 q4 R N F]]. cbn in Hn.
  unfold rt_call, process_retransmissions, with_ptr, with_meta. cbn. destruct st; by subst.
Qed.

Lemma rt_inv_requests A g e : rt_inv A g e -> relied A e -> exists A' g' ops, machine_call A g e A' g' ops.
Proof.
  intros Hi Hr. pose proof (machine_starved A g e Hi) as Hn.
  destruct (rt_state (rt_proc e)) eqn:Hst.
  1: { exists A, resting, []. by apply read_request. }
  2: { exists A, g, []. by apply insert_finish. }
  1-2,4,7: destruct (rt_pointerRspFifo (rt_proc e)) as [|ptr R] eqn:HR; [by exists A, g, []; apply Hn|].
  5-8: destruct (rt_metaRspFifo (rt_proc e)) as [|meta N] eqn:HN; [by exists A, g, []; apply Hn|].
  - do 3 eexists. by eapply insert_entry.
  - exists A. by eapply release_ask.
  - exists A. by eapply retrans_ask.
  - exists A. by eapply timer_ask.
  - do 3 eexists. by eapply release_one.
  - exists A. by eapply search_step.
  - exists A. by eapply resend_step.
  - exists A. by eapply timer_send.
Qed.

Lemma rt_inv_arrive A g e op : rt_inv A g e -> rt_inv A g (rt_arrive op e).
Proof.
  intros [Hc Ho He Hch Hp Hm Hw]. destruct e as [p f m [st re cu n ins ret pm q1 q2 q3 q4 R N F]].
  by destruct op; constructor.
Qed.

(** *** The queue pair of the last release *)
Definition last_qpn (last : Z) (ops : list rt_op) : Z := fold_left (fun l op => last_release op l) ops last.
Arguments last_qpn : simpl never.

Lemma release_follows r :
  rel_qpn (rt_release (process_retransmissions r).1) = last_qpn (rel_qpn (rt_release r)) (rt_accepted r).
Proof.
  destruct r as [st re cu n ins ret pm q1 q2 q3 q4 R N F].
  unfold process_retransmissions, rp_main, with_ptr, with_meta, rp_insert, rp_release, rp_search, rp_resend, rt_accepted.
  destruct st; cbn; try done.
  1: by destruct q1, q2, F, q3, q4.
  all: try (destruct R as [|ptr R]; [done|]; by destruct (mpe_valid ptr)).
  all: destruct N as [|[v next valid tail] N]; [done|]; destruct valid, tail; try done; cbn; by destruct (_ =? _).
Qed.

Lemma deliver_proc ws e : rt_proc (fold_left (fun e w => rt_deliver w e) ws e) = rt_proc e.
Proof. revert e. induction ws as [|w ws IH]; intros e; [done|]. cbn. rewrite IH. by destruct w. Qed.

Lemma requests_proc e : rt_proc (rt_call R_requests e).1 = (process_retransmissions (rt_proc e)).1.
Proof.
  unfold rt_call. destruct (process_retransmissions (rt_proc e)) as [r w]. cbn. by rewrite deliver_proc.
Qed.

(** *** Requests one after the other *)
Lemma rt_specs_app ops1 ops2 q :
  rt_specs (ops1 ++ ops2) q =
    ((rt_specs ops2 (rt_specs ops1 q).1).1, (rt_specs ops1 q).2 ++ (rt_specs ops2 (rt_specs ops1 q).1).2).
Proof.
  revert q. induction ops1 as [|op ops1 IH]; intros q; [simpl; by destruct (rt_specs ops2 q)|].
  simpl. destruct (rt_spec op q) as [q1 w1]. rewrite IH. destruct (rt_specs ops1 q1) as [q2 w2]. simpl.
  by rewrite app_assoc.
Qed.

Lemma orderly_app ops1 ops2 last q :
  orderly last q (ops1 ++ ops2) =
    orderly last q ops1 && orderly (last_qpn last ops1) (rt_specs ops1 q).1 ops2.
Proof.
  revert last q. induction ops1 as [|op ops1 IH]; intros last q; [done|].
  simpl. rewrite IH. destruct (rt_spec op q) as [q1 w1]. simpl. destruct (rt_specs ops1 q1) as [q2 w2]. simpl.
  by rewrite andb_assoc.
Qed.

Lemma last_qpn_app last ops1 ops2 : last_qpn last (ops1 ++ ops2) = last_qpn (last_qpn last ops1) ops2.
Proof. apply fold_left_app. Qed.

(** *** A run *)
Definition nothing_outstanding : outstanding := fun _ => [].

Record rt_served A (g : walk) (done : list rt_op) (t : rt_trace) : Prop := {
  sv_inv : rt_inv A g (tr_env t);
  sv_history : tr_history t = done ++ inflight (rt_proc (tr_env t));
  sv_events : tr_events t = (rt_specs done nothing_outstanding).2 ++ events_for (rt_proc (tr_env t)) (wk_sent g);
  sv_contents : forall k, (rt_specs done nothing_outstanding).1 k = contents A k;
  sv_last : last_qpn 0 (tr_history t) = rel_qpn (rt_release (rt_proc (tr_env t)))
}.

Lemma relies_on_ext last q q' op : (forall k, q k = q' k) -> relies_on last q op = relies_on last q' op.
Proof. intros Hq. destruct op; cbn; try done. by rewrite Hq. Qed.

(** A request is read only in [MAIN], when the one before is finished. *)
Lemma accepted_inflight r : rt_accepted r = [] \/ inflight r = [] /\ exists op, rt_accepted r = [op].
Proof.
  unfold rt_accepted, inflight. destruct (rt_state r); auto.
  repeat case_match; eauto.
Qed.

Lemma retrans_step_served A g done t ev :
  rt_served A g done t -> orderly 0 nothing_outstanding (tr_history (rt_step ev t)) = true ->
  exists A' g' done', rt_served A' g' done' (rt_step ev t).
Proof.
  intros [Hi Hh Hw Hq Hl] Ho. destruct t as [e w h]. destruct ev as [op|p]; cbn in *.
  { exists A, g, done. constructor; cbn; [by apply rt_inv_arrive|..]; destruct op; done. }
  destruct p; cbn [rt_step] in *.
  1-3: exists A, g, done.
  - pose proof (rt_inv_freelist A g e Hi) as H1. cbn -[rt_call] in *. unfold rt_call in *.
    destruct (freelist_handler _ _) as [f x]. cbn in *. constructor; cbn; by rewrite ?app_nil_r.
  - pose proof (rt_inv_pointer A g e Hi) as H1. cbn -[rt_call] in *. unfold rt_call in *.
    destruct (retrans_pointer_table _) as [f x]. cbn in *. constructor; cbn; by rewrite ?app_nil_r.
  - pose proof (rt_inv_meta A g e Hi) as H1. cbn -[rt_call] in *. unfold rt_call in *.
    destruct (retrans_meta_table _) as [f x]. cbn in *. constructor; cbn; by rewrite ?app_nil_r.
  - assert (relied A e) as Hr.
    { unfold relied. destruct (accepted_inflight (rt_proc e)) as [->|[Hf [op Ha]]]; [done|]. rewrite Ha. constructor; [|done].
      destruct (rt_call R_requests e) as [e' w'] in Ho. cbn in Ho. rewrite Ha, orderly_app, Hl in Ho. rewrite Hf, app_nil_r in Hh.
      subst h. cbn in Ho. bool_prop. rewrite <- (relies_on_ext _ _ _ op Hq). tauto. }
    destruct (rt_inv_requests A g e Hi Hr) as (A' & g' & ops & [Hi' Hs Hh']). destruct (Hs _ Hq) as [Hev Hc'].
    exists A', g', (done ++ ops). pose proof (requests_proc e) as Hpr. pose proof (release_follows (rt_proc e)) as Hrel.
    destruct (rt_call R_requests e) as [e' w'] eqn:Hcall. cbn [fst snd] in *. constructor; cbn; try done.
    + by rewrite Hh, <- !app_assoc, Hh'.
    + rewrite Hw, rt_specs_app. cbn. by rewrite <- !app_assoc, Hev.
    + intros k. rewrite rt_specs_app. apply Hc'.
    + by rewrite last_qpn_app, Hl, Hpr, Hrel.
Qed.

Lemma rt_run_snoc s ev : rt_run (s ++ [ev]) = rt_step ev (rt_run s).
Proof. unfold rt_run. by rewrite fold_left_app. Qed.

Lemma history_grows ev t : exists ops, tr_history (rt_step ev t) = tr_history t ++ ops.
Proof.
  destruct ev as [op|p]; cbn; [exists []; by rewrite app_nil_r|]. destruct (rt_call p (tr_env t)). by eexists.
Qed.

Lemma retrans_run_served s :
  orderly 0 nothing_outstanding (tr_history (rt_run s)) = true -> exists A g done, rt_served A g done (rt_run s).
Proof.
  induction s as [|ev s IH] using rev_ind; intros Ho.
  - exists [], resting, []. constructor; try done. apply rt_inv_init.
  - rewrite rt_run_snoc in *. destruct (history_grows ev (rt_run s)) as [ops Hops]. pose proof Ho as Ho'.
    rewrite Hops, orderly_app in Ho'. bool_prop. destruct (IH ltac:(tauto)) as (A & g & done & Hs). by eapply retrans_step_served.
Qed.

(** What has arrived has been read or waits. *)
Lemma arrived_read {X} (f : rt_op -> option X) (waits : rp_env -> list X) s :
  waits rp_init = [] ->
  (forall op r, waits (rt_proc (rt_arrive op (mkRtEnv pt_init fl_init mt_init r))) =
    waits r ++ match f op with Some x => [x] | None => [] end) ->
  (forall r R N F, waits (r <| rt_pointerRspFifo := R |> <| rt_metaRspFifo := N |> <| rt_freeListFifo := F |>) = waits r) ->
  (forall r, waits r = omap f (rt_accepted r) ++ waits (process_retransmissions r).1) ->
  omap f (arrived s) = omap f (tr_history (rt_run s)) ++ waits (rt_proc (tr_env (rt_run s))).
Proof.
  intros H0 Harr Hrsp Hcall. induction s as [|ev s IH] using rev_ind; [done|].
  rewrite rt_run_snoc. unfold arrived in *. rewrite omap_app, omap_app, IH. destruct (rt_run s) as [e w h].
  assert (forall R N F, waits (rt_proc e <| rt_pointerRspFifo := R |> <| rt_metaRspFifo := N |> <| rt_freeListFifo := F |>)
    = waits (rt_proc e)) as Hf by done. destruct e as [p f' m r]. destruct ev as [op|q]; cbn.
  - specialize (Harr op r). cbn in Harr. rewrite Harr, <- app_assoc. by destruct (f op).
  - rewrite app_nil_r. destruct r as [st re cu n ins ret pm q1 q2 q3 q4 R N F]. destruct q; cbn in *.
    + destruct (freelist_handler _ _) as [x y]. cbn. rewrite app_nil_r. by rewrite <- (Hf R N (F ++ y)).
    + destruct (retrans_pointer_table _) as [x y]. cbn. rewrite app_nil_r. by rewrite <- (Hf (R ++ y) N F).
    + destruct (retrans_meta_table _) as [x y]. cbn. rewrite app_nil_r. by rewrite <- (Hf R (N ++ y) F).
    + specialize (Hcall (mkRpEnv st re cu n ins ret pm q1 q2 q3 q4 R N F)).
      destruct (process_retransmissions _) as [x y]. cbn in *.
      by rewrite deliver_proc, omap_app, <- app_assoc, Hcall.
Qed.

(** A call reads the first request of one of the streams. *)
Lemma call_reads r :
  let r' := (process_retransmissions r).1 in
  rx2retrans_release_upd r = omap op_release (rt_accepted r) ++ rx2retrans_release_upd r' /\
  tx2retrans_insertRequest r = omap op_insert (rt_accepted r) ++ tx2retrans_insertRequest r' /\
  rx2retrans_req r = omap op_retrans (rt_accepted r) ++ rx2retrans_req r' /\
  timer2retrans_req r = omap op_timer (rt_accepted r) ++ timer2retrans_req r'.
Proof.
  destruct r as [st re cu n ins ret pm q1 q2 q3 q4 R N F].
  unfold process_retransmissions, rp_main, with_ptr, with_meta, rp_insert, rp_release, rp_search, rp_resend, rt_accepted.
  destruct st; cbn; try done.
  1: by destruct q1, q2, F, q3, q4.
  all: try (destruct R as [|ptr R]; [done|]; by destruct (mpe_valid ptr)).
  all: destruct N as [|[v next valid tail] N]; [done|]; destruct valid, tail; try done; cbn; by destruct (_ =? _).
Qed.

(** What has been sent for the request under way is the beginning of what has to be. *)
Lemma sent_prefix A g r q :
  walk_ok A g r -> (forall k, q k = contents A k) ->
  events_for r (wk_sent g) `prefix_of` (rt_specs (inflight r) q).2.
Proof.
  intros [Hw Hs] Hq. destruct (rt_state r) eqn:Hst; try (rewrite Hs by done; apply prefix_nil).
  destruct Hw as (before & v & l & _ & Hw). unfold inflight. rewrite Hst. cbn. rewrite Hq. unfold contents.
  rewrite Hw, app_nil_r. unfold events_for. rewrite map_app. by apply prefix_app_r.
Qed.

(** ** The theorems *)
(** C14: the retransmitter sends what it should.  Whatever requests arrive and in
    whatever order the four processes are called, as long as those that have been read
    are in order (releases of the oldest request, repetitions for the queue pair of
    the last release): the events sent are those of the specification for all requests
    read but the one under way, followed by the first of those for that one; between
    two requests they are exactly those of the specification.  Requests of a kind are
    read in the order of their arrival and none is lost. *)
Theorem retransmitter_refines s :
  let t := rt_run s in
  let r := rt_proc (tr_env t) in
  orderly 0 nothing_outstanding (tr_history t) = true ->
  exists done,
    tr_history t = done ++ inflight r /\ (rt_state r = MAIN -> inflight r = []) /\
    (rt_specs done nothing_outstanding).2 `prefix_of` tr_events t /\
    tr_events t `prefix_of` (rt_specs (tr_history t) nothing_outstanding).2 /\
    omap op_release (arrived s) = omap op_release (tr_history t) ++ rx2retrans_release_upd r /\
    omap op_insert (arrived s) = omap op_insert (tr_history t) ++ tx2retrans_insertRequest r /\
    omap op_retrans (arrived s) = omap op_retrans (tr_history t) ++ rx2retrans_req r /\
    omap op_timer (arrived s) = omap op_timer (tr_history t) ++ timer2retrans_req r.
Proof.
  intros t r Ho. destruct (retrans_run_served s Ho) as (A & g & done & [Hi Hh Hw Hq _]). exists done.
  split_and!; [done|unfold inflight; by intros ->|fold t in Hw; rewrite Hw; by apply prefix_app_r| |..].
  1: fold t in Hw, Hh; rewrite Hw, Hh, rt_specs_app; apply prefix_app;
    apply (sent_prefix A); [apply (ri_walk _ _ _ Hi)|done].
  all: apply arrived_read; try done; [by intros [] r'; cbn; rewrite ?app_nil_r|intros r'; apply call_reads].
Qed.

(** *** A release of several requests *)
Fixpoint walk_rounds (n : nat) e : rt_env :=
  match n with O => e | S n => walk_rounds n (rt_call R_requests (rt_call R_meta e).1).1 end.

Lemma release_passes e i v j w l :
  rt_state (rt_proc e) = RELEASE_1 -> rt_metaRspFifo (rt_proc e) = [] ->
  meta_upd_req (rt_meta e) = [mqMetaReq_read i] -> rt_curr (rt_proc e) = i ->
  chain (meta_table (rt_meta e)) ((i, v) :: (j, w) :: l) ->
  rq_psn v <> latest_acked_req (rt_release (rt_proc e)) ->
  let e' := walk_rounds 1 e in
  rt_state (rt_proc e') = RELEASE_1 /\ rt_metaRspFifo (rt_proc e') = [] /\
  meta_upd_req (rt_meta e') = [mqMetaReq_read j] /\ rt_curr (rt_proc e') = j /\
  meta_table (rt_meta e') = meta_table (rt_meta e) /\ rt_release (rt_proc e') = rt_release (rt_proc e) /\
  releaseFifo (rt_free e') = releaseFifo (rt_free e) ++ [j].
Proof.
  destruct e as [p [c rel] [t M] [st re cu n ins ret pm q1 q2 q3 q4 R N F]]. cbn. intros -> -> -> -> (Hv & Hval & [Ht Hn] & _) Hne.
  unfold rt_call, retrans_meta_table, mq_meta_table, process_retransmissions, with_meta, rp_release. cbn.
  rewrite Hv, Hval, Ht, Hn. cbn. by rewrite (proj2 (Z.eqb_neq _ _) Hne).
Qed.

(** C38: a release that acknowledges more than the oldest request gives the last entry
    of those back twice and the first one never: the index is moved on before the
    entry is given back.  (Two requests will then be kept in one entry, and an entry is
    lost.) *)
Theorem release_frees_twice e i v l j w rest :
  let psn := latest_acked_req (rt_release (rt_proc e)) in
  rt_state (rt_proc e) = RELEASE_1 -> rt_metaRspFifo (rt_proc e) = [] ->
  meta_upd_req (rt_meta e) = [mqMetaReq_read i] -> rt_curr (rt_proc e) = i ->
  chain (meta_table (rt_meta e)) ((i, v) :: l ++ (j, w) :: rest) ->
  Forall (fun x => rq_psn (snd x) <> psn) ((i, v) :: l) -> rq_psn w = psn ->
  let e' := walk_rounds (2 + length l) e in
  rt_state (rt_proc e') = MAIN /\ releaseFifo (rt_free e') = releaseFifo (rt_free e) ++ map fst l ++ [j; j].
Proof.
  revert e i v. induction l as [|[k x] l IH]; intros e i v psn Hst HN HM Hc Hch Hne Hw.
  - destruct (release_passes e i v j w rest Hst HN HM Hc Hch (Forall_inv Hne)) as (Hst' & HN' & HM' & Hc' & Ht & Hr & HF).
    destruct Hch as (_ & _ & _ & Hv & Hval & _). subst psn. rewrite <- Hr in Hw. rewrite <- Ht in *.
    change (walk_rounds (2 + length []) e) with (walk_rounds 1 (walk_rounds 1 e)).
    set (e1 := walk_rounds 1 e) in *. clearbody e1. change (map fst [] ++ [j; j]) with ([j] ++ [j]). rewrite app_assoc, <- HF. clear -Hst' HN' HM' Hc' Hv Hval Hw.
    destruct e1 as [p [c rel] [t M] [st re cu n ins ret pm q1 q2 q3 q4 R N F]]. cbn in *. subst.
    unfold rt_call, retrans_meta_table, mq_meta_table, process_retransmissions, with_meta, rp_release. cbn.
    by rewrite Hv, Hw, Z.eqb_refl.
  - destruct (release_passes e i v k x _ Hst HN HM Hc Hch (Forall_inv Hne)) as (Hst' & HN' & HM' & Hc' & Ht & Hr & HF).
    change (walk_rounds (2 + length ((k, x) :: l)) e) with (walk_rounds (2 + length l) (walk_rounds 1 e)).
    destruct Hch as (_ & _ & _ & Hch). subst psn. rewrite <- Hr in Hw, Hne.
    destruct (IH (walk_rounds 1 e) k x Hst' HN' HM' Hc') as [H1 H2]; try done.
    + by rewrite Ht.
    + by apply Forall_inv_tail in Hne.
    + split; [done|]. by rewrite H2, HF, <- app_assoc.
Qed.

(** ** Three queue pairs *)
Section RetransWitnesses.
Definition rt_demo_request (psn : Z) : retransRequest := mkRetransRequest psn 10 4096 8192 64.
Definition rt_demo_insert (qpn psn : Z) : rt_event := E_arrive (OpInsert (mkMqInsertReq qpn (rt_demo_request psn))).
Definition rt_demo_release (qpn psn : Z) : rt_event := E_arrive (OpRelease (mkRetransRelease qpn psn)).
Fixpoint demo_rounds (n : nat) : list rt_event :=
  match n with O => [] | S n => map E_rtcall [R_freelist; R_pointer; R_meta; R_requests] ++ demo_rounds n end.

(** The oldest request is acknowledged, then the receiver asks for everything from the
    next one on, and a timer for the first one of another queue pair. *)
Definition demo_retrans : list rt_event :=
  [rt_demo_insert 5 100; rt_demo_insert 5 101; rt_demo_insert 5 102; rt_demo_insert 7 300] ++ demo_rounds 40 ++
  [rt_demo_release 5 100] ++ demo_rounds 20 ++
  [E_arrive (OpRetrans (mkRetransmission 5 101)); E_arrive (OpTimer (mkRetransmission 7 0))] ++ demo_rounds 30.

Example demo_retrans_events :
  map (fun ev => (rev_qpn ev, rq_psn (rev_request ev))) (tr_events (rt_run demo_retrans)) = [(5, 101); (5, 102); (7, 300)].
Proof. by vm_compute. Qed.

Lemma retransmitter_refines_witness :
  let t := rt_run demo_retrans in
  orderly 0 nothing_outstanding (tr_history t) = true /\
  tr_events t `prefix_of` (rt_specs (tr_history t) nothing_outstanding).2.
Proof.
  assert (orderly 0 nothing_outstanding (tr_history (rt_run demo_retrans)) = true) as Ho by (vm_compute; reflexivity).
  destruct (retransmitter_refines demo_retrans Ho) as (ops & _ & _ & _ & Hp & _). exact (conj Ho Hp).
Defined.

(** The second of two requests is acknowledged: the release has found the queue. *)
Definition quick_rounds (n : nat) : list rt_event :=
  concat (repeat (map E_rtcall [R_pointer; R_meta; R_requests]) n).
Definition demo_skip : list rt_event :=
  [E_rtcall R_freelist; E_rtcall R_freelist; rt_demo_insert 5 100; rt_demo_insert 5 101] ++ quick_rounds 15 ++
  [rt_demo_release 5 101; E_rtcall R_requests; E_rtcall R_pointer; E_rtcall R_requests].

Lemma release_frees_twice_witness :
  let e := tr_env (rt_run demo_skip) in
  rt_state (rt_proc (walk_rounds 2 e)) = MAIN /\ releaseFifo (rt_free (walk_rounds 2 e)) = [1; 1].
Proof.
  intros e.
  assert (releaseFifo (rt_free e) = []) as He by (vm_compute; reflexivity).
  destruct (release_frees_twice e 0 (rt_demo_request 100) [] 1 (rt_demo_request 101) []) as [H1 H2];
    [vm_compute; reflexivity|vm_compute; reflexivity|vm_compute; reflexivity|vm_compute; reflexivity|
     vm_compute; repeat split; discriminate|constructor; [vm_compute; discriminate|constructor]|vm_compute; reflexivity|].
  rewrite He in H2. exact (conj H1 H2).
Defined.

(** The entry that is free twice gets the requests of two queue pairs, and the timer of
    the one has the request of the other sent. *)
Example demo_skip_corrupts :
  let s := demo_skip ++ quick_rounds 5 ++ [E_rtcall R_freelist; E_rtcall R_freelist; rt_demo_insert 7 300; rt_demo_insert 8 400]
    ++ quick_rounds 15 ++ [E_arrive (OpTimer (mkRetransmission 7 0))] ++ quick_rounds 10 in
  map (fun ev => (rev_qpn ev, rq_psn (rev_request ev))) (tr_events (rt_run s)) = [(7, 400)].
Proof. by vm_compute. Qed.

(** The receiver asks for a request that is outstanding, of another queue pair than
    that of the last release: nothing is sent. *)
Example demo_wrong_queue :
  let s := [rt_demo_insert 5 100; rt_demo_insert 7 300] ++ demo_rounds 20 ++
    [E_arrive (OpRetrans (mkRetransmission 7 300))] ++ demo_rounds 20 in
  tr_events (rt_run s) = [] /\ (rt_specs (tr_history (rt_run s)) nothing_outstanding).2 = [mkRetransEvent 7 (rt_demo_request 300)].
Proof. by vm_compute. Qed.
End RetransWitnesses.
