(* ===== verification/IcmpServer.v ===== *)
(** * The ICMP server ([icmp_server/icmp_server.cpp])

    It answers echo requests.  [check_icmp_checksum] turns the packets it receives into
    replies while it adds up their checksum, [dropper] lets those of valid requests
    pass, [insertChecksum] puts the checksum of the reply in.  Two more processes make
    ICMP packets of packets for closed ports and packets whose time to live has
    expired; [network_stack.sv] ties their inputs to zero.  Words have 64 bits. *)

From S2P Require Import Prelude Streams Words Shifters ToeTypes Checksum Headers.

Definition ECHO_REQUEST : Z := 8.
Definition ECHO_REPLY : Z := 0.

Definition byteSwap16 (inputVector : Z) : Z := set_bits 15 8 (bits 7 0 inputVector) (bits 15 8 inputVector).

#[export] Instance icmp_width : WordWidth := 8%nat.

(** ** [check_icmp_checksum] *)

(** [cics_state], an [ap_uint<2>]. *)
Inductive cics_step := CICS_0 | CICS_1 | CICS_2 | CICS_3.

Record icmp_check_env := mkIcmpCheckEnv {
  cics_sums : list Z; cics_wordCount : Z; cics_prevWord : net_axis; cics_writeLastOne : bool;
  cics_computeCs : bool; cics_state : cics_step;
  icmpChecksum : Z; icmpType : Z; icmpCode : Z; icmp_dataIn : stream net_axis
}.
#[export] Instance eta_icmp_check_env : Eta icmp_check_env := fun e =>
  mkIcmpCheckEnv (cics_sums e) (cics_wordCount e) (cics_prevWord e) (cics_writeLastOne e) (cics_computeCs e)
    (cics_state e) (icmpChecksum e) (icmpType e) (icmpCode e) (icmp_dataIn e).

Inductive icmp_check_write := W_icmp_dataOut (w : net_axis) | W_ValidFifoOut (b : bool) | W_checksumFifoOut (c : Z).

Definition icmp_check_init : icmp_check_env :=
  mkIcmpCheckEnv [0; 0; 0; 0] 0 (mkWord (replicate 8 0) (replicate 8 false) false) false false CICS_0 0 0 0 [].

(** [cics_sums[i]]. *)
Definition cs (i : nat) (sums : list Z) : Z := default 0 (sums !! i).

(** The checksum of the reply, in three steps, and the test of that of the request. *)
Definition compute_cs (e : icmp_check_env) : icmp_check_env * list icmp_check_write :=
  let s := cics_sums e in
  let c := icmpChecksum e in
  match cics_state e with
  | CICS_0 =>
      (e <| cics_sums := [add_carry (cs 0 s) (cs 2 s); add_carry (cs 1 s) (cs 3 s); cs 2 s; cs 3 s] |>
         <| icmpChecksum := wrap 17 (Z.lnot c) |> <| cics_state := CICS_1 |>, [])
  | CICS_1 =>
      let c := wrap 17 (c - ECHO_REQUEST) in
      (e <| cics_sums := [add_carry (cs 0 s) (cs 1 s); cs 1 s; cs 2 s; cs 3 s] |>
         <| icmpChecksum := Z.land (c - Z.shiftr c 16) 65535 |> <| cics_state := CICS_2 |>, [])
  | CICS_2 =>
      (e <| cics_sums := [wrap 17 (Z.lnot (cs 0 s)); cs 1 s; cs 2 s; cs 3 s] |>
         <| icmpChecksum := wrap 17 (Z.lnot c) |> <| cics_state := CICS_3 |>, [])
  | CICS_3 =>
      (e <| cics_computeCs := false |> <| cics_state := CICS_0 |>,
       if (bits 15 0 (cs 0 s) =? 0) && (icmpType e =? ECHO_REQUEST) && (icmpCode e =? 0)
       then [W_ValidFifoOut true; W_checksumFifoOut (wrap 16 c)] else [W_ValidFifoOut false])
  end.

(** The addresses are swapped across the words 1 and 2, the type is replaced. *)
Definition reply_word_1 (prev cur : net_axis) : net_axis :=
  mkWord (take 4 (data prev) ++ take 4 (data cur)) (replicate 8 true) false.
Definition reply_word_2 (prev cur : net_axis) : net_axis :=
  mkWord (drop 4 (data prev) ++ [ECHO_REPLY] ++ drop 5 (data cur)) (keep cur) (last cur).

Definition check_word (currWord : net_axis) (e : icmp_check_env) : icmp_check_env * list icmp_check_write :=
  let prev := cics_prevWord e in
  if cics_wordCount e =? 0 then (e <| cics_sums := [0; 0; 0; 0] |> <| cics_prevWord := currWord |>, [])
  else if cics_wordCount e =? 1 then (e <| cics_prevWord := currWord |>, [W_icmp_dataOut prev])
  else if cics_wordCount e =? 2 then
    (e <| icmpType := byte_at 4 (data currWord) |> <| icmpCode := byte_at 5 (data currWord) |>
       <| icmpChecksum := 65536 + le_val [byte_at 6 (data currWord); byte_at 7 (data currWord)] |>
       <| cics_sums := add_word (cics_sums e) (data currWord) (replicate 4 false ++ replicate 4 true) |>
       <| cics_prevWord := reply_word_2 prev currWord |>,
     [W_icmp_dataOut (reply_word_1 prev currWord)])
  else
    (e <| cics_sums := add_word (cics_sums e) (data currWord) (keep currWord) |> <| cics_prevWord := currWord |>,
     [W_icmp_dataOut prev]).

Definition check_icmp_checksum (e : icmp_check_env) : icmp_check_env * list icmp_check_write :=
  if cics_writeLastOne e then (e <| cics_writeLastOne := false |>, [W_icmp_dataOut (cics_prevWord e)])
  else if cics_computeCs e then compute_cs e
  else
    match icmp_dataIn e with
    | [] => (e, [])
    | currWord :: rest =>
        let '(e, w) := check_word currWord (e <| icmp_dataIn := rest |>) in
        (e <| cics_wordCount := if last currWord then 0 else wrap 16 (cics_wordCount e + 1) |>
           <| cics_writeLastOne := last currWord |> <| cics_computeCs := last currWord |>, w)
    end.

(** ** [dropper]

    While it waits for the check_verdict nothing has been read and [currWord.last] is
    undefined; the two flags it would reset have their initial values then. *)
Record icmp_dropper_env := mkIcmpDropperEnv {
  d_isFirstWord : bool; d_drop : bool; icmp_dropper_dataIn : stream net_axis; validFifoIn : stream bool
}.
#[export] Instance eta_icmp_dropper_env : Eta icmp_dropper_env := fun e =>
  mkIcmpDropperEnv (d_isFirstWord e) (d_drop e) (icmp_dropper_dataIn e) (validFifoIn e).
Definition icmp_dropper_init : icmp_dropper_env := mkIcmpDropperEnv true false [] [].

Definition dropper (e : icmp_dropper_env) : icmp_dropper_env * list net_axis :=
  match icmp_dropper_dataIn e with
  | [] => (e, [])
  | currWord :: rest =>
      if d_isFirstWord e then
        match validFifoIn e with
        | d_valid :: valids =>
            (mkIcmpDropperEnv (last currWord) (if last currWord then false else d_drop e || negb d_valid) rest valids,
             when d_valid [currWord])
        | [] => (e, [])
        end
      else
        (mkIcmpDropperEnv (last currWord) (if last currWord then false else d_drop e) rest (validFifoIn e),
         when (negb (d_drop e)) [currWord])
  end.

(** ** [insertChecksum]

    [streamSource] is true for the second of the two sources. *)
Record icmp_insert_env := mkIcmpInsertEnv {
  ic_wordCount : Z; ic_streamSource : bool;
  inputStreams0 : stream net_axis; inputStreams1 : stream net_axis;
  checksumStreams0 : stream Z; checksumStreams1 : stream Z
}.
#[export] Instance eta_icmp_insert_env : Eta icmp_insert_env := fun e =>
  mkIcmpInsertEnv (ic_wordCount e) (ic_streamSource e) (inputStreams0 e) (inputStreams1 e)
    (checksumStreams0 e) (checksumStreams1 e).
Definition icmp_insert_init : icmp_insert_env := mkIcmpInsertEnv 0 false [] [] [] [].

Definition inputStream (source : bool) (e : icmp_insert_env) : stream net_axis :=
  if source then inputStreams1 e else inputStreams0 e.
Definition set_input (source : bool) (s : stream net_axis) (e : icmp_insert_env) : icmp_insert_env :=
  if source then e <| inputStreams1 := s |> else e <| inputStreams0 := s |>.
Definition checksumStream (source : bool) (e : icmp_insert_env) : stream Z :=
  if source then checksumStreams1 e else checksumStreams0 e.
Definition set_checksums (source : bool) (s : stream Z) (e : icmp_insert_env) : icmp_insert_env :=
  if source then e <| checksumStreams1 := s |> else e <| checksumStreams0 := s |>.

(** [inputWord.data(63, 48) = icmpChecksum]. *)
Definition with_icmp_checksum (c : Z) (w : net_axis) : net_axis :=
  mkWord (take 6 (data w) ++ le_bytes 2 c) (keep w) (last w).

Definition insertChecksum (e : icmp_insert_env) : icmp_insert_env * list net_axis :=
  let source := ic_streamSource e in
  if ic_wordCount e =? 0 then
    match inputStreams0 e, inputStreams1 e with
    | w :: rest, _ => (e <| ic_streamSource := false |> <| inputStreams0 := rest |> <| ic_wordCount := 1 |>, [w])
    | [], w :: rest => (e <| ic_streamSource := true |> <| inputStreams1 := rest |> <| ic_wordCount := 1 |>, [w])
    | [], [] => (e, [])
    end
  else if ic_wordCount e =? 2 then
    match inputStream source e, checksumStream source e with
    | w :: rest, c :: checksums =>
        (set_checksums source checksums (set_input source rest e) <| ic_wordCount := 3 |>, [with_icmp_checksum c w])
    | _, _ => (e, [])
    end
  else
    match inputStream source e with
    | w :: rest =>
        (set_input source rest e <| ic_wordCount := if last w then 0 else wrap 16 (ic_wordCount e + 1) |>, [w])
    | [] => (e, [])
    end.

(** ** [udpPortUnreachable]

    The arguments tell which of the output FIFOs are full.  A source is chosen when the
    process is idle; its packet is read in two states, the first three words (the IP
    header and 4 more bytes) go to both outputs.  All lanes of a word are added,
    whatever [keep] says. *)
Inductive uState := UDP_IDLE | UDP_IP | UDP_STREAM | UDP_CS.

Record unreachable_env := mkUnreachableEnv {
  udpState : uState; udpChecksum : Z; ipWordCounter : Z; streamSource : bool;
  udpIn : stream net_axis; ttlIn : stream net_axis
}.
#[export] Instance eta_unreachable_env : Eta unreachable_env := fun e =>
  mkUnreachableEnv (udpState e) (udpChecksum e) (ipWordCounter e) (streamSource e) (udpIn e) (ttlIn e).
Definition unreachable_init : unreachable_env := mkUnreachableEnv UDP_IDLE 0 0 false [] [].

Inductive unreachable_write := W_addIpHeader_data (w : net_axis) | W_addIpHeader_header (data : list Z) | W_unreachable_checksum (c : Z).

Definition sum_lanes (d : list Z) : Z :=
  le_val (field 6 2 d) + le_val (field 4 2 d) + le_val (field 2 2 d) + le_val (field 0 2 d).

Definition chosen (e : unreachable_env) : stream net_axis := if streamSource e then ttlIn e else udpIn e.
Definition set_chosen (s : stream net_axis) (e : unreachable_env) : unreachable_env :=
  if streamSource e then e <| ttlIn := s |> else e <| udpIn := s |>.

Definition fold_carry (c : Z) : Z := wrap 20 (Z.land c 65535 + Z.shiftr c 16).

Definition udpPortUnreachable (data_full header_full value_full : bool) (e : unreachable_env) : unreachable_env * list unreachable_write :=
  match udpState e with
  | UDP_IDLE =>
      match udpIn e, ttlIn e with
      | [], [] => (e, [])
      | udp, _ =>
          if data_full then (e, [])
          else
            let source := match udp with [] => true | _ => false end in
            let tempWord := mkWord (if source then [11; 0; 0; 0; 0; 0; 0; 0] else [3; 3; 0; 0; 0; 0; 0; 0]) (replicate 8 true) false in
            (e <| ipWordCounter := 0 |> <| streamSource := source |> <| udpChecksum := wrap 20 (sum_lanes (data tempWord)) |>
               <| udpState := UDP_IP |>, [W_addIpHeader_data tempWord])
      end
  | UDP_IP =>
      match chosen e with
      | w :: rest =>
          if data_full || header_full then (e, [])
          else
            (set_chosen rest e <| udpChecksum := wrap 20 (udpChecksum e + sum_lanes (data w)) |>
               <| udpState := if ipWordCounter e =? 2 then UDP_STREAM else UDP_IP |>
               <| ipWordCounter := if ipWordCounter e =? 2 then 2 else wrap 3 (ipWordCounter e + 1) |>,
             [W_addIpHeader_data w; W_addIpHeader_header (data w)])
      | [] => (e, [])
      end
  | UDP_STREAM =>
      match chosen e with
      | w :: rest =>
          if data_full then (e, [])
          else
            (set_chosen rest e <| udpChecksum := wrap 20 (udpChecksum e + sum_lanes (data w)) |>
               <| udpState := if last w then UDP_CS else UDP_STREAM |>, [W_addIpHeader_data w])
      | [] => (e, [])
      end
  | UDP_CS =>
      if value_full then (e, [])
      else
        let c := wrap 20 (Z.lnot (fold_carry (fold_carry (udpChecksum e)))) in
        (e <| udpChecksum := c |> <| udpState := UDP_IDLE |>, [W_unreachable_checksum (bits 15 0 c)])
  end.

(** ** [udpAddIpHeader] *)
Inductive aState := AIP_IDLE | AIP_IP | AIP_MERGE | AIP_STREAM | AIP_RESIDUE.

Record add_ip_env := mkAddIpEnv {
  addIpState : aState; tempWord : net_axis; sourceIP : list Z;
  udpPort2addIpHeader_data : stream net_axis; udpPort2addIpHeader_header : stream (list Z)
}.
#[export] Instance eta_add_ip_env : Eta add_ip_env := fun e =>
  mkAddIpEnv (addIpState e) (tempWord e) (sourceIP e) (udpPort2addIpHeader_data e) (udpPort2addIpHeader_header e).
Definition add_ip_init : add_ip_env := mkAddIpEnv AIP_IDLE (mkWord (replicate 8 0) (replicate 8 false) false) (replicate 4 0) [] [].

(** [tempWord.data.range(31, 16) = byteSwap16(byteSwap16(...) + 28)]. *)
Definition longer_by_28 (d : list Z) : list Z :=
  take 2 d ++ le_bytes 2 (byteSwap16 (wrap 16 (byteSwap16 (le_val (field 2 2 d)) + 28))) ++ drop 4 d.

Definition udpAddIpHeader (out_full : bool) (e : add_ip_env) : add_ip_env * list net_axis :=
  if out_full then (e, []) else
  let t := tempWord e in
  match addIpState e, udpPort2addIpHeader_header e, udpPort2addIpHeader_data e with
  | AIP_IDLE, h :: headers, _ =>
      let w := mkWord (longer_by_28 h) (replicate 8 true) false in
      (e <| udpPort2addIpHeader_header := headers |> <| tempWord := w |> <| addIpState := AIP_IP |>, [w])
  | AIP_IP, h :: headers, _ =>
      let w := mkWord ([128; 1] ++ field 2 2 h ++ [1; 1; 1; 1]) (replicate 8 true) false in
      (e <| udpPort2addIpHeader_header := headers |> <| tempWord := w |> <| sourceIP := drop 4 h |> <| addIpState := AIP_MERGE |>, [w])
  | AIP_MERGE, _ :: headers, d :: rest =>
      (e <| udpPort2addIpHeader_header := headers |> <| udpPort2addIpHeader_data := rest |> <| tempWord := d |> <| addIpState := AIP_STREAM |>,
       [mkWord (sourceIP e ++ take 4 (data d)) (replicate 8 true) false])
  | AIP_STREAM, _, d :: rest =>
      let ends := last d && no_lane (drop 4 (keep d)) in
      (e <| udpPort2addIpHeader_data := rest |> <| tempWord := d |>
         <| addIpState := if ends then AIP_IDLE else if last d then AIP_RESIDUE else AIP_STREAM |>,
       [mkWord (drop 4 (data t) ++ take 4 (data d))
          (replicate 4 true ++ (if ends then take 4 (keep d) else replicate 4 true)) ends])
  | AIP_RESIDUE, _, _ =>
      (e <| addIpState := AIP_IDLE |>,
       [mkWord (drop 4 (data t) ++ replicate 4 0) (drop 4 (keep t) ++ replicate 4 false) true])
  | _, _, _ => (e, [])
  end.
