(* ===== verification/IcmpEcho.v ===== *)
(** * What the ICMP server answers

    On any schedule, every valid echo request longer than its checksum field is
    answered by a reply with the addresses swapped, the same data and a correct
    checksum, and nothing else is answered.  A request that ends with its checksum
    puts the checksums of all later replies in the wrong places. *)

From S2P Require Import Prelude Streams Words Shifters ToeTypes Checksum Headers RxFrontend IcmpServer.

(** ** The stages as deterministic processes *)
Definition icmp_check_arrive (w : net_axis) (e : icmp_check_env) : icmp_check_env := e <| icmp_dataIn := icmp_dataIn e ++ [w] |>.

Definition steps_left (s : cics_step) : nat := match s with CICS_0 => 4 | CICS_1 => 3 | CICS_2 => 2 | CICS_3 => 1 end.

#[export, refine] Instance icmp_check_kahn : KahnProcess check_icmp_checksum icmp_check_arrive := {
  kahn_work e := (6 * length (icmp_dataIn e) + (if cics_writeLastOne e then 1 else 0)
    + (if cics_computeCs e then steps_left (cics_state e) else 0))%nat;
  kahn_progress := _; kahn_diamond := _
}.
Proof.
  - intros [s n p l c st ck ty co [|w ws]]; destruct l, c, st; try (by left);
      right; unfold check_icmp_checksum, check_word; cbn; repeat case_match_in_goal; cbn; lia.
  - intros a [s n p l c st ck ty co [|w ws]]; destruct l, c, st; try (by left); try (by right);
      right; unfold check_icmp_checksum, check_word; cbn; repeat case_match_in_goal; done.
Defined.

Inductive icmp_dropper_arrival := A_icmpDropperData (w : net_axis) | A_icmpDropperValid (b : bool).
Definition icmp_dropper_arrive (a : icmp_dropper_arrival) (e : icmp_dropper_env) : icmp_dropper_env :=
  match a with
  | A_icmpDropperData w => e <| icmp_dropper_dataIn := icmp_dropper_dataIn e ++ [w] |>
  | A_icmpDropperValid b => e <| validFifoIn := validFifoIn e ++ [b] |>
  end.

#[export, refine] Instance icmp_dropper_kahn : KahnProcess dropper icmp_dropper_arrive := {
  kahn_work e := length (icmp_dropper_dataIn e); kahn_progress := _; kahn_diamond := _
}.
Proof.
  - intros [[] d [|w ws] [|v vs]]; (by left) || (right; cbn; lia).
  - intros [w'|v'] [[] d [|w ws] [|v vs]]; (by left) || (by right).
Defined.

(** [insertChecksum] when nothing arrives from the second source: [network_stack.sv]
    ties [udpIn] and [ttlIn] to zero. *)
Record echo_insert_env := mkEchoInsertEnv { ei_wordCount : Z; ei_data : stream net_axis; ei_checksums : stream Z }.
#[export] Instance eta_echo_insert_env : Eta echo_insert_env := fun e =>
  mkEchoInsertEnv (ei_wordCount e) (ei_data e) (ei_checksums e).
Definition echo_insert_init : echo_insert_env := mkEchoInsertEnv 0 [] [].

Definition echo_insert (e : echo_insert_env) : echo_insert_env * list net_axis :=
  let '(e', w) := insertChecksum (mkIcmpInsertEnv (ei_wordCount e) false (ei_data e) [] (ei_checksums e) []) in
  (mkEchoInsertEnv (ic_wordCount e') (inputStreams0 e') (checksumStreams0 e'), w).

Inductive echo_arrival := A_echoData (w : net_axis) | A_echoChecksum (c : Z).
Definition echo_arrive (a : echo_arrival) (e : echo_insert_env) : echo_insert_env :=
  match a with
  | A_echoData w => e <| ei_data := ei_data e ++ [w] |>
  | A_echoChecksum c => e <| ei_checksums := ei_checksums e ++ [c] |>
  end.

#[export, refine] Instance echo_kahn : KahnProcess echo_insert echo_arrive := {
  kahn_work e := length (ei_data e); kahn_progress := _; kahn_diamond := _
}.
Proof.
  - intros [n [|w ws] [|c cs]]; unfold echo_insert, insertChecksum; cbn; repeat case_match_in_goal;
      (by left) || (right; cbn; lia).
  - intros [x|x] [n [|w ws] [|c cs]]; unfold echo_insert, insertChecksum; cbn; repeat case_match_in_goal;
      (by left) || (by right).
Defined.

(** The second source is never chosen. *)
Lemma echo_insert_source n ws cs e' w :
  insertChecksum (mkIcmpInsertEnv n false ws [] cs []) = (e', w) ->
  ic_streamSource e' = false /\ inputStreams1 e' = [] /\ checksumStreams1 e' = [].
Proof.
  unfold insertChecksum. cbn. destruct (n =? 0), (n =? 2), ws, cs; intros [= <- <-]; done.
Qed.

(** ** The request and the reply *)
Definition icmp_message (d : list Z) : list Z := drop 20 d.
Definition echo_valid (d : list Z) : bool :=
  (rfc1071 (icmp_message d) =? 0) && (byte_at 20 d =? ECHO_REQUEST) && (byte_at 21 d =? 0).

(** The packet with the addresses swapped and the type of a reply. *)
Definition turned (d : list Z) : list Z :=
  take 12 d ++ field 16 4 d ++ field 12 4 d ++ [ECHO_REPLY] ++ drop 21 d.

(** The checksum field of the request and of the reply, as the code reads them: the
    first byte is the low one. *)
Definition checksum_field (d : list Z) : Z := le_val (field 22 2 d).
Definition reply_checksum (v : Z) : Z := let s := v + 8 in if s <=? 65535 then s else s - 65535.

Definition echo_reply (d : list Z) : list Z :=
  take 12 d ++ field 16 4 d ++ field 12 4 d ++ [ECHO_REPLY; byte_at 21 d]
  ++ le_bytes 2 (reply_checksum (checksum_field d)) ++ drop 24 d.

(** Packets that the theorem speaks of: longer than the checksum field. *)
Definition icmp_packet (d : list Z) : Prop := bytes d /\ 24 < Z.of_nat (length d) < 65536.

(** The reply has a correct checksum. *)
Lemma reply_checksum_range v : 0 <= v <= 65535 -> 1 <= reply_checksum v <= 65535.
Proof. intros Hv. unfold reply_checksum. destruct (Z.leb_spec (v + 8) 65535); lia. Qed.

Lemma rfc1071_valid bs : bytes bs -> 0 < sum16 bs -> rfc1071 bs = 0 <-> sum16 bs mod 65535 = 0.
Proof.
  intros Hb Hp. rewrite rfc1071_oc by done. destruct (oc_spec _ Hp) as (q & Hq & Hr). split; intros H.
  - assert (oc (sum16 bs) = 65535) as Ho by lia. rewrite Hq, Ho.
    replace (65535 + q * 65535) with ((q + 1) * 65535) by ring. by apply Z_mod_mult.
  - rewrite Hq, Z_mod_plus_full in H. destruct (decide (oc (sum16 bs) = 65535)); [lia|].
    rewrite Z.mod_small in H by lia. lia.
Qed.

(** A packet by its first words. *)
Lemma packet_word_8 ws d :
  packet ws d -> (8 < length d)%nat ->
  exists b ws' d', length b = 8%nat /\ ws = mkWord b (replicate 8 true) false :: ws' /\ d = b ++ d' /\ packet ws' d'.
Proof.
  intros Hp Hl. destruct Hp as [bs pad _ Hb|bs ws rest Hb Hp].
  - unfold lanes, icmp_width in Hb. lia.
  - exists bs, ws, rest. by split_and!.
Qed.

Lemma packet_words_8 ws d : packet ws d -> (8 * length ws <= length d + 7)%nat.
Proof.
  induction 1 as [bs pad Hne _|bs ws d Hl _ IH]; [destruct bs; [done|simpl; lia]|].
  rewrite length_app, Hl. cbn [length]. unfold lanes, icmp_width. lia.
Qed.

Lemma eight (b : list Z) : length b = 8%nat -> exists x0 x1 x2 x3 x4 x5 x6 x7, b = [x0; x1; x2; x3; x4; x5; x6; x7].
Proof. intros Hb. do 8 (destruct b as [|? b]; [done|]). destruct b; [|done]. by repeat eexists. Qed.

(** The IP header up to the addresses, the addresses, the head of the message. *)
Lemma icmp_split d :
  (24 <= length d)%nat ->
  exists (h : list Z) s0 s1 s2 s3 t0 t1 t2 t3 ty co c0 c1 r, length h = 12%nat /\
    d = h ++ [s0; s1; s2; s3] ++ [t0; t1; t2; t3] ++ [ty; co; c0; c1] ++ r.
Proof.
  intros Hl. exists (take 12 d).
  assert (exists d', d' = drop 12 d /\ (12 <= length d')%nat) as (d' & Hd & Hl') by (eexists; split; [done|rewrite length_drop; lia]).
  do 12 (destruct d' as [|? d']; [simpl in Hl'; lia|]).
  do 13 eexists. split; [rewrite length_take; lia|]. rewrite <- (take_drop 12 d) at 1. rewrite <- Hd. reflexivity.
Qed.

Lemma icmp_parts (h : list Z) s0 s1 s2 s3 t0 t1 t2 t3 ty co c0 c1 r :
  length h = 12%nat ->
  let d := h ++ [s0; s1; s2; s3] ++ [t0; t1; t2; t3] ++ [ty; co; c0; c1] ++ r in
  icmp_message d = [ty; co; c0; c1] ++ r /\ byte_at 20 d = ty /\ byte_at 21 d = co /\ checksum_field d = c0 + 256 * c1 /\
  turned d = h ++ [t0; t1; t2; t3] ++ [s0; s1; s2; s3] ++ [ECHO_REPLY; co; c0; c1] ++ r /\
  echo_reply d = h ++ [t0; t1; t2; t3] ++ [s0; s1; s2; s3] ++ [ECHO_REPLY; co] ++ le_bytes 2 (reply_checksum (c0 + 256 * c1)) ++ r.
Proof.
  intros Hh. do 12 (destruct h as [|? h]; [done|]). destruct h; [|done]. unfold checksum_field. cbn.
  unfold turned, echo_reply, checksum_field. cbn. rewrite Z.add_0_r. by split_and!.
Qed.

Lemma echo_reply_valid d : icmp_packet d -> echo_valid d = true -> rfc1071 (icmp_message (echo_reply d)) = 0.
Proof.
  intros [Hb Hl] Hv. unfold echo_valid in Hv. apply andb_true_iff in Hv as [[Hv Ht]%andb_true_iff Hc].
  destruct (icmp_split d ltac:(lia)) as (h & s0 & s1 & s2 & s3 & t0 & t1 & t2 & t3 & ty & co & c0 & c1 & r & Hh & ->).
  destruct (icmp_parts h s0 s1 s2 s3 t0 t1 t2 t3 ty co c0 c1 r Hh) as (Hm & H20 & H21 & _ & _ & Hr).
  rewrite Hm, H20, H21, Hr in *.
  set (ck := le_bytes 2 (reply_checksum (c0 + 256 * c1))) in *.
  assert (icmp_message (h ++ [t0; t1; t2; t3] ++ [s0; s1; s2; s3] ++ [ECHO_REPLY; co] ++ ck ++ r) = [ECHO_REPLY; co] ++ ck ++ r) as ->.
  { do 12 (destruct h as [|? h]; [done|]). by destruct h. }
  apply Forall_app in Hb as [_ [_ [_ [Hbm Hbr]%Forall_app]%Forall_app]%Forall_app]. decompose_Forall_hyps.
  unfold in_width in *. change (2 ^ 8) with 256 in *.
  assert (0 <= c0 + 256 * c1 <= 65535) as Hcv by lia. pose proof (reply_checksum_range _ Hcv) as Hrange.
  pose proof (sum16_nonneg r Hbr) as Hsr.
  assert (ty = 8 /\ co = 0) as [-> ->] by (unfold ECHO_REQUEST in *; lia).
  apply Z.eqb_eq, rfc1071_valid in Hv; [|repeat (apply Forall_cons_2; [unfold in_width; lia|]); exact Hbr|cbn; lia].
  set (k := reply_checksum (c0 + 256 * c1)) in *. clear ck.
  pose proof (Z.div_mod k 256 ltac:(lia)) as Hdm. pose proof (Z.mod_pos_bound k 256 ltac:(lia)).
  assert (0 <= k / 256 < 256) as Hd by (split; [apply Z.div_pos; lia|apply Z.div_lt_upper_bound; lia]).
  rewrite (Z.mod_small (k / 256)) by lia. unfold ECHO_REPLY.
  apply rfc1071_valid; [repeat (apply Forall_cons_2; [unfold in_width; lia|]); exact Hbr|cbn; lia|]. cbn in *.
  assert (exists q, k = c0 + 256 * c1 + 8 + q * 65535) as [q Hq].
  { subst k. unfold reply_checksum. destruct (_ <=? _); [exists 0|exists (-1)]; lia. }
  apply Z.mod_divide in Hv as [j Hj]; [|done]. apply Z.mod_divide; [done|].
  exists (j + 256 * q - k / 256 + c1). lia.
Qed.

(** ** [check_icmp_checksum] *)
Definition icmp_check_words (w : list icmp_check_write) : list net_axis :=
  omap (fun x => match x with W_icmp_dataOut wd => Some wd | _ => None end) w.
Definition icmp_valids (w : list icmp_check_write) : list bool :=
  omap (fun x => match x with W_ValidFifoOut b => Some b | _ => None end) w.
Definition icmp_checksums (w : list icmp_check_write) : list Z :=
  omap (fun x => match x with W_checksumFifoOut c => Some c | _ => None end) w.

Definition check_verdict (sum ty co v : Z) : list icmp_check_write :=
  if (oc sum =? 65535) && (ty =? ECHO_REQUEST) && (co =? 0)
  then [W_ValidFifoOut true; W_checksumFifoOut (reply_checksum v)] else [W_ValidFifoOut false].

Definition check_idle (e : icmp_check_env) : Prop :=
  cics_wordCount e = 0 /\ cics_writeLastOne e = false /\ cics_computeCs e = false /\ cics_state e = CICS_0.

(** The checksum of the reply in three steps on 17 bits. *)
Lemma three_steps v :
  0 <= v <= 65535 ->
  let c := wrap 17 (wrap 17 (Z.lnot (65536 + v)) - ECHO_REQUEST) in
  wrap 16 (wrap 17 (Z.lnot (Z.land (c - Z.shiftr c 16) 65535))) = reply_checksum v.
Proof.
  intros Hv. cbv zeta. unfold ECHO_REQUEST, reply_checksum, Z.lnot. change 65535 with (Z.ones 16) at 1.
  rewrite Z.land_ones, Z.shiftr_div_pow2 by lia.
  assert (wrap 17 (Z.pred (- (65536 + v))) = 65535 - v) as -> by wrap_lia.
  destruct (Z.leb_spec (v + 8) 65535); wrap_lia.
Qed.

(** The end of a packet: the last word, and the check_verdict. *)
Lemma check_end A p v ty co rest :
  Forall (Z.le 0) A -> length A = 4%nat -> 0 <= v <= 65535 ->
  exists e', check_idle e' /\ icmp_dataIn e' = rest /\
    drained check_icmp_checksum icmp_check_arrive (mkIcmpCheckEnv (map oc A) 0 p true true CICS_0 (65536 + v) ty co rest)
    = W_icmp_dataOut p :: check_verdict (zsum A) ty co v ++ drained check_icmp_checksum icmp_check_arrive e'.
Proof.
  intros HA Hl Hv. do 4 (destruct A as [|? A]; [done|]). destruct A; [|done]. decompose_Forall_hyps.
  set (s0 := add_carry (oc z) (oc z1)). set (s1 := add_carry (oc z0) (oc z2)).
  set (c1 := wrap 17 (wrap 17 (Z.lnot (65536 + v)) - ECHO_REQUEST)). set (c2 := Z.land (c1 - Z.shiftr c1 16) 65535).
  rewrite (drained_call _ _ _ (mkIcmpCheckEnv (map oc [z; z0; z1; z2]) 0 p false true CICS_0 (65536 + v) ty co rest) [W_icmp_dataOut p]) by done.
  rewrite (drained_call _ _ _ (mkIcmpCheckEnv [s0; s1; oc z1; oc z2] 0 p false true CICS_1 (wrap 17 (Z.lnot (65536 + v))) ty co rest) []) by done.
  rewrite (drained_call _ _ _ (mkIcmpCheckEnv [add_carry s0 s1; s1; oc z1; oc z2] 0 p false true CICS_2 c2 ty co rest) []) by done.
  rewrite (drained_call _ _ _ (mkIcmpCheckEnv [wrap 17 (Z.lnot (add_carry s0 s1)); s1; oc z1; oc z2] 0 p false true CICS_3 (wrap 17 (Z.lnot c2)) ty co rest) []) by done.
  set (e' := mkIcmpCheckEnv [wrap 17 (Z.lnot (add_carry s0 s1)); s1; oc z1; oc z2] 0 p false false CICS_0 (wrap 17 (Z.lnot c2)) ty co rest).
  exists e'. split; [done|]. split; [done|]. cbn [app]. f_equal.
  erewrite (drained_call _ _ _ e' (check_verdict (zsum [z; z0; z1; z2]) ty co v)); [done|].
  assert (add_carry s0 s1 = oc (zsum [z; z0; z1; z2])) as Hs.
  { subst s0 s1. rewrite !add_carry_oc by lia. f_equal. unfold zsum. simpl. lia. }
  unfold check_icmp_checksum, compute_cs, check_verdict. cbn [cics_writeLastOne cics_computeCs cics_state cics_sums cs lookup list_lookup default].
  assert (0 <= zsum [z; z0; z1; z2]) as Hnn by (unfold zsum; simpl; lia). pose proof (oc_range _ Hnn).
  unfold e'. rewrite Hs. cbn [icmpChecksum icmpType icmpCode]. unfold cs. cbn [lookup list_lookup default id].
  rewrite complement16 by done. pose proof (three_steps v Hv) as Hck. cbv zeta in Hck. subst c2 c1. rewrite Hck.
  assert ((65535 - oc (zsum [z; z0; z1; z2]) =? 0) = (oc (zsum [z; z0; z1; z2]) =? 65535)) as -> by (apply eq_iff_eq_true; rewrite !Z.eqb_eq; lia).
  done.
Qed.

(** The words behind the head of the message. *)
Lemma check_rest ws d A c p v ty co rest :
  packet ws d -> bytes d -> Forall (Z.le 0) A -> length A = 4%nat -> 0 <= v <= 65535 ->
  3 <= c -> c + Z.of_nat (length ws) <= 65536 ->
  exists e', check_idle e' /\ icmp_dataIn e' = rest /\
    drained check_icmp_checksum icmp_check_arrive (mkIcmpCheckEnv (map oc A) c p false false CICS_0 (65536 + v) ty co (ws ++ rest))
    = map W_icmp_dataOut (p :: ws) ++ check_verdict (zsum A + sum16 d) ty co v ++ drained check_icmp_checksum icmp_check_arrive e'.
Proof.
  intros Hp. revert A c p. induction Hp as [bs pad Hne Hl|bs ws d Hl Hp IH]; intros A c p Hb HA HlA Hv Hc Hn.
  - destruct (add_word_packet 4 eq_refl A bs pad HA HlA Hb Hl) as (A' & HA' & Hnn & Hlen & Hsum).
    set (w := mkWord (bs ++ pad) (low_lanes lanes (length bs)) true) in *.
    destruct (check_end A' w v ty co rest Hnn Hlen Hv) as (e' & He' & Hd & Heq). exists e'. split; [done|]. split; [done|].
    rewrite (drained_call _ _ _ (mkIcmpCheckEnv (map oc A') 0 w true true CICS_0 (65536 + v) ty co rest) [W_icmp_dataOut p]).
    + rewrite Heq, Hsum. done.
    + unfold check_icmp_checksum, check_word. cbn [cics_writeLastOne cics_computeCs icmp_dataIn app cics_wordCount].
      change (cics_wordCount (_ <| icmp_dataIn := rest |>)) with c.
      rewrite !(proj2 (Z.eqb_neq _ _)) by lia. rewrite <- HA'. reflexivity.
  - apply Forall_app in Hb as [Hb Hb'].
    destruct (add_word_packet 4 eq_refl A bs [] HA HlA Hb ltac:(by rewrite Hl)) as (A' & HA' & Hnn & Hlen & Hsum).
    rewrite app_nil_r, Hl in HA'. set (w := mkWord bs (low_lanes lanes lanes) false) in *.
    assert (1 <= Z.of_nat (length ws)) by (destruct Hp; simpl; lia). cbn [length] in Hn.
    destruct (IH A' (c + 1) w Hb' Hnn Hlen Hv ltac:(lia) ltac:(lia)) as (e' & He' & Hd & Heq).
    exists e'. split; [done|]. split; [done|].
    erewrite (drained_call _ _ _ (mkIcmpCheckEnv (map oc A') (c + 1) w false false CICS_0 (65536 + v) ty co (ws ++ rest)) [W_icmp_dataOut p]).
    + rewrite Heq, Hsum. rewrite (sum16_app bs d 4) by done. by rewrite <- Z.add_assoc.
    + unfold check_icmp_checksum, check_word. cbn [cics_writeLastOne cics_computeCs icmp_dataIn app cics_wordCount].
      change (cics_wordCount (_ <| icmp_dataIn := ws ++ rest |>)) with c.
      rewrite !(proj2 (Z.eqb_neq _ _)) by lia. rewrite <- HA'.
      cbn -[low_lanes add_word wrap]. rewrite wrap_small by (unfold in_width; lia). reflexivity.
Qed.

Lemma add_message_head y0 y1 y2 y3 y4 y5 y6 y7 :
  bytes [y4; y5; y6; y7] ->
  add_word [0; 0; 0; 0] [y0; y1; y2; y3; y4; y5; y6; y7] (replicate 4 false ++ replicate 4 true)
  = map oc [0; 0; 256 * y4 + y5; 256 * y6 + y7].
Proof.
  intros Hb. decompose_Forall_hyps. cbn [add_word replicate app map].
  change 0 with (oc 0) at 3 4. rewrite !add_pair_oc by done. unfold pair_term. cbn [andb]. by rewrite !Z.add_0_l.
Qed.

(** What is said of a packet. *)
Definition icmp_verdict (d : list Z) : list icmp_check_write :=
  if echo_valid d then [W_ValidFifoOut true; W_checksumFifoOut (reply_checksum (checksum_field d))]
  else [W_ValidFifoOut false].

(** Packets that have a whole head. *)
Definition icmp_headed (d : list Z) : Prop := bytes d /\ 24 <= Z.of_nat (length d) < 65536.

Lemma icmp_packet_headed d : icmp_packet d -> icmp_headed d.
Proof. intros [Hb Hl]. split; [done|lia]. Qed.

(** The first three words of a packet. *)
Lemma head_words ws d :
  packet ws d -> (24 <= length d)%nat ->
  exists b0 x0 x1 x2 x3 x4 x5 x6 x7 y0 y1 y2 y3 y4 y5 y6 y7 ws3 d3, length b0 = 8%nat /\
    d = b0 ++ [x0; x1; x2; x3; x4; x5; x6; x7] ++ [y0; y1; y2; y3; y4; y5; y6; y7] ++ d3 /\
    ws = mkWord b0 (replicate 8 true) false
      :: mkWord [x0; x1; x2; x3; x4; x5; x6; x7] (replicate 8 true) false
      :: mkWord [y0; y1; y2; y3; y4; y5; y6; y7] (replicate 8 true) (match ws3 with [] => true | _ => false end) :: ws3 /\
    (ws3 = [] /\ d3 = [] \/ packet ws3 d3).
Proof.
  intros Hp Hl.
  destruct (packet_word_8 _ _ Hp ltac:(lia)) as (b0 & ws1 & d1 & H0 & -> & -> & Hp1). rewrite length_app in Hl.
  destruct (packet_word_8 _ _ Hp1 ltac:(lia)) as (b1 & ws2 & d2 & H1 & -> & -> & Hp2). rewrite length_app in Hl.
  destruct (eight b1 H1) as (x0 & x1 & x2 & x3 & x4 & x5 & x6 & x7 & ->). exists b0, x0, x1, x2, x3, x4, x5, x6, x7.
  destruct Hp2 as [bs pad Hne Hpad|bs ws3 d3 Hpad Hp3].
  - assert (length bs = 8%nat /\ pad = []) as [H2 ->].
    { unfold lanes, icmp_width in Hpad. cbn [length] in Hl. destruct pad; [|simpl in Hpad; lia]. simpl in Hpad. split; [lia|done]. }
    destruct (eight bs H2) as (y0 & y1 & y2 & y3 & y4 & y5 & y6 & y7 & ->).
    exists y0, y1, y2, y3, y4, y5, y6, y7, [], []. split_and!; [done|done|done|by left].
  - destruct (eight bs Hpad) as (y0 & y1 & y2 & y3 & y4 & y5 & y6 & y7 & ->).
    exists y0, y1, y2, y3, y4, y5, y6, y7, ws3, d3. split_and!; [done|done| |by right]. by destruct Hp3.
Qed.

Lemma icmp_verdict_head b0 x0 x1 x2 x3 x4 x5 x6 x7 y0 y1 y2 y3 y4 y5 y6 y7 d3 :
  length b0 = 8%nat -> bytes ([y4; y5; y6; y7] ++ d3) ->
  check_verdict (zsum [0; 0; 256 * y4 + y5; 256 * y6 + y7] + sum16 d3) y4 y5 (le_val [y6; y7])
  = icmp_verdict (b0 ++ [x0; x1; x2; x3; x4; x5; x6; x7] ++ [y0; y1; y2; y3; y4; y5; y6; y7] ++ d3).
Proof.
  intros H0 Hb. pose proof (icmp_parts (b0 ++ [x0; x1; x2; x3]) x4 x5 x6 x7 y0 y1 y2 y3 y4 y5 y6 y7 d3) as Hd.
  rewrite length_app, H0 in Hd. specialize (Hd eq_refl). cbv zeta in Hd. rewrite <- app_assoc in Hd. cbn [app] in *.
  destruct Hd as (Hm & H20 & H21 & Hck & _). unfold check_verdict, icmp_verdict, echo_valid. rewrite Hm, H20, H21, Hck.
  assert (zsum [0; 0; 256 * y4 + y5; 256 * y6 + y7] + sum16 d3 = sum16 (y4 :: y5 :: y6 :: y7 :: d3)) as ->
    by (unfold zsum; simpl; lia).
  assert (le_val [y6; y7] = y6 + 256 * y7) as -> by (unfold le_val; simpl; lia).
  rewrite rfc1071_oc by done. pose proof (oc_range _ (sum16_nonneg _ Hb)).
  assert ((oc (sum16 (y4 :: y5 :: y6 :: y7 :: d3)) =? 65535) = (65535 - oc (sum16 (y4 :: y5 :: y6 :: y7 :: d3)) =? 0)) as ->
    by (apply eq_iff_eq_true; rewrite !Z.eqb_eq; lia).
  done.
Qed.

Lemma check_packet e ws d rest :
  check_idle e -> icmp_dataIn e = ws ++ rest -> packet ws d -> icmp_headed d ->
  exists ws' e', packet ws' (turned d) /\ check_idle e' /\ icmp_dataIn e' = rest /\
    drained check_icmp_checksum icmp_check_arrive e
    = map W_icmp_dataOut ws' ++ icmp_verdict d ++ drained check_icmp_checksum icmp_check_arrive e'.
Proof.
  intros (Hc & Hw & Hcs & Hst) Hi Hp [Hb Hl]. pose proof (packet_words_8 _ _ Hp) as Hlen.
  destruct (head_words ws d Hp ltac:(lia)) as (b0 & x0 & x1 & x2 & x3 & x4 & x5 & x6 & x7 & y0 & y1 & y2 & y3 & y4 & y5
    & y6 & y7 & ws3 & d3 & H0 & -> & -> & Hp3).
  assert (turned (b0 ++ [x0; x1; x2; x3; x4; x5; x6; x7] ++ [y0; y1; y2; y3; y4; y5; y6; y7] ++ d3)
    = b0 ++ [x0; x1; x2; x3; y0; y1; y2; y3] ++ [x4; x5; x6; x7; ECHO_REPLY; y5; y6; y7] ++ d3) as ->.
  { clear -H0. do 8 (destruct b0 as [|? b0]; [done|]). by destruct b0. }
  apply Forall_app in Hb as [_ [_ [Hb2 Hb3]%Forall_app]%Forall_app]. apply (Forall_drop _ 4) in Hb2. cbn [drop] in Hb2.
  assert (bytes ([y4; y5; y6; y7] ++ d3)) as Hbm by by apply Forall_app_2.
  set (v := le_val [y6; y7]). assert (0 <= v <= 65535) as Hvr.
  { subst v. unfold le_val. decompose_Forall_hyps. unfold in_width in *. change (2 ^ 8) with 256 in *. lia. }
  assert (Forall (Z.le 0) [0; 0; 256 * y4 + y5; 256 * y6 + y7]) as HA.
  { decompose_Forall_hyps. unfold in_width in *. repeat constructor; lia. }
  set (w0 := mkWord b0 (replicate 8 true) false) in *.
  set (w1 := mkWord [x0; x1; x2; x3; x4; x5; x6; x7] (replicate 8 true) false) in *.
  set (w2 := mkWord [y0; y1; y2; y3; y4; y5; y6; y7] (replicate 8 true) _) in *.
  assert (drained check_icmp_checksum icmp_check_arrive e = [W_icmp_dataOut w0; W_icmp_dataOut (reply_word_1 w1 w2)]
    ++ drained check_icmp_checksum icmp_check_arrive (mkIcmpCheckEnv (map oc [0; 0; 256 * y4 + y5; 256 * y6 + y7])
         (if last w2 then 0 else 3) (reply_word_2 w1 w2) (last w2) (last w2) CICS_0 (65536 + v) y4 y5 (ws3 ++ rest))) as ->.
  { destruct e as [s n p l c st ck ty co dd]. cbn in Hc, Hw, Hcs, Hst, Hi. subst n l c st dd.
    rewrite (drained_call _ _ _ (mkIcmpCheckEnv [0; 0; 0; 0] 1 w0 false false CICS_0 ck ty co (w1 :: w2 :: ws3 ++ rest)) []) by done.
    rewrite (drained_call _ _ _ (mkIcmpCheckEnv [0; 0; 0; 0] 2 w1 false false CICS_0 ck ty co (w2 :: ws3 ++ rest)) [W_icmp_dataOut w0]) by done.
    rewrite <- (add_message_head y0 y1 y2 y3) by done. by erewrite drained_call by reflexivity. }
  destruct Hp3 as [[-> ->]|Hp3].
  - destruct (check_end [0; 0; 256 * y4 + y5; 256 * y6 + y7] (reply_word_2 w1 w2) v y4 y5 rest HA eq_refl Hvr)
      as (e' & He' & Hd' & Heq).
    exists [w0; reply_word_1 w1 w2; reply_word_2 w1 w2], e'. split; [|split; [done|split; [done|]]].
    + constructor; [done|].
      refine (packet_more [x0; x1; x2; x3; y0; y1; y2; y3] [reply_word_2 w1 w2]
        [x4; x5; x6; x7; ECHO_REPLY; y5; y6; y7] eq_refl _).
      by refine (packet_last [x4; x5; x6; x7; ECHO_REPLY; y5; y6; y7] [] _ eq_refl).
    + rewrite <- icmp_verdict_head by done. cbn [last w2 sum16]. rewrite Z.add_0_r. cbn [app] in *. by rewrite Heq.
  - assert (last w2 = false) as Hlast by (subst w2; by destruct Hp3).
    destruct (check_rest ws3 d3 [0; 0; 256 * y4 + y5; 256 * y6 + y7] 3 (reply_word_2 w1 w2) v y4 y5 rest Hp3 Hb3 HA eq_refl Hvr)
      as (e' & He' & Hd' & Heq); [done|rewrite !length_app in Hlen; cbn [length] in Hlen; rewrite !length_app in Hl; cbn [length] in Hl; lia|].
    exists (w0 :: reply_word_1 w1 w2 :: reply_word_2 w1 w2 :: ws3), e'. split; [|split; [done|split; [done|]]].
    + constructor; [done|].
      refine (packet_more [x0; x1; x2; x3; y0; y1; y2; y3] (reply_word_2 w1 w2 :: ws3)
        ([x4; x5; x6; x7; ECHO_REPLY; y5; y6; y7] ++ d3) eq_refl _).
      unfold reply_word_2. rewrite Hlast. by refine (packet_more [x4; x5; x6; x7; ECHO_REPLY; y5; y6; y7] ws3 d3 eq_refl _).
    + rewrite Hlast, Heq, <- icmp_verdict_head by done. done.
Qed.

(** All packets, one after the other. *)
Lemma check_packets D e :
  packets (icmp_dataIn e) D -> Forall icmp_headed D -> check_idle e ->
  let w := drained check_icmp_checksum icmp_check_arrive e in
  packets (icmp_check_words w) (map turned D) /\ icmp_valids w = map echo_valid D /\
  icmp_checksums w = map (fun d => reply_checksum (checksum_field d)) (List.filter echo_valid D).
Proof.
  intros Hp. remember (icmp_dataIn e) as ws eqn:Hi. revert e Hi.
  induction Hp as [|ws d ws' D Hw Hp IH]; intros e Hi HD He; cbv zeta.
  - destruct He as (_ & Hw & Hc & _). rewrite drained_stuck; [by split_and!; constructor|].
    unfold check_icmp_checksum. by rewrite Hw, Hc, <- Hi.
  - apply Forall_cons_1 in HD as [Hd HD].
    destruct (check_packet e ws d ws' He (eq_sym Hi) Hw Hd) as (out & e' & Ho & He' & Hi' & ->).
    destruct (IH e' (eq_sym Hi') HD He') as (I1 & I2 & I3). cbv zeta in *.
    unfold icmp_check_words, icmp_valids, icmp_checksums in *. rewrite !omap_app, I2, I3.
    assert (forall ws, omap (fun x => match x with W_icmp_dataOut wd => Some wd | _ => None end) (map W_icmp_dataOut ws) = ws
      /\ omap (fun x => match x with W_ValidFifoOut b => Some b | _ => None end) (map W_icmp_dataOut ws) = []
      /\ omap (fun x => match x with W_checksumFifoOut c => Some c | _ => None end) (map W_icmp_dataOut ws) = []) as Hom.
    { clear. induction ws as [|w ws (H1 & H2 & H3)]; [done|]. cbn. by rewrite H1, H2, H3. }
    destruct (Hom out) as (-> & -> & ->). unfold icmp_verdict. cbn [map List.filter].
    destruct (echo_valid d); cbn [omap list_omap app map]; (split_and!; [by constructor|done|done]).
Qed.

(** ** [dropper] *)
Lemma icmp_dropper_rest d ws rest vs :
  framed ws ->
  drained dropper icmp_dropper_arrive (mkIcmpDropperEnv false d (ws ++ rest) vs)
  = when (negb d) ws ++ drained dropper icmp_dropper_arrive (mkIcmpDropperEnv true false rest vs).
Proof.
  induction 1 as [w Hl|w ws Hl _ IH]; cbn [app]; (erewrite drained_call by reflexivity); cbn; rewrite Hl;
    [by destruct d|]. rewrite IH. by destruct d.
Qed.

Lemma icmp_dropper_packets {X} (f : X -> list Z) (valid : X -> bool) ws (D : list X) :
  packets ws (map f D) ->
  packets (drained dropper icmp_dropper_arrive (mkIcmpDropperEnv true false ws (map valid D))) (map f (List.filter valid D)).
Proof.
  revert ws. induction D as [|d D IH]; intros ws Hp.
  - inversion Hp; subst. rewrite drained_stuck by done. constructor.
  - cbn [map] in Hp. apply packets_inv in Hp as (ws1 & rest & -> & Hw & Hrest).
    assert (drained dropper icmp_dropper_arrive (mkIcmpDropperEnv true false (ws1 ++ rest) (map valid (d :: D)))
      = when (valid d) ws1 ++ drained dropper icmp_dropper_arrive (mkIcmpDropperEnv true false rest (map valid D))) as ->.
    { destruct (packet_framed _ _ Hw) as [w Hl|w ws Hl Hf]; cbn [app map]; (erewrite drained_call by reflexivity); cbn;
        rewrite Hl; [by destruct (valid d)|]. rewrite icmp_dropper_rest by done. by destruct (valid d). }
    cbn [List.filter]. destruct (valid d); cbn [map when app]; [constructor; [done|]|]; by apply IH.
Qed.

(** ** [insertChecksum] *)
Definition checksum_inserted (c : Z) (d : list Z) : list Z := take 22 d ++ le_bytes 2 c ++ drop 24 d.

Lemma echo_insert_rest n ws rest cs :
  framed ws -> 3 <= n -> n + Z.of_nat (length ws) <= 65536 ->
  drained echo_insert echo_arrive (mkEchoInsertEnv n (ws ++ rest) cs)
  = ws ++ drained echo_insert echo_arrive (mkEchoInsertEnv 0 rest cs).
Proof.
  intros Hf. revert n. induction Hf as [w Hl|w ws Hl Hf IH]; intros n Hn Hs; cbn [app].
  - rewrite (drained_call _ _ _ (mkEchoInsertEnv 0 rest cs) [w]); [done|].
    unfold echo_insert, insertChecksum. cbn [ic_wordCount ei_wordCount ei_data ei_checksums].
    rewrite !(proj2 (Z.eqb_neq _ _)) by lia. cbn. by rewrite Hl.
  - cbn [length] in Hs. assert (1 <= Z.of_nat (length ws)) by (destruct Hf; simpl; lia).
    rewrite (drained_call _ _ _ (mkEchoInsertEnv (n + 1) (ws ++ rest) cs) [w]); [by rewrite IH by lia|].
    unfold echo_insert, insertChecksum. cbn [ic_wordCount ei_wordCount ei_data ei_checksums].
    rewrite !(proj2 (Z.eqb_neq _ _)) by lia. cbn -[wrap]. rewrite Hl, wrap_small by (unfold in_width; lia). done.
Qed.

Lemma echo_insert_packet ws d rest c cs :
  packet ws d -> 24 < Z.of_nat (length d) < 65536 ->
  exists ws', packet ws' (checksum_inserted c d) /\
    drained echo_insert echo_arrive (mkEchoInsertEnv 0 (ws ++ rest) (c :: cs))
    = ws' ++ drained echo_insert echo_arrive (mkEchoInsertEnv 0 rest cs).
Proof.
  intros Hp Hl. pose proof (packet_words_8 _ _ Hp) as Hlen.
  destruct (packet_word_8 _ _ Hp ltac:(lia)) as (b0 & ws1 & d1 & H0 & -> & -> & Hp1). rewrite length_app in Hl.
  destruct (packet_word_8 _ _ Hp1 ltac:(lia)) as (b1 & ws2 & d2 & H1 & -> & -> & Hp2). rewrite length_app in Hl.
  destruct (packet_word_8 _ _ Hp2 ltac:(lia)) as (b2 & ws3 & d3 & H2 & -> & -> & Hp3). rewrite length_app in Hl.
  destruct (eight b2 H2) as (y0 & y1 & y2 & y3 & y4 & y5 & y6 & y7 & ->).
  set (w0 := mkWord b0 (replicate 8 true) false). set (w1 := mkWord b1 (replicate 8 true) false).
  set (w2 := mkWord [y0; y1; y2; y3; y4; y5; y6; y7] (replicate 8 true) false).
  exists (w0 :: w1 :: with_icmp_checksum c w2 :: ws3). split.
  - assert (checksum_inserted c (b0 ++ b1 ++ [y0; y1; y2; y3; y4; y5; y6; y7] ++ d3)
      = b0 ++ b1 ++ ([y0; y1; y2; y3; y4; y5] ++ le_bytes 2 c) ++ d3) as ->.
    { clear -H0 H1. do 8 (destruct b0 as [|? b0]; [done|]). destruct b0; [|done].
      do 8 (destruct b1 as [|? b1]; [done|]). by destruct b1. }
    constructor; [done|]. constructor; [done|].
    by refine (packet_more ([y0; y1; y2; y3; y4; y5] ++ le_bytes 2 c) ws3 d3 eq_refl _).
  - cbn [app].
    rewrite (drained_call _ _ _ (mkEchoInsertEnv 1 (w1 :: w2 :: ws3 ++ rest) (c :: cs)) [w0]) by done.
    rewrite (drained_call _ _ _ (mkEchoInsertEnv 2 (w2 :: ws3 ++ rest) (c :: cs)) [w1]) by done.
    rewrite (drained_call _ _ _ (mkEchoInsertEnv 3 (ws3 ++ rest) cs) [with_icmp_checksum c w2]) by done.
    rewrite echo_insert_rest; [done|by eapply packet_framed|lia|]. rewrite !length_app in Hlen. simpl length in Hlen, Hl. lia.
Qed.

Lemma echo_insert_packets {X} (f : X -> list Z) (c : X -> Z) ws (D : list X) :
  packets ws (map f D) -> Forall (fun x => 24 < Z.of_nat (length (f x)) < 65536) D ->
  packets (drained echo_insert echo_arrive (mkEchoInsertEnv 0 ws (map c D))) (map (fun x => checksum_inserted (c x) (f x)) D).
Proof.
  revert ws. induction D as [|d D IH]; intros ws Hp HD.
  - inversion Hp; subst. rewrite drained_stuck by done. constructor.
  - cbn [map] in Hp. apply packets_inv in Hp as (ws1 & rest & -> & Hw & Hrest). apply Forall_cons_1 in HD as [Hd HD].
    destruct (echo_insert_packet ws1 (f d) rest (c d) (map c D) Hw Hd) as (ws' & Hp' & Heq). cbn [map]. rewrite Heq.
    constructor; [done|]. by apply IH.
Qed.

Lemma checksum_inserted_reply d : (24 <= length d)%nat -> checksum_inserted (reply_checksum (checksum_field d)) (turned d) = echo_reply d.
Proof.
  intros Hl. destruct (icmp_split d Hl) as (h & s0 & s1 & s2 & s3 & t0 & t1 & t2 & t3 & ty & co & c0 & c1 & r & Hh & ->).
  destruct (icmp_parts h s0 s1 s2 s3 t0 t1 t2 t3 ty co c0 c1 r Hh) as (_ & _ & _ & -> & -> & ->).
  do 12 (destruct h as [|? h]; [done|]). by destruct h.
Qed.

Lemma turned_length d : (24 <= length d)%nat -> length (turned d) = length d.
Proof.
  intros Hl. unfold turned. rewrite !length_app, length_take, !field_length, length_drop by lia. cbn [length]. lia.
Qed.

(** ** The connected stages *)
Record icmp_run := mkIcmpRun {
  ic_check : list (option net_axis); ic_drop : list (option icmp_dropper_arrival); ic_insert : list (option echo_arrival)
}.
Definition icmp_check_out (i : icmp_run) := output check_icmp_checksum icmp_check_arrive (ic_check i) icmp_check_init.
Definition icmp_drop_out (i : icmp_run) := output dropper icmp_dropper_arrive (ic_drop i) icmp_dropper_init.
Definition icmp_insert_out (i : icmp_run) := output echo_insert echo_arrive (ic_insert i) echo_insert_init.

Definition icmp_dropper_words_in (l : list icmp_dropper_arrival) : list net_axis :=
  omap (fun a => match a with A_icmpDropperData w => Some w | _ => None end) l.
Definition icmp_dropper_valids_in (l : list icmp_dropper_arrival) : list bool :=
  omap (fun a => match a with A_icmpDropperValid b => Some b | _ => None end) l.
Definition echo_words_in (l : list echo_arrival) : list net_axis :=
  omap (fun a => match a with A_echoData w => Some w | _ => None end) l.
Definition echo_checksums_in (l : list echo_arrival) : list Z :=
  omap (fun a => match a with A_echoChecksum c => Some c | _ => None end) l.

Record icmp_linked (i : icmp_run) : Prop := {
  ik_buffer : icmp_dropper_words_in (arrivals (ic_drop i)) = icmp_check_words (icmp_check_out i);
  ik_valids : icmp_dropper_valids_in (arrivals (ic_drop i)) = icmp_valids (icmp_check_out i);
  ik_data : echo_words_in (arrivals (ic_insert i)) = icmp_drop_out i;
  ik_checksums : echo_checksums_in (arrivals (ic_insert i)) = icmp_checksums (icmp_check_out i)
}.

Lemma check_arrivals l e :
  arrive_all icmp_check_arrive l e = e <| icmp_dataIn := icmp_dataIn e ++ l |>.
Proof.
  revert e. induction l as [|w l IH]; intros e; unfold arrive_all in *; simpl; [destruct e; cbn; by rewrite app_nil_r|].
  rewrite IH. destruct e. cbn. by rewrite <- app_assoc.
Qed.

Lemma icmp_dropper_arrivals l f d ws vs :
  arrive_all icmp_dropper_arrive l (mkIcmpDropperEnv f d ws vs) = mkIcmpDropperEnv f d (ws ++ icmp_dropper_words_in l) (vs ++ icmp_dropper_valids_in l).
Proof.
  revert ws vs. induction l as [|[x|x] l IH]; intros ws vs; unfold arrive_all in *; simpl;
    [by rewrite !app_nil_r|rewrite IH; by rewrite <- app_assoc..].
Qed.

Lemma echo_arrivals l n ws cs :
  arrive_all echo_arrive l (mkEchoInsertEnv n ws cs) = mkEchoInsertEnv n (ws ++ echo_words_in l) (cs ++ echo_checksums_in l).
Proof.
  revert ws cs. induction l as [|[x|x] l IH]; intros ws cs; unfold arrive_all in *; simpl;
    [by rewrite !app_nil_r|rewrite IH; by rewrite <- app_assoc..].
Qed.

Lemma run_check (i : icmp_run) D :
  packets (arrivals (ic_check i)) D -> Forall icmp_headed D ->
  packets (icmp_check_words (icmp_check_out i)) (map turned D) /\ icmp_valids (icmp_check_out i) = map echo_valid D /\
  icmp_checksums (icmp_check_out i) = map (fun d => reply_checksum (checksum_field d)) (List.filter echo_valid D).
Proof.
  intros Hin HD. unfold icmp_check_out. rewrite output_drained, check_arrivals. by apply check_packets.
Qed.

Section Run.
Variable i : icmp_run.
Hypothesis linked : icmp_linked i.

Lemma drop_out_drained :
  icmp_drop_out i = drained dropper icmp_dropper_arrive
    (mkIcmpDropperEnv true false (icmp_check_words (icmp_check_out i)) (icmp_valids (icmp_check_out i))).
Proof.
  unfold icmp_drop_out, icmp_dropper_init. rewrite output_drained, icmp_dropper_arrivals. cbn [app].
  by rewrite (ik_buffer i linked), (ik_valids i linked).
Qed.

Lemma insert_out_drained :
  icmp_insert_out i = drained echo_insert echo_arrive
    (mkEchoInsertEnv 0 (icmp_drop_out i) (icmp_checksums (icmp_check_out i))).
Proof.
  unfold icmp_insert_out, echo_insert_init. rewrite output_drained, echo_arrivals. cbn [app].
  by rewrite (ik_data i linked), (ik_checksums i linked).
Qed.
End Run.

Lemma Forall_selected {X} (p : X -> bool) l : Forall (fun x => p x = true) (List.filter p l).
Proof. induction l as [|x l IH]; [constructor|]. cbn. destruct (p x) eqn:Hx; [by constructor|done]. Qed.


(** ** A request that ends with its checksum *)

(** All but the first of the packets with the number of the one before. *)
Fixpoint one_late (c : Z) (D : list (list Z)) : list (list Z) :=
  match D with
  | [] => []
  | d :: D => checksum_inserted c (turned d) :: one_late (reply_checksum (checksum_field d)) D
  end.


Lemma echo_insert_short ws s rest c cs :
  packet ws s -> length s = 24%nat ->
  exists ws', packet ws' (checksum_inserted c s) /\
    drained echo_insert echo_arrive (mkEchoInsertEnv 0 (ws ++ rest) (c :: cs))
    = ws' ++ drained echo_insert echo_arrive (mkEchoInsertEnv 3 rest cs).
Proof.
  intros Hp Hl.
  destruct (head_words ws s Hp ltac:(lia)) as (b0 & x0 & x1 & x2 & x3 & x4 & x5 & x6 & x7 & y0 & y1 & y2 & y3 & y4 & y5
    & y6 & y7 & ws3 & d3 & H0 & -> & -> & Hp3).
  rewrite !length_app in Hl. cbn [length] in Hl.
  destruct Hp3 as [[-> ->]|Hp3]; [|apply packet_nonempty in Hp3; destruct d3; [done|cbn in Hl; lia]].
  set (w0 := mkWord b0 (replicate 8 true) false).
  set (w1 := mkWord [x0; x1; x2; x3; x4; x5; x6; x7] (replicate 8 true) false).
  set (w2 := mkWord [y0; y1; y2; y3; y4; y5; y6; y7] (replicate 8 true) true).
  exists [w0; w1; with_icmp_checksum c w2]. split.
  - assert (checksum_inserted c (b0 ++ [x0; x1; x2; x3; x4; x5; x6; x7] ++ [y0; y1; y2; y3; y4; y5; y6; y7] ++ [])
      = b0 ++ [x0; x1; x2; x3; x4; x5; x6; x7] ++ ([y0; y1; y2; y3; y4; y5] ++ le_bytes 2 c)) as ->.
    { clear -H0. do 8 (destruct b0 as [|? b0]; [done|]). by destruct b0. }
    constructor; [done|].
    refine (packet_more [x0; x1; x2; x3; x4; x5; x6; x7] _ _ eq_refl _).
    by refine (packet_last ([y0; y1; y2; y3; y4; y5] ++ le_bytes 2 c) [] _ eq_refl).
  - cbn [app].
    rewrite (drained_call _ _ _ (mkEchoInsertEnv 1 (w1 :: w2 :: rest) (c :: cs)) [w0]) by done.
    rewrite (drained_call _ _ _ (mkEchoInsertEnv 2 (w2 :: rest) (c :: cs)) [w1]) by done.
    by rewrite (drained_call _ _ _ (mkEchoInsertEnv 3 rest cs) [with_icmp_checksum c w2]) by done.
Qed.

Lemma echo_insert_late ws D c :
  packets ws (map turned D) -> Forall icmp_packet D ->
  packets (drained echo_insert echo_arrive (mkEchoInsertEnv 0 ws (c :: map (fun d => reply_checksum (checksum_field d)) D)))
    (one_late c D).
Proof.
  revert ws c. induction D as [|d D IH]; intros ws c Hp HD.
  - inversion Hp; subst. rewrite drained_stuck by done. constructor.
  - cbn [map] in Hp. apply packets_inv in Hp as (ws1 & rest & -> & Hw & Hrest). apply Forall_cons_1 in HD as [[_ Hd] HD].
    destruct (echo_insert_packet ws1 (turned d) rest c (map (fun d => reply_checksum (checksum_field d)) (d :: D)) Hw)
      as (ws' & Hp' & Heq); [by rewrite turned_length by lia|].
    rewrite Heq. constructor; [done|]. by apply IH.
Qed.

(** The reply without its checksum replaced is not valid. *)
Lemma turned_invalid d : icmp_packet d -> echo_valid d = true -> rfc1071 (icmp_message (turned d)) <> 0.
Proof.
  intros [Hb Hl] Hv H0. unfold echo_valid in Hv. apply andb_true_iff in Hv as [[Hv Ht]%andb_true_iff Hc].
  destruct (icmp_split d ltac:(lia)) as (h & s0 & s1 & s2 & s3 & t0 & t1 & t2 & t3 & ty & co & c0 & c1 & r & Hh & ->).
  destruct (icmp_parts h s0 s1 s2 s3 t0 t1 t2 t3 ty co c0 c1 r Hh) as (Hm & H20 & H21 & _ & Htu & _).
  rewrite Hm, H20, H21, Htu in *.
  assert (icmp_message (h ++ [t0; t1; t2; t3] ++ [s0; s1; s2; s3] ++ [ECHO_REPLY; co; c0; c1] ++ r)
    = [ECHO_REPLY; co; c0; c1] ++ r) as Hmt.
  { clear -Hh. do 12 (destruct h as [|? h]; [done|]). by destruct h. }
  rewrite Hmt in H0.
  apply Forall_app in Hb as [_ [_ [_ [Hbm Hbr]%Forall_app]%Forall_app]%Forall_app]. decompose_Forall_hyps.
  unfold in_width in *. change (2 ^ 8) with 256 in *. pose proof (sum16_nonneg r Hbr) as Hsr.
  assert (ty = 8 /\ co = 0) as [-> ->] by (unfold ECHO_REQUEST in *; lia).
  apply Z.eqb_eq, rfc1071_valid in Hv; [|repeat (apply Forall_cons_2; [unfold in_width; lia|]); exact Hbr|cbn; lia].
  assert (0 < sum16 (ECHO_REPLY :: 0 :: c0 :: c1 :: r)) as Hpos.
  { assert (0 <= sum16 (ECHO_REPLY :: 0 :: c0 :: c1 :: r)) as Hnn by (unfold ECHO_REPLY; cbn; lia).
    destruct (decide (sum16 (ECHO_REPLY :: 0 :: c0 :: c1 :: r) = 0)) as [Hz|]; [|lia].
    unfold ECHO_REPLY in Hz. cbn in Hz, Hv. rewrite Z.mod_small in Hv by lia. lia. }
  apply rfc1071_valid in H0; [|repeat (apply Forall_cons_2; [unfold in_width, ECHO_REPLY; lia|]); exact Hbr|done].
  unfold ECHO_REPLY in *. cbn in Hv, H0. apply Z.mod_divide in Hv as [q Hq]; [|done]. apply Z.mod_divide in H0 as [q' Hq']; [|done]. lia.
Qed.

(** C39: a request that ends with its checksum disturbs all later replies.  It is
    answered itself, but [insertChecksum] does not see its end: the reply to the next
    request leaves with the checksum of that request, which is wrong, and every reply
    after it gets the checksum of the reply before. *)
Theorem icmp_short_request_desyncs i s d D :
  bytes s -> length s = 24%nat -> echo_valid s = true ->
  Forall icmp_packet (d :: D) -> Forall (fun d => echo_valid d = true) (d :: D) ->
  packets (arrivals (ic_check i)) (s :: d :: D) -> icmp_linked i ->
  packets (icmp_insert_out i)
    (echo_reply s :: turned d :: one_late (reply_checksum (checksum_field d)) D) /\
  rfc1071 (icmp_message (turned d)) <> 0.
Proof.
  intros Hbs Hls Hvs HD HvD Hin Hl. pose proof HD as HD0. apply Forall_cons_1 in HD0 as [Hd HD']. pose proof HvD as HvD0.
  apply Forall_cons_1 in HvD0 as [Hvd HvD'].
  assert (List.filter echo_valid (s :: d :: D) = s :: d :: D) as Hf.
  { cbn. rewrite Hvs, Hvd. do 2 f_equal. clear -HvD'. induction HvD' as [|x l Hx _ IH]; [done|]. cbn. by rewrite Hx, IH. }
  destruct (run_check i (s :: d :: D) Hin) as (Hw & Hv & Hc).
  { constructor; [split; [done|lia]|]. exact (Forall_impl _ icmp_packet_headed HD). }
  split; [|by apply turned_invalid].
  rewrite (insert_out_drained i Hl), (drop_out_drained i Hl), Hv, Hc, Hf.
  pose proof (icmp_dropper_packets turned echo_valid _ _ Hw) as Hdr. rewrite Hf in Hdr. cbn [map] in Hdr |- *.
  apply packets_inv in Hdr as (ws1 & rest & -> & Hw1 & Hr). apply packets_inv in Hr as (ws2 & rest' & -> & Hw2 & Hr).
  cbn [map].
  destruct (echo_insert_short ws1 (turned s) (ws2 ++ rest') (reply_checksum (checksum_field s))
    (map (fun d => reply_checksum (checksum_field d)) (d :: D)) Hw1) as (ws' & Hp' & Heq); [by rewrite turned_length by lia|].
  rewrite checksum_inserted_reply in Hp' by lia. cbn [map] in Heq. rewrite Heq. constructor; [done|].
  rewrite echo_insert_rest; [|by eapply packet_framed|done|].
  - constructor; [done|]. by apply echo_insert_late.
  - apply packet_words_8 in Hw2. destruct Hd as [_ Hd]. rewrite turned_length in Hw2 by lia. lia.
Qed.

(** ** Packets that cannot be delivered *)
Definition lane_total (ws : list net_axis) : Z := zsum (map (fun w => sum_lanes (data w)) ws).

Lemma sum_lanes_nonneg d : bytes d -> 0 <= sum_lanes d.
Proof.
  intros Hb. unfold sum_lanes.
  pose proof (le_val_range _ (field_bytes 6 2 d Hb)). pose proof (le_val_range _ (field_bytes 4 2 d Hb)).
  pose proof (le_val_range _ (field_bytes 2 2 d Hb)). pose proof (le_val_range _ (field_bytes 0 2 d Hb)).
  unfold in_width in *. lia.
Qed.

Lemma lane_total_nonneg ws : Forall (fun w => bytes (data w)) ws -> 0 <= lane_total ws.
Proof.
  intros Hb. apply zsum_nonneg, Forall_map. eapply Forall_impl; [|exact Hb]. intros w. apply sum_lanes_nonneg.
Qed.

(** The sum folded to 16 bits and complemented. *)
Lemma folded_checksum t :
  let c := bits 15 0 (wrap 20 (Z.lnot (fold_carry (fold_carry (wrap 20 t))))) in
  0 <= c <= 65535 /\ (wrap 20 t + c) mod 65535 = 0.
Proof.
  cbv zeta. pose proof (wrap_range 20 t ltac:(lia)) as Hx. unfold in_width in Hx. set (x := wrap 20 t) in *. clearbody x.
  assert (forall y, 0 <= y < 2 ^ 20 -> fold_carry y = y mod 65536 + y / 65536) as Hf.
  { intros y Hy. unfold fold_carry. change 65535 with (Z.ones 16). rewrite Z.land_ones, Z.shiftr_div_pow2 by lia.
    change (2 ^ 16) with 65536. wrap_lia. }
  rewrite (Hf x) by lia. rewrite Hf by (revert Hx; change (2 ^ 20) with 1048576; Z.div_mod_to_equations; lia).
  rewrite bits_0. unfold Z.lnot.
  assert (exists r q, (x mod 65536 + x / 65536) mod 65536 + (x mod 65536 + x / 65536) / 65536 = r
    /\ 0 <= r <= 65535 /\ x = r + q * 65535) as (r & q & -> & Hr & Hq).
  { eexists _, (x / 65536 + (x mod 65536 + x / 65536) / 65536). split; [done|].
    revert Hx. change (2 ^ 20) with 1048576. intros Hx. Z.div_mod_to_equations. lia. }
  assert (wrap (15 + 1) (wrap 20 (Z.pred (- r))) = 65535 - r) as -> by wrap_lia. split; [lia|].
  rewrite Hq. replace (r + q * 65535 + (65535 - r)) with ((q + 1) * 65535) by ring. by apply Z_mod_mult.
Qed.

Abbreviation unreachable := (udpPortUnreachable false false false).

Lemma calls_call n (e e1 : unreachable_env) w :
  unreachable e = (e1, w) -> calls unreachable (S n) e = ((calls unreachable n e1).1, w ++ (calls unreachable n e1).2).
Proof. intros He. by rewrite calls_S, He. Qed.

Lemma unreachable_stream ws c n rest ttl :
  framed ws ->
  calls unreachable (length ws) (mkUnreachableEnv UDP_STREAM c n false (ws ++ rest) ttl)
  = (mkUnreachableEnv UDP_CS (wrap 20 (c + lane_total ws)) n false rest ttl, map W_addIpHeader_data ws).
Proof.
  intros Hf. revert c. induction Hf as [w Hl|w ws Hl _ IH]; intros c; cbn [length app].
  - erewrite calls_call by (unfold udpPortUnreachable, set_chosen; cbn -[wrap sum_lanes]; by rewrite Hl).
    unfold lane_total, zsum. cbn. by rewrite Z.add_0_r.
  - erewrite calls_call by (unfold udpPortUnreachable, set_chosen; cbn -[wrap sum_lanes]; by rewrite Hl).
    rewrite IH. cbn [fst snd map app]. unfold lane_total, zsum. cbn [map foldr]. by rewrite wrap_add_l, <- Z.add_assoc.
Qed.

(** The checksum of the message for a packet that cannot be delivered (four words or
    more, to a closed port).  The sum is kept in 20 bits: as long as it fits, adding the
    checksum makes it 0 in one's complement arithmetic; when it does not, the checksum is
    wrong. *)
Theorem unreachable_checksum_overflows c0 n s w0 w1 w2 ws rest ttl :
  framed ws -> Forall (fun w => bytes (data w)) (w0 :: w1 :: w2 :: ws) ->
  let total := 771 + lane_total (w0 :: w1 :: w2 :: ws) in
  total < 2 ^ 32 ->
  exists c e',
    calls unreachable (5 + length ws) (mkUnreachableEnv UDP_IDLE c0 n s (w0 :: w1 :: w2 :: ws ++ rest) ttl)
    = (e', W_addIpHeader_data (mkWord [3; 3; 0; 0; 0; 0; 0; 0] (replicate 8 true) false)
        :: flat_map (fun w => [W_addIpHeader_data w; W_addIpHeader_header (data w)]) [w0; w1; w2]
        ++ map W_addIpHeader_data ws ++ [W_unreachable_checksum c]) /\
    udpState e' = UDP_IDLE /\ udpIn e' = rest /\ ((total + c) mod 65535 = 0 <-> total < 2 ^ 20).
Proof.
  intros Hf Hb total Ht. pose proof (lane_total_nonneg _ Hb) as Hnn.
  assert (0 <= total) as Htn by (unfold total; lia).
  assert (lane_total (w0 :: w1 :: w2 :: ws) = sum_lanes (data w0) + (sum_lanes (data w1) + (sum_lanes (data w2) + lane_total ws))) as Hsum by done.
  destruct (folded_checksum total) as [Hc Hm]. cbv zeta in *.
  set (c := bits 15 0 _) in *. exists c.
  exists (mkUnreachableEnv UDP_IDLE (wrap 20 (Z.lnot (fold_carry (fold_carry (wrap 20 total))))) 2 false rest ttl).
  split; [|split; [done|split; [done|]]].
  - replace (5 + length ws)%nat with (S (S (S (S (length ws + 1))))) by lia.
    erewrite calls_call by (destruct ttl; reflexivity). do 3 (erewrite calls_call by reflexivity).
    rewrite calls_add. cbn -[calls wrap sum_lanes lane_total]. rewrite unreachable_stream by done.
    cbn -[calls wrap sum_lanes lane_total]. erewrite calls_call by reflexivity. cbn -[wrap sum_lanes lane_total].
    assert (wrap 20 (wrap 20 (wrap 20 (wrap 20 (wrap 20 (sum_lanes [3; 3; 0; 0; 0; 0; 0; 0]) + sum_lanes (data w0))
      + sum_lanes (data w1)) + sum_lanes (data w2)) + lane_total ws) = wrap 20 total) as ->; [|done].
    rewrite wrap_add_l, <- !Z.add_assoc, wrap_add_l, <- !Z.add_assoc, wrap_add_l, <- !Z.add_assoc, wrap_add_l. done.
  - clearbody total c. clear -Hm Ht Htn. unfold wrap in Hm. change (2 ^ 20) with 1048576 in *. change (2 ^ 32) with 4294967296 in *.
    pose proof (Z.div_mod total 1048576 ltac:(lia)) as Hd. pose proof (Z.mod_pos_bound total 1048576 ltac:(lia)).
    apply Z.mod_divide in Hm as [q Hq]; [|done]. split; intros H0.
    + apply Z.mod_divide in H0 as [q' Hq']; [|done]. assert (total / 1048576 < 4096) by (apply Z.div_lt_upper_bound; lia).
      assert (0 <= total / 1048576) by (apply Z.div_pos; lia). lia.
    + rewrite Z.mod_small in Hq by lia. rewrite Hq. by apply Z_mod_mult.
Qed.
(** ** Two pings *)
Section IcmpWitnesses.
(** An echo request of 30 bytes and one with another sequence number and 3 more bytes. *)
Definition demo_ip : list Z := [69; 0; 0; 30; 0; 0; 0; 0; 64; 1; 0; 0; 10; 0; 0; 1; 10; 0; 0; 2].
Definition demo_ping_1 : list Z := demo_ip ++ [8; 0; 145; 151; 0; 1; 0; 1; 102; 102].
Definition demo_ping_2 : list Z := demo_ip ++ [8; 0; 46; 47; 0; 1; 0; 2; 100; 101; 102; 103; 255].
Definition demo_bad_ping : list Z := demo_ip ++ [8; 0; 1; 2; 0; 1; 0; 1; 102].
Definition demo_short : list Z := demo_ip ++ [8; 0; 247; 255].

Definition icmp_run_of (ws : list net_axis) : icmp_run :=
  let check := map Some ws in
  let out1 := output check_icmp_checksum icmp_check_arrive check icmp_check_init in
  let drop := map Some (map A_icmpDropperData (icmp_check_words out1) ++ map A_icmpDropperValid (icmp_valids out1)) in
  let out2 := output dropper icmp_dropper_arrive drop icmp_dropper_init in
  mkIcmpRun check drop (map Some (map A_echoChecksum (icmp_checksums out1) ++ map A_echoData out2)).


Lemma icmp_short_request_desyncs_witness :
  packets (icmp_insert_out (icmp_run_of (words_of [demo_short; demo_ping_1; demo_ping_2])))
    [echo_reply demo_short; turned demo_ping_1; checksum_inserted (reply_checksum (checksum_field demo_ping_1)) (turned demo_ping_2)].
Proof.
  set (D := [demo_ping_1; demo_ping_2]). set (i := icmp_run_of (words_of (demo_short :: D))).
  assert (icmp_linked i) as Hl by (constructor; by vm_compute).
  destruct (icmp_short_request_desyncs i demo_short demo_ping_1 [demo_ping_2]) as [H _].
  - repeat constructor; by vm_compute.
  - by vm_compute.
  - by vm_compute.
  - repeat constructor; by vm_compute.
  - repeat constructor; by vm_compute.
  - replace (arrivals _) with (words_of (demo_short :: D)) by by vm_compute.
    apply words_of_packets; [by apply Nat.ltb_lt|]. by repeat (constructor; [by vm_compute|]).
  - exact Hl.
  - exact H.
Defined.

(** A datagram of 64 bytes with much in it: the sum does not fit. *)
Definition demo_unreachable : list net_axis :=
  [mkWord [69; 0; 0; 64; 0; 0; 0; 0] (replicate 8 true) false; mkWord (replicate 8 200) (replicate 8 true) false;
   mkWord (replicate 8 200) (replicate 8 true) false].
Definition demo_unreachable_rest (b : Z) : list net_axis :=
  replicate 4 (mkWord (replicate 8 b) (replicate 8 true) false) ++ [mkWord (replicate 8 b) (replicate 8 true) true].

Lemma unreachable_checksum_overflows_witness :
  exists c e',
    calls unreachable 10 (unreachable_init <| udpIn := demo_unreachable ++ demo_unreachable_rest 255 ++ [] |>)
    = (e', W_addIpHeader_data (mkWord [3; 3; 0; 0; 0; 0; 0; 0] (replicate 8 true) false)
        :: flat_map (fun w => [W_addIpHeader_data w; W_addIpHeader_header (data w)]) demo_unreachable
        ++ map W_addIpHeader_data (demo_unreachable_rest 255) ++ [W_unreachable_checksum c]) /\
    (771 + lane_total (demo_unreachable ++ demo_unreachable_rest 255) + c) mod 65535 <> 0.
Proof.
  destruct (unreachable_checksum_overflows 0 0 false
    (mkWord [69; 0; 0; 64; 0; 0; 0; 0] (replicate 8 true) false) (mkWord (replicate 8 200) (replicate 8 true) false)
    (mkWord (replicate 8 200) (replicate 8 true) false) (demo_unreachable_rest 255) [] []) as (c & e' & H & _ & _ & Hc).
  - repeat constructor.
  - repeat constructor; by vm_compute.
  - by vm_compute.
  - exists c, e'. split; [exact H|]. intros H0. apply Hc in H0. by vm_compute in H0.
Defined.
End IcmpWitnesses.
