(* ===== verification/Udp.v ===== *)
(** * UDP over IPv4 ([udp/udp.hpp], [udp/udp.cpp], [ipv4/ipv4.cpp])

    The transport without connections: [split_tx_meta] and [generate_udp] put a UDP
    header in front of the data of the application, [ipv4_generate_ipv4] the IP header;
    [process_ipv4] and [ipv4_drop_optional_ip_header] read and remove the IP header,
    [process_udp] the UDP header, and [merge_rx_meta] tells the application where the
    data come from.  Addresses are [ap_uint<128>] towards the application and
    [ap_uint<32>] towards IP. *)

From S2P Require Import Prelude Streams Words Shifters ToeTypes Headers RxEngine RxDatapath.

(** ** The metadata *)
Definition UDP_HEADER_SIZE : Z := 64.
Definition UDP_PROTOCOL : Z := 17.

Record ipUdpMeta := mkIpUdpMeta { iu_their_address : Z; iu_their_port : Z; iu_my_port : Z; iu_length : Z }.
Record udpMeta := mkUdpMeta { um_their_port : Z; um_my_port : Z; um_length : Z; um_valid : bool }.
Record ipv4Meta := mkIpv4Meta { i4_their_address : Z; i4_length : Z }.

(** The constructor of [ipv4Meta] for an [ap_uint<128>]: the upper 32 bits. *)
Definition ipv4Meta_128 (addr len : Z) : ipv4Meta := mkIpv4Meta (bits 127 96 addr) len.

(** ** [udpHeader] *)
Module UdpHeader.
Definition setSrcPort (port h : Z) : Z := set_bits 15 0 (reverse16 port) h.
Definition getSrcPort (h : Z) : Z := reverse16 (bits 15 0 h).
Definition setDstPort (port h : Z) : Z := set_bits 31 16 (reverse16 port) h.
Definition getDstPort (h : Z) : Z := reverse16 (bits 31 16 h).
Definition setLength (len h : Z) : Z := set_bits 47 32 (reverse16 len) h.
Definition getLength (h : Z) : Z := reverse16 (bits 47 32 h).
End UdpHeader.

Section Udp.
Context {WW : WordWidth}.

(** The contents of local words that the code leaves unassigned. *)
Variable garbage : list Z.

(** ** A header in front of the data

    [generate_udp] and [ipv4_generate_ipv4] are the same state machine; they differ in
    the header and in what is assigned to it. *)
Inductive gh_stateType := GH_META | GH_HEADER | GH_PARTIAL_HEADER | GH_BODY.

Record gh_env (M : Type) := mkGhEnv {
  gh_state : gh_stateType; gh_header : packetHeader; gh_metaIn : stream M; gh_dataIn : stream net_axis
}.
#[local] Arguments mkGhEnv {M} _ _ _ _ : assert.

Section GenerateHeader.
Context {M : Type} (HEADER_SIZE : Z) (set_header : M -> Z -> Z).

Definition generate_header (e : gh_env M) : gh_env M * list net_axis :=
  let '(mkGhEnv state header metas ws) := e in
  match state with
  | GH_META =>
      match metas with
      | [] => (e, [])
      | meta :: metas =>
          let header := clear header in
          (mkGhEnv (if WIDTH <=? HEADER_SIZE then GH_HEADER else GH_PARTIAL_HEADER)
             (header <| ph_header := set_header meta (ph_header header) |>) metas ws, [])
      end
  | GH_HEADER =>
      let '(header, sendData, remainingLength) := consumeWord HEADER_SIZE garbage header in
      (mkGhEnv (if remainingLength <? WIDTH / 8 then GH_PARTIAL_HEADER else GH_HEADER) header metas ws,
       [mkWord sendData (to_lanes lanes 4294967295) false])
  | GH_PARTIAL_HEADER =>
      match ws with
      | [] => (e, [])
      | currWord :: ws =>
          let '(header, sendData, _) := consumeWord HEADER_SIZE (data currWord) header in
          (mkGhEnv (if last currWord then GH_META else GH_BODY) header metas ws,
           [mkWord sendData (keep currWord) (last currWord)])
      end
  | GH_BODY =>
      match ws with
      | [] => (e, [])
      | currWord :: ws => (mkGhEnv (if last currWord then GH_META else GH_BODY) header metas ws, [currWord])
      end
  end.
End GenerateHeader.

(** ** [generate_udp] *)
Definition set_udp_header (meta : udpMeta) (h : Z) : Z :=
  UdpHeader.setLength (um_length meta)
    (UdpHeader.setSrcPort (um_my_port meta) (UdpHeader.setDstPort (um_their_port meta) h)).

Definition generate_udp : gh_env udpMeta -> gh_env udpMeta * list net_axis :=
  generate_header UDP_HEADER_SIZE set_udp_header.

(** [udpHeader] assigns nothing when it is constructed. *)
Definition generate_udp_init (h : Z) : gh_env udpMeta := mkGhEnv GH_META (mkPacketHeader false 0 h) [] [].

(** ** [ipv4_generate_ipv4] *)
Section Ipv4Generate.
Variables (local_ipv4_address protocol : Z).

Definition set_ipv4_header (meta : ipv4Meta) (h : Z) : Z :=
  let length := wrap 16 (i4_length meta + 20) in
  Ipv4.setProtocol protocol
    (Ipv4.setSrcAddr local_ipv4_address
       (Ipv4.setDstAddr (i4_their_address meta) (Ipv4.setLength length h))).

Definition ipv4_generate_ipv4 : gh_env ipv4Meta -> gh_env ipv4Meta * list net_axis :=
  generate_header IPV4_HEADER_SIZE set_ipv4_header.
End Ipv4Generate.

Definition ipv4_generate_init (h : Z) : gh_env ipv4Meta := mkGhEnv GH_META (mkPacketHeader false 0 (Ipv4.init h)) [] [].

(** ** [split_tx_meta] *)
Inductive split_tx_write := W_ipMetaOut (m : ipv4Meta) | W_udpMetaOut (m : udpMeta).

Definition split_tx_meta (metaIn : stream ipUdpMeta) : stream ipUdpMeta * list split_tx_write :=
  match metaIn with
  | [] => (metaIn, [])
  | meta :: rest =>
      let tempLen := wrap 16 (iu_length meta + 8) in
      (rest, [W_ipMetaOut (ipv4Meta_128 (iu_their_address meta) tempLen);
              W_udpMetaOut (mkUdpMeta (iu_their_port meta) (iu_my_port meta) tempLen true)])
  end.

(** ** [process_ipv4] *)
Inductive udp_ipv4_write := W_ipv4DropLength (n : Z) | W_ipv4Meta (m : ipv4Meta) | W_ipv4Data (w : net_axis).

(** The static variables are those of [toe_process_ipv4]. *)
Definition process_ipv4 (e : process_ipv4_env) : process_ipv4_env * list udp_ipv4_write :=
  match pi_dataIn e with
  | [] => (e, [])
  | currWord :: rest =>
      let header := parseWord IPV4_HEADER_SIZE (data currWord) (pi_header e) in
      let h := ph_header header in
      let ready := ph_ready header in
      let w :=
        when ready
          (W_ipv4Data currWord ::
           when (negb (pi_metaWritten e))
             [W_ipv4DropLength (wrap 4 (Ipv4.getHeaderLength h - pi_headerWordsDropped e));
              W_ipv4Meta (mkIpv4Meta (Ipv4.getSrcAddr h) (Ipv4.getLength h))]) in
      (if last currWord
       then mkProcessIpv4Env (clear header) 0 false rest
       else mkProcessIpv4Env header (wrap 4 (pi_headerWordsDropped e + WIDTH / 32))
              (pi_metaWritten e || ready) rest,
       w)
  end.

(** ** [process_udp] *)
Record process_udp_env := mkProcessUdpEnv { pu_header : packetHeader; pu_metaWritten : bool; pu_input : stream net_axis }.
Definition process_udp_init (h : Z) : process_udp_env := mkProcessUdpEnv (mkPacketHeader false 0 h) false [].

Inductive process_udp_write := W_rxUdpMeta (m : udpMeta) | W_rxUdpData (w : net_axis).

Definition process_udp (regListenPort : Z) (e : process_udp_env) : process_udp_env * list process_udp_write :=
  match pu_input e with
  | [] => (e, [])
  | currWord :: rest =>
      let header := parseWord UDP_HEADER_SIZE (data currWord) (pu_header e) in
      let h := ph_header header in
      let dstPort := UdpHeader.getDstPort h in
      let w :=
        when (pu_metaWritten e && (dstPort =? regListenPort) && (WIDTH <=? UDP_HEADER_SIZE)) [W_rxUdpData currWord]
        ++ when (ph_ready header)
             (when ((dstPort =? regListenPort) && (UDP_HEADER_SIZE <? WIDTH)) [W_rxUdpData currWord]
              ++ when (negb (pu_metaWritten e))
                   [W_rxUdpMeta (mkUdpMeta (UdpHeader.getSrcPort h) dstPort (UdpHeader.getLength h) (dstPort =? regListenPort))]) in
      (if last currWord
       then mkProcessUdpEnv (clear header) false rest
       else mkProcessUdpEnv header (pu_metaWritten e || ph_ready header) rest,
       w)
  end.

(** ** [merge_rx_meta]: the address is extended with zeros *)
Record merge_rx_env := mkMergeRxEnv { ipMetaIn4 : stream ipv4Meta; udpMetaIn : stream udpMeta }.

Definition merge_rx_meta (e : merge_rx_env) : merge_rx_env * list ipUdpMeta :=
  match ipMetaIn4 e, udpMetaIn e with
  | meta0 :: ips, meta1 :: udps =>
      (mkMergeRxEnv ips udps,
       when (um_valid meta1)
         [mkIpUdpMeta (i4_their_address meta0) (um_their_port meta1) (um_my_port meta1) (um_length meta1)])
  | _, _ => (e, [])
  end.
End Udp.

Arguments mkGhEnv {M} _ _ _ _ : assert.
Arguments gh_state {M} _ : assert.
Arguments gh_header {M} _ : assert.
Arguments gh_metaIn {M} _ : assert.
Arguments gh_dataIn {M} _ : assert.

(** ** The instances of the shared templates *)
Section UdpTemplates.
Context {WW : WordWidth}.
Definition udp_lshiftWordByOctet : nat -> lshift_env -> lshift_env * list net_axis := lshiftWordByOctet.
Definition ipv4_lshiftWordByOctet : nat -> lshift_env -> lshift_env * list net_axis := lshiftWordByOctet.
Definition udp_rshiftWordByOctet : nat -> rshift_env -> rshift_env * list net_axis := rshiftWordByOctet.
Definition ipv4_drop_optional_ip_header : doh_env -> doh_env * list net_axis := drop_optional_ip_header.
End UdpTemplates.
