(* ===== verification/UdpPath.v ===== *)
(** * UDP: what is sent is received

    The processes of Udp.v as deterministic processes, each with a lemma on what it
    makes of a sequence of packets, for words of 512 bits, and their connection as in
    [udp] and [ipv4]: the messages of one application reach the other. *)

From S2P Require Import Prelude Streams Words Shifters ToeTypes Checksum Headers RxEngine RxDatapath.
From S2P Require Import RxFrontend RxPath TxEngine TxDatapath TxBackend EthDatapath MacEncode Udp.

(** ** The processes *)
Section UdpProcesses.
Context {WW : WordWidth}.
Variable garbage : list Z.

Definition split_arrive (m : ipUdpMeta) (metas : stream ipUdpMeta) : stream ipUdpMeta := metas ++ [m].

#[export, refine] Instance split_kahn : KahnProcess split_tx_meta split_arrive := {
  kahn_work metas := length metas; kahn_progress := _; kahn_diamond := _
}.
Proof.
  - intros [|m ms]; [by left|right; simpl; lia].
  - intros a [|m ms]; [by left|by right].
Defined.

#[export, refine] Instance udp_ipv4_kahn : KahnProcess process_ipv4 process_ipv4_arrive := {
  kahn_work e := length (pi_dataIn e); kahn_progress := _; kahn_diamond := _
}.
Proof.
  - intros [h n m [|w ws]]; [by left|right]. unfold process_ipv4. simpl. destruct (last w); simpl; lia.
  - intros a [h n m [|w ws]]; [by left|right]. unfold process_ipv4. simpl. by destruct (last w).
Defined.

Definition process_udp_arrive (w : net_axis) (e : process_udp_env) : process_udp_env :=
  mkProcessUdpEnv (pu_header e) (pu_metaWritten e) (pu_input e ++ [w]).

#[export, refine] Instance process_udp_kahn port : KahnProcess (process_udp port) process_udp_arrive := {
  kahn_work e := length (pu_input e); kahn_progress := _; kahn_diamond := _
}.
Proof.
  - intros [h m [|w ws]]; [by left|right]. unfold process_udp. simpl. destruct (last w); simpl; lia.
  - intros a [h m [|w ws]]; [by left|right]. unfold process_udp. simpl. by destruct (last w).
Defined.

Inductive merge_arrival := A_rxIpMeta (m : ipv4Meta) | A_rxUdpMeta (m : udpMeta).
Definition merge_arrive (a : merge_arrival) (e : merge_rx_env) : merge_rx_env :=
  match a with
  | A_rxIpMeta m => mkMergeRxEnv (ipMetaIn4 e ++ [m]) (udpMetaIn e)
  | A_rxUdpMeta m => mkMergeRxEnv (ipMetaIn4 e) (udpMetaIn e ++ [m])
  end.

#[export, refine] Instance merge_kahn : KahnProcess merge_rx_meta merge_arrive := {
  kahn_work e := length (udpMetaIn e); kahn_progress := _; kahn_diamond := _
}.
Proof.
  - intros [[|i il] [|u us]]; try (by left). right. simpl. lia.
  - intros [m|m] [[|i il] [|u us]]; (by left) || (by right).
Defined.

Inductive gh_arrival (M : Type) := A_ghMeta (m : M) | A_ghData (w : net_axis).
#[global] Arguments A_ghMeta {M} m : assert.
#[global] Arguments A_ghData {M} w : assert.

Definition gh_arrive {M} (a : gh_arrival M) (e : gh_env M) : gh_env M :=
  match a with
  | A_ghMeta m => mkGhEnv (gh_state e) (gh_header e) (gh_metaIn e ++ [m]) (gh_dataIn e)
  | A_ghData w => mkGhEnv (gh_state e) (gh_header e) (gh_metaIn e) (gh_dataIn e ++ [w])
  end.

Hypothesis lanes64 : lanes = 64%nat.

(** A header shorter than a word is sent with the first word of the data: the state
    HEADER, in which words of the header alone are sent, is left after one or two. *)
Section Generate.
Context {M : Type} (HEADER_SIZE : Z) (set_header : M -> Z -> Z).
Hypothesis size : 0 < HEADER_SIZE < 512.

Definition gh_pending (e : gh_env M) : nat :=
  match gh_state e with GH_HEADER => S (sends (ph_idx (gh_header e))) | _ => 0%nat end.

Lemma gh_header_call hd ms ws :
  let e := mkGhEnv GH_HEADER hd ms ws in
  exists st hd' w, generate_header garbage HEADER_SIZE set_header e = (mkGhEnv st hd' ms ws, [w]) /\
    (gh_pending (mkGhEnv st hd' ms ws) < gh_pending e)%nat.
Proof.
  destruct hd as [r i h]. unfold generate_header, gh_pending, sends. cbn [gh_state gh_header ph_idx].
  rewrite (WIDTH_512 lanes64). destruct (Z.ltb_spec i 0) as [Hi|Hi].
  - destruct (consume_negative lanes64 HEADER_SIZE garbage r i h size Hi) as (j & w' & k & -> & Hj).
    destruct (k <? 512 / 8); eexists _, _, _; (split; [reflexivity|]); cbn; try lia;
      rewrite (proj2 (Z.ltb_ge j 0)) by done; lia.
  - destruct (consume_once lanes64 HEADER_SIZE garbage r i h size Hi) as (j & w' & -> & _).
    change (0 <? 512 / 8) with true. eexists _, _, _; (split; [reflexivity|]); cbn; lia.
Qed.

#[export, refine] Instance gh_kahn : KahnProcess (generate_header garbage HEADER_SIZE set_header) gh_arrive := {
  kahn_work e := (4 * length (gh_metaIn e) + length (gh_dataIn e) + gh_pending e)%nat;
  kahn_progress := _; kahn_diamond := _
}.
Proof.
  - intros [[] [r i h] ms ws].
    + destruct ms as [|m ms]; [by left|right]. unfold generate_header, gh_pending. cbn. destruct (_ <=? _); simpl; lia.
    + right. destruct (gh_header_call (mkPacketHeader r i h) ms ws) as (st & hd' & w & -> & H). simpl in *. lia.
    + destruct ws as [|w ws]; [by left|right]. unfold generate_header, gh_pending. cbn [gh_state gh_metaIn gh_dataIn gh_header].
      destruct (consumeWord _ _ _) as [[h' d'] n']. cbn. destruct (last w); simpl; lia.
    + destruct ws as [|w ws]; [by left|right]. unfold gh_pending. cbn. destruct (last w); simpl; lia.
  - intros a [[] h ms ws].
    + destruct ms as [|m ms]; (by left) || (right; by destruct a).
    + right. unfold generate_header. destruct a; cbn; by destruct (consumeWord _ _ _) as [[h' d'] n'].
    + destruct ws as [|w ws]; [by left|right]. unfold generate_header. destruct a; cbn;
        by destruct (consumeWord _ _ _) as [[h' d'] n'].
    + destruct ws as [|w ws]; (by left) || (right; by destruct a).
Defined.

Lemma gh_rest ws hd ms rest :
  framed ws ->
  drained (generate_header garbage HEADER_SIZE set_header) gh_arrive (mkGhEnv GH_BODY hd ms (ws ++ rest))
  = ws ++ drained (generate_header garbage HEADER_SIZE set_header) gh_arrive (mkGhEnv GH_META hd ms rest).
Proof.
  induction 1 as [w Hl|w ws Hl _ IH]; cbn [app]; (erewrite drained_call by reflexivity); cbn; rewrite Hl; [done|].
  by rewrite IH.
Qed.

Variable n : nat.
Hypothesis size_n : HEADER_SIZE = 8 * Z.of_nat n.

Lemma gh_packet ws bs m ms rest r i h :
  packet ws bs -> (n <= length bs)%nat ->
  let h' := set_header m h in
  exists ws' r' i',
    drained (generate_header garbage HEADER_SIZE set_header) gh_arrive
      (mkGhEnv GH_META (mkPacketHeader r i h) (m :: ms) (ws ++ rest))
    = ws' ++ drained (generate_header garbage HEADER_SIZE set_header) gh_arrive
        (mkGhEnv GH_META (mkPacketHeader r' i' h') ms rest) /\
    packet ws' (le_bytes n (bits (HEADER_SIZE - 1) 0 h') ++ drop n bs).
Proof.
  intros Hp Hl h'. pose proof (packet_framed _ _ Hp) as Hf.
  destruct (packet_first _ _ Hp) as (w & ws' & -> & _). cbn [app].
  assert (generate_header garbage HEADER_SIZE set_header (mkGhEnv GH_META (mkPacketHeader r i h) (m :: ms) (w :: ws' ++ rest))
    = (mkGhEnv GH_PARTIAL_HEADER (mkPacketHeader false 0 h') ms (w :: ws' ++ rest), [])) as Hcall.
  { unfold generate_header. rewrite (WIDTH_512 lanes64), (proj2 (Z.leb_gt _ _)) by lia. done. }
  erewrite drained_call by exact Hcall.
  destruct (consume_once lanes64 HEADER_SIZE (data w) false 0 h' size ltac:(done)) as (j & w' & Hc & Hw').
  assert (generate_header garbage HEADER_SIZE set_header (mkGhEnv GH_PARTIAL_HEADER (mkPacketHeader false 0 h') ms (w :: ws' ++ rest))
    = (mkGhEnv (if last w then GH_META else GH_BODY) (mkPacketHeader false j h') ms (ws' ++ rest),
       [mkWord w' (keep w) (last w)])) as Hcall2.
  { unfold generate_header. by rewrite Hc. }
  erewrite drained_call by exact Hcall2. rewrite Hw' by done.
  replace (Z.to_nat (HEADER_SIZE / 8)) with n by (rewrite size_n, Z.mul_comm, Z.div_mul by lia; lia).
  exists (mkWord (le_bytes n (bits (HEADER_SIZE - 1) 0 h') ++ drop n (data w)) (keep w) (last w) :: ws'), false, j.
  split; [|eapply (replace_head lanes64 (w :: ws')); rewrite ?le_bytes_length; try done; lia].
  inversion Hf as [? Hlast|? ? Hlast Hf']; subst; rewrite Hlast; [done|].
  by rewrite gh_rest.
Qed.

(** The headers of a sequence of packets; [static] holds of the header object
    throughout, and [header_of m] are the bytes that are then sent for [m]. *)
Context (static : Z -> Prop) (ok : M -> Prop) (header_of : M -> list Z).
Hypothesis header_bytes : forall m h, ok m -> static h ->
  static (set_header m h) /\ le_bytes n (bits (HEADER_SIZE - 1) 0 (set_header m h)) = header_of m.

Lemma gh_packets ws B ms r i h :
  packets ws (map (app (replicate n 0)) B) -> length ms = length B -> Forall ok ms -> static h ->
  packets (drained (generate_header garbage HEADER_SIZE set_header) gh_arrive (mkGhEnv GH_META (mkPacketHeader r i h) ms ws))
    (zip_with (fun m b => header_of m ++ b) ms B).
Proof.
  revert ws ms r i h. induction B as [|b B IH]; intros ws [|m ms] r i h Hp Hn Hok Hs; try done.
  - rewrite drained_stuck by done. constructor.
  - cbn [map] in Hp. apply packets_inv in Hp as (ws1 & rest & -> & Hw & Hrest).
    apply Forall_cons_1 in Hok as [Hm Hok]. destruct (header_bytes m h Hm Hs) as [Hs' Hh].
    destruct (gh_packet ws1 (replicate n 0 ++ b) m ms rest r i h Hw) as (w & r' & i' & -> & H1);
      [rewrite length_app, length_replicate; lia|].
    cbn [zip_with]. rewrite Hh, drop_app_ge, length_replicate, Nat.sub_diag in H1 by (rewrite length_replicate; lia).
    constructor; [exact H1|]. apply IH; [done|simpl in *; lia|done|done].
Qed.
End Generate.
End UdpProcesses.

#[export] Existing Instances split_kahn udp_ipv4_kahn process_udp_kahn merge_kahn.

(** ** The headers *)
(** [h0] is what the header objects hold in the fields that are never assigned: the
    checksum of UDP; type of service, identification, fragment and checksum of IP. *)
Definition udp_header (h0 : Z) (m : udpMeta) : list Z :=
  le_bytes 2 (reverse16 (um_my_port m)) ++ le_bytes 2 (reverse16 (um_their_port m))
  ++ le_bytes 2 (reverse16 (um_length m)) ++ le_bytes 2 (bits 63 48 h0).

Definition udp_static (h0 h : Z) : Prop := bits 63 48 h = bits 63 48 h0.

Lemma set_udp_header_bytes h0 m h :
  udp_static h0 h ->
  udp_static h0 (set_udp_header m h) /\ le_bytes 8 (bits (UDP_HEADER_SIZE - 1) 0 (set_udp_header m h)) = udp_header h0 m.
Proof.
  unfold udp_static, set_udp_header, UdpHeader.setLength, UdpHeader.setSrcPort, UdpHeader.setDstPort.
  intros Hs. split; [by read_range|]. change 8%nat with (2 + (2 + (2 + 2)))%nat. change (UDP_HEADER_SIZE - 1) with 63.
  rewrite (le_bytes_cut 2 _ 63 16 15 0), (le_bytes_cut 2 _ 63 32 31), (le_bytes_cut 2 _ 63 48 47) by lia.
  read_range. rewrite Hs. unfold udp_header. by rewrite !le_bytes_wrap by lia.
Qed.

Definition ipv4_header (h0 src protocol : Z) (m : ipv4Meta) : list Z :=
  [69] ++ le_bytes 1 (bits 15 8 h0) ++ le_bytes 2 (reverse16 (wrap 16 (i4_length m + 20)))
  ++ le_bytes 4 (bits 63 32 h0) ++ [64] ++ le_bytes 1 protocol ++ le_bytes 2 (bits 95 80 h0)
  ++ le_bytes 4 src ++ le_bytes 4 (i4_their_address m).

Lemma set_ipv4_header_bytes h0 src protocol m h :
  ip_static h0 h ->
  ip_static h0 (set_ipv4_header src protocol m h) /\
  le_bytes 20 (bits (IPV4_HEADER_SIZE - 1) 0 (set_ipv4_header src protocol m h)) = ipv4_header h0 src protocol m.
Proof.
  unfold set_ipv4_header, Ipv4.setProtocol, Ipv4.setSrcAddr, Ipv4.setDstAddr, Ipv4.setLength. cbv zeta.
  intros [H1 H2 H3 H4 H5]. split; [constructor; by read_range|].
  change 20%nat with (1 + (1 + (2 + (4 + (1 + (1 + (2 + (4 + 4))))))))%nat. change (IPV4_HEADER_SIZE - 1) with 159.
  rewrite (le_bytes_cut 1 _ 159 8 7 0), (le_bytes_cut 1 _ 159 16 15), (le_bytes_cut 2 _ 159 32 31),
    (le_bytes_cut 4 _ 159 64 63), (le_bytes_cut 1 _ 159 72 71), (le_bytes_cut 1 _ 159 80 79),
    (le_bytes_cut 2 _ 159 96 95), (le_bytes_cut 4 _ 159 128 127) by lia.
  read_range. rewrite H1, H2, H3, H4, H5. unfold ipv4_header.
  rewrite !le_bytes_wrap by lia. by rewrite wrap_wrap.
Qed.

(** A number written in network byte order, read again. *)
Lemma be_reverse16 p : in_width 16 p -> be_val (le_bytes 2 (reverse16 p)) = p.
Proof. intros Hp. rewrite le_bytes_reverse16, be_val_two by done. pose proof (Z.div_mod p 256). lia. Qed.

(** ** The processes on packets *)
Section UdpPackets.
Context {WW : WordWidth}.
Hypothesis lanes64 : lanes = 64%nat.

(** *** [process_ipv4] *)
Definition u4_words (w : list udp_ipv4_write) : list net_axis :=
  omap (fun x => match x with W_ipv4Data w => Some w | _ => None end) w.
Definition u4_lengths (w : list udp_ipv4_write) : list Z :=
  omap (fun x => match x with W_ipv4DropLength n => Some n | _ => None end) w.
Definition u4_metas (w : list udp_ipv4_write) : list ipv4Meta :=
  omap (fun x => match x with W_ipv4Meta m => Some m | _ => None end) w.

Definition ipv4_meta_of (d : list Z) : ipv4Meta := mkIpv4Meta (le_val (field 12 4 d)) (be_val (field 2 2 d)).

Lemma udp_ipv4_rest ws rest h i n :
  framed ws ->
  drained process_ipv4 process_ipv4_arrive (mkProcessIpv4Env (mkPacketHeader true i h) n true (ws ++ rest))
  = map W_ipv4Data ws ++ drained process_ipv4 process_ipv4_arrive
      (mkProcessIpv4Env (mkPacketHeader false 0 h) 0 false rest).
Proof.
  intros Hf. revert n. induction Hf as [w Hl|w ws Hl _ IH]; intros n; simpl;
    erewrite drained_call by reflexivity; cbn; rewrite Hl; [done|]. by rewrite IH.
Qed.

Lemma udp_ipv4_packets ws D h :
  packets ws D -> Forall (fun d => bytes d /\ (20 <= length d)%nat) D ->
  let w := drained process_ipv4 process_ipv4_arrive (mkProcessIpv4Env (mkPacketHeader false 0 h) 0 false ws) in
  u4_words w = ws /\ u4_lengths w = map (fun d => bits 3 0 (byte_at 0 d)) D /\ u4_metas w = map ipv4_meta_of D.
Proof.
  intros Hp. revert h. induction Hp as [|ws d ws' D Hw Hp IH]; intros h HD; [by rewrite drained_stuck|].
  apply Forall_cons_1 in HD as [[Hb Hl] HD]. pose proof (packet_framed _ _ Hw) as Hf.
  destruct (parsed_first lanes64 20 ws d h Hw Hb ltac:(lia) Hl ltac:(lia)) as (w & ws1 & h' & -> & _ & _ & Hparse & Hbits).
  assert (Ipv4.getHeaderLength h' = bits 3 0 (byte_at 0 d)) as Hhl.
  { unfold Ipv4.getHeaderLength. rewrite <- (bits_bits 7 0 3 0) by lia.
    rewrite (Hbits 7 0 0%nat 1%nat) by lia. by rewrite field_one, le_val_single by lia. }
  assert (in_width 4 (bits 3 0 (byte_at 0 d))) as Hw4 by by apply (bits_range 3 0).
  assert (mkIpv4Meta (Ipv4.getSrcAddr h') (Ipv4.getLength h') = ipv4_meta_of d) as Hmeta.
  { unfold ipv4_meta_of, Ipv4.getSrcAddr, Ipv4.getLength.
    rewrite (Hbits 127 96 12%nat 4%nat), (Hbits 31 16 2%nat 2%nat) by lia.
    rewrite reverse16_be; [done|by apply field_bytes|apply field_length; lia]. }
  destruct (IH h' HD) as (I1 & I2 & I3). cbv zeta in *. unfold u4_words, u4_lengths, u4_metas in *. cbn [app map].
  assert (process_ipv4 (mkProcessIpv4Env (mkPacketHeader false 0 h) 0 false (w :: ws1 ++ ws'))
    = ((if last w then mkProcessIpv4Env (mkPacketHeader false 0 h') 0 false (ws1 ++ ws')
        else mkProcessIpv4Env (mkPacketHeader true 1 h') (wrap 4 (0 + WIDTH / 32)) true (ws1 ++ ws')),
       [W_ipv4Data w; W_ipv4DropLength (bits 3 0 (byte_at 0 d)); W_ipv4Meta (ipv4_meta_of d)])) as Hcall.
  { rewrite <- Hmeta, <- Hhl. unfold process_ipv4. cbn [pi_dataIn pi_header].
    change IPV4_HEADER_SIZE with (8 * Z.of_nat 20). rewrite Hparse. cbn. rewrite Z.sub_0_r, Hhl, (wrap_small 4 (bits _ _ _)) by done. done. }
  erewrite drained_call by exact Hcall. rewrite !omap_app.
  inversion Hf as [? Hlast|? ? Hlast Hf']; subst; rewrite Hlast.
  - cbn [app]. by rewrite I1, I2, I3.
  - rewrite udp_ipv4_rest by done. rewrite !omap_app, (omap_map_Some _ W_ipv4Data), !(omap_map_None _ W_ipv4Data) by done.
    by rewrite I1, I2, I3.
Qed.

(** *** [process_udp] *)
Variable port : Z.

Definition urx_words (w : list process_udp_write) : list net_axis :=
  omap (fun x => match x with W_rxUdpData w => Some w | _ => None end) w.
Definition urx_metas (w : list process_udp_write) : list udpMeta :=
  omap (fun x => match x with W_rxUdpMeta m => Some m | _ => None end) w.

Definition to_port (b : list Z) : bool := be_val (field 2 2 b) =? port.
Definition udp_meta_of (b : list Z) : udpMeta :=
  mkUdpMeta (be_val (field 0 2 b)) (be_val (field 2 2 b)) (be_val (field 4 2 b)) (to_port b).

Lemma process_udp_rest ws rest h i :
  framed ws ->
  drained (process_udp port) process_udp_arrive (mkProcessUdpEnv (mkPacketHeader true i h) true (ws ++ rest))
  = (if UdpHeader.getDstPort h =? port then map W_rxUdpData ws else [])
    ++ drained (process_udp port) process_udp_arrive (mkProcessUdpEnv (mkPacketHeader false 0 h) false rest).
Proof.
  assert (forall w l, process_udp port (mkProcessUdpEnv (mkPacketHeader true i h) true (w :: l))
    = (if last w then mkProcessUdpEnv (mkPacketHeader false 0 h) false l
       else mkProcessUdpEnv (mkPacketHeader true i h) true l,
       when (UdpHeader.getDstPort h =? port) [W_rxUdpData w])) as Hcall.
  { intros w l. unfold process_udp. cbn. rewrite (WIDTH_512 lanes64). change (512 <=? UDP_HEADER_SIZE) with false.
    change (UDP_HEADER_SIZE <? 512) with true. rewrite andb_false_r, andb_true_r. cbn. by destruct (_ =? _). }
  induction 1 as [w Hl|w ws Hl _ IH]; cbn [app]; (erewrite drained_call by apply Hcall); rewrite Hl;
    [by destruct (_ =? _)|]. rewrite IH. by destruct (_ =? _).
Qed.

Lemma process_udp_packets ws B h :
  packets ws B -> Forall (fun b => bytes b /\ (8 <= length b)%nat) B ->
  let w := drained (process_udp port) process_udp_arrive (mkProcessUdpEnv (mkPacketHeader false 0 h) false ws) in
  packets (urx_words w) (List.filter to_port B) /\ urx_metas w = map udp_meta_of B.
Proof.
  intros Hp. revert h. induction Hp as [|ws b ws' B Hw Hp IH]; intros h HB.
  { rewrite drained_stuck by done. split; [constructor|done]. }
  apply Forall_cons_1 in HB as [[Hb Hl] HB]. pose proof (packet_framed _ _ Hw) as Hf. pose proof Hw as Hw0.
  destruct (parsed_first lanes64 8 ws b h Hw Hb ltac:(lia) Hl ltac:(lia)) as (w & ws1 & h' & -> & _ & _ & Hparse & Hbits).
  assert (forall m lo hi, (m + 2 <= 8)%nat -> lo = 8 * Z.of_nat m -> hi = lo + 8 * Z.of_nat 2 - 1 ->
    reverse16 (bits hi lo h') = be_val (field m 2 b)) as Hget.
  { intros m lo hi Hm Hlo Hhi. rewrite (Hbits hi lo m 2%nat) by lia.
    apply reverse16_be; [by apply field_bytes|apply field_length; lia]. }
  assert (UdpHeader.getDstPort h' = be_val (field 2 2 b)) as Hdst by (apply (Hget 2%nat 16 31); lia).
  destruct (IH h' HB) as (I1 & I2). cbv zeta in *. unfold urx_words, urx_metas in *. cbn [app map List.filter].
  assert (process_udp port (mkProcessUdpEnv (mkPacketHeader false 0 h) false (w :: ws1 ++ ws'))
    = ((if last w then mkProcessUdpEnv (mkPacketHeader false 0 h') false (ws1 ++ ws')
        else mkProcessUdpEnv (mkPacketHeader true 1 h') true (ws1 ++ ws')),
       when (to_port b) [W_rxUdpData w] ++ [W_rxUdpMeta (udp_meta_of b)])) as Hcall.
  { unfold process_udp, udp_meta_of, to_port. cbn [pu_input pu_header pu_metaWritten].
    change (8 * Z.of_nat 8) with UDP_HEADER_SIZE in Hparse. rewrite Hparse. cbn [ph_header ph_ready]. rewrite Hdst.
    rewrite <- (Hget 0%nat 0 15), <- (Hget 4%nat 32 47) by lia. rewrite (WIDTH_512 lanes64).
    change (UDP_HEADER_SIZE <? 512) with true. by rewrite andb_true_r. }
  erewrite drained_call by exact Hcall. rewrite !omap_app.
  inversion Hf as [? Hlast|? ? Hlast Hf']; subst; rewrite Hlast.
  - destruct (to_port b); cbn; rewrite I2; (split; [|done]); [|exact I1]. by apply (packets_cons [w]).
  - rewrite process_udp_rest by done. rewrite !omap_app. cbn [app]. rewrite Hdst. change (be_val _ =? port) with (to_port b).
    destruct (to_port b); cbn.
    + rewrite (omap_map_Some _ W_rxUdpData), (omap_map_None _ W_rxUdpData), I2 by done. split; [|done].
      by apply (packets_cons (w :: ws1)).
    + rewrite I2. by split.
Qed.

(** *** The metadata *)
Definition split_ips (w : list split_tx_write) : list ipv4Meta :=
  omap (fun x => match x with W_ipMetaOut m => Some m | _ => None end) w.
Definition split_udps (w : list split_tx_write) : list udpMeta :=
  omap (fun x => match x with W_udpMetaOut m => Some m | _ => None end) w.

Definition tx_ip_meta (m : ipUdpMeta) : ipv4Meta := ipv4Meta_128 (iu_their_address m) (wrap 16 (iu_length m + 8)).
Definition tx_udp_meta (m : ipUdpMeta) : udpMeta :=
  mkUdpMeta (iu_their_port m) (iu_my_port m) (wrap 16 (iu_length m + 8)) true.

Lemma split_metas ms :
  let w := drained split_tx_meta split_arrive ms in
  split_ips w = map tx_ip_meta ms /\ split_udps w = map tx_udp_meta ms.
Proof.
  induction ms as [|m ms [IH1 IH2]]; [by rewrite drained_stuck|]. cbv zeta in *.
  erewrite drained_call by reflexivity. unfold split_ips, split_udps in *. cbn. by rewrite IH1, IH2.
Qed.

Definition rx_meta (i : ipv4Meta) (u : udpMeta) : ipUdpMeta :=
  mkIpUdpMeta (i4_their_address i) (um_their_port u) (um_my_port u) (um_length u).

Lemma merge_metas il ul :
  drained merge_rx_meta merge_arrive (mkMergeRxEnv il ul)
  = map (fun p => rx_meta p.1 p.2) (List.filter (fun p => um_valid p.2) (zip il ul)).
Proof.
  revert ul. induction il as [|i il IH]; intros [|u ul]; try by rewrite drained_stuck.
  erewrite drained_call by reflexivity. cbn. rewrite IH. by destruct (um_valid u).
Qed.
End UdpPackets.

(** ** What arrives on the streams *)
Lemma udp_split_arrivals l ms : arrive_all split_arrive l ms = ms ++ l.
Proof.
  revert ms. induction l as [|x l IH]; intros ms; unfold arrive_all, split_arrive in *; simpl;
    [by rewrite app_nil_r|rewrite IH; by rewrite <- app_assoc].
Qed.

Definition gh_metas_in {M} (l : list (gh_arrival M)) : list M :=
  omap (fun a => match a with A_ghMeta m => Some m | _ => None end) l.
Definition gh_words_in {M} (l : list (gh_arrival M)) : list net_axis :=
  omap (fun a => match a with A_ghData w => Some w | _ => None end) l.

Lemma gh_arrivals {M} (l : list (gh_arrival M)) s hd ms ws :
  arrive_all gh_arrive l (mkGhEnv s hd ms ws) = mkGhEnv s hd (ms ++ gh_metas_in l) (ws ++ gh_words_in l).
Proof.
  revert ms ws. induction l as [|[x|x] l IH]; intros ms ws; unfold arrive_all in *; simpl;
    [by rewrite !app_nil_r|rewrite IH; by rewrite <- app_assoc..].
Qed.

Lemma process_udp_arrivals l h m ws :
  arrive_all process_udp_arrive l (mkProcessUdpEnv h m ws) = mkProcessUdpEnv h m (ws ++ l).
Proof.
  revert ws. induction l as [|x l IH]; intros ws; unfold arrive_all, process_udp_arrive in *; simpl;
    [by rewrite app_nil_r|rewrite IH; by rewrite <- app_assoc].
Qed.

Definition merge_ips_in (l : list merge_arrival) : list ipv4Meta :=
  omap (fun a => match a with A_rxIpMeta m => Some m | _ => None end) l.
Definition merge_udps_in (l : list merge_arrival) : list udpMeta :=
  omap (fun a => match a with A_rxUdpMeta m => Some m | _ => None end) l.

Lemma merge_arrivals l il ul :
  arrive_all merge_arrive l (mkMergeRxEnv il ul) = mkMergeRxEnv (il ++ merge_ips_in l) (ul ++ merge_udps_in l).
Proof.
  revert il ul. induction l as [|[x|x] l IH]; intros il ul; unfold arrive_all in *; simpl;
    [by rewrite !app_nil_r|rewrite IH; by rewrite <- app_assoc..].
Qed.

(** ** The connected processes *)
Section UdpPath.
Context {WW : WordWidth}.
Hypothesis lanes64 : lanes = 64%nat.
Variable garbage : list Z.
(** The contents of the header objects before the first assignment; the addresses and
    the ports of the two sides. *)
Variables (header0 local_ipv4_address listenPort : Z).

#[local] Hint Extern 0 (KahnProcess (generate_udp _) gh_arrive) =>
  exact (gh_kahn _ lanes64 UDP_HEADER_SIZE set_udp_header (conj eq_refl eq_refl)) : typeclass_instances.
#[local] Hint Extern 0 (KahnProcess (ipv4_generate_ipv4 _ ?src ?protocol) gh_arrive) =>
  exact (gh_kahn _ lanes64 IPV4_HEADER_SIZE (set_ipv4_header src protocol) (conj eq_refl eq_refl)) : typeclass_instances.

Record udp_run := mkUdpRun {
  u_split : list (option ipUdpMeta); u_lshift : list (option net_axis);
  u_generate : list (option (gh_arrival udpMeta));
  u_ip_lshift : list (option net_axis); u_ip_generate : list (option (gh_arrival ipv4Meta));
  u_ip : list (option net_axis); u_ip_drop : list (option doh_arrival);
  u_udp : list (option net_axis); u_rshift : list (option net_axis); u_merge : list (option merge_arrival)
}.

Definition split_out (u : udp_run) := output split_tx_meta split_arrive (u_split u) [].
Definition udp_lshift_out (u : udp_run) := output (udp_lshiftWordByOctet 8) lshift_arrive (u_lshift u) lshift_init.
Definition generate_udp_out (u : udp_run) :=
  output (generate_udp garbage) gh_arrive (u_generate u) (generate_udp_init header0).
Definition ipv4_lshift_out (u : udp_run) := output (ipv4_lshiftWordByOctet 20) lshift_arrive (u_ip_lshift u) lshift_init.
Definition ipv4_generate_out (u : udp_run) :=
  output (ipv4_generate_ipv4 garbage local_ipv4_address UDP_PROTOCOL) gh_arrive (u_ip_generate u) (ipv4_generate_init header0).
Definition process_ipv4_out (u : udp_run) := output process_ipv4 process_ipv4_arrive (u_ip u) (process_ipv4_init header0).
Definition ipv4_drop_out (u : udp_run) := output ipv4_drop_optional_ip_header doh_arrive (u_ip_drop u) doh_init.
Definition process_udp_out (u : udp_run) :=
  output (process_udp listenPort) process_udp_arrive (u_udp u) (process_udp_init header0).
Definition udp_rshift_out (u : udp_run) := output (udp_rshiftWordByOctet 8) rshift_arrive (u_rshift u) (rshift_init 8).
Definition merge_out (u : udp_run) := output merge_rx_meta merge_arrive (u_merge u) (mkMergeRxEnv [] []).

(** The connections in [udp] and in [ipv4], and those between the two. *)
Record udp_linked (u : udp_run) : Prop := {
  ul_meta : gh_metas_in (arrivals (u_generate u)) = split_udps (split_out u);
  ul_data : gh_words_in (arrivals (u_generate u)) = udp_lshift_out u;
  ul_shift : arrivals (u_rshift u) = urx_words (process_udp_out u);
  ul_merge : merge_udps_in (arrivals (u_merge u)) = urx_metas (process_udp_out u)
}.
Record ipv4_linked (u : udp_run) : Prop := {
  ui_data : gh_words_in (arrivals (u_ip_generate u)) = ipv4_lshift_out u;
  ui_length : doh_lengths_in (arrivals (u_ip_drop u)) = u4_lengths (process_ipv4_out u);
  ui_words : doh_words_in (arrivals (u_ip_drop u)) = u4_words (process_ipv4_out u)
}.
Record udp_ipv4_linked (u : udp_run) : Prop := {
  uu_udp : udp_linked u; uu_ipv4 : ipv4_linked u;
  uu_txMeta : gh_metas_in (arrivals (u_ip_generate u)) = split_ips (split_out u);
  uu_txData : arrivals (u_ip_lshift u) = generate_udp_out u;
  uu_rxMeta : merge_ips_in (arrivals (u_merge u)) = u4_metas (process_ipv4_out u);
  uu_rxData : arrivals (u_udp u) = ipv4_drop_out u
}.

(** ** Messages *)
Record udp_message := mkUdpMessage { um_meta : ipUdpMeta; um_payload : list Z }.
Record udp_message_ok (g : udp_message) : Prop := {
  uo_bytes : bytes (um_payload g); uo_nonempty : um_payload g <> [];
  uo_their : in_width 16 (iu_their_port (um_meta g)); uo_my : in_width 16 (iu_my_port (um_meta g))
}.

Definition udp_packet (g : udp_message) : list Z := udp_header header0 (tx_udp_meta (um_meta g)) ++ um_payload g.
Definition udp_datagram (g : udp_message) : list Z :=
  ipv4_header header0 local_ipv4_address UDP_PROTOCOL (tx_ip_meta (um_meta g)) ++ udp_packet g.

(** What the other side is told of a message: its ports, the length with the header. *)
Definition received_udp_meta (g : udp_message) : ipUdpMeta :=
  mkIpUdpMeta local_ipv4_address (iu_my_port (um_meta g)) (iu_their_port (um_meta g)) (wrap 16 (iu_length (um_meta g) + 8)).
Definition for_listener (g : udp_message) : bool := iu_their_port (um_meta g) =? listenPort.

Section Message.
Variable g : udp_message.
Hypothesis Hg : udp_message_ok g.

Lemma udp_packet_length : (8 < length (udp_packet g))%nat.
Proof.
  pose proof (uo_nonempty g Hg). unfold udp_packet. rewrite length_app. cbn. destruct (um_payload g); [done|]. cbn. lia.
Qed.

Lemma udp_packet_bytes : bytes (udp_packet g).
Proof. unfold udp_packet, udp_header. rewrite !Forall_app. split_and!; try apply le_bytes_bytes. apply Hg. Qed.

Lemma udp_datagram_bytes : bytes (udp_datagram g).
Proof.
  unfold udp_datagram, ipv4_header. rewrite !Forall_app. split_and!; try apply le_bytes_bytes;
    [by repeat constructor|by repeat constructor|apply udp_packet_bytes].
Qed.

Lemma udp_packet_meta : udp_meta_of listenPort (udp_packet g)
  = mkUdpMeta (iu_my_port (um_meta g)) (iu_their_port (um_meta g)) (wrap 16 (iu_length (um_meta g) + 8)) (for_listener g).
Proof.
  destruct Hg as [_ _ Ht Hm]. unfold udp_meta_of, to_port, for_listener.
  change (field 0 2 (udp_packet g)) with (le_bytes 2 (reverse16 (iu_my_port (um_meta g)))).
  change (field 2 2 (udp_packet g)) with (le_bytes 2 (reverse16 (iu_their_port (um_meta g)))).
  change (field 4 2 (udp_packet g)) with (le_bytes 2 (reverse16 (wrap 16 (iu_length (um_meta g) + 8)))).
  rewrite !be_reverse16; [done|apply wrap_range; lia|done|done].
Qed.

Lemma udp_packet_to_port : to_port listenPort (udp_packet g) = for_listener g.
Proof. pose proof udp_packet_meta as H. by injection H. Qed.
End Message.

Section Transmit.
Variables (u : udp_run) (G : list udp_message).
Hypothesis Hmetas : arrivals (u_split u) = map um_meta G.
Hypothesis Hdata : packets (arrivals (u_lshift u)) (map um_payload G).
Hypothesis Hl : udp_ipv4_linked u.

Lemma run_split :
  split_ips (split_out u) = map (fun g => tx_ip_meta (um_meta g)) G /\
  split_udps (split_out u) = map (fun g => tx_udp_meta (um_meta g)) G.
Proof.
  unfold split_out. rewrite output_drained, udp_split_arrivals, Hmetas. cbn [app].
  rewrite <- !(map_map um_meta). apply split_metas.
Qed.

Lemma run_generate_udp : packets (generate_udp_out u) (map udp_packet G).
Proof.
  unfold generate_udp_out. rewrite output_drained. unfold generate_udp_init. rewrite gh_arrivals. cbn [app].
  rewrite (ul_meta u (uu_udp u Hl)), (ul_data u (uu_udp u Hl)), (proj2 run_split).
  replace (map udp_packet G) with (zip_with (fun m b => udp_header header0 m ++ b) (map (fun g => tx_udp_meta (um_meta g)) G) (map um_payload G)).
  - apply (gh_packets garbage lanes64 UDP_HEADER_SIZE set_udp_header (conj eq_refl eq_refl) 8 eq_refl (udp_static header0) (fun _ => True)).
    + intros m h _. apply set_udp_header_bytes.
    + by apply lshift_packets; [lia..|].
    + by rewrite !length_map.
    + by apply Forall_true.
    + done.
  - unfold udp_packet. clear. induction G as [|g l IH]; [done|]. cbn [map zip_with]. by rewrite IH.
Qed.

Lemma run_generate_ipv4 : packets (ipv4_generate_out u) (map udp_datagram G).
Proof.
  unfold ipv4_generate_out. rewrite output_drained. unfold ipv4_generate_init. rewrite gh_arrivals. cbn [app].
  rewrite (uu_txMeta u Hl), (ui_data u (uu_ipv4 u Hl)), (proj1 run_split).
  replace (map udp_datagram G) with (zip_with (fun m b => ipv4_header header0 local_ipv4_address UDP_PROTOCOL m ++ b)
    (map (fun g => tx_ip_meta (um_meta g)) G) (map udp_packet G)).
  - apply (gh_packets garbage lanes64 IPV4_HEADER_SIZE (set_ipv4_header local_ipv4_address UDP_PROTOCOL) (conj eq_refl eq_refl) 20 eq_refl
      (ip_static header0) (fun _ => True)).
    + intros m h _. apply set_ipv4_header_bytes.
    + apply lshift_packets; [lia..|]. rewrite (uu_txData u Hl). apply run_generate_udp.
    + by rewrite !length_map.
    + by apply Forall_true.
    + apply ip_init_static.
  - unfold udp_datagram. clear. induction G as [|g l IH]; [done|]. cbn [map zip_with]. by rewrite IH.
Qed.

End Transmit.

(** What the receiver relies on in the IP packet of a message. *)
Record datagram_of (g : udp_message) (d : list Z) : Prop := {
  do_bytes : bytes d; do_header : bits 3 0 (byte_at 0 d) = 5;
  do_packet : drop 20 d = udp_packet g; do_src : le_val (field 12 4 d) = local_ipv4_address
}.

Lemma udp_datagram_of g : udp_message_ok g -> in_width 32 local_ipv4_address -> datagram_of g (udp_datagram g).
Proof.
  intros Hg Ha. constructor; [by apply udp_datagram_bytes|done|done|].
  change (field 12 4 _) with (le_bytes 4 local_ipv4_address). rewrite le_val_bytes. by apply wrap_small.
Qed.

Section Receive.
Variables (u : udp_run) (G : list udp_message) (dg : udp_message -> list Z).
Hypothesis HG : Forall (fun g => udp_message_ok g /\ datagram_of g (dg g)) G.
Hypothesis Hin : packets (arrivals (u_ip u)) (map dg G).
Hypothesis Hl : udp_ipv4_linked u.

Lemma datagram_length g d : udp_message_ok g -> datagram_of g d -> (28 < length d)%nat.
Proof.
  intros Hg Hd. pose proof (udp_packet_length g Hg) as H. rewrite <- (do_packet g _ Hd), length_drop in H. lia.
Qed.

Lemma run_process_ipv4 :
  let w := process_ipv4_out u in
  packets (u4_words w) (map dg G) /\ u4_lengths w = replicate (length G) 5 /\
  u4_metas w = map (fun g => ipv4_meta_of (dg g)) G.
Proof.
  unfold process_ipv4_out. rewrite output_drained, process_ipv4_arrivals. cbn.
  assert (Forall (fun d => bytes d /\ (20 <= length d)%nat) (map dg G)) as HD.
  { apply Forall_map. eapply Forall_impl; [|exact HG]. intros g [Hg Hd]. pose proof (datagram_length g _ Hg Hd).
    split; [apply Hd|lia]. }
  destruct (udp_ipv4_packets lanes64 _ _ (Ipv4.init header0) Hin HD) as (-> & -> & ->).
  rewrite !map_map. split_and!; [done| |done].
  clear -HG. revert HG. induction 1 as [|g l [Hg Hd] _ IH]; [done|]. cbn [map length replicate]. by rewrite IH, (do_header g _ Hd).
Qed.

Lemma run_ipv4_drop : packets (arrivals (u_udp u)) (map udp_packet G).
Proof.
  destruct run_process_ipv4 as (Hw & Hn & _). rewrite (uu_rxData u Hl). unfold ipv4_drop_out.
  rewrite output_drained. unfold doh_init. rewrite doh_arrivals. cbn [app].
  rewrite (ui_length u (uu_ipv4 u Hl)), (ui_words u (uu_ipv4 u Hl)), Hn.
  replace (map udp_packet G) with (map (drop 20) (map dg G)).
  - rewrite <- (length_map dg G). apply (doh_packets lanes64); [done|].
    apply Forall_map. eapply Forall_impl; [|exact HG]. intros g [Hg Hd]. pose proof (datagram_length g _ Hg Hd). lia.
  - rewrite map_map. apply map_ext_in. intros g Hg. apply (proj1 (List.Forall_forall _ _) HG) in Hg as [_ Hd]. apply Hd.
Qed.

Lemma run_process_udp :
  packets (urx_words (process_udp_out u)) (List.filter (to_port listenPort) (map udp_packet G)) /\
  urx_metas (process_udp_out u) = map (udp_meta_of listenPort) (map udp_packet G).
Proof.
  unfold process_udp_out. rewrite output_drained. unfold process_udp_init. rewrite process_udp_arrivals. cbn [app].
  apply (process_udp_packets lanes64); [apply run_ipv4_drop|].
  apply Forall_map. eapply Forall_impl; [|exact HG]. intros g [Hg _]. pose proof (udp_packet_length g Hg).
  split; [by apply udp_packet_bytes|lia].
Qed.

Lemma listener_packets : List.filter (to_port listenPort) (map udp_packet G) = map udp_packet (List.filter for_listener G).
Proof.
  clear -HG lanes64. revert HG. induction 1 as [|g l [Hg _] _ IH]; [done|]. cbn [map List.filter]. rewrite udp_packet_to_port by done.
  rewrite IH. by destruct (for_listener g).
Qed.

Lemma run_merge : merge_out u = map received_udp_meta (List.filter for_listener G).
Proof.
  destruct run_process_udp as [_ Hum]. destruct run_process_ipv4 as (_ & _ & Him).
  unfold merge_out. rewrite output_drained, merge_arrivals. cbn [app].
  rewrite (uu_rxMeta u Hl), (ul_merge u (uu_udp u Hl)), Him, Hum, map_map, merge_metas.
  clear -HG lanes64. revert HG. induction 1 as [|g l [Hg Hd] _ IH]; [done|]. cbn [map zip zip_with List.filter snd].
  rewrite (udp_packet_meta g Hg) at 1. cbn [um_valid]. destruct (for_listener g); [|exact IH].
  cbn [map fst snd]. f_equal; [|exact IH]. rewrite udp_packet_meta by done. unfold rx_meta, received_udp_meta.
  cbn [um_their_port um_my_port um_length i4_their_address ipv4_meta_of]. by rewrite (do_src g _ Hd).
Qed.

Lemma run_udp_data : packets (udp_rshift_out u) (map um_payload (List.filter for_listener G)).
Proof.
  destruct run_process_udp as [Hx _]. rewrite listener_packets in Hx.
  pose proof (Forall_filter _ for_listener G HG) as HF.
  replace (map um_payload _) with (map (drop 8) (map udp_packet (List.filter for_listener G)))
    by (rewrite map_map; by apply map_ext).
  apply rshift_packets; [lia|by rewrite (ul_shift u (uu_udp u Hl))|].
  apply Forall_map. eapply Forall_impl; [|exact HF]. intros g [Hg _]. by apply udp_packet_length.
Qed.
End Receive.

(** UDP over IPv4.  For messages whose metadata and data arrive on any schedule, through
    processes that run on any schedule, the IP packets that leave are those of the
    messages; and when they are the input of the other side, it passes on exactly the
    messages to the port it listens on, in order, with their data, the sender's address
    and the ports exchanged. *)
Theorem udp_loopback u G :
  Forall udp_message_ok G -> arrivals (u_split u) = map um_meta G ->
  packets (arrivals (u_lshift u)) (map um_payload G) ->
  udp_ipv4_linked u -> arrivals (u_ip u) = ipv4_generate_out u -> in_width 32 local_ipv4_address ->
  packets (ipv4_generate_out u) (map udp_datagram G) /\
  merge_out u = map received_udp_meta (List.filter for_listener G) /\
  packets (udp_rshift_out u) (map um_payload (List.filter for_listener G)).
Proof.
  intros HG Hm Hd Hl Hw Ha.
  assert (Forall (fun g => udp_message_ok g /\ datagram_of g (udp_datagram g)) G) as Hdg.
  { eapply Forall_impl; [|exact HG]. intros g Hg. split; [done|by apply udp_datagram_of]. }
  assert (packets (ipv4_generate_out u) (map udp_datagram G)) as Hout by by apply run_generate_ipv4.
  assert (packets (arrivals (u_ip u)) (map udp_datagram G)) as Hin by by rewrite Hw.
  split; [done|]. split; [by apply (run_merge u G udp_datagram)|by apply (run_udp_data u G udp_datagram)].
Qed.
End UdpPath.

(** C40: no answer finds its way back.  On whatever schedule the metadata of received
    messages are put together: an answer to the address that comes with a message is
    sent to address 0, for the 32 bits of the address are the lower ones when it is
    received, and [ipv4Meta] takes the upper ones when it is sent. *)
Theorem udp_answers_misaddressed s m answer :
  Forall (fun i => in_width 32 (i4_their_address i)) (merge_ips_in (arrivals s)) ->
  In m (output merge_rx_meta merge_arrive s (mkMergeRxEnv [] [])) ->
  iu_their_address answer = iu_their_address m ->
  Forall (fun i => i4_their_address i = 0) (split_ips (split_tx_meta [answer]).2) /\
  length (split_ips (split_tx_meta [answer]).2) = 1%nat.
Proof.
  intros Hw Hm Ha. rewrite output_drained, merge_arrivals in Hm. cbn [app] in Hm. rewrite merge_metas in Hm.
  apply in_map_iff in Hm as ([i w] & <- & Hin). apply filter_In in Hin as [Hin _]. apply in_combine_l in Hin.
  apply (proj1 (List.Forall_forall _ _) Hw) in Hin. cbn in Ha, Hin.
  split; [|done]. repeat constructor. cbn. rewrite Ha. unfold bits, in_width in *.
  rewrite Z.div_small by (change (2 ^ 96) with (2 ^ 32 * 2 ^ 64); lia). done.
Qed.

(** ** Three messages, the second to a port on which nobody listens *)
Section UdpWitness.
Definition udp_width : WordWidth := 64%nat.
#[local] Existing Instance udp_width.

Definition demo_udp_garbage : list Z := replicate 64 171.
Definition demo_udp_address : Z := 16777226.
Definition demo_udp_messages : list udp_message :=
  [mkUdpMessage (mkIpUdpMeta (33554442 * 2 ^ 96) 5001 32768 70) (seqZ 1 70);
   mkUdpMessage (mkIpUdpMeta (33554442 * 2 ^ 96) 9 32769 1) [5];
   mkUdpMessage (mkIpUdpMeta (33554442 * 2 ^ 96) 5001 32768 3) [7; 8; 9]].

(** Every process runs when all its input has arrived; [wire] makes of the words that
    leave those that reach the other side. *)
Definition udp_ip_words (generate : list (option (gh_arrival ipv4Meta))) : list net_axis :=
  snd (calls (ipv4_generate_ipv4 demo_udp_garbage demo_udp_address UDP_PROTOCOL) 20
    (arrive_all gh_arrive (arrivals generate) (ipv4_generate_init 0))).

Definition udp_run_of (wire : list net_axis -> list net_axis) (G : list udp_message) : udp_run :=
  let metas := map um_meta G in
  let lshift := map Some (words_of (map um_payload G)) in
  let generate := map (fun m => Some (A_ghMeta (tx_udp_meta m))) metas
    ++ map (fun w => Some (A_ghData w)) (output (udp_lshiftWordByOctet 8) lshift_arrive lshift lshift_init) in
  let ip_lshift := map Some (snd (calls (generate_udp demo_udp_garbage) 20
    (arrive_all gh_arrive (arrivals generate) (generate_udp_init 0)))) in
  let ip_generate := map (fun m => Some (A_ghMeta (tx_ip_meta m))) metas
    ++ map (fun w => Some (A_ghData w)) (output (ipv4_lshiftWordByOctet 20) lshift_arrive ip_lshift lshift_init) in
  let ip := map Some (wire (udp_ip_words ip_generate)) in
  let out := output process_ipv4 process_ipv4_arrive ip (process_ipv4_init 0) in
  let drop := map (fun n => Some (A_dropLength n)) (u4_lengths out) ++ map (fun w => Some (A_ipData w)) (u4_words out) in
  let udp := map Some (output ipv4_drop_optional_ip_header doh_arrive drop doh_init) in
  let out2 := output (process_udp 5001) process_udp_arrive udp (process_udp_init 0) in
  mkUdpRun (map Some metas) lshift generate ip_lshift ip_generate ip drop udp (map Some (urx_words out2))
    (map (fun m => Some (A_rxUdpMeta m)) (urx_metas out2) ++ map (fun m => Some (A_rxIpMeta m)) (u4_metas out)).

Definition demo_udp_run : udp_run := udp_run_of id demo_udp_messages.

Lemma demo_udp_linked : udp_ipv4_linked eq_refl demo_udp_garbage 0 5001 demo_udp_run.
Proof. constructor; [constructor|constructor|..]; by vm_compute. Qed.

Lemma demo_udp_messages_ok : Forall udp_message_ok demo_udp_messages.
Proof.
  repeat (constructor; [constructor; [apply (bool_decide_eq_true_1 _); by vm_compute|done|by vm_compute|by vm_compute]|]).
  constructor.
Qed.

Lemma udp_loopback_witness :
  merge_out demo_udp_run = [mkIpUdpMeta 16777226 32768 5001 78; mkIpUdpMeta 16777226 32768 5001 11] /\
  packets (udp_rshift_out demo_udp_run) [seqZ 1 70; [7; 8; 9]].
Proof.
  destruct (udp_loopback eq_refl demo_udp_garbage 0 demo_udp_address 5001 demo_udp_run demo_udp_messages demo_udp_messages_ok) as (_ & H2 & H3).
  - by vm_compute.
  - replace (arrivals _) with (words_of (map um_payload demo_udp_messages)) by by vm_compute.
    apply words_of_packets; [by apply Nat.ltb_lt|by repeat (constructor; [done|])].
  - exact demo_udp_linked.
  - by vm_compute.
  - by vm_compute.
  - split; [exact H2|exact H3].
Defined.

(** The answer to the first of them. *)
Lemma udp_answers_misaddressed_witness :
  let answer := mkIpUdpMeta 16777226 32768 5001 4 in
  In (mkIpUdpMeta 16777226 32768 5001 78) (merge_out demo_udp_run) /\
  split_ips (split_tx_meta [answer]).2 = [mkIpv4Meta 0 12] /\
  Forall (fun i => i4_their_address i = 0) (split_ips (split_tx_meta [answer]).2).
Proof.
  assert (In (mkIpUdpMeta 16777226 32768 5001 78) (merge_out demo_udp_run)) as Hin by (vm_compute; by left).
  split; [exact Hin|]. split; [by vm_compute|].
  refine (proj1 (udp_answers_misaddressed (u_merge demo_udp_run) _ (mkIpUdpMeta 16777226 32768 5001 4) _ Hin eq_refl)).
  apply (bool_decide_eq_true_1 _). by vm_compute.
Defined.
End UdpWitness.
