(* ===== verification/UdpWire.v ===== *)
(** * UDP messages over the wire

    [udp] and [ipv4] of UdpPath.v on both sides, with [mac_ip_encode], the padding of
    short frames and [ip_handler] between them: the IP packets whose next hop is known
    and that are sent to the receiver reach it whole, and with them the messages. *)

From S2P Require Import Prelude Streams Words Shifters ToeTypes Checksum Headers RxEngine RxDatapath.
From S2P Require Import RxFrontend RxPath TxEngine TxDatapath TxBackend EthDatapath MacEncode IpHandler IpPath WirePath Udp UdpPath.

(** ** A packet whose header checksum is put in place *)
Section WithChecksum.
Variable d : list Z.
Hypothesis Hd : ip_ok d.

Lemma with_ip_checksum_front m k : (m + k <= 10)%nat -> field m k (with_ip_checksum d) = field m k d.
Proof.
  pose proof (io_length d Hd). pose proof (io_ihl d Hd). intros H10. unfold with_ip_checksum, put.
  rewrite field_app_l by (rewrite length_take; lia). rewrite <- (take_drop 10 d) at 2.
  by rewrite field_app_l by (rewrite length_take; lia).
Qed.

Lemma with_ip_checksum_back n : (12 <= n)%nat -> drop n (with_ip_checksum d) = drop n d.
Proof.
  pose proof (io_length d Hd). pose proof (io_ihl d Hd). intros H12. unfold with_ip_checksum, put.
  rewrite le_bytes_length, app_assoc, drop_app_ge by (rewrite length_app, length_take, le_bytes_length; lia).
  rewrite length_app, length_take, le_bytes_length, drop_drop. f_equal. lia.
Qed.

Lemma with_ip_checksum_byte m : (m < 10)%nat -> byte_at m (with_ip_checksum d) = byte_at m d.
Proof.
  pose proof (io_length d Hd). pose proof (io_ihl d Hd). intros H10. unfold byte_at, with_ip_checksum.
  by rewrite put_lookup_lt by lia.
Qed.
End WithChecksum.

(** ** The link: from the IP packets of one side to those of the other *)
Section Link.
Context {WW : WordWidth}.
Hypothesis lanes64 : lanes = 64%nat.
Variables (garbage : list Z) (header0 senderMac regSubNetMask regDefaultGateway receiverIp : Z).

Record link_run := mkLinkRun { n_mac : mac_run; n_padding : list (option net_axis); n_ip : ip_run }.
Definition link_padding_out (n : link_run) := output ethernet_frame_padding_512 padding_arrive (n_padding n) padding_init.

Record link_linked (n : link_run) : Prop := {
  nl_mac : mac_linked header0 senderMac regSubNetMask regDefaultGateway (n_mac n);
  nl_frames : arrivals (n_padding n) = ieh_out garbage header0 (n_mac n);
  nl_padded : arrivals (i_detect (n_ip n)) = link_padding_out n;
  nl_ip : ip_linked header0 receiverIp (n_ip n)
}.

(** An IP packet that says how long it is. *)
Definition ip_sized (d : list Z) : Prop := ip_ok d /\ ip_total_length d = Z.of_nat (length d).

Definition reaches (d : list Z) (r : arpTableReply) : bool := ar_hit r && for_us receiverIp (ip_dst d).

(** The packets of a protocol that [ip_handler] finds in the frames. *)
Lemma link_protocol q D R :
  Forall ip_sized D ->
  of_protocol receiverIp q (map padded (mac_frames senderMac D R))
  = map (fun x => with_ip_checksum x.1) (List.filter (fun x => reaches x.1 x.2 && (ip_protocol x.1 =? q)) (zip D R)).
Proof.
  intros HD. unfold of_protocol, of_type, mac_frames. rewrite map_map.
  rewrite (filter_all (fun f => eth_type f =? IPv4)) by (by apply Forall_map, Forall_true).
  rewrite map_map. revert R. induction HD as [|d D [Hok Ht] _ IH]; intros [|r R]; try done.
  unfold resolved, reaches in *. cbn [map zip zip_with List.filter snd fst]. specialize (IH R).
  destruct (ar_hit r); [|exact IH]. cbn [map List.filter andb fst snd].
  assert (ip_ok (with_ip_checksum d)) as Hc by by apply with_ip_checksum_ok.
  rewrite padded_frame_packet. unfold ours at 1.
  rewrite on_wire_valid, on_wire_dst, on_wire_protocol, with_ip_checksum_valid, with_ip_checksum_dst by done.
  assert (ip_protocol (with_ip_checksum d) = ip_protocol d) as -> by (by apply with_ip_checksum_byte; [|lia]).
  cbn [andb]. destruct (_ && _); [|exact IH]. cbn [map fst]. rewrite cut_on_wire; [by rewrite IH|done|].
  rewrite with_ip_checksum_length, <- Ht by done. unfold ip_total_length. by rewrite with_ip_checksum_front by (done || lia).
Qed.

Lemma link_frames_ok D R : Forall ip_sized D -> Forall frame_ok (map padded (mac_frames senderMac D R)).
Proof.
  intros HD. unfold mac_frames. rewrite map_map. apply Forall_map. unfold resolved. apply Forall_filter.
  revert R. induction HD as [|d D [Hok Ht] _ IH]; intros [|r R]; constructor; [|apply IH].
  cbn [fst snd]. apply padded_frame_ok; [by apply with_ip_checksum_ok|].
  rewrite with_ip_checksum_length, <- Ht by done. unfold ip_total_length. by rewrite with_ip_checksum_front by (done || lia).
Qed.

Lemma link_udp n D :
  Forall ip_sized D -> packets (arrivals (m_extract (n_mac n))) D -> link_linked n ->
  packets (out0_words (duplicate_out (n_ip n)))
    (map (fun x => with_ip_checksum x.1)
       (List.filter (fun x => reaches x.1 x.2 && (ip_protocol x.1 =? UDP)) (zip D (mac_replies (n_mac n))))).
Proof.
  intros HD Hin Hl. set (R := mac_replies (n_mac n)).
  assert (packets (ieh_out garbage header0 (n_mac n)) (mac_frames senderMac D R)) as Hieh.
  { apply (run_ieh lanes64 garbage header0 senderMac regSubNetMask regDefaultGateway); [|done|apply (nl_mac n Hl)].
    eapply Forall_impl; [|exact HD]. by intros d [Hok _]. }
  assert (packets (arrivals (i_detect (n_ip n))) (map padded (mac_frames senderMac D R))) as Hdet.
  { rewrite (nl_padded n Hl). unfold link_padding_out. rewrite output_drained. unfold padding_init.
    rewrite padding_arrivals. cbn [app]. rewrite (nl_frames n Hl). by apply padding_packets. }
  rewrite (proj1 (run_duplicate header0 receiverIp (n_ip n) (nl_ip n Hl))), <- link_protocol by done.
  by apply (run_dip lanes64 header0 receiverIp (n_ip n) _ (link_frames_ok D R HD) Hdet (nl_ip n Hl)).
Qed.
End Link.

(** ** Messages over the link *)
Section UdpWire.
Context {WW : WordWidth}.
Hypothesis lanes64 : lanes = 64%nat.
Variable garbage : list Z.
Variables (header0 senderMac regSubNetMask regDefaultGateway receiverIp local_ipv4_address listenPort : Z).

(** The application gives the length of the data, which fit an IP packet. *)
Definition udp_sized (g : udp_message) : Prop :=
  iu_length (um_meta g) = Z.of_nat (length (um_payload g)) /\ Z.of_nat (length (um_payload g)) <= 65507.

Definition destination (g : udp_message) : Z := bits 127 96 (iu_their_address (um_meta g)).
Definition udp_delivered (G : list udp_message) (R : list arpTableReply) : list udp_message :=
  map fst (List.filter (fun x => ar_hit x.2 && for_us receiverIp (destination x.1)) (zip G R)).

Section Message.
Variable g : udp_message.
Hypotheses (Hg : udp_message_ok g) (Hs : udp_sized g).
Let d := udp_datagram header0 local_ipv4_address g.

Lemma udp_datagram_ip_sized : ip_sized d.
Proof.
  destruct Hs as [Hlen Hmax].
  assert (length d = (28 + length (um_payload g))%nat) as Hl by done.
  split.
  - constructor; [by apply udp_datagram_bytes|done|]. change (ip_header_length d) with 5. lia.
  - unfold ip_total_length. change (field 2 2 d) with (le_bytes 2 (reverse16 (wrap 16 (i4_length (tx_ip_meta (um_meta g)) + 20)))).
    rewrite be_reverse16 by (apply wrap_range; lia). cbn [tx_ip_meta ipv4Meta_128 i4_length].
    rewrite !wrap_small by (unfold in_width; pow2; lia || rewrite ?wrap_small by (unfold in_width; pow2; lia); lia). lia.
Qed.

Lemma udp_datagram_dst : ip_dst d = destination g.
Proof.
  change (ip_dst d) with (le_val (le_bytes 4 (destination g))). rewrite le_val_bytes. apply wrap_small.
  by apply (bits_range 127 96).
Qed.

Lemma udp_wire_datagram : in_width 32 local_ipv4_address -> datagram_of header0 local_ipv4_address g (with_ip_checksum d).
Proof.
  intros Ha. destruct udp_datagram_ip_sized as [Hok _].
  destruct (udp_datagram_of header0 local_ipv4_address g Hg Ha) as [H1 H2 H3 H4]. constructor.
  - by apply io_bytes, with_ip_checksum_ok.
  - by rewrite with_ip_checksum_byte by (done || lia).
  - by rewrite with_ip_checksum_back by (done || lia).
  - rewrite <- H4. rewrite <- (field_drop 12 0 4), with_ip_checksum_back, field_drop by (done || lia). done.
Qed.
End Message.

Lemma udp_reached G R :
  Forall udp_message_ok G -> Forall udp_sized G ->
  map (fun x => with_ip_checksum x.1)
    (List.filter (fun x => reaches receiverIp x.1 x.2 && (ip_protocol x.1 =? UDP)) (zip (map (udp_datagram header0 local_ipv4_address) G) R))
  = map (fun g => with_ip_checksum (udp_datagram header0 local_ipv4_address g)) (udp_delivered G R).
Proof.
  intros HG HS. unfold udp_delivered. revert R. induction HG as [|g G Hg _ IH]; intros [|r R]; try done.
  apply Forall_cons_1 in HS as [Hs HS]. cbn [map zip zip_with List.filter fst snd]. specialize (IH HS R). unfold reaches at 1.
  rewrite udp_datagram_dst. change (ip_protocol (udp_datagram _ _ g) =? UDP) with true. rewrite andb_true_r.
  destruct (_ && _); [|exact IH]. cbn [map fst]. by rewrite IH.
Qed.

(** C11: UDP over the wire.  For messages whose metadata and data reach one stack on any
    schedule, the packets going through [mac_ip_encode], the padding and [ip_handler] to
    the other, with every process of the two on a schedule of its own: the application
    there receives exactly the messages whose next hop the ARP table knew, whose
    destination is the receiver and whose port is the one it listens on, in order, with
    their data, the address of the sender and the ports exchanged. *)
Theorem udp_wire_loopback u n G :
  Forall udp_message_ok G -> Forall udp_sized G -> arrivals (u_split u) = map um_meta G ->
  packets (arrivals (u_lshift u)) (map um_payload G) -> in_width 32 local_ipv4_address ->
  udp_ipv4_linked lanes64 garbage header0 listenPort u ->
  link_linked garbage header0 senderMac regSubNetMask regDefaultGateway receiverIp n ->
  arrivals (m_extract (n_mac n)) = ipv4_generate_out lanes64 garbage header0 local_ipv4_address u ->
  arrivals (u_ip u) = out0_words (duplicate_out (n_ip n)) ->
  let G' := List.filter (for_listener listenPort) (udp_delivered G (mac_replies (n_mac n))) in
  merge_out u = map (received_udp_meta local_ipv4_address) G' /\
  packets (udp_rshift_out u) (map um_payload G').
Proof.
  intros HG HS Hm Hd Ha Hl Hn Hout Hin G'. set (D := udp_delivered G (mac_replies (n_mac n))) in *.
  pose proof (Forall_and HG HS) as HGS.
  assert (Forall (fun g => udp_message_ok g /\ udp_sized g) D) as HD.
  { unfold D, udp_delivered. apply Forall_map, Forall_filter. clear -HGS. generalize (mac_replies (n_mac n)).
    induction HGS as [|g G Hg _ IH]; intros [|r R]; constructor; [done|apply IH]. }
  assert (packets (arrivals (u_ip u)) (map (fun g => with_ip_checksum (udp_datagram header0 local_ipv4_address g)) D)) as Harr.
  { rewrite Hin. unfold D. rewrite <- udp_reached by done.
    apply (link_udp lanes64 garbage header0 senderMac regSubNetMask regDefaultGateway); [|rewrite Hout|done].
    - apply Forall_map. eapply Forall_impl; [|exact HGS]. intros g [Hg Hs]. by apply udp_datagram_ip_sized.
    - by apply run_generate_ipv4 with (listenPort := listenPort). }
  set (dg := fun g => with_ip_checksum (udp_datagram header0 local_ipv4_address g)) in *.
  assert (Forall (fun g => udp_message_ok g /\ datagram_of header0 local_ipv4_address g (dg g)) D) as HDd.
  { eapply Forall_impl; [|exact HD]. intros g [Hg Hs]. split; [done|by apply udp_wire_datagram]. }
  split; [by eapply run_merge with (dg := dg)|by eapply run_udp_data with (dg := dg)].
Qed.
End UdpWire.

(** ** The three messages of UdpPath.v and a fourth to another host *)
Section UdpWireWitness.
#[local] Existing Instance udp_width.

Definition demo_link_messages : list udp_message :=
  demo_udp_messages ++ [mkUdpMessage (mkIpUdpMeta (50331658 * 2 ^ 96) 5001 32768 2) [1; 2]].
Definition demo_link_replies : list arpTableReply :=
  [mkArpReply 5 true; mkArpReply 5 true; mkArpReply 5 true; mkArpReply 6 true].

Definition demo_link_of (words : list net_axis) : link_run :=
  let mac := mac_run_of words demo_link_replies in
  let padding := map Some (ieh_out demo_udp_garbage 0 mac) in
  mkLinkRun mac padding (ip_run_of 33554442 (output ethernet_frame_padding_512 padding_arrive padding padding_init)).

Definition demo_link_udp : udp_run :=
  udp_run_of (fun words => out0_words (duplicate_out (n_ip (demo_link_of words)))) demo_link_messages.
Definition demo_link_run : link_run := demo_link_of (udp_ip_words (u_ip_generate demo_link_udp)).

Lemma udp_wire_loopback_witness :
  merge_out demo_link_udp = [mkIpUdpMeta 16777226 32768 5001 78; mkIpUdpMeta 16777226 32768 5001 11] /\
  packets (udp_rshift_out demo_link_udp) [seqZ 1 70; [7; 8; 9]].
Proof.
  destruct (udp_wire_loopback eq_refl demo_udp_garbage 0 demo_mac 16777215 16777226 33554442 demo_udp_address 5001
    demo_link_udp demo_link_run demo_link_messages) as (H1 & H2).
  - apply Forall_app_2; [exact demo_udp_messages_ok|].
    repeat (constructor; [constructor; [apply (bool_decide_eq_true_1 _); by vm_compute|done|by vm_compute|by vm_compute]|]).
    constructor.
  - repeat (constructor; [split; [by vm_compute|by vm_compute]|]). constructor.
  - by vm_compute.
  - replace (arrivals _) with (words_of (map um_payload demo_link_messages)) by by vm_compute.
    apply words_of_packets; [by apply Nat.ltb_lt|by repeat (constructor; [done|])].
  - by vm_compute.
  - constructor; [constructor|constructor|..]; by vm_compute.
  - constructor; [constructor| | |constructor]; by vm_compute.
  - by vm_compute.
  - by vm_compute.
  - assert (List.filter (for_listener 5001) (udp_delivered 33554442 demo_link_messages (mac_replies (n_mac demo_link_run)))
      = [mkUdpMessage (mkIpUdpMeta (33554442 * 2 ^ 96) 5001 32768 70) (seqZ 1 70);
         mkUdpMessage (mkIpUdpMeta (33554442 * 2 ^ 96) 5001 32768 3) [7; 8; 9]]) as E by by vm_compute.
    rewrite E in H1, H2. split; [exact H1|exact H2].
Defined.
End UdpWireWitness.
